(** * Endee web UI: request validation and orchestration

    A shallow embedding of the validation and orchestration logic of the
    dashboard (form parsers, submit handlers, the API client adapter, the
    raw [fetch] call sites and the backup-job polling effect), with the
    properties stated about it in the specification.

    Conventions of the embedding:
    - a JavaScript string is a [string]: a sequence of code units below 256;
    - a JavaScript number that the code only compares with small integer
      constants is the exact integer it denotes ([Z]); a number parsed from
      JSON keeps its literal text;
    - [throw]/[try]/[catch] is the [result] type; [setState] calls are
      record updates of the component state; a network call appends to a
      log in that state and takes its response from a function standing for
      the backend. *)

From Stdlib Require Import String Ascii ZArith Lia DecimalString.
From stdpp Require Import base option list strings gmap.

Local Open Scope Z_scope.

(** ** JavaScript string primitives *)

Module Js.

Definition charCode (c : ascii) : nat := nat_of_ascii c.

(** WhiteSpace and LineTerminator code units (below 256): TAB, LF, VT, FF,
    CR, SP and NBSP. This is the set removed by [String.prototype.trim]
    and skipped by [parseInt]. *)
Definition isWhiteSpace (c : ascii) : bool :=
  let n := charCode c in
  ((9 <=? n)%nat && (n <=? 13)%nat) || (n =? 32)%nat || (n =? 160)%nat.

Fixpoint trimStart (s : string) : string :=
  match s with
  | EmptyString => EmptyString
  | String c r => if isWhiteSpace c then trimStart r else s
  end.

Fixpoint trimEnd (s : string) : string :=
  match s with
  | EmptyString => EmptyString
  | String c r =>
      match trimEnd r with
      | EmptyString => if isWhiteSpace c then EmptyString else String c EmptyString
      | r' => String c r'
      end
  end.

(** [s.trim()] *)
Definition trim (s : string) : string := trimEnd (trimStart s).

(** Truthiness of a string: the empty string is the only falsy one. *)
Definition truthy (s : string) : bool :=
  match s with EmptyString => false | String _ _ => true end.

(** Truthiness of a [string | null | undefined]. *)
Definition truthyOpt (s : option string) : bool :=
  match s with None => false | Some s => truthy s end.

Definition isDigit (c : ascii) : bool :=
  let n := charCode c in (48 <=? n)%nat && (n <=? 57)%nat.

Definition digitValue (c : ascii) : Z := Z.of_nat (charCode c) - 48.

(** Value of a hexadecimal digit, if [c] is one. *)
Definition hexValue (c : ascii) : option Z :=
  let n := charCode c in
  if (48 <=? n)%nat && (n <=? 57)%nat then Some (Z.of_nat n - 48)
  else if (65 <=? n)%nat && (n <=? 70)%nat then Some (Z.of_nat n - 55)
  else if (97 <=? n)%nat && (n <=? 102)%nat then Some (Z.of_nat n - 87)
  else None.

Definition digitIn (radix : Z) (c : ascii) : option Z :=
  match hexValue c with
  | Some v => if v <? radix then Some v else None
  | None => None
  end.

(** The longest prefix of radix-[radix] digits, read most significant
    digit first on top of [acc]; [seen] tells whether a digit was read. *)
Fixpoint readDigits (radix : Z) (s : string) (acc : Z) (seen : bool) : option Z :=
  match s with
  | EmptyString => if seen then Some acc else None
  | String c r =>
      match digitIn radix c with
      | Some v => readDigits radix r (radix * acc + v) true
      | None => if seen then Some acc else None
      end
  end.

(** [parseInt(s)] with no radix argument. [None] is NaN. The result is the
    mathematical integer; its rounding to a double and the sign of zero
    are not represented, neither changes a comparison with an integer
    constant. *)
Definition parseInt (s : string) : option Z :=
  let s1 := trimStart s in
  let '(sign, s2) :=
    match s1 with
    | String c r =>
        if Ascii.eqb c "-" then (-1, r)
        else if Ascii.eqb c "+" then (1, r)
        else (1, s1)
    | EmptyString => (1, s1)
    end in
  let '(radix, s3) :=
    match s2 with
    | String c0 (String cx r) =>
        if Ascii.eqb c0 "0" && (Ascii.eqb cx "x" || Ascii.eqb cx "X")
        then (16, r) else (10, s2)
    | _ => (10, s2)
    end in
  match readDigits radix s3 0 false with
  | Some v => Some (sign * v)
  | None => None
  end.

(** [isNaN(v) || v <= 0] for a parsed integer. *)
Definition notPositive (v : option Z) : bool :=
  match v with None => true | Some n => n <=? 0 end.

(** [String.prototype.toLowerCase] on code units below 256: the Latin
    capital letters A-Z and the Latin-1 capitals (all of 192-222 but the
    multiplication sign 215) move up by 32. *)
Definition lowerChar (c : ascii) : ascii :=
  let n := charCode c in
  if ((65 <=? n)%nat && (n <=? 90)%nat)
     || ((192 <=? n)%nat && (n <=? 222)%nat && negb (n =? 215)%nat)
  then ascii_of_nat (n + 32) else c.

Fixpoint toLowerCase (s : string) : string :=
  match s with
  | EmptyString => EmptyString
  | String c r => String (lowerChar c) (toLowerCase r)
  end.

Fixpoint startsWith (p s : string) : bool :=
  match p, s with
  | EmptyString, _ => true
  | String a p', String b s' => Ascii.eqb a b && startsWith p' s'
  | String _ _, EmptyString => false
  end.

(** [s.includes(sub)] *)
Fixpoint includes (sub s : string) : bool :=
  startsWith sub s ||
  match s with
  | EmptyString => false
  | String _ r => includes sub r
  end.

(** [sub] occurs in [s]. *)
Definition Contains (sub s : string) : Prop :=
  exists pre post, s = pre +:+ sub +:+ post.

(** [s.endsWith(suffix)] *)
Fixpoint endsWith (suffix s : string) : bool :=
  String.eqb suffix s ||
  match s with
  | EmptyString => false
  | String _ r => endsWith suffix r
  end.

(** [s.replace(pattern, replacement)] with a string pattern: the first
    occurrence only. *)
Fixpoint replaceFirst (pattern replacement s : string) : string :=
  if startsWith pattern s
  then replacement +:+ String.substring (String.length pattern) (String.length s) s
  else match s with
       | EmptyString => EmptyString
       | String c r => String c (replaceFirst pattern replacement r)
       end.

(** [s] between double quotes, as the templates of the messages have it. *)
Definition quoted (s : string) : string :=
  String (ascii_of_nat 34) (s +:+ String (ascii_of_nat 34) EmptyString).

(** Decimal rendering of a non-negative integer inside a template
    literal. *)
Definition showNat (n : nat) : string := NilZero.string_of_uint (Nat.to_uint n).

End Js.

(** ** Exceptions *)

(** The outcome of a block that may [throw new Error(message)]. Everything
    thrown by the modelled handlers is an [Error] (a [SyntaxError] of
    [JSON.parse] is one too), so the handler's
    [err instanceof Error ? err.message : fallback] is the message. *)
Inductive result (A : Type) : Type :=
| Ok (a : A)
| Throw (message : string).
Arguments Ok {A} a.
Arguments Throw {A} message.

Definition bind {A B : Type} (r : result A) (k : A -> result B) : result B :=
  match r with
  | Ok a => k a
  | Throw m => Throw m
  end.

Notation "'do' x <- r ; k" := (bind r (fun x => k))
  (at level 10, x name, r at level 100, k at level 200).

(** [if (cond) throw new Error(message)] *)
Definition throwIf (cond : bool) (message : string) : result unit :=
  if cond then Throw message else Ok tt.

(** ** JSON texts (ECMA-404), as read by [JSON.parse] *)

Module Json.

#[warnings="-register-all"] Inductive json : Type :=
| JNull
| JBool (b : bool)
| JNumber (literal : string)       (* the literal text of the number *)
| JString (raw : string)           (* the text between the quotes, escapes kept *)
| JArray (items : list json)
| JObject (members : list (string * json)).

Definition isWs (c : ascii) : bool :=
  let n := Js.charCode c in
  (n =? 32)%nat || (n =? 9)%nat || (n =? 10)%nat || (n =? 13)%nat.

Fixpoint skipWs (s : string) : string :=
  match s with
  | EmptyString => EmptyString
  | String c r => if isWs c then skipWs r else s
  end.

(** Longest prefix of decimal digits, and the rest. *)
Fixpoint scanDigits (s : string) : string * string :=
  match s with
  | EmptyString => (EmptyString, EmptyString)
  | String c r =>
      if Js.isDigit c
      then let '(d, r') := scanDigits r in (String c d, r')
      else (EmptyString, s)
  end.

(** int: a single 0, or a non-zero digit followed by digits. *)
Definition scanInt (s : string) : option (string * string) :=
  match s with
  | EmptyString => None
  | String c r =>
      if Ascii.eqb c "0" then Some (String c EmptyString, r)
      else if Js.isDigit c
      then let '(d, r') := scanDigits r in Some (String c d, r')
      else None
  end.

(** frac: nothing, or a dot followed by at least one digit. *)
Definition scanFrac (s : string) : option (string * string) :=
  match s with
  | String c r =>
      if Ascii.eqb c "."
      then match scanDigits r with
           | (EmptyString, _) => None
           | (d, r') => Some (String c d, r')
           end
      else Some (EmptyString, s)
  | EmptyString => Some (EmptyString, s)
  end.

Definition isExpMark (c : ascii) : bool := Ascii.eqb c "e" || Ascii.eqb c "E".
Definition isSign (c : ascii) : bool := Ascii.eqb c "+" || Ascii.eqb c "-".

(** exp: nothing, or e/E, an optional sign and at least one digit. *)
Definition scanExp (s : string) : option (string * string) :=
  match s with
  | String c r =>
      if isExpMark c
      then
        let '(sg, r1) :=
          match r with
          | String c' r' => if isSign c' then (String c' EmptyString, r') else (EmptyString, r)
          | EmptyString => (EmptyString, r)
          end in
        match scanDigits r1 with
        | (EmptyString, _) => None
        | (d, r2) => Some (String c (sg +:+ d), r2)
        end
      else Some (EmptyString, s)
  | EmptyString => Some (EmptyString, s)
  end.

(** number: an optional minus, int, frac, exp. *)
Definition scanNumber (s : string) : option (string * string) :=
  let '(sg, s1) :=
    match s with
    | String c r => if Ascii.eqb c "-" then (String c EmptyString, r) else (EmptyString, s)
    | EmptyString => (EmptyString, s)
    end in
  match scanInt s1 with
  | None => None
  | Some (ip, s2) =>
      match scanFrac s2 with
      | None => None
      | Some (fp, s3) =>
          match scanExp s3 with
          | None => None
          | Some (ep, s4) => Some (sg +:+ ip +:+ fp +:+ ep, s4)
          end
      end
  end.

Definition isHex (c : ascii) : bool :=
  match Js.hexValue c with Some _ => true | None => false end.

Definition isEscape (c : ascii) : bool :=
  let n := Js.charCode c in
  (n =? 34)%nat || (n =? 92)%nat || (n =? 47)%nat || (n =? 98)%nat
  || (n =? 102)%nat || (n =? 110)%nat || (n =? 114)%nat || (n =? 116)%nat.

(** The characters of a string after its opening quote, up to the closing
    quote: no control character, a backslash starts one of the escapes. *)
Fixpoint scanString (s : string) : option (string * string) :=
  match s with
  | EmptyString => None
  | String c r =>
      if (Js.charCode c =? 34)%nat then Some (EmptyString, r)
      else if (Js.charCode c <? 32)%nat then None
      else if (Js.charCode c =? 92)%nat then
        match r with
        | String e r1 =>
            if isEscape e then
              match scanString r1 with
              | Some (t, r') => Some (String c (String e t), r')
              | None => None
              end
            else if Ascii.eqb e "u" then
              match r1 with
              | String h1 (String h2 (String h3 (String h4 r2))) =>
                  if isHex h1 && isHex h2 && isHex h3 && isHex h4 then
                    match scanString r2 with
                    | Some (t, r') =>
                        Some (String c (String e (String h1 (String h2 (String h3 (String h4 t))))), r')
                    | None => None
                    end
                  else None
              | _ => None
              end
            else None
        | EmptyString => None
        end
      else
        match scanString r with
        | Some (t, r') => Some (String c t, r')
        | None => None
        end
  end.

(** [stripPrefix p s]: the rest of [s] after the literal [p]. *)
Fixpoint stripPrefix (p s : string) : option string :=
  match p, s with
  | EmptyString, _ => Some s
  | String a p', String b s' => if Ascii.eqb a b then stripPrefix p' s' else None
  | String _ _, EmptyString => None
  end.

Definition scanLiteral (s : string) : option (json * string) :=
  match stripPrefix "true" s with
  | Some r => Some (JBool true, r)
  | None =>
      match stripPrefix "false" s with
      | Some r => Some (JBool false, r)
      | None =>
          match stripPrefix "null" s with
          | Some r => Some (JNull, r)
          | None => None
          end
      end
  end.

(** Recursive descent over the grammar. Each call of [parseValue],
    [parseElements] (the elements of an array after its bracket, up to the
    closing bracket) and [parseMembers] (likewise for an object) spends
    one unit of [fuel]; for a text of [n] characters, [2 * n + 1] is
    enough and more changes nothing (lemma [parse_fuel_enough]). *)
Fixpoint parseValue (fuel : nat) (s : string) : option (json * string) :=
  match fuel with
  | O => None
  | S fuel =>
      match skipWs s with
      | EmptyString => None
      | String c r =>
          if Ascii.eqb c "[" then
            match skipWs r with
            | String c' r' =>
                if Ascii.eqb c' "]" then Some (JArray [], r')
                else match parseElements fuel r with
                     | Some (vs, r'') => Some (JArray vs, r'')
                     | None => None
                     end
            | EmptyString => None
            end
          else if Ascii.eqb c "{" then
            match skipWs r with
            | String c' r' =>
                if Ascii.eqb c' "}" then Some (JObject [], r')
                else match parseMembers fuel r with
                     | Some (ms, r'') => Some (JObject ms, r'')
                     | None => None
                     end
            | EmptyString => None
            end
          else if (Js.charCode c =? 34)%nat then
            match scanString r with
            | Some (t, r') => Some (JString t, r')
            | None => None
            end
          else if Ascii.eqb c "-" || Js.isDigit c then
            match scanNumber (String c r) with
            | Some (lit, r') => Some (JNumber lit, r')
            | None => None
            end
          else scanLiteral (String c r)
      end
  end
with parseElements (fuel : nat) (s : string) : option (list json * string) :=
  match fuel with
  | O => None
  | S fuel =>
      match parseValue fuel s with
      | None => None
      | Some (v, r) =>
          match skipWs r with
          | String c r' =>
              if Ascii.eqb c "," then
                match parseElements fuel r' with
                | Some (vs, r'') => Some (v :: vs, r'')
                | None => None
                end
              else if Ascii.eqb c "]" then Some ([v], r')
              else None
          | EmptyString => None
          end
      end
  end
with parseMembers (fuel : nat) (s : string) : option (list (string * json) * string) :=
  match fuel with
  | O => None
  | S fuel =>
      match skipWs s with
      | String q r =>
          if (Js.charCode q =? 34)%nat then
            match scanString r with
            | None => None
            | Some (key, r1) =>
                match skipWs r1 with
                | String colon r2 =>
                    if Ascii.eqb colon ":" then
                      match parseValue fuel r2 with
                      | None => None
                      | Some (v, r3) =>
                          match skipWs r3 with
                          | String c r4 =>
                              if Ascii.eqb c "," then
                                match parseMembers fuel r4 with
                                | Some (ms, r5) => Some ((key, v) :: ms, r5)
                                | None => None
                                end
                              else if Ascii.eqb c "}" then Some ([(key, v)], r4)
                              else None
                          | EmptyString => None
                          end
                      end
                    else None
                | EmptyString => None
                end
            end
          else None
      | EmptyString => None
      end
  end.

(** [JSON.parse(text)] without a reviver: the value, or [None] where the
    host throws a [SyntaxError]. *)
Definition parse (text : string) : option json :=
  match parseValue (S (2 * String.length text)) text with
  | Some (v, r) =>
      match skipWs r with
      | EmptyString => Some v
      | String _ _ => None
      end
  | None => None
  end.

(** [Array.isArray(v)] *)
Definition isArray (v : json) : bool :=
  match v with JArray _ => true | _ => false end.

(** [v.length] of an array. A bracketed text only parses to an array
    (lemma [parse_bracketed_array]); other values never reach it. *)
Definition arrayLength (v : json) : nat :=
  match v with JArray items => length items | _ => O end.

(** *** The number grammar of ECMA-404 and comma-separated numeric texts

    These describe texts, not the parser: a number literal is an optional
    minus, an integer part, an optional fraction and an optional exponent;
    a numeric token is a literal between JSON white space. *)

Fixpoint allDigits (s : string) : bool :=
  match s with
  | EmptyString => true
  | String c r => Js.isDigit c && allDigits r
  end.

Fixpoint allWs (s : string) : bool :=
  match s with
  | EmptyString => true
  | String c r => isWs c && allWs r
  end.

Inductive IntPart : string -> Prop :=
| int_zero : IntPart "0"
| int_digits (c : ascii) (ds : string) :
    Js.isDigit c = true -> c <> "0"%char -> allDigits ds = true ->
    IntPart (String c ds).

Inductive FracPart : string -> Prop :=
| frac_none : FracPart EmptyString
| frac_some (c : ascii) (ds : string) :
    allDigits (String c ds) = true -> FracPart (String "." (String c ds)).

Inductive ExpPart : string -> Prop :=
| exp_none : ExpPart EmptyString
| exp_some (e : ascii) (sg : string) (c : ascii) (ds : string) :
    isExpMark e = true ->
    sg = EmptyString \/ sg = "+" \/ sg = "-" ->
    allDigits (String c ds) = true ->
    ExpPart (String e (sg +:+ String c ds)).

Inductive NumberLiteral : string -> Prop :=
| number_literal (sg ip fp ep : string) :
    sg = EmptyString \/ sg = "-" ->
    IntPart ip -> FracPart fp -> ExpPart ep ->
    NumberLiteral (sg +:+ ip +:+ fp +:+ ep).

Inductive NumericToken : string -> Prop :=
| numeric_token (w1 lit w2 : string) :
    allWs w1 = true -> NumberLiteral lit -> allWs w2 = true ->
    NumericToken (w1 +:+ lit +:+ w2).

(** The tokens written one after the other with a comma between them. *)
Fixpoint joinCommas (tokens : list string) : string :=
  match tokens with
  | [] => EmptyString
  | [t] => t
  | t :: rest => t +:+ "," +:+ joinCommas rest
  end.

(** [`[${text}]`] *)
Definition bracketed (text : string) : string := "[" +:+ text +:+ "]".

Definition isNumber (v : json) : bool :=
  match v with JNumber _ => true | _ => false end.

(** The first character of a number: a minus or a digit. *)
Definition startsNumber (c : ascii) : bool := Ascii.eqb c "-" || Js.isDigit c.

(** [headIs P s]: [s] is empty or its first character satisfies [P]. *)
Definition headIs (P : ascii -> Prop) (s : string) : Prop :=
  match s with
  | EmptyString => True
  | String c _ => P c
  end.

(** What may follow a number literal without being read as part of it. *)
Definition delimited (rest : string) : Prop :=
  headIs (fun c => Js.isDigit c = false /\ Ascii.eqb c "." = false
                   /\ isExpMark c = false) rest.

End Json.


(** ** Authentication context (context/AuthContext.tsx) *)

Module AuthContext.

(** State of [AuthProvider], with the entry of the browser's local storage
    under [AUTH_TOKEN_KEY]. *)
Record State : Type := mkState {
  token : option string;
  showAuthModal : bool;
  storedToken : option string;
}.

(** The effect on [token]: a truthy token is stored, otherwise the entry is
    removed. It runs after every update of the token. *)
Definition tokenEffect (s : State) : State :=
  mkState (token s) (showAuthModal s)
          (if Js.truthyOpt (token s) then token s else None).

Definition setTokenState (t : option string) (s : State) : State :=
  tokenEffect (mkState t (showAuthModal s) (storedToken s)).

Definition setShowAuthModal (b : bool) (s : State) : State :=
  mkState (token s) b (storedToken s).

Definition isAuthenticated (s : State) : bool :=
  match token s with
  | Some t => Js.truthy (Js.trim t)
  | None => false
  end.

Definition setToken (newToken : option string) (s : State) : State :=
  let s := setTokenState newToken s in
  if Js.truthyOpt newToken then setShowAuthModal false s else s.

Definition clearToken (s : State) : State := setTokenState None s.
Definition openAuthModal (s : State) : State := setShowAuthModal true s.
Definition closeAuthModal (s : State) : State := setShowAuthModal false s.

Definition handleUnauthorized (s : State) : State :=
  setShowAuthModal true (setTokenState None s).

End AuthContext.

(** ** The external client library and the API client adapter (api/client.ts) *)

Module Client.

(** A value caught by [catch (error)]: an [Error] with its message, or
    anything else. *)
Inductive thrown : Type :=
| ErrorObject (message : string)
| OtherValue.

(** Outcome of awaiting a call of the external client. *)
Inductive outcome (A : Type) : Type :=
| Returned (a : A)
| Raised (e : thrown).
Arguments Returned {A} a.
Arguments Raised {A} e.

Inductive Precision : Type := BINARY | INT8D | INT16D | FLOAT16 | FLOAT32.

(** [VectorItem] of the client library. *)
Record VectorItem : Type := mkVectorItem {
  id : string;
  vector : Json.json;
  sparseIndices : option Json.json;
  sparseValues : option Json.json;
  meta : option Json.json;
  filter : option Json.json;
}.

Record QueryOptions : Type := mkQueryOptions {
  q_vector : Json.json;
  topK : Z;
  q_ef : option Z;
  q_filter : option Json.json;
  includeVectors : option bool;
  q_sparseIndices : option Json.json;
  q_sparseValues : option Json.json;
}.

Record CreateIndexOptions : Type := mkCreateIndexOptions {
  name : string;
  dimension : Z;
  spaceType : string;
  precision : option Precision;
  sparseDimension : option Z;
  M : option Z;
  efCon : option Z;
}.

(** An item of the list the backend answers, and the item the adapter
    makes of it. *)
Record RawIndexListItem : Type := mkRawIndexListItem {
  raw_name : string;
  raw_M : Z;
  raw_total_elements : Z;
  raw_space_type : string;
  raw_precision : string;
  raw_created_at : Z;
  raw_dimension : Z;
  raw_sparse_dim : option Z;
}.

Record Index : Type := mkIndex {
  i_name : string;
  i_M : Z;
  total_elements : Z;
  space_type : string;
  i_precision : string;
  created_at : Z;
  i_dimension : Z;
  sparse_dim : Z;
}.

Definition isHybridIndex (index : Index) : bool := 0 <? sparse_dim index.

(** The calls the adapter makes on the client, in the order made. *)
Inductive call : Type :=
| ListIndexes
| GetIndex (indexName : string)
| Upsert (indexName : string) (vectors : list VectorItem)
| Query (indexName : string) (options : QueryOptions)
| CreateIndex (options : CreateIndexOptions)
| DeleteIndex (indexName : string)
| GetVector (indexName : string) (vectorId : string)
| DeleteVector (indexName : string) (vectorId : string)
| DeleteWithFilter (indexName : string) (filter : Json.json).

Section Endee.

(** Types of what the backend answers: the search results and the reply of
    an upsert. The adapter passes the first through and drops the second. *)
Variables QueryResult UpsertReply : Type.

(** The client library and the service behind it: what each call answers.
    An index handle is the name it was obtained for. [listIndexes] answers
    the [indexes] member of the response, if it has one; [getVector] a
    vector or nothing; [deleteWithFilter] a number or something else;
    [describe] does not go to the network. *)
Record Endee : Type := mkEndee {
  listIndexes : outcome (option (list RawIndexListItem));
  getIndex : string -> outcome string;
  describe : string -> Json.json;
  upsert : string -> list VectorItem -> outcome UpsertReply;
  query : string -> QueryOptions -> outcome (list QueryResult);
  createIndex : CreateIndexOptions -> outcome unit;
  deleteIndex : string -> outcome unit;
  getVector : string -> string -> outcome (option Json.json);
  deleteVector : string -> string -> outcome unit;
  deleteWithFilter : string -> Json.json -> outcome (option Z);
}.

(** Module state of the adapter ([onUnauthorized]), the authentication
    context its callback acts on, and the log of client calls. *)
Record World : Type := mkWorld {
  onUnauthorized : option (AuthContext.State -> AuthContext.State);
  auth : AuthContext.State;
  calls : list call;
}.

Definition logCall (c : call) (w : World) : World :=
  mkWorld (onUnauthorized w) (auth w) (calls w ++ [c]).

Definition setOnUnauthorized
    (callback : option (AuthContext.State -> AuthContext.State)) (w : World) : World :=
  mkWorld callback (auth w) (calls w).

Record ApiResponse (T : Type) : Type := mkApiResponse {
  success : bool;
  data : option T;
  error : option string;
}.
Arguments mkApiResponse {T} success data error.
Arguments success {T} _.
Arguments data {T} _.
Arguments error {T} _.

Definition isUnauthorizedError (e : thrown) : bool :=
  match e with
  | ErrorObject msg =>
      let message := Js.toLowerCase msg in
      Js.includes "401" message || Js.includes "invalid token" message
  | OtherValue => false
  end.

Definition handleApiError {T : Type} (e : thrown) (w : World) : ApiResponse T * World :=
  let w' :=
    if isUnauthorizedError e then
      match onUnauthorized w with
      | Some callback => mkWorld (onUnauthorized w) (callback (auth w)) (calls w)
      | None => w
      end
    else w in
  (mkApiResponse false None
     (Some (match e with ErrorObject msg => msg | OtherValue => "Unknown error" end)),
   w').

Definition mapPrecision (precision : string) : Precision :=
  let p := Js.toLowerCase precision in
  if String.eqb p "binary" then BINARY
  else if String.eqb p "int8d" then INT8D
  else if String.eqb p "int16d" then INT16D
  else if String.eqb p "float16" then FLOAT16
  else if String.eqb p "float32" then FLOAT32
  else FLOAT16.

Definition formatSpaceType (space_type : string) : string :=
  if String.eqb space_type "cosine" then "Cosine"
  else if String.eqb space_type "l2" then "Euclidean"
  else if String.eqb space_type "ip" then "Inner Product"
  else "Unknown".

Definition health (client : Endee) (w : World) : ApiResponse string * World :=
  let w1 := logCall ListIndexes w in
  match listIndexes client with
  | Returned _ => (mkApiResponse true (Some "ok") None, w1)
  | Raised e => handleApiError e w1
  end.

Definition apiListIndexes (client : Endee) (w : World) : ApiResponse (list Index) * World :=
  let w1 := logCall ListIndexes w in
  match listIndexes client with
  | Returned response =>
      let rawIndexes := match response with Some l => l | None => [] end in
      let mappedIndexes :=
        List.map
          (fun idx =>
             mkIndex (raw_name idx) (raw_M idx) (raw_total_elements idx)
               (formatSpaceType (raw_space_type idx)) (raw_precision idx)
               (raw_created_at idx) (raw_dimension idx)
               (match raw_sparse_dim idx with Some d => d | None => 0 end))
          rawIndexes in
      (mkApiResponse true (Some mappedIndexes) None, w1)
  | Raised e => handleApiError e w1
  end.

Definition getIndexInfo (client : Endee) (indexName : string) (w : World)
  : ApiResponse Json.json * World :=
  let w1 := logCall (GetIndex indexName) w in
  match getIndex client indexName with
  | Returned index => (mkApiResponse true (Some (describe client index)) None, w1)
  | Raised e => handleApiError e w1
  end.

(** Options of [api.createIndex]. *)
Record CreateOptions : Type := mkCreateOptions {
  o_precision : option string;
  o_sparse_dim : option Z;
  o_M : option Z;
  o_ef_con : option Z;
}.

(** A number used as a condition: present and not zero. *)
Definition truthyNum (n : option Z) : bool :=
  match n with Some v => negb (v =? 0) | None => false end.

Record Message : Type := mkMessage { m_success : bool; message : string }.

Definition apiCreateIndex (client : Endee) (indexName : string) (dimension : Z)
    (spaceType : string) (options : CreateOptions) (w : World)
  : ApiResponse Message * World :=
  let createOptions :=
    mkCreateIndexOptions indexName dimension spaceType
      (if Js.truthyOpt (o_precision options)
       then option_map mapPrecision (o_precision options) else None)
      (match o_sparse_dim options with
       | Some d => if negb (d =? 0) && (0 <? d) then Some d else None
       | None => None
       end)
      (if truthyNum (o_M options) then o_M options else None)
      (if truthyNum (o_ef_con options) then o_ef_con options else None) in
  let w1 := logCall (CreateIndex createOptions) w in
  match createIndex client createOptions with
  | Returned _ =>
      (mkApiResponse true (Some (mkMessage true "Index created successfully")) None, w1)
  | Raised e => handleApiError e w1
  end.

Definition apiDeleteIndex (client : Endee) (indexName : string) (w : World)
  : ApiResponse Message * World :=
  let w1 := logCall (DeleteIndex indexName) w in
  match deleteIndex client indexName with
  | Returned _ =>
      (mkApiResponse true (Some (mkMessage true "Index deleted successfully")) None, w1)
  | Raised e => handleApiError e w1
  end.

Record Inserted : Type := mkInserted { i_success : bool; inserted : nat }.

Definition insertVectors (client : Endee) (indexName : string)
    (vectors : list VectorItem) (w : World) : ApiResponse Inserted * World :=
  let w1 := logCall (GetIndex indexName) w in
  match getIndex client indexName with
  | Raised e => handleApiError e w1
  | Returned index =>
      let w2 := logCall (Upsert index vectors) w1 in
      match upsert client index vectors with
      | Raised e => handleApiError e w2
      | Returned _ =>
          (mkApiResponse true (Some (mkInserted true (length vectors))) None, w2)
      end
  end.

Definition deleteVectorById (client : Endee) (indexName vectorId : string) (w : World)
  : ApiResponse Message * World :=
  let w1 := logCall (GetIndex indexName) w in
  match getIndex client indexName with
  | Raised e => handleApiError e w1
  | Returned index =>
      let w2 := logCall (DeleteVector index vectorId) w1 in
      match deleteVector client index vectorId with
      | Raised e => handleApiError e w2
      | Returned _ =>
          (mkApiResponse true (Some (mkMessage true "Vector deleted successfully")) None, w2)
      end
  end.

(** [api.getVector] with [request.id]. *)
Definition apiGetVector (client : Endee) (indexName : string) (requestId : option string)
    (w : World) : ApiResponse Json.json * World :=
  let w1 := logCall (GetIndex indexName) w in
  match getIndex client indexName with
  | Raised e => handleApiError e w1
  | Returned index =>
      match requestId with
      | Some vectorId =>
          if Js.truthy vectorId then
            let w2 := logCall (GetVector index vectorId) w1 in
            match getVector client index vectorId with
            | Raised e => handleApiError e w2
            | Returned None => handleApiError (ErrorObject "Vector not found") w2
            | Returned (Some result) => (mkApiResponse true (Some result) None, w2)
            end
          else handleApiError (ErrorObject "Either id or filter must be provided") w1
      | None => handleApiError (ErrorObject "Either id or filter must be provided") w1
      end
  end.

Record Deleted : Type := mkDeleted { d_success : bool; deleted : Z }.

Definition deleteVectorsByFilter (client : Endee) (indexName : string)
    (filter : Json.json) (w : World) : ApiResponse Deleted * World :=
  let w1 := logCall (GetIndex indexName) w in
  match getIndex client indexName with
  | Raised e => handleApiError e w1
  | Returned index =>
      let w2 := logCall (DeleteWithFilter index filter) w1 in
      match deleteWithFilter client index filter with
      | Raised e => handleApiError e w2
      | Returned result =>
          (mkApiResponse true
             (Some (mkDeleted true (match result with Some n => n | None => 0 end)))
             None, w2)
      end
  end.

(** [SearchRequest] of the adapter. *)
Record SearchRequest : Type := mkSearchRequest {
  r_vector : Json.json;
  k : Z;
  ef : option Z;
  r_filter : option string;
  include_vectors : option bool;
  sparse_indices : option Json.json;
  sparse_values : option Json.json;
}.

Definition searchVectors (client : Endee) (indexName : string)
    (request : SearchRequest) (w : World) : ApiResponse (list QueryResult) * World :=
  let w1 := logCall (GetIndex indexName) w in
  match getIndex client indexName with
  | Raised e => handleApiError e w1
  | Returned index =>
      let queryOptions :=
        mkQueryOptions (r_vector request) (k request)
          (if truthyNum (ef request) then ef request else None)
          (if Js.truthyOpt (r_filter request)
           then match r_filter request with
                | Some f => Json.parse f
                | None => None
                end
           else None)
          (match include_vectors request with
           | Some true => Some true
           | _ => None
           end)
          (sparse_indices request)
          (sparse_values request) in
      let w2 := logCall (Query index queryOptions) w1 in
      match query client index queryOptions with
      | Raised e => handleApiError e w2
      | Returned results => (mkApiResponse true (Some results) None, w2)
      end
  end.

(** The operations the adapter exposes, with their arguments. *)
Inductive operation : Type :=
| OpHealth
| OpListIndexes
| OpGetIndexInfo (indexName : string)
| OpCreateIndex (indexName : string) (dimension : Z) (spaceType : string)
    (options : CreateOptions)
| OpDeleteIndex (indexName : string)
| OpInsertVectors (indexName : string) (vectors : list VectorItem)
| OpGetVector (indexName : string) (requestId : option string)
| OpDeleteVectorById (indexName vectorId : string)
| OpDeleteVectorsByFilter (indexName : string) (filter : Json.json)
| OpSearchVectors (indexName : string) (request : SearchRequest).

(** The envelope of a response without its data: [success] and [error]. *)
Definition envelope {T : Type} (r : ApiResponse T * World) : bool * option string * World :=
  (success r.1, error r.1, r.2).

(** An operation run on the adapter, as far as its envelope and the world
    go. *)
Definition perform (client : Endee) (op : operation) (w : World)
  : bool * option string * World :=
  match op with
  | OpHealth => envelope (health client w)
  | OpListIndexes => envelope (apiListIndexes client w)
  | OpGetIndexInfo n => envelope (getIndexInfo client n w)
  | OpCreateIndex n d s o => envelope (apiCreateIndex client n d s o w)
  | OpDeleteIndex n => envelope (apiDeleteIndex client n w)
  | OpInsertVectors n vs => envelope (insertVectors client n vs w)
  | OpGetVector n i => envelope (apiGetVector client n i w)
  | OpDeleteVectorById n i => envelope (deleteVectorById client n i w)
  | OpDeleteVectorsByFilter n f => envelope (deleteVectorsByFilter client n f w)
  | OpSearchVectors n r => envelope (searchVectors client n r w)
  end.

End Endee.

Arguments mkApiResponse {T} success data error.
Arguments success {T} _.
Arguments data {T} _.
Arguments error {T} _.
Arguments envelope {T} _.
Arguments listIndexes {QueryResult UpsertReply} _.
Arguments describe {QueryResult UpsertReply} _ _.
Arguments getVector {QueryResult UpsertReply} _ _ _.
Arguments deleteWithFilter {QueryResult UpsertReply} _ _ _.
Arguments health {QueryResult UpsertReply} _ _.
Arguments apiListIndexes {QueryResult UpsertReply} _ _.
Arguments getIndexInfo {QueryResult UpsertReply} _ _ _.
Arguments apiGetVector {QueryResult UpsertReply} _ _ _ _.
Arguments deleteVectorsByFilter {QueryResult UpsertReply} _ _ _ _.
Arguments perform {QueryResult UpsertReply} _ _ _.
Arguments getIndex {QueryResult UpsertReply} _ _.
Arguments upsert {QueryResult UpsertReply} _ _ _.
Arguments query {QueryResult UpsertReply} _ _ _.
Arguments createIndex {QueryResult UpsertReply} _ _.
Arguments deleteIndex {QueryResult UpsertReply} _ _.
Arguments deleteVector {QueryResult UpsertReply} _ _ _.
Arguments handleApiError {T} _ _.
Arguments apiCreateIndex {QueryResult UpsertReply} _ _ _ _ _ _.
Arguments apiDeleteIndex {QueryResult UpsertReply} _ _ _.
Arguments insertVectors {QueryResult UpsertReply} _ _ _ _.
Arguments deleteVectorById {QueryResult UpsertReply} _ _ _ _.
Arguments searchVectors {QueryResult UpsertReply} _ _ _ _.

End Client.

(** ** Application shell (App.tsx) *)

Module App.

(** The effect of [Header] that registers the handler of the
    authentication context with the adapter. *)
Definition registerUnauthorized (w : Client.World) : Client.World :=
  Client.setOnUnauthorized (Some AuthContext.handleUnauthorized) w.

(** Its clean-up. *)
Definition unregisterUnauthorized (w : Client.World) : Client.World :=
  Client.setOnUnauthorized None w.

End App.

(** ** The host's [JSON.parse] as the pages call it *)

Module Host.

Section Parse.

(** The message of the [SyntaxError] that the host's [JSON.parse] throws
    for a text it rejects. The text of that message is the host's own. *)
Variable syntaxErrorMessage : string -> string.

Definition JSON_parse (text : string) : result Json.json :=
  match Json.parse text with
  | Some v => Ok v
  | None => Throw (syntaxErrorMessage text)
  end.

(** [x || fallback] for an optional message. *)
Definition orElse (x : option string) (fallback : string) : string :=
  match x with
  | Some s => if Js.truthy s then s else fallback
  | None => fallback
  end.

End Parse.

(** A host whose message is a fixed phrase followed by the rejected text
    (used where a statement needs a concrete host). *)
Definition exampleSyntaxErrorMessage (text : string) : string :=
  "Unexpected token in JSON: " +:+ text.

End Host.

(** ** Search page (pages/SearchPage.tsx) *)

Module SearchPage.

(** Route parameter and [indexInfo?.isHybrid]. *)
Record Props : Type := mkProps {
  indexName : option string;
  isHybrid : bool;
}.

(** The text inputs and the check box of the form. *)
Record Form : Type := mkForm {
  vector : string;
  sparseIndices : string;
  sparseValues : string;
  k : string;
  ef : string;
  filter : string;
  includeVectors : bool;
}.

(** The form with another text in one field. *)
Definition withK (x : string) (f : Form) : Form :=
  mkForm (vector f) (sparseIndices f) (sparseValues f) x (ef f) (filter f)
    (includeVectors f).
Definition withEf (x : string) (f : Form) : Form :=
  mkForm (vector f) (sparseIndices f) (sparseValues f) (k f) x (filter f)
    (includeVectors f).
Definition withSparse (indices values : string) (f : Form) : Form :=
  mkForm (vector f) indices values (k f) (ef f) (filter f) (includeVectors f).

Section Page.

Variable syntaxErrorMessage : string -> string.
Variables QueryResult UpsertReply : Type.

Abbreviation JSON_parse := (Host.JSON_parse syntaxErrorMessage).
Abbreviation Endee := (Client.Endee QueryResult UpsertReply).

Record View : Type := mkView {
  searching : bool;
  error : option string;
  results : option (list QueryResult);
}.

Definition setSearching (b : bool) (v : View) : View := mkView b (error v) (results v).
Definition setError (e : option string) (v : View) : View := mkView (searching v) e (results v).
Definition setResults (r : option (list QueryResult)) (v : View) : View :=
  mkView (searching v) (error v) r.

(** Dense vector: [JSON.parse(`[${text}]`)] and the check that follows it.
    The same two statements open [handleSearch] and follow the id check of
    [parseVector]. *)
Definition denseVector (text : string) : result Json.json :=
  do vectorArray <- JSON_parse (Json.bracketed text);
  do _ <- throwIf (negb (Json.isArray vectorArray)
                   || (Json.arrayLength vectorArray =? 0)%nat)
                  "Vector must be a non-empty array of numbers";
  Ok vectorArray.

(** A sparse field: parsed when its text is not blank. *)
Definition sparseField (text : string) : result (option Json.json) :=
  if Js.truthy (Js.trim text)
  then do v <- JSON_parse (Json.bracketed text); Ok (Some v)
  else Ok None.

(** The check of the two sparse fields against each other. *)
Definition sparseCheck (indices values : option Json.json) : result unit :=
  match indices, values with
  | Some i, Some v =>
      throwIf (negb (Json.arrayLength i =? Json.arrayLength v)%nat)
              "Sparse indices and values must have the same length"
  | None, None => Ok tt
  | _, _ => Throw "Both sparse indices and sparse values must be provided together"
  end.

(** The body of the [try] block of [handleSearch] up to the network call:
    the search request, or the error thrown on the way. *)
Definition buildSearchRequest (p : Props) (f : Form) : result Client.SearchRequest :=
  do vectorArray <- denseVector (vector f);
  match Js.parseInt (k f) with
  | None => Throw "K must be a positive number"
  | Some kValue =>
      if kValue <=? 0 then Throw "K must be a positive number"
      else
        let efField :=
          if Js.truthy (Js.trim (ef f)) then
            match Js.parseInt (ef f) with
            | Some efValue => if 0 <? efValue then Some efValue else None
            | None => None
            end
          else None in
        do filterField <-
          (if Js.truthy (Js.trim (filter f)) then
             match Json.parse (filter f) with
             | Some _ => Ok (Some (Js.trim (filter f)))
             | None => Throw "Filter must be valid JSON"
             end
           else Ok None);
        if isHybrid p then
          do si <- sparseField (sparseIndices f);
          do sv <- sparseField (sparseValues f);
          do _ <- sparseCheck si sv;
          Ok (Client.mkSearchRequest vectorArray kValue efField filterField
                (Some (includeVectors f)) si sv)
        else
          Ok (Client.mkSearchRequest vectorArray kValue efField filterField
                (Some (includeVectors f)) None None)
  end.

Definition handleSearch (client : Endee) (p : Props) (f : Form)
    (v : View) (w : Client.World) : View * Client.World :=
  let v := setResults None (setError None v) in
  match indexName p with
  | None => (v, w)
  | Some name =>
      if negb (Js.truthy name) then (v, w)
      else
        let '(thrown, v, w) :=
          match buildSearchRequest p f with
          | Throw m => (Some m, v, w)
          | Ok searchRequest =>
              let v := setSearching true v in
              let '(response, w) := Client.searchVectors client name searchRequest w in
              if negb (Client.success response)
              then (Some (Host.orElse (Client.error response) "Search failed"), v, w)
              else (None,
                    setResults (Some (match Client.data response with
                                      | Some rs => rs
                                      | None => []
                                      end)) v,
                    w)
          end in
        let v := match thrown with Some m => setError (Some m) v | None => v end in
        (setSearching false v, w)
  end.

(** The view after a submission that failed with message [m]. *)
Definition failed (m : string) : View := mkView false (Some m) None.

End Page.

Arguments failed {QueryResult} _.
Arguments searching {QueryResult} _.
Arguments error {QueryResult} _.
Arguments results {QueryResult} _.
Arguments mkView {QueryResult} _ _ _.
Arguments handleSearch _ {QueryResult UpsertReply} _ _ _ _ _.

End SearchPage.

(** ** Vector insert page (pages/VectorInsertPage.tsx) *)

Module VectorInsertPage.

Record VectorInput : Type := mkVectorInput {
  id : string;
  vector : string;
  sparse_indices : string;
  sparse_values : string;
  meta : string;
  filter : string;
}.

(** The single empty row the page starts with and returns to. *)
Definition emptyRow : VectorInput :=
  mkVectorInput EmptyString EmptyString EmptyString EmptyString EmptyString EmptyString.

Record Props : Type := mkProps {
  indexName : option string;
  isHybrid : bool;
}.

Record View : Type := mkView {
  vectors : list VectorInput;
  submitting : bool;
  error : option string;
  success : option string;
}.

Definition setVectors (l : list VectorInput) (v : View) : View :=
  mkView l (submitting v) (error v) (success v).
Definition setSubmitting (b : bool) (v : View) : View :=
  mkView (vectors v) b (error v) (success v).
Definition setError (e : option string) (v : View) : View :=
  mkView (vectors v) (submitting v) e (success v).
Definition setSuccess (s : option string) (v : View) : View :=
  mkView (vectors v) (submitting v) (error v) s.

(** The view after a submission of the rows of [v] that failed with message
    [m]. *)
Definition rejected (m : string) (v : View) : View :=
  mkView (vectors v) false (Some m) None.

Section Page.

Variable syntaxErrorMessage : string -> string.
Variables QueryResult UpsertReply : Type.

Abbreviation JSON_parse := (Host.JSON_parse syntaxErrorMessage).
Abbreviation Endee := (Client.Endee QueryResult UpsertReply).

(** A free-text JSON field: parsed when its text is not blank. *)
Definition jsonField (text : string) : result (option Json.json) :=
  if Js.truthy (Js.trim text)
  then do v <- JSON_parse text; Ok (Some v)
  else Ok None.

(** The [try] block of [parseVector]. *)
Definition parseVectorBody (p : Props) (input : VectorInput) : result Client.VectorItem :=
  do _ <- throwIf (negb (Js.truthy (Js.trim (id input)))) "Vector ID is required";
  do vectorArray <- SearchPage.denseVector syntaxErrorMessage (vector input);
  do sparse <-
    (if isHybrid p then
       do si <- SearchPage.sparseField syntaxErrorMessage (sparse_indices input);
       do sv <- SearchPage.sparseField syntaxErrorMessage (sparse_values input);
       do _ <- SearchPage.sparseCheck si sv;
       Ok (si, sv)
     else Ok (None, None));
  do m <- jsonField (meta input);
  do parsedFilter <- jsonField (filter input);
  Ok (Client.mkVectorItem (Js.trim (id input)) vectorArray
        (fst sparse) (snd sparse) m parsedFilter).

(** [parseVector]: whatever the block throws is thrown again behind the
    prefix. *)
Definition parseVector (p : Props) (input : VectorInput) : result Client.VectorItem :=
  match parseVectorBody p input with
  | Ok item => Ok item
  | Throw m => Throw ("Invalid vector data: " +:+ m)
  end.

(** The [for] loop of [handleSubmit]: rows are parsed in order and pushed;
    the first throw leaves the loop. *)
Fixpoint parseAll (p : Props) (rows : list VectorInput) : result (list Client.VectorItem) :=
  match rows with
  | [] => Ok []
  | row :: rest =>
      do parsed <- parseVector p row;
      do others <- parseAll p rest;
      Ok (parsed :: others)
  end.

(** A free-text JSON field that is filled in and does not parse. *)
Definition badJsonField (text : string) : Prop :=
  Js.truthy (Js.trim text) = true /\ Json.parse text = None.

(** [v.id.trim() || v.vector.trim()] *)
Definition nonEmptyRow (v : VectorInput) : bool :=
  Js.truthy (Js.trim (id v)) || Js.truthy (Js.trim (vector v)).

(** The [try] block of [handleSubmit] up to the network call. *)
Definition parseBatch (p : Props) (rows : list VectorInput) : result (list Client.VectorItem) :=
  let nonEmptyVectors := List.filter nonEmptyRow rows in
  do _ <- throwIf (length nonEmptyVectors =? 0)%nat "At least one vector is required";
  do parsedVectors <- parseAll p nonEmptyVectors;
  do _ <- throwIf (length parsedVectors =? 0)%nat "At least one valid vector is required";
  Ok parsedVectors.

Definition handleSubmit (client : Endee) (p : Props)
    (v : View) (w : Client.World) : View * Client.World :=
  let v := setSuccess None (setError None v) in
  match indexName p with
  | None => (v, w)
  | Some name =>
      if negb (Js.truthy name) then (v, w)
      else
        let '(thrown, v, w) :=
          match parseBatch p (vectors v) with
          | Throw m => (Some m, v, w)
          | Ok parsedVectors =>
              let v := setSubmitting true v in
              let '(response, w) := Client.insertVectors client name parsedVectors w in
              if negb (Client.success response)
              then (Some (Host.orElse (Client.error response) "Failed to insert vectors"), v, w)
              else
                (None,
                 setVectors [emptyRow]
                   (setSuccess
                      (Some ("Successfully inserted "
                             +:+ Js.showNat (length parsedVectors) +:+ " vector(s)")) v),
                 w)
          end in
        let v := match thrown with Some m => setError (Some m) v | None => v end in
        (setSubmitting false v, w)
  end.

End Page.

Arguments handleSubmit _ {QueryResult UpsertReply} _ _ _ _.

End VectorInsertPage.

(** ** Create index page (pages/CreateIndexPage.tsx) *)

Module CreateIndexPage.

Record Form : Type := mkForm {
  name : string;
  spaceType : string;
  dimension : string;
  precision : string;
  isHybrid : bool;
  sparseDimension : string;
  showAdvanced : bool;
  mParam : string;
  efConstruction : string;
}.

Record View : Type := mkView {
  submitting : bool;
  error : option string;
  location : option string;        (* where [navigate] was last told to go *)
}.

Definition setSubmitting (b : bool) (v : View) : View := mkView b (error v) (location v).
Definition setError (e : option string) (v : View) : View := mkView (submitting v) e (location v).
Definition navigate (to : string) (v : View) : View := mkView (submitting v) (error v) (Some to).

(** [isNaN(v) || v < lo || v > hi] *)
Definition outside (v : option Z) (lo hi : Z) : bool :=
  match v with
  | None => true
  | Some n => (n <? lo) || (hi <? n)
  end.

(** What the validation of [handleSubmit] ends with: the message of the
    [setError] before an early [return], or the arguments of
    [api.createIndex]. *)
Definition validate (f : Form)
  : result (string * Z * string * Client.CreateOptions) :=
  if negb (Js.truthy (Js.trim (name f))) then Throw "Index name is required"
  else
    let dimValue := Js.parseInt (dimension f) in
    if negb (Js.truthy (dimension f)) || Js.notPositive dimValue
    then Throw "Dimension must be a positive number"
    else
      let sparseDimValue := if isHybrid f then Js.parseInt (sparseDimension f) else None in
      if isHybrid f
         && (negb (Js.truthy (sparseDimension f)) || Js.notPositive sparseDimValue)
      then Throw "Sparse dimension must be a positive number for hybrid indexes"
      else
        let mValue := Js.parseInt (mParam f) in
        let efValue := Js.parseInt (efConstruction f) in
        if showAdvanced f && outside mValue 4 64
        then Throw "M parameter must be between 4 and 64"
        else if showAdvanced f && outside efValue 64 512
        then Throw "ef_construction must be between 64 and 512"
        else
          Ok (Js.trim (name f),
              match dimValue with Some d => d | None => 0 end,
              spaceType f,
              Client.mkCreateOptions (Some (precision f)) sparseDimValue
                (if showAdvanced f then mValue else None)
                (if showAdvanced f then efValue else None)).

Section Page.

Variables QueryResult UpsertReply : Type.
Abbreviation Endee := (Client.Endee QueryResult UpsertReply).

Definition handleSubmit (client : Endee) (f : Form)
    (v : View) (w : Client.World) : View * Client.World :=
  let v := setError None v in
  match validate f with
  | Throw m => (setError (Some m) v, w)
  | Ok (indexName, dimValue, space, options) =>
      let v := setSubmitting true v in
      let '(response, w) := Client.apiCreateIndex client indexName dimValue space options w in
      let v :=
        if negb (Client.success response)
        then setError (Some (Host.orElse (Client.error response) "Failed to create index")) v
        else navigate "/indexes" v in
      (setSubmitting false v, w)
  end.

End Page.

Arguments handleSubmit {QueryResult UpsertReply} _ _ _ _.

End CreateIndexPage.

(** ** Raw [fetch] call sites of the backup screens *)

Module Fetch.

Inductive Status : Type := in_progress | completed | failed.

Record BackupJob : Type := mkBackupJob {
  job_id : string;
  index_id : string;
  backup_name : string;
  status : Status;
  job_error : option string;
  started_at : Z;
  completed_at : option Z;
}.

Inductive Body : Type :=
| NoBody
| JsonBody (members : list (string * string))   (* [JSON.stringify] of an object of strings *)
| FormData (field fileName : string).

Record Request : Type := mkRequest {
  method : string;
  url : string;
  headers : gmap string string;
  body : Body;
}.

(** What [response.json()] gives. *)
Inductive ResponseBody : Type :=
| Unreadable (message : string)     (* the promise rejects with this message *)
| Null (message : string)
    (* JSON null; the message is that of the TypeError the host throws when
       a member of null is read *)
| Names (names : list string)       (* a JSON array, of backup names *)
| Object (error : option string) (jobs : option (list BackupJob)).
    (* any other JSON value: its [error] member, and its [jobs] member
       when that is an array *)

Record Response : Type := mkResponse {
  statusCode : nat;
  responseBody : ResponseBody;
}.

(** [response.ok] *)
Definition ok (r : Response) : bool :=
  (200 <=? statusCode r)%nat && (statusCode r <=? 299)%nat.

(** Outcome of awaiting [fetch]. *)
Inductive fetched : Type :=
| Responded (r : Response)
| Rejected (message : string).

(** The authentication context and the requests sent so far. *)
Record World : Type := mkWorld {
  auth : AuthContext.State;
  requests : list Request;
}.

Definition send (r : Request) (w : World) : World :=
  mkWorld (auth w) (requests w ++ [r]).

Definition handleUnauthorized (w : World) : World :=
  mkWorld (AuthContext.handleUnauthorized (auth w)) (requests w).

(** [...(token && { Authorization: token })] spread into [base]. *)
Definition withAuthorization (token : option string) (base : gmap string string)
  : gmap string string :=
  match token with
  | Some t => if Js.truthy t then <["Authorization" := t]> base else base
  | None => base
  end.

Definition jsonHeaders : gmap string string :=
  {["Content-Type" := "application/json"]}.

(** The message of the error thrown for a response that is not ok:
    [await response.json().catch(() => ({}))] followed by
    [new Error(errorData.error || fallback)]. Reading [error] of null throws
    instead, and that error is the one caught. *)
Definition errorOr (r : Response) (fallback : string) : string :=
  match responseBody r with
  | Object e _ => Host.orElse e fallback
  | Null m => m
  | Unreadable _ | Names _ => fallback
  end.

(** What the specification asks of a call site that took [w] to [w']:
    every request it sent carries the token when there is one, and a 401
    answer to one of them leaves the token cleared and the prompt open. *)
Definition conforms (server : Request -> fetched) (w w' : World) : Prop :=
  exists new,
    requests w' = requests w ++ new
    /\ (forall tok r,
          AuthContext.token (auth w) = Some tok -> Js.truthy tok = true ->
          In r new -> headers r !! "Authorization" = Some tok)
    /\ (forall r b,
          In r new -> server r = Responded (mkResponse 401 b) ->
          auth w' = AuthContext.handleUnauthorized (auth w)).

Inductive NotificationType : Type := success | error | info.

Record Notification : Type := mkNotification {
  n_type : NotificationType;
  n_message : string;
}.

End Fetch.

(** ** Backups page (pages/BackupsPage.tsx) and its modals *)

Module BackupsPage.

Import Fetch.

Record View : Type := mkView {
  backups : list string;
  loading : bool;
  pageError : option string;
  activeTab : string;
  jobs : list BackupJob;
  showRestoreModal : bool;
  restoreBackupName : string;
  restoreTargetIndex : string;
  restoring : bool;
  restoreError : option string;
  showDeleteModal : bool;
  deleteBackupName : string;
  deleting : bool;
  notification : option Notification;
}.

Definition setBackups (x : list string) (v : View) : View :=
  mkView x (loading v) (pageError v) (activeTab v) (jobs v) (showRestoreModal v)
    (restoreBackupName v) (restoreTargetIndex v) (restoring v) (restoreError v)
    (showDeleteModal v) (deleteBackupName v) (deleting v) (notification v).
Definition setLoading (x : bool) (v : View) : View :=
  mkView (backups v) x (pageError v) (activeTab v) (jobs v) (showRestoreModal v)
    (restoreBackupName v) (restoreTargetIndex v) (restoring v) (restoreError v)
    (showDeleteModal v) (deleteBackupName v) (deleting v) (notification v).
Definition setError (x : option string) (v : View) : View :=
  mkView (backups v) (loading v) x (activeTab v) (jobs v) (showRestoreModal v)
    (restoreBackupName v) (restoreTargetIndex v) (restoring v) (restoreError v)
    (showDeleteModal v) (deleteBackupName v) (deleting v) (notification v).
Definition setJobs (x : list BackupJob) (v : View) : View :=
  mkView (backups v) (loading v) (pageError v) (activeTab v) x (showRestoreModal v)
    (restoreBackupName v) (restoreTargetIndex v) (restoring v) (restoreError v)
    (showDeleteModal v) (deleteBackupName v) (deleting v) (notification v).
Definition setRestoring (x : bool) (v : View) : View :=
  mkView (backups v) (loading v) (pageError v) (activeTab v) (jobs v) (showRestoreModal v)
    (restoreBackupName v) (restoreTargetIndex v) x (restoreError v)
    (showDeleteModal v) (deleteBackupName v) (deleting v) (notification v).
Definition setRestoreError (x : option string) (v : View) : View :=
  mkView (backups v) (loading v) (pageError v) (activeTab v) (jobs v) (showRestoreModal v)
    (restoreBackupName v) (restoreTargetIndex v) (restoring v) x
    (showDeleteModal v) (deleteBackupName v) (deleting v) (notification v).
Definition setDeleting (x : bool) (v : View) : View :=
  mkView (backups v) (loading v) (pageError v) (activeTab v) (jobs v) (showRestoreModal v)
    (restoreBackupName v) (restoreTargetIndex v) (restoring v) (restoreError v)
    (showDeleteModal v) (deleteBackupName v) x (notification v).
Definition showNotification (t : NotificationType) (m : string) (v : View) : View :=
  mkView (backups v) (loading v) (pageError v) (activeTab v) (jobs v) (showRestoreModal v)
    (restoreBackupName v) (restoreTargetIndex v) (restoring v) (restoreError v)
    (showDeleteModal v) (deleteBackupName v) (deleting v) (Some (mkNotification t m)).

Definition closeRestoreModal (v : View) : View :=
  mkView (backups v) (loading v) (pageError v) (activeTab v) (jobs v) false
    EmptyString EmptyString (restoring v) None
    (showDeleteModal v) (deleteBackupName v) (deleting v) (notification v).

Definition closeDeleteModal (v : View) : View :=
  mkView (backups v) (loading v) (pageError v) (activeTab v) (jobs v) (showRestoreModal v)
    (restoreBackupName v) (restoreTargetIndex v) (restoring v) (restoreError v)
    false EmptyString (deleting v) (notification v).

(** [allJobs.sort((a, b) => b.started_at - a.started_at)]: a stable sort,
    latest first. *)
Fixpoint insertJob (j : BackupJob) (l : list BackupJob) : list BackupJob :=
  match l with
  | [] => [j]
  | x :: r => if started_at x <=? started_at j then j :: l else x :: insertJob j r
  end.

Definition sortJobs (l : list BackupJob) : list BackupJob :=
  List.fold_right insertJob [] l.

Section Page.

(** [encodeURIComponent] of the host. *)
Variable encodeURIComponent : string -> string.

(** The backend: what [fetch] resolves to for a request. *)
Variable server : Request -> fetched.

Definition loadJobs (v : View) (w : World) : View * World :=
  let token := AuthContext.token (auth w) in
  let request :=
    mkRequest "GET" "/api/v1/backups/jobs" (withAuthorization token jsonHeaders) NoBody in
  let w := send request w in
  match server request with
  | Rejected _ => (v, w)
  | Responded response =>
      if negb (ok response) then
        if (statusCode response =? 401)%nat then (v, handleUnauthorized w) else (v, w)
      else
        match responseBody response with
        | Unreadable _ | Null _ => (v, w)
        | Object _ (Some allJobs) => (setJobs (sortJobs allJobs) v, w)
        | Object _ None | Names _ => (setJobs [] v, w)
        end
  end.

Definition loadBackups (v : View) (w : World) : View * World :=
  let token := AuthContext.token (auth w) in
  let v := setLoading true v in
  let request :=
    mkRequest "GET" "/api/v1/backups" (withAuthorization token jsonHeaders) NoBody in
  let w := send request w in
  let '(v, w) :=
    match server request with
    | Rejected m => (setError (Some m) v, w)
    | Responded response =>
        if negb (ok response) then
          if (statusCode response =? 401)%nat
          then (setError (Some "Authentication Token Required.") v, handleUnauthorized w)
          else (setError (Some "Failed to fetch backups.") v, w)
        else
          match responseBody response with
          | Unreadable m => (setError (Some m) v, w)
          | Names names => (setError None (setBackups names v), w)
          | Null _ | Object _ _ => (setError None (setBackups [] v), w)
          end
    end in
  (setLoading false v, w).

Definition handleRestoreBackup (v : View) (w : World) : View * World :=
  if negb (Js.truthy (restoreBackupName v))
     || negb (Js.truthy (Js.trim (restoreTargetIndex v)))
  then (v, w)
  else
    let token := AuthContext.token (auth w) in
    let name := restoreBackupName v in
    let target := Js.trim (restoreTargetIndex v) in
    let v := setRestoreError None (setRestoring true v) in
    let request :=
      mkRequest "POST" ("/api/v1/backups/" +:+ encodeURIComponent name +:+ "/restore")
        (withAuthorization token jsonHeaders)
        (JsonBody [("target_index_name", target)]) in
    let w := send request w in
    let '(v, w) :=
      match server request with
      | Rejected m => (setRestoreError (Some m) v, w)
      | Responded response =>
          if negb (ok response) then
            if (statusCode response =? 401)%nat
            then (setRestoreError (Some "Authentication Token Required.") v,
                  handleUnauthorized w)
            else (setRestoreError (Some (errorOr response "Failed to restore backup")) v, w)
          else
            (showNotification success
               ("Backup " +:+ Js.quoted name +:+ " restored to index " +:+ Js.quoted target)
               (closeRestoreModal v), w)
      end in
    (setRestoring false v, w).

Definition handleDeleteBackup (v : View) (w : World) : View * World :=
  if negb (Js.truthy (deleteBackupName v)) then (v, w)
  else
    let token := AuthContext.token (auth w) in
    let name := deleteBackupName v in
    let v := setDeleting true v in
    let request :=
      mkRequest "DELETE" ("/api/v1/backups/" +:+ encodeURIComponent name)
        (withAuthorization token ∅) NoBody in
    let w := send request w in
    let failWith (m : string) (v : View) := showNotification error m (closeDeleteModal v) in
    let '(v, w) :=
      match server request with
      | Rejected m => (failWith m v, w)
      | Responded response =>
          if negb (ok response) then
            if (statusCode response =? 401)%nat
            then (failWith "Authentication Token Required." v, handleUnauthorized w)
            else (failWith (errorOr response "Failed to delete backup") v, w)
          else
            loadBackups
              (showNotification success ("Backup " +:+ Js.quoted name +:+ " deleted successfully")
                 (closeDeleteModal v)) w
      end in
    (setDeleting false v, w).

End Page.

(** *** The polling effect *)

(** [jobs.some(j => j.status === 'in_progress')] *)
Definition hasInProgress (js : list BackupJob) : bool :=
  existsb (fun j => match status j with in_progress => true | _ => false end) js.

(** An interval set by [setInterval]: its period and the time since it was
    set or last fired, in milliseconds. *)
Record Interval : Type := mkInterval {
  period : N;
  elapsed : N;
}.

(** The effect with dependencies [[jobs, loadJobs]]: the interval it leaves
    set, if any. *)
Definition pollingEffect (js : list BackupJob) : option Interval :=
  if negb (hasInProgress js) then None
  else Some (mkInterval 5000 0)%N.

(** The page as far as polling goes: the job list, the interval of the
    current run of the effect, and the number of times the interval has
    fired its refresh ([loadJobs(); loadBackups()]). *)
Record Poller : Type := mkPoller {
  p_jobs : list BackupJob;
  interval : option Interval;
  refreshes : N;
}.

Inductive event : Type :=
| SetJobs (js : list BackupJob)    (* [setJobs(js)]: a new job list is rendered *)
| LoadJobsChanged                  (* the [loadJobs] callback is a new one *)
| Elapse (ms : N).                 (* time passes, in milliseconds *)

(** The page after mounting: no jobs, the effect has run. *)
Definition mounted : Poller := mkPoller [] (pollingEffect []) 0%N.

(** A dependency changed: the clean-up of the last run clears its interval,
    then the effect runs again. Time passing fires the interval each time
    its period is reached. *)
Definition step (p : Poller) (e : event) : Poller :=
  match e with
  | SetJobs js => mkPoller js (pollingEffect js) (refreshes p)
  | LoadJobsChanged => mkPoller (p_jobs p) (pollingEffect (p_jobs p)) (refreshes p)
  | Elapse ms =>
      match interval p with
      | None => p
      | Some i =>
          mkPoller (p_jobs p)
            (Some (mkInterval (period i) ((elapsed i + ms) mod period i)%N))
            (refreshes p + (elapsed i + ms) / period i)%N
      end
  end.

Definition run (p : Poller) (es : list event) : Poller := List.fold_left step es p.

(** What holds of the page after any sequence of events: an interval is
    set exactly when a job is in progress, and it is the 5000 ms one. *)
Definition scheduled (p : Poller) : Prop :=
  if hasInProgress (p_jobs p)
  then exists e, interval p = Some (mkInterval 5000 e) /\ (e < 5000)%N
  else interval p = None.

(** An event that brings no job in progress. *)
Definition quiet (e : event) : Prop :=
  match e with
  | SetJobs js => hasInProgress js = false
  | LoadJobsChanged | Elapse _ => True
  end.

End BackupsPage.

(** ** Create-backup modal (components/CreateBackupModal.tsx) *)

Module CreateBackupModal.

Import Fetch.

Record View : Type := mkView {
  backupIndexName : string;
  backupName : string;
  creatingBackup : bool;
  backupError : option string;
  closed : bool;                           (* [params.closeBackupModal()] was called *)
  notification : option Notification;
  location : option string;
}.

Definition setCreatingBackup (x : bool) (v : View) : View :=
  mkView (backupIndexName v) (backupName v) x (backupError v) (closed v)
    (notification v) (location v).
Definition setBackupError (x : option string) (v : View) : View :=
  mkView (backupIndexName v) (backupName v) (creatingBackup v) x (closed v)
    (notification v) (location v).

Section Modal.

Variable encodeURIComponent : string -> string.
Variable server : Request -> fetched.

Definition handleCreateBackup (v : View) (w : World) : View * World :=
  if negb (Js.truthy (backupIndexName v)) || negb (Js.truthy (Js.trim (backupName v)))
  then (v, w)
  else
    let token := AuthContext.token (auth w) in
    let v := setBackupError None (setCreatingBackup true v) in
    let request :=
      mkRequest "POST"
        ("/api/v1/index/" +:+ encodeURIComponent (backupIndexName v) +:+ "/backup")
        (withAuthorization token jsonHeaders)
        (JsonBody [("name", Js.trim (backupName v))]) in
    let w := send request w in
    let '(v, w) :=
      match server request with
      | Rejected m => (setBackupError (Some m) v, w)
      | Responded response =>
          if negb (ok response) then
            if (statusCode response =? 401)%nat
            then (setBackupError (Some "Authentication Token Required.") v,
                  handleUnauthorized w)
            else (setBackupError (Some (errorOr response "Failed to create backup")) v, w)
          else
            (mkView (backupIndexName v) (backupName v) (creatingBackup v) (backupError v)
               true
               (Some (mkNotification info
                        ("Backup " +:+ Js.quoted (Js.trim (backupName v))
                         +:+ " getting created for index "
                         +:+ Js.quoted (backupIndexName v))))
               (Some "/backups#jobs"), w)
      end in
    (setCreatingBackup false v, w).

End Modal.

End CreateBackupModal.

(** ** Upload-backup modal (components/UploadBackupModal.tsx) *)

Module UploadBackupModal.

Import Fetch.

Record View : Type := mkView {
  selectedFile : option string;            (* the name of the selected file *)
  uploading : bool;
  uploadError : option string;
  closed : bool;
  successShown : option string;
}.

Definition setUploading (x : bool) (v : View) : View :=
  mkView (selectedFile v) x (uploadError v) (closed v) (successShown v).
Definition setUploadError (x : option string) (v : View) : View :=
  mkView (selectedFile v) (uploading v) x (closed v) (successShown v).

(** [handleFileChange] for a chosen file name. *)
Definition handleFileChange (fileName : string) (v : View) : View :=
  if negb (Js.endsWith ".tar.gz" fileName)
  then mkView None (uploading v) (Some "Please select a .tar.gz file") (closed v) (successShown v)
  else mkView (Some fileName) (uploading v) None (closed v) (successShown v).

Section Modal.

Variable server : Request -> fetched.

Definition handleUploadBackup (v : View) (w : World) : View * World :=
  match selectedFile v with
  | None => (v, w)
  | Some fileName =>
      let token := AuthContext.token (auth w) in
      let v := setUploadError None (setUploading true v) in
      let request :=
        mkRequest "POST" "/api/v1/backups/upload" (withAuthorization token ∅)
          (FormData "backup" fileName) in
      let w := send request w in
      let '(v, w) :=
        match server request with
        | Rejected m => (setUploadError (Some m) v, w)
        | Responded response =>
            if negb (ok response) then
              if (statusCode response =? 401)%nat
              then (setUploadError (Some "Authentication Token Required.") v,
                    handleUnauthorized w)
              else (setUploadError (Some (errorOr response "Failed to upload backup")) v, w)
            else
              (mkView (selectedFile v) (uploading v) (uploadError v) true
                 (Some ("Backup " +:+ Js.quoted (Js.replaceFirst ".tar.gz" EmptyString fileName)
                        +:+ " uploaded successfully")), w)
        end in
      (setUploading false v, w)
  end.

End Modal.

End UploadBackupModal.

(** ** Indexes page with its inline backup dialog (pages/IndexesPage.tsx) *)

Module IndexesPage.

Import Fetch.

Record View : Type := mkView {
  showBackupModal : bool;
  backupIndexName : string;
  backupName : string;
  creatingBackup : bool;
  backupError : option string;
  successMessage : option string;
}.

Definition setCreatingBackup (x : bool) (v : View) : View :=
  mkView (showBackupModal v) (backupIndexName v) (backupName v) x (backupError v)
    (successMessage v).
Definition setBackupError (x : option string) (v : View) : View :=
  mkView (showBackupModal v) (backupIndexName v) (backupName v) (creatingBackup v) x
    (successMessage v).

Definition closeBackupModal (v : View) : View :=
  mkView false EmptyString EmptyString (creatingBackup v) None (successMessage v).

Definition showSuccess (m : string) (v : View) : View :=
  mkView (showBackupModal v) (backupIndexName v) (backupName v) (creatingBackup v)
    (backupError v) (Some m).

Section Page.

Variable encodeURIComponent : string -> string.
Variable server : Request -> fetched.

Definition handleCreateBackup (v : View) (w : World) : View * World :=
  if negb (Js.truthy (backupIndexName v)) || negb (Js.truthy (Js.trim (backupName v)))
  then (v, w)
  else
    let indexName := backupIndexName v in
    let name := Js.trim (backupName v) in
    let v := setBackupError None (setCreatingBackup true v) in
    let request :=
      mkRequest "POST"
        ("/api/v1/index/" +:+ encodeURIComponent indexName +:+ "/backup")
        jsonHeaders
        (JsonBody [("name", name)]) in
    let w := send request w in
    let '(v, w) :=
      match server request with
      | Rejected m => (setBackupError (Some m) v, w)
      | Responded response =>
          if negb (ok response)
          then (setBackupError (Some (errorOr response "Failed to create backup")) v, w)
          else
            (showSuccess
               ("Backup " +:+ Js.quoted name +:+ " created successfully for index "
                +:+ Js.quoted indexName)
               (closeBackupModal v), w)
      end in
    (setCreatingBackup false v, w).

End Page.

End IndexesPage.

(** ** Tutorials page (pages/TutorialsPage.tsx): the list-backups step *)

Module TutorialsPage.

Import Fetch.

Record StepResult : Type := mkStepResult {
  success : bool;
  result : string;
}.

Section Page.

(** [formatResult] applied to the parsed body of the response. *)
Variable formatResult : ResponseBody -> string.

Variable server : Request -> fetched.

(** The [run] of the step. A rejected [fetch] throws a [TypeError]; the
    template [`${e}`] puts the name of the error before its message. *)
Definition runListBackups (w : World) : StepResult * World :=
  let token := AuthContext.token (auth w) in
  let request :=
    mkRequest "GET" "/api/v1/backups" (withAuthorization token ∅) NoBody in
  let w := send request w in
  match server request with
  | Rejected m => (mkStepResult false ("TypeError: " +:+ m), w)
  | Responded response =>
      if negb (ok response)
      then (mkStepResult false "Error: Failed to fetch backups", w)
      else
        match responseBody response with
        | Unreadable m => (mkStepResult false ("SyntaxError: " +:+ m), w)
        | data => (mkStepResult true (formatResult data), w)
        end
  end.

End Page.

End TutorialsPage.

(** ** A concrete host, backend and page, for the statements that need one *)

Module Example.

(** A client whose every call succeeds; a search finds nothing. *)
Definition client : Client.Endee unit unit :=
  Client.mkEndee unit unit
    (Client.Returned (Some []))
    (fun indexName => Client.Returned indexName)
    (fun _ => Json.JObject [])
    (fun _ _ => Client.Returned tt)
    (fun _ _ => Client.Returned [])
    (fun _ => Client.Returned tt)
    (fun _ => Client.Returned tt)
    (fun _ _ => Client.Returned None)
    (fun _ _ => Client.Returned tt)
    (fun _ _ => Client.Returned (Some 0)).

(** A client whose every call is refused as unauthorized. *)
Definition refusing : Client.Endee unit unit :=
  let refused := Client.ErrorObject "Request failed: 401 Invalid Token" in
  Client.mkEndee unit unit
    (Client.Raised refused)
    (fun _ => Client.Raised refused)
    (fun _ => Json.JObject [])
    (fun _ _ => Client.Raised refused)
    (fun _ _ => Client.Raised refused)
    (fun _ => Client.Raised refused)
    (fun _ => Client.Raised refused)
    (fun _ _ => Client.Raised refused)
    (fun _ _ => Client.Raised refused)
    (fun _ _ => Client.Raised refused).

Definition signedIn : AuthContext.State :=
  AuthContext.mkState (Some "secret") false (Some "secret").

(** The adapter after [Header] has mounted, nothing called so far. *)
Definition world : Client.World :=
  App.registerUnauthorized (Client.mkWorld None signedIn []).

Definition searchProps (hybrid : bool) : SearchPage.Props :=
  SearchPage.mkProps (Some "idx") hybrid.

Definition searchView : SearchPage.View unit := SearchPage.mkView false None None.

(** A search form with the given vector, sparse texts and k, the rest
    blank. *)
Definition searchForm (vector indices values k : string) : SearchPage.Form :=
  SearchPage.mkForm vector indices values k EmptyString EmptyString false.

Definition insertProps : VectorInsertPage.Props :=
  VectorInsertPage.mkProps (Some "idx") false.

Definition insertView (rows : list VectorInsertPage.VectorInput) : VectorInsertPage.View :=
  VectorInsertPage.mkView rows false None None.

(** A row with the given id, vector and metadata texts. *)
Definition row (id vector meta : string) : VectorInsertPage.VectorInput :=
  VectorInsertPage.mkVectorInput id vector EmptyString EmptyString meta EmptyString.

Definition createForm (advanced : bool) (m efConstruction : string) : CreateIndexPage.Form :=
  CreateIndexPage.mkForm "idx" "cosine" "768" "float16" false EmptyString
    advanced m efConstruction.

Definition createView : CreateIndexPage.View := CreateIndexPage.mkView false None None.

(** The raw [fetch] side: a signed-in user, nothing sent so far, and a
    server that answers every request 401. *)
Definition fetchWorld : Fetch.World := Fetch.mkWorld signedIn [].

Definition server401 (r : Fetch.Request) : Fetch.fetched :=
  Fetch.Responded (Fetch.mkResponse 401 (Fetch.Object (Some "Unauthorized") None)).

(** The inline dialog of the indexes page, filled in for index idx. *)
Definition inlineDialog : IndexesPage.View :=
  IndexesPage.mkView true "idx" "nightly" false None None.

(** The modal, filled in the same way. *)
Definition modalDialog : CreateBackupModal.View :=
  CreateBackupModal.mkView "idx" "nightly" false None false None None.

Definition job (id : string) (s : Fetch.Status) : Fetch.BackupJob :=
  Fetch.mkBackupJob id "idx" "nightly" s None 1700000000 None.

End Example.

From Stdlib Require Import Sorted Permutation.

(** ** The provider of the authentication context, mounted (context/AuthContext.tsx) *)

Module AuthProvider.

Import AuthContext.

(** [AuthProvider] after mounting over a local storage whose entry is
    [stored]: the token is that entry, the prompt is closed and the effect
    on [token] has run. *)
Definition mount (stored : option string) : State :=
  tokenEffect (mkState stored false stored).

(** What the consumers of the context can call. *)
Inductive action : Type :=
| SetToken (newToken : option string)
| ClearToken
| OpenAuthModal
| CloseAuthModal
| HandleUnauthorized.

Definition act (s : State) (a : action) : State :=
  match a with
  | SetToken t => setToken t s
  | ClearToken => clearToken s
  | OpenAuthModal => openAuthModal s
  | CloseAuthModal => closeAuthModal s
  | HandleUnauthorized => handleUnauthorized s
  end.

Definition run (s : State) (actions : list action) : State :=
  List.fold_left act actions s.

(** [window.location.reload()]: the provider mounts again over the storage
    as it is. *)
Definition reload (s : State) : State := mount (storedToken s).

(** The local storage holds the token exactly when the token is truthy. *)
Definition mirrored (s : State) : Prop :=
  storedToken s = (if Js.truthyOpt (token s) then token s else None).

End AuthProvider.

(** ** Token prompt (components/AuthModal.tsx) *)

Module AuthModal.

Record View : Type := mkView {
  inputValue : string;
  error : option string;
}.

(** The effect on [[showAuthModal, token]]: an open prompt shows the
    current token. *)
Definition openEffect (ctx : AuthContext.State) (v : View) : View :=
  if AuthContext.showAuthModal ctx
  then mkView (match AuthContext.token ctx with
               | Some t => if Js.truthy t then t else EmptyString
               | None => EmptyString
               end) None
  else v.

Definition handleClose (v : View) (ctx : AuthContext.State) : View * AuthContext.State :=
  (mkView (inputValue v) None, AuthContext.closeAuthModal ctx).

(** [handleSubmit], up to the reload it ends with. *)
Definition handleSubmit (v : View) (ctx : AuthContext.State) : View * AuthContext.State :=
  let trimmedToken := Js.trim (inputValue v) in
  if negb (Js.truthy trimmedToken)
  then (mkView (inputValue v) (Some "Please enter an auth token"), ctx)
  else (mkView (inputValue v) None, AuthContext.setToken (Some trimmedToken) ctx).

End AuthModal.

(** ** The backups page over time (pages/BackupsPage.tsx) *)

Module BackupsFlow.

Import Fetch BackupsPage.

Definition setRestoreTargetIndex (x : string) (v : View) : View :=
  mkView (backups v) (loading v) (pageError v) (activeTab v) (jobs v) (showRestoreModal v)
    (restoreBackupName v) x (restoring v) (restoreError v)
    (showDeleteModal v) (deleteBackupName v) (deleting v) (notification v).

Definition openRestoreModal (backupName : string) (v : View) : View :=
  mkView (backups v) (loading v) (pageError v) (activeTab v) (jobs v) true
    backupName EmptyString (restoring v) None
    (showDeleteModal v) (deleteBackupName v) (deleting v) (notification v).

Definition openDeleteModal (backupName : string) (v : View) : View :=
  mkView (backups v) (loading v) (pageError v) (activeTab v) (jobs v) (showRestoreModal v)
    (restoreBackupName v) (restoreTargetIndex v) (restoring v) (restoreError v)
    true backupName (deleting v) (notification v).

(** The state the page is first rendered with. *)
Definition initial : View :=
  mkView [] true None "backups" [] false EmptyString EmptyString false None
    false EmptyString false None.

(** What the user and the effects of the page can start. *)
Inductive action : Type :=
| OpenRestoreModal (backupName : string)
| TypeRestoreTarget (text : string)
| CloseRestoreModal
| ConfirmRestore
| OpenDeleteModal (backupName : string)
| CloseDeleteModal
| ConfirmDelete
| LoadBackups
| LoadJobs.

(** A closed dialog names no backup. *)
Definition dialogsConsistent (v : View) : Prop :=
  (showDeleteModal v = false -> deleteBackupName v = EmptyString)
  /\ (showRestoreModal v = false -> restoreBackupName v = EmptyString).

Section Flow.

Variable encodeURIComponent : string -> string.

Definition act (server : Request -> fetched) (s : View * World) (a : action)
  : View * World :=
  match a with
  | OpenRestoreModal n => (openRestoreModal n s.1, s.2)
  | TypeRestoreTarget t => (setRestoreTargetIndex t s.1, s.2)
  | CloseRestoreModal => (closeRestoreModal s.1, s.2)
  | ConfirmRestore => handleRestoreBackup encodeURIComponent server s.1 s.2
  | OpenDeleteModal n => (openDeleteModal n s.1, s.2)
  | CloseDeleteModal => (closeDeleteModal s.1, s.2)
  | ConfirmDelete => handleDeleteBackup encodeURIComponent server s.1 s.2
  | LoadBackups => loadBackups server s.1 s.2
  | LoadJobs => loadJobs server s.1 s.2
  end.

(** A history: each action with the backend as it answers while the action
    runs. *)
Definition run (s : View * World) (history : list ((Request -> fetched) * action))
  : View * World :=
  List.fold_left (fun s step => act step.1 s step.2) history s.

End Flow.

End BackupsFlow.

(** ** The upload modal over time (components/UploadBackupModal.tsx) *)

Module UploadFlow.

Import Fetch UploadBackupModal.

(** The modal as it opens. *)
Definition initial : View := mkView None false None false None.

(** The file held by the modal, if any, is an archive. *)
Definition holdsArchive (v : View) : Prop :=
  forall n, selectedFile v = Some n -> Js.endsWith ".tar.gz" n = true.

(** An upload request for an archive. *)
Definition archiveUpload (r : Request) : Prop :=
  method r = "POST" /\ url r = "/api/v1/backups/upload"
  /\ exists base, body r = FormData "backup" (base +:+ ".tar.gz").

Inductive action : Type :=
| ChooseFile (fileName : string)     (* a file was picked *)
| ChooseNothing                      (* the file dialog was dismissed *)
| Upload.

Definition act (server : Request -> fetched) (s : View * World) (a : action)
  : View * World :=
  match a with
  | ChooseFile n => (handleFileChange n s.1, s.2)
  | ChooseNothing => s
  | Upload => handleUploadBackup server s.1 s.2
  end.

Definition run (s : View * World) (history : list ((Request -> fetched) * action))
  : View * World :=
  List.fold_left (fun s step => act step.1 s step.2) history s.

End UploadFlow.

(** ** The rows of the insert form (pages/VectorInsertPage.tsx) *)

Module VectorEditor.

Import VectorInsertPage.

(** [keyof VectorInput] *)
Inductive field : Type := f_id | f_vector | f_sparse_indices | f_sparse_values | f_meta | f_filter.

Definition getField (f : field) (row : VectorInput) : string :=
  match f with
  | f_id => id row
  | f_vector => vector row
  | f_sparse_indices => sparse_indices row
  | f_sparse_values => sparse_values row
  | f_meta => meta row
  | f_filter => filter row
  end.

(** [row[field] = value] *)
Definition setField (f : field) (value : string) (row : VectorInput) : VectorInput :=
  match f with
  | f_id =>
      mkVectorInput value (vector row) (sparse_indices row) (sparse_values row) (meta row)
        (filter row)
  | f_vector =>
      mkVectorInput (id row) value (sparse_indices row) (sparse_values row) (meta row)
        (filter row)
  | f_sparse_indices =>
      mkVectorInput (id row) (vector row) value (sparse_values row) (meta row) (filter row)
  | f_sparse_values =>
      mkVectorInput (id row) (vector row) (sparse_indices row) value (meta row) (filter row)
  | f_meta =>
      mkVectorInput (id row) (vector row) (sparse_indices row) (sparse_values row) value
        (filter row)
  | f_filter =>
      mkVectorInput (id row) (vector row) (sparse_indices row) (sparse_values row) (meta row)
        value
  end.

Definition addVector (rows : list VectorInput) : list VectorInput := rows ++ [emptyRow].

(** [vectors.filter((_, i) => i !== index)] when there is more than one
    row. *)
Definition removeVector (index : nat) (rows : list VectorInput) : list VectorInput :=
  if (1 <? length rows)%nat then delete index rows else rows.

(** [updated[index][field] = value] on a copy of the list: with no row at
    [index] the assignment throws and the rows stay ([None]). *)
Definition updateVector (index : nat) (f : field) (value : string)
    (rows : list VectorInput) : option (list VectorInput) :=
  match rows !! index with
  | Some row => Some (<[index := setField f value row]> rows)
  | None => None
  end.

(** The page as it is first rendered. *)
Definition initial : View := mkView [emptyRow] false None None.

Section Editor.

Variable syntaxErrorMessage : string -> string.
Variables QueryResult UpsertReply : Type.

(** What the user can do, with the backend as it answers a submission. *)
Inductive action : Type :=
| AddVector
| RemoveVector (index : nat)
| UpdateVector (index : nat) (f : field) (value : string)
| Submit (client : Client.Endee QueryResult UpsertReply).

Definition act (p : Props) (s : View * Client.World) (a : action) : View * Client.World :=
  match a with
  | AddVector => (setVectors (addVector (vectors s.1)) s.1, s.2)
  | RemoveVector i => (setVectors (removeVector i (vectors s.1)) s.1, s.2)
  | UpdateVector i f value =>
      match updateVector i f value (vectors s.1) with
      | Some rows => (setVectors rows s.1, s.2)
      | None => s
      end
  | Submit client => handleSubmit syntaxErrorMessage client p s.1 s.2
  end.

Definition run (p : Props) (s : View * Client.World) (history : list action)
  : View * Client.World :=
  List.fold_left (act p) history s.

End Editor.

Arguments AddVector {QueryResult UpsertReply}.
Arguments RemoveVector {QueryResult UpsertReply} _.
Arguments UpdateVector {QueryResult UpsertReply} _ _ _.
Arguments Submit {QueryResult UpsertReply} _.
Arguments act _ {QueryResult UpsertReply} _ _ _.
Arguments run _ {QueryResult UpsertReply} _ _ _.

End VectorEditor.

(** ** Vector lookup page (pages/VectorGetPage.tsx) *)

Module VectorGetPage.

Record View : Type := mkView {
  vectorId : string;
  searching : bool;
  deleting : bool;
  deletingByFilter : bool;
  error : option string;
  success : option string;
  result : option Json.json;
  showDeleteConfirm : bool;
  deleteFilterInput : string;
}.

Definition setVectorId (x : string) (v : View) : View :=
  mkView x (searching v) (deleting v) (deletingByFilter v) (error v) (success v)
    (result v) (showDeleteConfirm v) (deleteFilterInput v).
Definition setSearching (x : bool) (v : View) : View :=
  mkView (vectorId v) x (deleting v) (deletingByFilter v) (error v) (success v)
    (result v) (showDeleteConfirm v) (deleteFilterInput v).
Definition setDeleting (x : bool) (v : View) : View :=
  mkView (vectorId v) (searching v) x (deletingByFilter v) (error v) (success v)
    (result v) (showDeleteConfirm v) (deleteFilterInput v).
Definition setDeletingByFilter (x : bool) (v : View) : View :=
  mkView (vectorId v) (searching v) (deleting v) x (error v) (success v)
    (result v) (showDeleteConfirm v) (deleteFilterInput v).
Definition setError (x : option string) (v : View) : View :=
  mkView (vectorId v) (searching v) (deleting v) (deletingByFilter v) x (success v)
    (result v) (showDeleteConfirm v) (deleteFilterInput v).
Definition setSuccess (x : option string) (v : View) : View :=
  mkView (vectorId v) (searching v) (deleting v) (deletingByFilter v) (error v) x
    (result v) (showDeleteConfirm v) (deleteFilterInput v).
Definition setResult (x : option Json.json) (v : View) : View :=
  mkView (vectorId v) (searching v) (deleting v) (deletingByFilter v) (error v) (success v)
    x (showDeleteConfirm v) (deleteFilterInput v).
Definition setShowDeleteConfirm (x : bool) (v : View) : View :=
  mkView (vectorId v) (searching v) (deleting v) (deletingByFilter v) (error v) (success v)
    (result v) x (deleteFilterInput v).
Definition setDeleteFilterInput (x : string) (v : View) : View :=
  mkView (vectorId v) (searching v) (deleting v) (deletingByFilter v) (error v) (success v)
    (result v) (showDeleteConfirm v) x.

(** The page as it is first rendered. *)
Definition initial : View :=
  mkView EmptyString false false false None None None false EmptyString.

(** [`${n}`] for an integer. *)
Definition showInt (n : Z) : string := NilZero.string_of_int (Z.to_int n).

Section Page.

Variables QueryResult UpsertReply : Type.
Abbreviation Endee := (Client.Endee QueryResult UpsertReply).

(** [result.id] of a vector as the adapter answers it. *)
Variable idOf : Json.json -> string.

Definition handleSearch (client : Endee) (indexName : option string)
    (v : View) (w : Client.World) : View * Client.World :=
  let v := setResult None (setSuccess None (setError None v)) in
  match indexName with
  | None => (v, w)
  | Some name =>
      if negb (Js.truthy name) then (v, w)
      else if negb (Js.truthy (Js.trim (vectorId v)))
      then (setError (Some "Vector ID is required") v, w)
      else
        let v := setSearching true v in
        let '(response, w) :=
          Client.apiGetVector client name (Some (Js.trim (vectorId v))) w in
        let v :=
          if negb (Client.success response)
          then setError (Some (Host.orElse (Client.error response) "Failed to get vector")) v
          else setResult (Client.data response) v in
        (setSearching false v, w)
  end.

Definition handleDeleteById (client : Endee) (indexName : option string)
    (v : View) (w : Client.World) : View * Client.World :=
  match indexName, result v with
  | Some name, Some found =>
      if negb (Js.truthy name) then (v, w)
      else
        let v := setError None (setDeleting true v) in
        let '(response, w) := Client.deleteVectorById client name (idOf found) w in
        let v :=
          if negb (Client.success response)
          then setError (Some (Host.orElse (Client.error response) "Failed to delete vector")) v
          else
            setVectorId EmptyString
              (setResult None
                 (setSuccess
                    (Some ("Vector " +:+ Js.quoted (idOf found) +:+ " deleted successfully"))
                    v)) in
        (setDeleting false v, w)
  | _, _ => (v, w)
  end.

(** A [SyntaxError] of [JSON.parse] is told from the other errors: the
    page shows its own message for it. *)
Definition handleDeleteByFilter (client : Endee) (indexName : option string)
    (v : View) (w : Client.World) : View * Client.World :=
  match indexName with
  | None => (v, w)
  | Some name =>
      if negb (Js.truthy name) || negb (Js.truthy (Js.trim (deleteFilterInput v)))
      then (v, w)
      else
        let v := setShowDeleteConfirm false (setError None (setDeletingByFilter true v)) in
        match Json.parse (deleteFilterInput v) with
        | None =>
            (setDeletingByFilter false (setError (Some "Invalid JSON filter") v), w)
        | Some parsed =>
            let '(response, w) := Client.deleteVectorsByFilter client name parsed w in
            let v :=
              if negb (Client.success response)
              then setError
                     (Some (Host.orElse (Client.error response) "Failed to delete vectors")) v
              else
                let count :=
                  match Client.data response with
                  | Some d => if Client.deleted d =? 0 then 0 else Client.deleted d
                  | None => 0
                  end in
                setDeleteFilterInput EmptyString
                  (setResult None
                     (setSuccess
                        (Some ("Deleted " +:+ showInt count
                               +:+ " vector(s) matching the filter")) v)) in
            (setDeletingByFilter false v, w)
        end
  end.

End Page.

Arguments handleSearch {QueryResult UpsertReply} _ _ _ _.
Arguments handleDeleteById {QueryResult UpsertReply} _ _ _ _ _.
Arguments handleDeleteByFilter {QueryResult UpsertReply} _ _ _ _.

End VectorGetPage.

(** ** Index detail page (pages/IndexDetailPage.tsx) *)

Module IndexDetailPage.

Record View : Type := mkView {
  indexInfo : option Json.json;
  loading : bool;
  error : option string;
  deleting : bool;
  showDeleteConfirm : bool;
  location : option string;        (* where [navigate] was last told to go *)
}.

Section Page.

Variables QueryResult UpsertReply : Type.
Abbreviation Endee := (Client.Endee QueryResult UpsertReply).

Definition loadIndexInfo (client : Endee) (indexName : option string)
    (v : View) (w : Client.World) : View * Client.World :=
  match indexName with
  | None => (v, w)
  | Some name =>
      if negb (Js.truthy name) then (v, w)
      else
        let '(response, w) := Client.getIndexInfo client name w in
        if negb (Client.success response)
        then (mkView (indexInfo v) false
                (Some (Host.orElse (Client.error response) "Failed to fetch index info"))
                (deleting v) (showDeleteConfirm v) (location v), w)
        else (mkView (Client.data response) false None
                (deleting v) (showDeleteConfirm v) (location v), w)
  end.

(** On success the page is left for the list, with [deleting] still set. *)
Definition handleDeleteIndex (client : Endee) (indexName : option string)
    (v : View) (w : Client.World) : View * Client.World :=
  match indexName with
  | None => (v, w)
  | Some name =>
      if negb (Js.truthy name) then (v, w)
      else
        let '(response, w) := Client.apiDeleteIndex client name w in
        if negb (Client.success response)
        then (mkView (indexInfo v) (loading v)
                (Some (Host.orElse (Client.error response) "Failed to delete index"))
                false false (location v), w)
        else (mkView (indexInfo v) (loading v) (error v) true (showDeleteConfirm v)
                (Some "/indexes"), w)
  end.

End Page.

Arguments loadIndexInfo {QueryResult UpsertReply} _ _ _ _.
Arguments handleDeleteIndex {QueryResult UpsertReply} _ _ _ _.

End IndexDetailPage.

(** ** Notifications (context/NotificationContext.tsx) *)

Module NotificationContext.

(** [NotificationType] of components/Notification.tsx *)
Inductive NotificationType : Type := success | error | warning | info.

Record NotificationState : Type := mkNotificationState {
  type : NotificationType;
  message : string;
}.

(** The provider with the timers of the host: [timers] are the pending
    time-outs, each with its id and the milliseconds left; [nextId] is the
    id that [setTimeout] gives next. Every time-out set by the provider
    has the same callback. *)
Record Provider : Type := mkProvider {
  notification : option NotificationState;
  timerRef : option nat;
  timers : list (nat * N);
  nextId : nat;
}.

(** Nothing shown, no time-out pending; the host numbers its time-outs
    from 1. *)
Definition initial : Provider := mkProvider None None [] 1.

(** [clearTimeout(id)] *)
Definition clearTimeout (id : nat) (timers : list (nat * N)) : list (nat * N) :=
  List.filter (fun t => negb (t.1 =? id)%nat) timers.

(** [if (timerRef.current) { clearTimeout(timerRef.current); timerRef.current = null }] *)
Definition cancelPending (p : Provider) : Provider :=
  match timerRef p with
  | Some id => mkProvider (notification p) None (clearTimeout id (timers p)) (nextId p)
  | None => p
  end.

Definition clearNotification (p : Provider) : Provider :=
  let p := mkProvider None (timerRef p) (timers p) (nextId p) in
  cancelPending p.

Definition dismissesItself (t : NotificationType) : bool :=
  match t with
  | success | info => true
  | error | warning => false
  end.

Definition showNotification (t : NotificationType) (m : string) (p : Provider) : Provider :=
  let p := cancelPending p in
  let p := mkProvider (Some (mkNotificationState t m)) (timerRef p) (timers p) (nextId p) in
  if dismissesItself t
  then mkProvider (notification p) (Some (nextId p))
         (timers p ++ [(nextId p, 4000%N)]) (S (nextId p))
  else p.

(** The callback of a time-out. *)
Definition timeoutCallback (p : Provider) : Provider :=
  mkProvider None None (timers p) (nextId p).

(** [ms] milliseconds pass: the time-outs that are due are taken off the
    list and their callbacks run, the others have that much less to go. *)
Definition elapse (ms : N) (p : Provider) : Provider :=
  let due := List.filter (fun t => (t.2 <=? ms)%N) (timers p) in
  let waiting :=
    List.map (fun t => (t.1, (t.2 - ms)%N))
      (List.filter (fun t => negb (t.2 <=? ms)%N) (timers p)) in
  let p := mkProvider (notification p) (timerRef p) waiting (nextId p) in
  List.fold_left (fun p _ => timeoutCallback p) due p.

Inductive event : Type :=
| Show (t : NotificationType) (m : string)
| Clear
| Elapse (ms : N).

Definition step (p : Provider) (e : event) : Provider :=
  match e with
  | Show t m => showNotification t m p
  | Clear => clearNotification p
  | Elapse ms => elapse ms p
  end.

Definition run (p : Provider) (es : list event) : Provider := List.fold_left step es p.

(** The time-outs pending are at most the one that [timerRef] holds, and
    it has time to go. *)
Definition tracked (p : Provider) : Prop :=
  match timerRef p with
  | Some id =>
      exists left, timers p = [(id, left)] /\ (0 < left)%N /\ (id < nextId p)%nat
                   /\ exists n, notification p = Some n /\ dismissesItself (type n) = true
  | None => timers p = []
  end.

Definition total (durations : list N) : N := List.fold_right N.add 0%N durations.

End NotificationContext.

(** ** The theme (useTheme.ts, and its switch in App.tsx) *)

Module Theme.

(** The hook: the theme, the entry of the local storage and whether the
    root element has the class dark. *)
Record State : Type := mkState {
  theme : string;
  storedTheme : option string;
  darkClass : bool;
}.

(** The effect on [theme]. *)
Definition themeEffect (s : State) : State :=
  mkState (theme s) (Some (theme s)) (String.eqb (theme s) "dark").

(** The hook after mounting over a storage and a document as they are. *)
Definition mount (stored : option string) (dark : bool) : State :=
  themeEffect (mkState (Host.orElse stored "light") stored dark).

Definition setTheme (t : string) (s : State) : State :=
  themeEffect (mkState t (storedTheme s) (darkClass s)).

(** The switch of the side bar. *)
Definition toggle (s : State) : State :=
  setTheme (if String.eqb (theme s) "dark" then "light" else "dark") s.

Definition reload (s : State) : State := mount (storedTheme s) (darkClass s).

End Theme.

(** ** The tutorial steps as they are edited (pages/TutorialsPage.tsx) *)

Module TutorialSteps.

Record TutorialStep : Type := mkTutorialStep {
  step_id : string;
  defaultPayload : option string;
}.

(** [toggleStep] on the set of expanded steps. *)
Definition toggleStep (stepId : string) (expandedSteps : gset string) : gset string :=
  if decide (stepId ∈ expandedSteps)
  then expandedSteps ∖ {[stepId]}
  else expandedSteps ∪ {[stepId]}.

(** [stepPayloads[step.id] ?? step.defaultPayload ?? ''] *)
Definition getPayload (stepPayloads : gmap string string) (step : TutorialStep) : string :=
  match stepPayloads !! step_id step with
  | Some p => p
  | None => match defaultPayload step with Some d => d | None => EmptyString end
  end.

Definition setPayload (stepId value : string) (stepPayloads : gmap string string)
  : gmap string string :=
  <[stepId := value]> stepPayloads.

(** The payload that [runStep] hands to the step:
    [stepPayloads[step.id] || step.defaultPayload]. *)
Definition payloadToRun (stepPayloads : gmap string string) (step : TutorialStep)
  : option string :=
  match stepPayloads !! step_id step with
  | Some p => if Js.truthy p then Some p else defaultPayload step
  | None => defaultPayload step
  end.

End TutorialSteps.

(** ** Texts around a JSON value *)

Module JsonText.

(** [follows r r']: as far as the character after a token goes, [r'] may
    stand where [r] stood: it is empty or starts with the same character. *)
Definition follows (r r' : string) : Prop :=
  match r' with
  | EmptyString => True
  | String c' _ => match r with String c _ => c = c' | EmptyString => False end
  end.

(** The last character of [s] satisfies [P]. *)
Fixpoint lastIs (P : ascii -> bool) (s : string) : bool :=
  match s with
  | EmptyString => false
  | String c r => match r with EmptyString => P c | String _ _ => lastIs P r end
  end.

Definition notWhiteSpace (c : ascii) : bool := negb (Js.isWhiteSpace c).

(** A text that [trim] leaves alone: it starts and ends with a character
    that is not white space. *)
Definition solid (s : string) : Prop :=
  (exists c t, s = String c t /\ Js.isWhiteSpace c = false)
  /\ lastIs notWhiteSpace s = true.

(** What is known of a text [s] from which the parser read a value [v]
    and left [r]: it is white space, a solid text and [r], and the same
    value is read from that solid text behind any white space and before
    any [r'] that may stand where [r] stood. *)
Definition replaysValue (fuel : nat) (s : string) (v : Json.json) (r : string) : Prop :=
  exists w body,
    s = w +:+ body +:+ r /\ Json.allWs w = true /\ solid body
    /\ forall w' r',
         Json.allWs w' = true -> follows r r' ->
         Json.parseValue fuel (w' +:+ body +:+ r') = Some (v, r').

(** Likewise for the elements of an array up to its closing bracket, and
    for the members of an object up to its closing brace. *)
Definition replaysElements (fuel : nat) (s : string) (vs : list Json.json) (r : string)
  : Prop :=
  exists pre,
    s = pre +:+ String "]" r
    /\ forall r', Json.parseElements fuel (pre +:+ String "]" r') = Some (vs, r').

Definition replaysMembers (fuel : nat) (s : string) (ms : list (string * Json.json))
    (r : string) : Prop :=
  exists pre,
    s = pre +:+ String "}" r
    /\ forall r', Json.parseMembers fuel (pre +:+ String "}" r') = Some (ms, r').

End JsonText.

(** ** More concrete values, for the statements that need one *)

Module Fixture.

(** A backend with one dense and one hybrid index; every other call
    succeeds and a vector is never found. *)
Definition listing : Client.Endee unit unit :=
  Client.mkEndee unit unit
    (Client.Returned
       (Some [Client.mkRawIndexListItem "docs" 16 120 "cosine" "float16" 1700000000 768 None;
              Client.mkRawIndexListItem "mixed" 16 40 "ip" "int8d" 1700000500 384 (Some 30000)]))
    (fun indexName => Client.Returned indexName)
    (fun _ => Json.JObject [])
    (fun _ _ => Client.Returned tt)
    (fun _ _ => Client.Returned [])
    (fun _ => Client.Returned tt)
    (fun _ => Client.Returned tt)
    (fun _ _ => Client.Returned None)
    (fun _ _ => Client.Returned tt)
    (fun _ _ => Client.Returned (Some 3)).

(** A backend that holds one vector, whatever the id asked for. *)
Definition holding : Client.Endee unit unit :=
  Client.mkEndee unit unit
    (Client.Returned (Some []))
    (fun indexName => Client.Returned indexName)
    (fun _ => Json.JObject [])
    (fun _ _ => Client.Returned tt)
    (fun _ _ => Client.Returned [])
    (fun _ => Client.Returned tt)
    (fun _ => Client.Returned tt)
    (fun _ _ => Client.Returned (Some (Json.JObject [("id", Json.JString "v1")])))
    (fun _ _ => Client.Returned tt)
    (fun _ _ => Client.Returned (Some 3)).

(** The id member of a vector, when it comes first and is a string. *)
Definition idOf (v : Json.json) : string :=
  match v with
  | Json.JObject ((_, Json.JString s) :: _) => s
  | _ => EmptyString
  end.

End Fixture.

(** ** The statements of [parseVector]'s [try] block, by the fields they read *)

Module InsertRow.

Section Row.

Variable syntaxErrorMessage : string -> string.

(** The sparse pair of a row: read on a hybrid index only. *)
Definition sparsePart (p : VectorInsertPage.Props) (input : VectorInsertPage.VectorInput)
  : result (option Json.json * option Json.json) :=
  if VectorInsertPage.isHybrid p then
    do si <- SearchPage.sparseField syntaxErrorMessage
               (VectorInsertPage.sparse_indices input);
    do sv <- SearchPage.sparseField syntaxErrorMessage
               (VectorInsertPage.sparse_values input);
    do _ <- SearchPage.sparseCheck si sv;
    Ok (si, sv)
  else Ok (None, None).

(** The statements that come before the two free-text JSON fields: the id,
    the dense vector and the sparse pair. *)
Definition vectorPart (p : VectorInsertPage.Props) (input : VectorInsertPage.VectorInput)
  : result (Json.json * (option Json.json * option Json.json)) :=
  do _ <- throwIf (negb (Js.truthy (Js.trim (VectorInsertPage.id input))))
                  "Vector ID is required";
  do vectorArray <- SearchPage.denseVector syntaxErrorMessage
                      (VectorInsertPage.vector input);
  do sparse <- sparsePart p input;
  Ok (vectorArray, sparse).

End Row.

End InsertRow.

(** ** The number fields as the specification words them *)

Module Worded.

(** The integer a text writes out: decimal digits, at least one, behind an
    optional sign, with nothing but white space around them. [None] for
    every other text: one with a fraction, an exponent or letters is not
    an integer. *)
Definition integerText (text : string) : option Z :=
  let body := Js.trim text in
  let '(sign, digits) :=
    match body with
    | String c r =>
        if Ascii.eqb c "-" then (-1, r)
        else if Ascii.eqb c "+" then (1, r)
        else (1, body)
    | EmptyString => (1, body)
    end in
  if Json.allDigits digits then
    match Js.readDigits 10 digits 0 false with
    | Some v => Some (sign * v)
    | None => None
    end
  else None.

(** "parses as a strictly positive integer" *)
Definition positiveInteger (text : string) : bool :=
  match integerText text with
  | Some n => 0 <? n
  | None => false
  end.

(** "an integer in [lo, hi]" *)
Definition integerWithin (lo hi : Z) (text : string) : bool :=
  match integerText text with
  | Some n => (lo <=? n) && (n <=? hi)
  | None => false
  end.

End Worded.

(** ** The create-index form with another text in one number field *)

Module CreateIndexForm.

Import CreateIndexPage.

Definition withDimension (x : string) (f : Form) : Form :=
  mkForm (name f) (spaceType f) x (precision f) (isHybrid f) (sparseDimension f)
    (showAdvanced f) (mParam f) (efConstruction f).
Definition withSparseDimension (x : string) (f : Form) : Form :=
  mkForm (name f) (spaceType f) (dimension f) (precision f) (isHybrid f) x
    (showAdvanced f) (mParam f) (efConstruction f).
Definition withM (x : string) (f : Form) : Form :=
  mkForm (name f) (spaceType f) (dimension f) (precision f) (isHybrid f)
    (sparseDimension f) (showAdvanced f) x (efConstruction f).
Definition withEfConstruction (x : string) (f : Form) : Form :=
  mkForm (name f) (spaceType f) (dimension f) (precision f) (isHybrid f)
    (sparseDimension f) (showAdvanced f) (mParam f) x.

End CreateIndexForm.

(** ** The client as the adapter meets it: which calls it refuses *)

Module Adapter.

Section Calls.

Variables QueryResult UpsertReply : Type.
Variable client : Client.Endee QueryResult UpsertReply.

(** What a call raised, if it did. *)
Definition raised {T : Type} (o : Client.outcome T) : option Client.thrown :=
  match o with
  | Client.Raised e => Some e
  | Client.Returned _ => None
  end.

(** What the client raises when the adapter makes the call [c] on it;
    [None] when it answers. *)
Definition answer (c : Client.call) : option Client.thrown :=
  match c with
  | Client.ListIndexes => raised (Client.listIndexes client)
  | Client.GetIndex indexName => raised (Client.getIndex client indexName)
  | Client.Upsert index vectors => raised (Client.upsert client index vectors)
  | Client.Query index options => raised (Client.query client index options)
  | Client.CreateIndex options => raised (Client.createIndex client options)
  | Client.DeleteIndex indexName => raised (Client.deleteIndex client indexName)
  | Client.GetVector index vectorId => raised (Client.getVector client index vectorId)
  | Client.DeleteVector index vectorId => raised (Client.deleteVector client index vectorId)
  | Client.DeleteWithFilter index filter =>
      raised (Client.deleteWithFilter client index filter)
  end.

End Calls.

Arguments raised {T} _.
Arguments answer {QueryResult UpsertReply} _ _.

End Adapter.

(** * Properties *)

Module JsonFacts.

Import Json.

#[local] Arguments String.append !_ _ : simpl nomatch.

Ltac by_cases_on_char c :=
  destruct c as [[] [] [] [] [] [] [] []]; vm_compute; intuition congruence.

Lemma digit_not_minus c : Js.isDigit c = true -> Ascii.eqb c "-" = false.
Proof. by_cases_on_char c. Qed.

Lemma digit_not_sign c : Js.isDigit c = true -> isSign c = false.
Proof. by_cases_on_char c. Qed.

Lemma digit_not_ws c : Js.isDigit c = true -> isWs c = false.
Proof. by_cases_on_char c. Qed.

Lemma expmark_not_digit c : isExpMark c = true -> Js.isDigit c = false.
Proof. by_cases_on_char c. Qed.

Lemma expmark_not_dot c : isExpMark c = true -> Ascii.eqb c "." = false.
Proof. by_cases_on_char c. Qed.

Lemma ws_not_digit c : isWs c = true -> Js.isDigit c = false.
Proof. by_cases_on_char c. Qed.

Lemma ws_not_dot c : isWs c = true -> Ascii.eqb c "." = false.
Proof. by_cases_on_char c. Qed.

Lemma ws_not_expmark c : isWs c = true -> isExpMark c = false.
Proof. by_cases_on_char c. Qed.


Lemma startsNumber_dispatch c :
  startsNumber c = true ->
  isWs c = false /\ Ascii.eqb c "[" = false /\ Ascii.eqb c "{" = false
  /\ (Js.charCode c =? 34)%nat = false /\ Ascii.eqb c "]" = false.
Proof. by_cases_on_char c. Qed.

Lemma append_assoc (a b c : string) : (a +:+ b) +:+ c = a +:+ (b +:+ c).
Proof. induction a as [|x a IH]; simpl; [reflexivity | now rewrite IH]. Qed.

Lemma append_empty_r (a : string) : a +:+ EmptyString = a.
Proof. induction a as [|x a IH]; simpl; [reflexivity | now rewrite IH]. Qed.

Lemma length_append (a b : string) :
  String.length (a +:+ b) = (String.length a + String.length b)%nat.
Proof. induction a as [|x a IH]; simpl; [reflexivity | now rewrite IH]. Qed.


(** *** What is left of the text is no longer than the text *)

Lemma skipWs_length s : (String.length (skipWs s) <= String.length s)%nat.
Proof.
  induction s as [|c s IH]; simpl; [lia |]. destruct (isWs c); simpl; lia.
Qed.

Lemma scanDigits_length s d r :
  scanDigits s = (d, r) -> (String.length r <= String.length s)%nat.
Proof.
  revert d r. induction s as [|c s IH]; simpl; intros d r.
  - intros [= <- <-]. simpl. lia.
  - destruct (Js.isDigit c).
    + destruct (scanDigits s) as [d' r'] eqn:Hs. intros [= <- <-].
      specialize (IH d' r' eq_refl). lia.
    + intros [= <- <-]. simpl. lia.
Qed.

Lemma scanInt_length s d r :
  scanInt s = Some (d, r) -> (String.length r < String.length s)%nat.
Proof.
  destruct s as [|c s]; simpl; [discriminate |].
  destruct (Ascii.eqb c "0"); [intros [= <- <-]; lia |].
  destruct (Js.isDigit c); [|discriminate].
  destruct (scanDigits s) as [d' r'] eqn:Hs. intros [= <- <-].
  apply scanDigits_length in Hs. lia.
Qed.

Lemma scanFrac_length s d r :
  scanFrac s = Some (d, r) -> (String.length r <= String.length s)%nat.
Proof.
  destruct s as [|c s]; simpl; [intros [= <- <-]; simpl; lia |].
  destruct (Ascii.eqb c ".").
  - destruct (scanDigits s) as [[|x d'] r'] eqn:Hs; [discriminate |].
    intros [= <- <-]. apply scanDigits_length in Hs. lia.
  - intros [= <- <-]. simpl. lia.
Qed.

Lemma scanExp_length s d r :
  scanExp s = Some (d, r) -> (String.length r <= String.length s)%nat.
Proof.
  destruct s as [|c s]; simpl; [intros [= <- <-]; simpl; lia |].
  destruct (isExpMark c); [|intros [= <- <-]; simpl; lia].
  destruct s as [|c' s'].
  - simpl. discriminate.
  - destruct (isSign c').
    + destruct (scanDigits s') as [[|x d'] r'] eqn:Hs; [discriminate |].
      intros [= <- <-]. apply scanDigits_length in Hs. simpl. lia.
    + destruct (scanDigits (String c' s')) as [[|x d'] r'] eqn:Hs; [discriminate |].
      intros [= <- <-]. apply scanDigits_length in Hs. simpl in *. lia.
Qed.

Lemma scanNumber_length s d r :
  scanNumber s = Some (d, r) -> (String.length r < String.length s)%nat.
Proof.
  unfold scanNumber.
  destruct (match s with
            | EmptyString => (EmptyString, s)
            | String c r0 =>
                if Ascii.eqb c "-" then (String c EmptyString, r0) else (EmptyString, s)
            end) as [sg s1] eqn:Hsg.
  assert (Hs1 : (String.length s1 <= String.length s)%nat).
  { destruct s as [|c s]; [injection Hsg as <- <-; lia |].
    destruct (Ascii.eqb c "-"); injection Hsg as <- <-; simpl; lia. }
  destruct (scanInt s1) as [[ip s2]|] eqn:Hi; [|discriminate].
  destruct (scanFrac s2) as [[fp s3]|] eqn:Hf; [|discriminate].
  destruct (scanExp s3) as [[ep s4]|] eqn:He; [|discriminate].
  intros [= <- <-].
  apply scanInt_length in Hi. apply scanFrac_length in Hf. apply scanExp_length in He.
  lia.
Qed.

Lemma scanString_length_upto n : forall s t r,
  (String.length s <= n)%nat ->
  scanString s = Some (t, r) -> (String.length r < String.length s)%nat.
Proof.
  induction n as [|n IH]; intros s t r Hn.
  - destruct s; [discriminate | simpl in Hn; lia].
  - destruct s as [|c s]; [discriminate |].
    cbn [scanString].
    destruct (Js.charCode c =? 34)%nat; [intros [= <- <-]; simpl; lia |].
    destruct (Js.charCode c <? 32)%nat; [discriminate |].
    destruct (Js.charCode c =? 92)%nat.
    + destruct s as [|e r1]; [discriminate |].
      destruct (isEscape e).
      * destruct (scanString r1) as [[t' r']|] eqn:Hs; [|discriminate].
        intros [= <- <-]. apply IH in Hs; simpl in *; lia.
      * destruct (Ascii.eqb e "u"); [|discriminate].
        destruct r1 as [|h1 [|h2 [|h3 [|h4 r2]]]]; try discriminate.
        destruct (isHex h1 && isHex h2 && isHex h3 && isHex h4); [|discriminate].
        destruct (scanString r2) as [[t' r']|] eqn:Hs; [|discriminate].
        intros [= <- <-]. apply IH in Hs; simpl in *; lia.
    + destruct (scanString s) as [[t' r']|] eqn:Hs; [|discriminate].
      intros [= <- <-]. apply IH in Hs; simpl in *; lia.
Qed.

Lemma scanString_length s t r :
  scanString s = Some (t, r) -> (String.length r < String.length s)%nat.
Proof. apply (scanString_length_upto (String.length s)). lia. Qed.

Lemma stripPrefix_length p : forall s r,
  stripPrefix p s = Some r -> (String.length r <= String.length s)%nat.
Proof.
  induction p as [|a p IH]; intros s r; simpl.
  - intros [= <-]. lia.
  - destruct s as [|b s]; [discriminate |].
    destruct (Ascii.eqb a b); [|discriminate].
    intros H. apply IH in H. simpl. lia.
Qed.

Lemma scanLiteral_length s v r :
  scanLiteral s = Some (v, r) -> (String.length r <= String.length s)%nat.
Proof.
  unfold scanLiteral.
  destruct (stripPrefix "true" s) eqn:H1;
    [intros [= <- <-]; now apply stripPrefix_length in H1 |].
  destruct (stripPrefix "false" s) eqn:H2;
    [intros [= <- <-]; now apply stripPrefix_length in H2 |].
  destruct (stripPrefix "null" s) eqn:H3;
    [intros [= <- <-]; now apply stripPrefix_length in H3 | discriminate].
Qed.

Lemma scanDigits_append ds rest :
  allDigits ds = true ->
  headIs (fun c => Js.isDigit c = false) rest ->
  scanDigits (ds +:+ rest) = (ds, rest).
Proof.
  induction ds as [|c ds IH]; simpl; intros Hd Hr.
  - destruct rest as [|c r]; simpl in *; [reflexivity | now rewrite Hr].
  - apply andb_true_iff in Hd as [Hc Hd]. rewrite Hc, IH by assumption. reflexivity.
Qed.

#[local] Arguments scanDigits : simpl never.

Lemma scanInt_append ip rest :
  IntPart ip ->
  headIs (fun c => Js.isDigit c = false) rest ->
  scanInt (ip +:+ rest) = Some (ip, rest).
Proof.
  intros [|c ds Hc Hnz Hd] Hr; simpl; [reflexivity |].
  destruct (Ascii.eqb_spec c "0") as [->|_]; [congruence |].
  rewrite Hc, scanDigits_append by assumption. reflexivity.
Qed.

Lemma scanFrac_append fp rest :
  FracPart fp ->
  headIs (fun c => Js.isDigit c = false /\ Ascii.eqb c "." = false) rest ->
  scanFrac (fp +:+ rest) = Some (fp, rest).
Proof.
  intros [|c ds Hd] Hr; simpl.
  - destruct rest as [|c r]; simpl in *; [reflexivity |].
    destruct Hr as [_ ->]. reflexivity.
  - change (String c (ds +:+ rest)) with (String c ds +:+ rest).
    rewrite scanDigits_append; [reflexivity | assumption |].
    destruct rest; simpl in *; tauto.
Qed.

Lemma scanExp_append ep rest :
  ExpPart ep ->
  headIs (fun c => Js.isDigit c = false /\ isExpMark c = false) rest ->
  scanExp (ep +:+ rest) = Some (ep, rest).
Proof.
  intros [|e sg c ds He Hsg Hd] Hr; simpl.
  - destruct rest as [|c r]; simpl in *; [reflexivity |].
    destruct Hr as [_ ->]. reflexivity.
  - rewrite He.
    assert (Hrest : headIs (fun c => Js.isDigit c = false) rest)
      by (destruct rest; simpl in *; tauto).
    pose proof Hd as Hd'. simpl in Hd'. apply andb_true_iff in Hd' as [Hc _].
    destruct Hsg as [-> | [-> | ->]]; simpl.
    + rewrite (digit_not_sign c Hc).
      change (String c (ds +:+ rest)) with (String c ds +:+ rest).
      rewrite scanDigits_append by assumption. reflexivity.
    + change (String c (ds +:+ rest)) with (String c ds +:+ rest).
      rewrite scanDigits_append by assumption. reflexivity.
    + change (String c (ds +:+ rest)) with (String c ds +:+ rest).
      rewrite scanDigits_append by assumption. reflexivity.
Qed.


Lemma IntPart_head ip : IntPart ip -> exists c r, ip = String c r /\ Js.isDigit c = true.
Proof. intros [|c ds Hc _ _]; eauto. Qed.

Lemma scanNumber_append lit rest :
  NumberLiteral lit -> delimited rest ->
  scanNumber (lit +:+ rest) = Some (lit, rest).
Proof.
  intros [sg ip fp ep Hsg Hip Hfp Hep] Hr.
  rewrite !append_assoc.
  assert (Hexp : headIs (fun c => Js.isDigit c = false /\ Ascii.eqb c "." = false)
                        (ep +:+ rest)).
  { destruct Hep as [|e sg' c ds He _ _]; simpl.
    - destruct rest; simpl in *; tauto.
    - split; [now apply expmark_not_digit | now apply expmark_not_dot]. }
  assert (Hfrac : headIs (fun c => Js.isDigit c = false) (fp +:+ ep +:+ rest)).
  { destruct Hfp as [|c ds _]; simpl.
    - destruct (ep +:+ rest); simpl in *; tauto.
    - reflexivity. }
  assert (Hbody : match scanInt (ip +:+ fp +:+ ep +:+ rest) with
                  | None => None
                  | Some (ip', s2) =>
                      match scanFrac s2 with
                      | None => None
                      | Some (fp', s3) =>
                          match scanExp s3 with
                          | None => None
                          | Some (ep', s4) => Some (ip' +:+ fp' +:+ ep', s4)
                          end
                      end
                  end = Some (ip +:+ fp +:+ ep, rest)).
  { rewrite scanInt_append, scanFrac_append, scanExp_append; try assumption.
    - reflexivity.
    - destruct rest; simpl in *; tauto. }
  unfold scanNumber.
  destruct Hsg as [-> | ->]; simpl.
  - destruct (IntPart_head ip Hip) as (c & r & -> & Hc). simpl.
    rewrite (digit_not_minus c Hc).
    change (String c (r +:+ fp +:+ ep +:+ rest)) with (String c r +:+ fp +:+ ep +:+ rest).
    destruct (scanInt _) as [[ip' s2]|]; [|discriminate].
    destruct (scanFrac s2) as [[fp' s3]|]; [|discriminate].
    destruct (scanExp s3) as [[ep' s4]|]; [|discriminate].
    exact Hbody.
  - destruct (scanInt _) as [[ip' s2]|]; [|discriminate].
    destruct (scanFrac s2) as [[fp' s3]|]; [|discriminate].
    destruct (scanExp s3) as [[ep' s4]|]; [|discriminate].
    injection Hbody as <- <-. reflexivity.
Qed.

Lemma NumberLiteral_head lit :
  NumberLiteral lit -> exists c r, lit = String c r /\ startsNumber c = true.
Proof.
  intros [sg ip fp ep Hsg Hip _ _].
  destruct Hsg as [-> | ->]; simpl.
  - destruct (IntPart_head ip Hip) as (c & r & -> & Hc). simpl.
    exists c, (r +:+ fp +:+ ep). split; [reflexivity |].
    unfold startsNumber. rewrite Hc. apply orb_true_r.
  - eexists _, _. split; reflexivity.
Qed.

Lemma skipWs_append w s : allWs w = true -> skipWs (w +:+ s) = skipWs s.
Proof.
  induction w as [|c w IH]; simpl; intros H; [reflexivity |].
  apply andb_true_iff in H as [-> H]. auto.
Qed.

Lemma skipWs_head c r : isWs c = false -> skipWs (String c r) = String c r.
Proof. intros H. simpl. now rewrite H. Qed.

Lemma parseValue_S fuel s :
  parseValue (S fuel) s =
  match skipWs s with
  | EmptyString => None
  | String c r =>
      if Ascii.eqb c "[" then
        match skipWs r with
        | String c' r' =>
            if Ascii.eqb c' "]" then Some (JArray [], r')
            else match parseElements fuel r with
                 | Some (vs, r'') => Some (JArray vs, r'')
                 | None => None
                 end
        | EmptyString => None
        end
      else if Ascii.eqb c "{" then
        match skipWs r with
        | String c' r' =>
            if Ascii.eqb c' "}" then Some (JObject [], r')
            else match parseMembers fuel r with
                 | Some (ms, r'') => Some (JObject ms, r'')
                 | None => None
                 end
        | EmptyString => None
        end
      else if (Js.charCode c =? 34)%nat then
        match scanString r with
        | Some (t, r') => Some (JString t, r')
        | None => None
        end
      else if Ascii.eqb c "-" || Js.isDigit c then
        match scanNumber (String c r) with
        | Some (lit, r') => Some (JNumber lit, r')
        | None => None
        end
      else scanLiteral (String c r)
  end.
Proof. reflexivity. Qed.

Lemma parseElements_S fuel s :
  parseElements (S fuel) s =
  match parseValue fuel s with
  | None => None
  | Some (v, r) =>
      match skipWs r with
      | String c r' =>
          if Ascii.eqb c "," then
            match parseElements fuel r' with
            | Some (vs, r'') => Some (v :: vs, r'')
            | None => None
            end
          else if Ascii.eqb c "]" then Some ([v], r')
          else None
      | EmptyString => None
      end
  end.
Proof. reflexivity. Qed.

#[local] Arguments scanNumber : simpl never.

(** A number literal behind white space is read as one number, up to the
    delimiter that follows it. *)
Lemma parseValue_number fuel w lit rest :
  allWs w = true -> NumberLiteral lit -> delimited rest ->
  parseValue (S fuel) (w +:+ lit +:+ rest) = Some (JNumber lit, rest).
Proof.
  intros Hw Hlit Hdel.
  destruct (NumberLiteral_head lit Hlit) as (x & r & Hx & Hstart).
  destruct (startsNumber_dispatch x Hstart) as (Hws & Hb & Hcb & Hq & _).
  pose proof (scanNumber_append lit rest Hlit Hdel) as Hscan.
  rewrite parseValue_S, skipWs_append by assumption.
  rewrite Hx in Hscan |- *. simpl String.append in Hscan |- *.
  rewrite skipWs_head by assumption.
  rewrite Hb, Hcb, Hq. unfold startsNumber in Hstart. rewrite Hstart, Hscan.
  reflexivity.
Qed.

Lemma delimited_ws_then w c rest :
  allWs w = true -> (c = ","%char \/ c = "]"%char) ->
  delimited (w +:+ String c rest).
Proof.
  intros Hw Hc. destruct w as [|x w]; simpl.
  - destruct Hc as [-> | ->]; vm_compute; tauto.
  - simpl in Hw. apply andb_true_iff in Hw as [Hx _].
    auto using ws_not_digit, ws_not_dot, ws_not_expmark.
Qed.

(** A numeric token is read as one number; its trailing white space and
    the delimiter are left. *)
Lemma parseValue_token fuel w1 lit w2 c rest :
  allWs w1 = true -> NumberLiteral lit -> allWs w2 = true ->
  (c = ","%char \/ c = "]"%char) ->
  parseValue (S fuel) ((w1 +:+ lit +:+ w2) +:+ String c rest)
  = Some (JNumber lit, w2 +:+ String c rest)
  /\ skipWs (w2 +:+ String c rest) = String c rest.
Proof.
  intros Hw1 Hlit Hw2 Hc. split.
  - rewrite !append_assoc.
    apply parseValue_number; auto using delimited_ws_then.
  - rewrite skipWs_append by assumption. apply skipWs_head.
    destruct Hc as [-> | ->]; reflexivity.
Qed.

(** The elements of an array of numeric tokens: one item per token. *)
Lemma parseElements_tokens tokens :
  tokens <> [] -> Forall NumericToken tokens ->
  forall fuel rest, (length tokens < fuel)%nat ->
  exists items,
    parseElements fuel (joinCommas tokens +:+ String "]" rest) = Some (items, rest)
    /\ length items = length tokens
    /\ forallb isNumber items = true.
Proof.
  induction tokens as [|t ts IH]; [congruence |].
  intros _ Hall fuel rest Hfuel.
  apply Forall_cons in Hall as [Ht Hts].
  destruct fuel as [|[|fuel]]; [simpl in Hfuel; lia .. |].
  destruct Ht as [w1 lit w2 Hw1 Hlit Hw2].
  destruct ts as [|t2 ts].
  - destruct (parseValue_token fuel w1 lit w2 "]" rest) as [Hv Hs]; auto.
    exists [JNumber lit]. simpl joinCommas.
    rewrite parseElements_S, Hv, Hs. auto.
  - destruct (IH ltac:(discriminate) Hts (S fuel) rest) as (items & Hp & Hlen & Hnum).
    { simpl in *. lia. }
    destruct (parseValue_token fuel w1 lit w2 ","
                (joinCommas (t2 :: ts) +:+ String "]" rest)) as [Hv Hs]; auto.
    exists (JNumber lit :: items).
    change (joinCommas ((w1 +:+ lit +:+ w2) :: t2 :: ts))
      with ((w1 +:+ lit +:+ w2) +:+ "," +:+ joinCommas (t2 :: ts)).
    rewrite (append_assoc (w1 +:+ lit +:+ w2)).
    change (("," +:+ joinCommas (t2 :: ts)) +:+ String "]" rest)
      with (String "," (joinCommas (t2 :: ts) +:+ String "]" rest)).
    rewrite parseElements_S, Hv, Hs.
    replace (Ascii.eqb "," ",") with true by reflexivity.
    rewrite Hp. simpl. rewrite Hlen, Hnum. auto.
Qed.

Lemma NumericToken_nonempty t : NumericToken t -> (1 <= String.length t)%nat.
Proof.
  intros [w1 lit w2 _ Hlit _].
  destruct (NumberLiteral_head lit Hlit) as (c & r & -> & _).
  rewrite !length_append. simpl. lia.
Qed.

Lemma joinCommas_length tokens :
  Forall NumericToken tokens -> (length tokens <= String.length (joinCommas tokens))%nat.
Proof.
  induction 1 as [|t ts Ht _ IH]; [simpl; lia |].
  apply NumericToken_nonempty in Ht.
  destruct ts as [|t2 ts]; [simpl in *; lia |].
  change (joinCommas (t :: t2 :: ts)) with (t +:+ "," +:+ joinCommas (t2 :: ts)).
  rewrite !length_append. simpl in *. lia.
Qed.

Lemma joinCommas_head tokens :
  tokens <> [] -> Forall NumericToken tokens ->
  exists c r, skipWs (joinCommas tokens +:+ "]") = String c r
              /\ Ascii.eqb c "]" = false.
Proof.
  destruct tokens as [|t ts]; [congruence |]. intros _ Hall.
  apply Forall_cons in Hall as [[w1 lit w2 Hw1 Hlit Hw2] _].
  destruct (NumberLiteral_head lit Hlit) as (c & r & -> & Hstart).
  destruct (startsNumber_dispatch c Hstart) as (Hws & _ & _ & _ & Hrb).
  assert (Hshape : exists tail,
             joinCommas ((w1 +:+ String c r +:+ w2) :: ts) +:+ "]"
             = w1 +:+ String c tail).
  { destruct ts as [|t2 ts].
    - exists (r +:+ w2 +:+ "]"). cbn [joinCommas].
      rewrite !append_assoc. reflexivity.
    - exists (r +:+ w2 +:+ "," +:+ joinCommas (t2 :: ts) +:+ "]").
      change (joinCommas ((w1 +:+ String c r +:+ w2) :: t2 :: ts))
        with ((w1 +:+ String c r +:+ w2) +:+ "," +:+ joinCommas (t2 :: ts)).
      rewrite !append_assoc. reflexivity. }
  destruct Hshape as [tail ->].
  exists c, tail. rewrite skipWs_append, skipWs_head by assumption. auto.
Qed.

(** A comma-separated list of numeric tokens between brackets parses to an
    array with one number per token. *)
Lemma parse_numeric_list tokens :
  tokens <> [] -> Forall NumericToken tokens ->
  exists items,
    parse ("[" +:+ joinCommas tokens +:+ "]") = Some (JArray items)
    /\ length items = length tokens
    /\ forallb isNumber items = true.
Proof.
  intros Hne Hall.
  set (text := String "[" (joinCommas tokens +:+ "]")).
  destruct (parseElements_tokens tokens Hne Hall (2 * String.length text) EmptyString)
    as (items & Hp & Hlen & Hnum).
  { pose proof (joinCommas_length tokens Hall).
    subst text. cbn [String.length]. rewrite length_append. lia. }
  destruct (joinCommas_head tokens Hne Hall) as (c & r & Hhead & Hc).
  exists items. split; [|auto].
  unfold parse. change ("[" +:+ joinCommas tokens +:+ "]") with text.
  rewrite parseValue_S. subst text.
  rewrite skipWs_head by reflexivity.
  replace (Ascii.eqb "[" "[") with true by reflexivity.
  rewrite Hhead, Hc, Hp. reflexivity.
Qed.

Lemma parseMembers_S fuel s :
  parseMembers (S fuel) s =
  match skipWs s with
  | String q r =>
      if (Js.charCode q =? 34)%nat then
        match scanString r with
        | None => None
        | Some (key, r1) =>
            match skipWs r1 with
            | String colon r2 =>
                if Ascii.eqb colon ":" then
                  match parseValue fuel r2 with
                  | None => None
                  | Some (v, r3) =>
                      match skipWs r3 with
                      | String c r4 =>
                          if Ascii.eqb c "," then
                            match parseMembers fuel r4 with
                            | Some (ms, r5) => Some ((key, v) :: ms, r5)
                            | None => None
                            end
                          else if Ascii.eqb c "}" then Some ([(key, v)], r4)
                          else None
                      | EmptyString => None
                      end
                  end
                else None
            | EmptyString => None
            end
        end
      else None
  | EmptyString => None
  end.
Proof. reflexivity. Qed.

Lemma skipWs_cons_length s c r :
  skipWs s = String c r -> (S (String.length r) <= String.length s)%nat.
Proof. intros H. pose proof (skipWs_length s) as Hl. rewrite H in Hl. exact Hl. Qed.

(** *** Fuel *)

(** What a parse leaves is no longer than what it was given. *)
Lemma parse_rest_length fuel :
  (forall s v r, parseValue fuel s = Some (v, r) ->
                 (String.length r <= String.length s)%nat)
  /\ (forall s vs r, parseElements fuel s = Some (vs, r) ->
                     (String.length r <= String.length s)%nat)
  /\ (forall s ms r, parseMembers fuel s = Some (ms, r) ->
                     (String.length r <= String.length s)%nat).
Proof.
  induction fuel as [|fuel (IHv & IHe & IHm)]; [repeat split; discriminate |].
  split; [|split].
  - intros s v r. rewrite parseValue_S.
    destruct (skipWs s) as [|c t] eqn:Hs; [discriminate |].
    apply skipWs_cons_length in Hs.
    destruct (Ascii.eqb c "[").
    { destruct (skipWs t) as [|c' t'] eqn:Ht; [discriminate |].
      apply skipWs_cons_length in Ht.
      destruct (Ascii.eqb c' "]"); [intros [= <- <-]; lia |].
      destruct (parseElements fuel t) as [[vs r']|] eqn:He; [|discriminate].
      intros [= <- <-]. apply IHe in He. lia. }
    destruct (Ascii.eqb c "{").
    { destruct (skipWs t) as [|c' t'] eqn:Ht; [discriminate |].
      apply skipWs_cons_length in Ht.
      destruct (Ascii.eqb c' "}"); [intros [= <- <-]; lia |].
      destruct (parseMembers fuel t) as [[ms r']|] eqn:He; [|discriminate].
      intros [= <- <-]. apply IHm in He. lia. }
    destruct (Js.charCode c =? 34)%nat.
    { destruct (scanString t) as [[x r']|] eqn:Hx; [|discriminate].
      intros [= <- <-]. apply scanString_length in Hx. lia. }
    destruct (Ascii.eqb c "-" || Js.isDigit c).
    { destruct (scanNumber (String c t)) as [[x r']|] eqn:Hx; [|discriminate].
      intros [= <- <-]. apply scanNumber_length in Hx. simpl in Hx. lia. }
    intros H. apply scanLiteral_length in H. simpl in H. lia.
  - intros s vs r. rewrite parseElements_S.
    destruct (parseValue fuel s) as [[v t]|] eqn:Hv; [|discriminate].
    apply IHv in Hv.
    destruct (skipWs t) as [|c t'] eqn:Ht; [discriminate |].
    apply skipWs_cons_length in Ht.
    destruct (Ascii.eqb c ",").
    { destruct (parseElements fuel t') as [[vs' r']|] eqn:He; [|discriminate].
      intros [= <- <-]. apply IHe in He. lia. }
    destruct (Ascii.eqb c "]"); [|discriminate]. intros [= <- <-]. lia.
  - intros s ms r. rewrite parseMembers_S.
    destruct (skipWs s) as [|q t] eqn:Hs; [discriminate |].
    apply skipWs_cons_length in Hs.
    destruct (Js.charCode q =? 34)%nat; [|discriminate].
    destruct (scanString t) as [[key r1]|] eqn:Hk; [|discriminate].
    apply scanString_length in Hk.
    destruct (skipWs r1) as [|colon r2] eqn:Hc; [discriminate |].
    apply skipWs_cons_length in Hc.
    destruct (Ascii.eqb colon ":"); [|discriminate].
    destruct (parseValue fuel r2) as [[v r3]|] eqn:Hv; [|discriminate].
    apply IHv in Hv.
    destruct (skipWs r3) as [|c r4] eqn:H4; [discriminate |].
    apply skipWs_cons_length in H4.
    destruct (Ascii.eqb c ",").
    { destruct (parseMembers fuel r4) as [[ms' r5]|] eqn:He; [|discriminate].
      intros [= <- <-]. apply IHm in He. lia. }
    destruct (Ascii.eqb c "}"); [|discriminate]. intros [= <- <-]. lia.
Qed.

(** With fuel above twice the length of the text, more fuel gives the same
    result: no text fails for want of fuel. *)
Lemma parse_fuel_stable fuel :
  (forall s more, (2 * String.length s < fuel)%nat -> (fuel <= more)%nat ->
                  parseValue more s = parseValue fuel s)
  /\ (forall s more, (2 * String.length s + 1 < fuel)%nat -> (fuel <= more)%nat ->
                     parseElements more s = parseElements fuel s)
  /\ (forall s more, (2 * String.length s + 1 < fuel)%nat -> (fuel <= more)%nat ->
                     parseMembers more s = parseMembers fuel s).
Proof.
  induction fuel as [|fuel (IHv & IHe & IHm)]; [repeat split; intros; lia |].
  destruct (parse_rest_length fuel) as (Lv & _ & _).
  split; [|split].
  - intros s [|more] Hs Hm; [lia |]. rewrite !parseValue_S.
    destruct (skipWs s) as [|c t] eqn:Ht; [reflexivity |].
    apply skipWs_cons_length in Ht.
    rewrite (IHe t more), (IHm t more) by lia. reflexivity.
  - intros s [|more] Hs Hm; [lia |]. rewrite !parseElements_S.
    rewrite (IHv s more) by lia.
    destruct (parseValue fuel s) as [[v t]|] eqn:Hv; [|reflexivity].
    apply Lv in Hv.
    destruct (skipWs t) as [|c t'] eqn:Ht; [reflexivity |].
    apply skipWs_cons_length in Ht.
    rewrite (IHe t' more) by lia. reflexivity.
  - intros s [|more] Hs Hm; [lia |]. rewrite !parseMembers_S.
    destruct (skipWs s) as [|q t] eqn:Ht; [reflexivity |].
    apply skipWs_cons_length in Ht.
    destruct (Js.charCode q =? 34)%nat; [|reflexivity].
    destruct (scanString t) as [[key r1]|] eqn:Hk; [|reflexivity].
    apply scanString_length in Hk.
    destruct (skipWs r1) as [|colon r2] eqn:Hc; [reflexivity |].
    apply skipWs_cons_length in Hc.
    destruct (Ascii.eqb colon ":"); [|reflexivity].
    rewrite (IHv r2 more) by lia.
    destruct (parseValue fuel r2) as [[v r3]|] eqn:Hv; [|reflexivity].
    apply Lv in Hv.
    destruct (skipWs r3) as [|c r4] eqn:H4; [reflexivity |].
    apply skipWs_cons_length in H4.
    rewrite (IHm r4 more) by lia. reflexivity.
Qed.

(** The fuel that [parse] gives is enough. *)
Lemma parse_fuel_enough text more :
  parseValue (S (2 * String.length text) + more) text
  = parseValue (S (2 * String.length text)) text.
Proof.
  destruct (parse_fuel_stable (S (2 * String.length text))) as (H & _ & _).
  apply H; lia.
Qed.

(** A text that opens with a bracket parses to an array, if it parses. *)
Lemma parse_bracketed_array s v :
  parse (String "[" s) = Some v -> isArray v = true.
Proof.
  unfold parse. rewrite parseValue_S, skipWs_head by reflexivity.
  replace (Ascii.eqb "[" "[") with true by reflexivity.
  destruct (skipWs s) as [|c r]; [discriminate |].
  destruct (Ascii.eqb c "]").
  - destruct (skipWs r); [|discriminate]. now intros [= <-].
  - destruct (parseElements _ s) as [[vs r']|]; [|discriminate].
    destruct (skipWs r'); [|discriminate]. now intros [= <-].
Qed.

Example parse_empty_brackets : parse "[]" = Some (JArray []).
Proof. reflexivity. Qed.

Example parse_numbers :
  parse "[1, 2.5, -3e+5 ,0]"
  = Some (JArray [JNumber "1"; JNumber "2.5"; JNumber "-3e+5"; JNumber "0"]).
Proof. reflexivity. Qed.

Example parse_nested :
  parse "[[1, [true, null]], {}]"
  = Some (JArray [JArray [JNumber "1"; JArray [JBool true; JNull]]; JObject []]).
Proof. reflexivity. Qed.

Example parse_rejects :
  parse "[01]" = None /\ parse "[1,]" = None /\ parse "[.5]" = None
  /\ parse "[1.]" = None /\ parse "[+1]" = None /\ parse "[1 2]" = None
  /\ parse "[1]]" = None /\ parse "[NaN]" = None /\ parse EmptyString = None.
Proof. repeat split; reflexivity. Qed.

(** [parseInt] reads a prefix: what follows the digits is dropped. *)
Example parseInt_reads_a_prefix :
  Js.parseInt "12abc" = Some 12 /\ Js.parseInt "1.5" = Some 1
  /\ Js.parseInt "1e3" = Some 1 /\ Js.parseInt "  7" = Some 7
  /\ Js.parseInt "0x1F" = Some 31 /\ Js.parseInt "-0" = Some 0
  /\ Js.parseInt "+" = None /\ Js.parseInt "0x" = None.
Proof. repeat split; reflexivity. Qed.

End JsonFacts.
(** ** Numbers read with [parseInt]: the digits *)

Module DigitsFacts.

#[local] Arguments String.append !_ _ : simpl nomatch.

Lemma digitIn_digit (c : ascii) :
  Js.isDigit c = true -> exists v, Js.digitIn 10 c = Some v /\ 0 <= v.
Proof.
  unfold Js.isDigit, Js.digitIn, Js.hexValue. intros H. rewrite H.
  apply andb_true_iff in H as [H1 H2].
  apply Nat.leb_le in H1, H2.
  destruct (Z.of_nat (Js.charCode c) - 48 <? 10) eqn:Hlt.
  - eexists. split; [reflexivity | lia].
  - apply Z.ltb_ge in Hlt. lia.
Qed.

Lemma digitIn_other (c : ascii) : Js.isDigit c = false -> Js.digitIn 10 c = None.
Proof.
  unfold Js.isDigit, Js.digitIn, Js.hexValue. intros H. rewrite H.
  destruct ((65 <=? Js.charCode c)%nat && (Js.charCode c <=? 70)%nat) eqn:H1.
  - apply andb_true_iff in H1 as [Ha Hb]. apply Nat.leb_le in Ha, Hb.
    destruct (Z.of_nat (Js.charCode c) - 55 <? 10) eqn:Hlt; [|reflexivity].
    apply Z.ltb_lt in Hlt. lia.
  - destruct ((97 <=? Js.charCode c)%nat && (Js.charCode c <=? 102)%nat) eqn:H2;
      [|reflexivity].
    apply andb_true_iff in H2 as [Ha Hb]. apply Nat.leb_le in Ha, Hb.
    destruct (Z.of_nat (Js.charCode c) - 87 <? 10) eqn:Hlt; [|reflexivity].
    apply Z.ltb_lt in Hlt. lia.
Qed.

(** What may follow the digits without being read with them. *)
Abbreviation stops :=
  (Json.headIs (fun c => Js.isDigit c = false /\ Ascii.eqb c "x" = false
                         /\ Ascii.eqb c "X" = false)).

Lemma readDigits_stops (ds rest : string) (acc : Z) (seen : bool) :
  Json.allDigits ds = true -> stops rest ->
  Js.readDigits 10 (ds +:+ rest) acc seen = Js.readDigits 10 ds acc seen.
Proof.
  revert acc seen. induction ds as [|c ds IH]; intros acc seen Hd Hr.
  - simpl. destruct rest as [|c r]; [reflexivity|].
    simpl in Hr. destruct Hr as [Hc _]. simpl. now rewrite (digitIn_other c Hc).
  - simpl in Hd. apply andb_true_iff in Hd as [Hc Hd].
    destruct (digitIn_digit c Hc) as (v & Hv & _).
    simpl. rewrite Hv. now apply IH.
Qed.

Lemma digit_plain (c : ascii) :
  Js.isDigit c = true ->
  Js.isWhiteSpace c = false /\ Ascii.eqb c "-" = false /\ Ascii.eqb c "+" = false
  /\ Ascii.eqb c "x" = false /\ Ascii.eqb c "X" = false.
Proof.
  unfold Js.isDigit, Js.isWhiteSpace. intros H.
  apply andb_true_iff in H as [H1 H2]. apply Nat.leb_le in H1, H2.
  assert (Hne : forall d : ascii, Js.charCode d <> Js.charCode c -> Ascii.eqb c d = false).
  { intros d Hd. apply Ascii.eqb_neq. intros ->. now apply Hd. }
  repeat split.
  - destruct (9 <=? Js.charCode c)%nat eqn:Ha, (Js.charCode c <=? 13)%nat eqn:Hb,
      (Js.charCode c =? 32)%nat eqn:Hc, (Js.charCode c =? 160)%nat eqn:Hd;
      try reflexivity;
      repeat match goal with
             | H : (_ <=? _)%nat = true |- _ => apply Nat.leb_le in H
             | H : (_ =? _)%nat = true |- _ => apply Nat.eqb_eq in H
             end; lia.
  - apply Hne. change (Js.charCode "-") with 45%nat. lia.
  - apply Hne. change (Js.charCode "+") with 43%nat. lia.
  - apply Hne. change (Js.charCode "x") with 120%nat. lia.
  - apply Hne. change (Js.charCode "X") with 88%nat. lia.
Qed.

(** [parseInt] reads the digits a text starts with and ignores what comes
    after them. *)
Lemma parseInt_leading_digits (ds rest : string) :
  Json.allDigits ds = true -> ds <> EmptyString -> stops rest ->
  Js.parseInt (ds +:+ rest) = Js.parseInt ds.
Proof.
  intros Hd Hne Hr. destruct ds as [|c ds]; [contradiction|].
  pose proof Hd as Hd'. simpl in Hd'. apply andb_true_iff in Hd' as [Hc Hds].
  destruct (digit_plain c Hc) as (Hw & Hm & Hp & _).
  unfold Js.parseInt.
  change (String c ds +:+ rest) with (String c (ds +:+ rest)).
  cbn [Js.trimStart]. rewrite Hw, Hm, Hp.
  assert (Hx : forall s : string,
             match s with
             | String cx _ => Ascii.eqb cx "x" = false /\ Ascii.eqb cx "X" = false
             | EmptyString => True
             end ->
             (let '(radix, s3) :=
                match String c s with
                | String c0 (String cx r) =>
                    if Ascii.eqb c0 "0" && (Ascii.eqb cx "x" || Ascii.eqb cx "X")
                    then (16, r) else (10, String c s)
                | _ => (10, String c s)
                end in
              match Js.readDigits radix s3 0 false with
              | Some v => Some (1 * v)
              | None => None
              end)
             = match Js.readDigits 10 (String c s) 0 false with
               | Some v => Some (1 * v)
               | None => None
               end).
  { intros [|cx r] H; [reflexivity|]. destruct H as [-> ->].
    now rewrite andb_false_r. }
  rewrite (Hx ds), (Hx (ds +:+ rest)).
  - change (String c (ds +:+ rest)) with (String c ds +:+ rest).
    now rewrite readDigits_stops.
  - destruct ds as [|cx r]; simpl.
    + destruct rest as [|cr rr]; [exact I|]. simpl in Hr. tauto.
    + simpl in Hds. apply andb_true_iff in Hds as [Hcx _].
      destruct (digit_plain cx Hcx) as (_ & _ & _ & H1 & H2). auto.
  - destruct ds as [|cx r]; [exact I|].
    simpl in Hds. apply andb_true_iff in Hds as [Hcx _].
    destruct (digit_plain cx Hcx) as (_ & _ & _ & H1 & H2). auto.
Qed.

(** White space ends the digits. *)
Lemma white_stops (c : ascii) :
  Js.isWhiteSpace c = true ->
  Js.isDigit c = false /\ Ascii.eqb c "x" = false /\ Ascii.eqb c "X" = false.
Proof.
  unfold Js.isWhiteSpace, Js.isDigit. intros H.
  assert (Hc : (9 <= Js.charCode c <= 13)%nat \/ Js.charCode c = 32%nat
               \/ Js.charCode c = 160%nat).
  { apply orb_true_iff in H as [H | H].
    - apply orb_true_iff in H as [H | H].
      + apply andb_true_iff in H as [H1 H2]. apply Nat.leb_le in H1, H2. lia.
      + apply Nat.eqb_eq in H. lia.
    - apply Nat.eqb_eq in H. lia. }
  assert (Hne : forall d : ascii, Js.charCode d <> Js.charCode c -> Ascii.eqb c d = false).
  { intros d Hd. apply Ascii.eqb_neq. intros ->. now apply Hd. }
  repeat split.
  - destruct (48 <=? Js.charCode c)%nat eqn:Ha, (Js.charCode c <=? 57)%nat eqn:Hb;
      try reflexivity.
    apply Nat.leb_le in Ha, Hb. lia.
  - apply Hne. change (Js.charCode "x") with 120%nat. lia.
  - apply Hne. change (Js.charCode "X") with 88%nat. lia.
Qed.

(** What [trimEnd] removes is white space. *)
Lemma trimEnd_split (s : string) :
  exists ws,
    s = Js.trimEnd s +:+ ws /\ Json.headIs (fun c => Js.isWhiteSpace c = true) ws.
Proof.
  induction s as [|c r (ws & Hr & Hws)].
  - exists EmptyString. split; [reflexivity | exact I].
  - cbn [Js.trimEnd]. destruct (Js.trimEnd r) as [|c' r'] eqn:Ht.
    + simpl in Hr. subst ws. destruct (Js.isWhiteSpace c) eqn:Hc.
      * exists (String c r). split; [reflexivity | exact Hc].
      * exists r. split; [reflexivity | exact Hws].
    + exists ws. split; [|exact Hws]. simpl. simpl in Hr. now rewrite <- Hr.
Qed.

Lemma trimStart_split (s : string) :
  exists ws,
    Js.trimStart s = Js.trim s +:+ ws
    /\ Json.headIs (fun c => Js.isWhiteSpace c = true) ws.
Proof. unfold Js.trim. apply trimEnd_split. Qed.

Lemma stops_white (ws : string) :
  Json.headIs (fun c => Js.isWhiteSpace c = true) ws -> stops ws.
Proof. destruct ws as [|c r]; [auto |]. simpl. apply white_stops. Qed.

(** After the sign: decimal digits are read in radix ten, up to what ends
    them. *)
Lemma decimal_tail (sign : Z) (ds rest : string) :
  Json.allDigits ds = true -> ds <> EmptyString -> stops rest ->
  (let '(radix, s3) :=
     match ds +:+ rest with
     | String c0 (String cx r) =>
         if Ascii.eqb c0 "0" && (Ascii.eqb cx "x" || Ascii.eqb cx "X")
         then (16, r) else (10, ds +:+ rest)
     | _ => (10, ds +:+ rest)
     end in
   match Js.readDigits radix s3 0 false with
   | Some v => Some (sign * v)
   | None => None
   end)
  = match Js.readDigits 10 ds 0 false with
    | Some v => Some (sign * v)
    | None => None
    end.
Proof.
  intros Hd Hne Hr. rewrite <- (readDigits_stops ds rest 0 false Hd Hr).
  destruct ds as [|c ds]; [contradiction |].
  simpl in Hd. apply andb_true_iff in Hd as [Hc Hds].
  change (String c ds +:+ rest) with (String c (ds +:+ rest)).
  destruct (ds +:+ rest) as [|cx r] eqn:Hs; [reflexivity |].
  assert (Hx : Ascii.eqb cx "x" = false /\ Ascii.eqb cx "X" = false).
  { destruct ds as [|d ds'].
    - simpl in Hs. subst rest. simpl in Hr. tauto.
    - simpl in Hs. injection Hs as <- _. simpl in Hds.
      apply andb_true_iff in Hds as [Hd' _].
      destruct (digit_plain d Hd') as (_ & _ & _ & H1 & H2). auto. }
  destruct Hx as [-> ->]. now rewrite andb_false_r.
Qed.

(** An integer written out is read by [parseInt] as itself. *)
Lemma integerText_parseInt (text : string) (n : Z) :
  Worded.integerText text = Some n -> Js.parseInt text = Some n.
Proof.
  unfold Worded.integerText, Js.parseInt.
  destruct (trimStart_split text) as (ws & -> & Hws). apply stops_white in Hws.
  cbv zeta. destruct (Js.trim text) as [|c body].
  - simpl. discriminate.
  - change (String c body +:+ ws) with (String c (body +:+ ws)).
    cbv beta iota.
    destruct (Ascii.eqb c "-") eqn:Hm; [|destruct (Ascii.eqb c "+") eqn:Hp];
      cbv beta iota.
    + destruct (Json.allDigits body) eqn:Hd; [|discriminate].
      destruct body as [|d body]; [discriminate |]. intros H.
      etransitivity; [apply (decimal_tail (-1) (String d body) ws Hd); auto; discriminate |].
      exact H.
    + destruct (Json.allDigits body) eqn:Hd; [|discriminate].
      destruct body as [|d body]; [discriminate |]. intros H.
      etransitivity; [apply (decimal_tail 1 (String d body) ws Hd); auto; discriminate |].
      exact H.
    + destruct (Json.allDigits (String c body)) eqn:Hd; [|discriminate]. intros H.
      change (String c (body +:+ ws)) with (String c body +:+ ws).
      etransitivity; [apply (decimal_tail 1 (String c body) ws Hd); auto; discriminate |].
      exact H.
Qed.

(** [trimEnd] keeps everything up to a character that is not white
    space. *)
Lemma trimEnd_keeps (a : string) (c : ascii) (b : string) :
  Js.isWhiteSpace c = false ->
  exists b', Js.trimEnd (a +:+ String c b) = a +:+ String c b'.
Proof.
  intros Hc. induction a as [|x a [b' IH]].
  - change (EmptyString +:+ String c b) with (String c b). cbn [Js.trimEnd].
    destruct (Js.trimEnd b) as [|y r].
    + rewrite Hc. now exists EmptyString.
    + now exists (String y r).
  - change (String x a +:+ String c b) with (String x (a +:+ String c b)).
    cbn [Js.trimEnd]. rewrite IH. exists b'.
    destruct a; reflexivity.
Qed.

Lemma allDigits_stopped (a : string) (c : ascii) (b : string) :
  Js.isDigit c = false -> Json.allDigits (a +:+ String c b) = false.
Proof.
  intros Hc. induction a as [|x a IH]; simpl.
  - now rewrite Hc.
  - rewrite IH. apply andb_false_r.
Qed.

(** Digits followed by something else than white space do not write out
    an integer. *)
Lemma digits_and_more (ds : string) (c : ascii) (r : string) :
  Json.allDigits ds = true -> ds <> EmptyString ->
  Js.isDigit c = false -> Js.isWhiteSpace c = false ->
  Worded.integerText (ds +:+ String c r) = None.
Proof.
  intros Hd Hne Hc Hw. destruct ds as [|d ds]; [contradiction |].
  pose proof Hd as Hd'. simpl in Hd'. apply andb_true_iff in Hd' as [Hdd _].
  destruct (digit_plain d Hdd) as (Hdw & Hm & Hp & _).
  unfold Worded.integerText, Js.trim.
  change (String d ds +:+ String c r) with (String d (ds +:+ String c r)).
  cbn [Js.trimStart]. rewrite Hdw.
  change (String d (ds +:+ String c r)) with (String d ds +:+ String c r).
  destruct (trimEnd_keeps (String d ds) c r Hw) as [b' ->].
  change (String d ds +:+ String c b') with (String d (ds +:+ String c b')).
  cbv beta iota zeta. rewrite Hm, Hp.
  change (String d (ds +:+ String c b')) with (String d ds +:+ String c b').
  now rewrite (allDigits_stopped (String d ds) c b' Hc).
Qed.

(** The tests of the pages on an integer written out, and on a text from
    which [parseInt] reads nothing, are those of the words. *)
Lemma tests_as_worded (text : string) :
  (Worded.integerText text = None -> Js.parseInt text = None) ->
  Js.notPositive (Js.parseInt text) = negb (Worded.positiveInteger text)
  /\ (forall lo hi,
        CreateIndexPage.outside (Js.parseInt text) lo hi
        = negb (Worded.integerWithin lo hi text)).
Proof.
  intros Hagree. unfold Worded.positiveInteger, Worded.integerWithin.
  destruct (Worded.integerText text) as [n|] eqn:Hn.
  - rewrite (integerText_parseInt text n Hn). simpl. split.
    + destruct (n <=? 0) eqn:H1, (0 <? n) eqn:H2; try reflexivity; lia.
    + intros lo hi.
      destruct (n <? lo) eqn:H1, (hi <? n) eqn:H2, (lo <=? n) eqn:H3, (n <=? hi) eqn:H4;
        try reflexivity; lia.
  - rewrite (Hagree eq_refl). split; reflexivity.
Qed.

End DigitsFacts.


(** ** Dense vectors and the search page *)

Module SearchFacts.

Import Json JsonFacts.

#[local] Arguments String.append !_ _ : simpl nomatch.

Section Facts.

Context (syntaxErrorMessage : string -> string).
Context {QueryResult UpsertReply : Type}.

Abbreviation denseVector := (SearchPage.denseVector syntaxErrorMessage).
Abbreviation sparseField := (SearchPage.sparseField syntaxErrorMessage).
Abbreviation buildSearchRequest := (SearchPage.buildSearchRequest syntaxErrorMessage).
Abbreviation handleSearch :=
  (SearchPage.handleSearch syntaxErrorMessage (QueryResult := QueryResult)
     (UpsertReply := UpsertReply)).

Abbreviation failed := (SearchPage.failed (QueryResult := QueryResult)).

(** The three outcomes of the dense-vector parse, by what the bracketed
    text parses to. *)
Lemma denseVector_cases text :
  match parse (bracketed text) with
  | None => denseVector text = Throw (syntaxErrorMessage (bracketed text))
  | Some (JArray []) =>
      denseVector text = Throw "Vector must be a non-empty array of numbers"
  | Some v => denseVector text = Ok v /\ exists x items, v = JArray (x :: items)
  end.
Proof.
  unfold SearchPage.denseVector, Host.JSON_parse.
  destruct (parse (bracketed text)) as [v|] eqn:Hp; [|reflexivity].
  apply parse_bracketed_array in Hp.
  destruct v as [| | | |[|x items]|]; try discriminate; simpl; eauto.
Qed.

Lemma denseVector_numeric tokens :
  tokens <> [] -> Forall NumericToken tokens ->
  exists items,
    denseVector (joinCommas tokens) = Ok (JArray items)
    /\ length items = length tokens
    /\ (1 <= length items)%nat
    /\ forallb isNumber items = true.
Proof.
  intros Hne Hall.
  destruct (parse_numeric_list tokens Hne Hall) as (items & Hp & Hlen & Hnum).
  pose proof (denseVector_cases (joinCommas tokens)) as Hc.
  unfold bracketed in Hc. rewrite Hp in Hc.
  assert (Hpos : (1 <= length items)%nat).
  { rewrite Hlen. destruct tokens; [congruence | simpl; lia]. }
  destruct items as [|x items]; [simpl in Hpos; lia |].
  destruct Hc as [Hc _]. eauto 6.
Qed.

Lemma denseVector_syntax_error text :
  parse (bracketed text) = None ->
  denseVector text = Throw (syntaxErrorMessage (bracketed text)).
Proof. intros H. pose proof (denseVector_cases text) as Hc. now rewrite H in Hc. Qed.

Lemma denseVector_empty_array text :
  parse (bracketed text) = Some (JArray []) ->
  denseVector text = Throw "Vector must be a non-empty array of numbers".
Proof. intros H. pose proof (denseVector_cases text) as Hc. now rewrite H in Hc. Qed.

(** The handler around the request: a throw before the network call is
    shown and nothing is sent. *)
Lemma handleSearch_throw client p f v w name m :
  SearchPage.indexName p = Some name -> Js.truthy name = true ->
  buildSearchRequest p f = Throw m ->
  handleSearch client p f v w = (failed m, w).
Proof.
  intros Hn Ht Hb. unfold SearchPage.handleSearch. rewrite Hn, Ht, Hb. reflexivity.
Qed.

Lemma searchVectors_calls (client : Client.Endee QueryResult UpsertReply) name req w :
  exists cs,
    Client.calls (snd (Client.searchVectors client name req w))
    = Client.calls w ++ Client.GetIndex name :: cs.
Proof.
  unfold Client.searchVectors.
  destruct (Client.getIndex client name) as [index|e].
  - destruct (Client.query client index _) as [rs|e].
    + eexists. simpl. rewrite <- app_assoc. reflexivity.
    + unfold Client.handleApiError. eexists.
      destruct (Client.isUnauthorizedError e); simpl;
        [destruct (Client.onUnauthorized _) |]; simpl; rewrite <- app_assoc; reflexivity.
  - unfold Client.handleApiError. exists [].
    destruct (Client.isUnauthorizedError e); simpl;
      [destruct (Client.onUnauthorized _) |]; reflexivity.
Qed.

Lemma handleSearch_sends client p f v w name req :
  SearchPage.indexName p = Some name -> Js.truthy name = true ->
  buildSearchRequest p f = Ok req ->
  handleSearch client p f v w
  = (let '(response, w') := Client.searchVectors client name req w in
     if negb (Client.success response)
     then (failed (Host.orElse (Client.error response) "Search failed"), w')
     else (SearchPage.mkView false None
             (Some (match Client.data response with Some rs => rs | None => [] end)), w')).
Proof.
  intros Hn Ht Hb. unfold SearchPage.handleSearch. rewrite Hn, Ht, Hb. simpl.
  destruct (Client.searchVectors client name req w) as [response w'].
  destruct (Client.success response); reflexivity.
Qed.

Lemma handleSearch_proceeds client p f v w name req :
  SearchPage.indexName p = Some name -> Js.truthy name = true ->
  buildSearchRequest p f = Ok req ->
  exists cs,
    Client.calls (snd (handleSearch client p f v w))
    = Client.calls w ++ Client.GetIndex name :: cs.
Proof.
  intros Hn Ht Hb. rewrite (handleSearch_sends client p f v w name req Hn Ht Hb).
  destruct (searchVectors_calls client name req w) as [cs Hcs].
  exists cs. destruct (Client.searchVectors client name req w) as [response w'].
  destruct (Client.success response); exact Hcs.
Qed.

(** The request of a hybrid page, from the request that the same form
    gives on a page that is not hybrid: the sparse fields are read and
    checked last. *)
Lemma buildSearchRequest_hybrid name f req0 :
  buildSearchRequest (SearchPage.mkProps (Some name) false) f = Ok req0 ->
  forall p, SearchPage.isHybrid p = true ->
  buildSearchRequest p f =
  (do si <- sparseField (SearchPage.sparseIndices f);
   do sv <- sparseField (SearchPage.sparseValues f);
   do _ <- SearchPage.sparseCheck si sv;
   Ok (Client.mkSearchRequest (Client.r_vector req0) (Client.k req0) (Client.ef req0)
         (Client.r_filter req0) (Client.include_vectors req0) si sv)).
Proof.
  intros H0 p Hp. unfold SearchPage.buildSearchRequest in *. rewrite Hp. simpl in H0.
  destruct (denseVector (SearchPage.vector f)) as [va|]; simpl in *; [|discriminate].
  destruct (Js.parseInt (SearchPage.k f)) as [kValue|]; [|discriminate].
  destruct (kValue <=? 0); [discriminate |].
  destruct (Js.truthy (Js.trim (SearchPage.filter f))).
  - destruct (parse (SearchPage.filter f)); simpl in *; [|discriminate].
    injection H0 as <-. reflexivity.
  - simpl in *. injection H0 as <-. reflexivity.
Qed.

Lemma sparseField_blank text :
  Js.truthy (Js.trim text) = false -> sparseField text = Ok None.
Proof. intros H. unfold SearchPage.sparseField. now rewrite H. Qed.

Lemma sparseField_parsed text a :
  Js.truthy (Js.trim text) = true -> parse (bracketed text) = Some a ->
  sparseField text = Ok (Some a).
Proof.
  intros H Hp. unfold SearchPage.sparseField, Host.JSON_parse. now rewrite H, Hp.
Qed.

Lemma sparseField_syntax_error text :
  Js.truthy (Js.trim text) = true -> parse (bracketed text) = None ->
  sparseField text = Throw (syntaxErrorMessage (bracketed text)).
Proof.
  intros H Hp. unfold SearchPage.sparseField, Host.JSON_parse. now rewrite H, Hp.
Qed.

Lemma buildSearchRequest_dense name f req0 :
  buildSearchRequest (SearchPage.mkProps (Some name) false) f = Ok req0 ->
  Client.sparse_indices req0 = None /\ Client.sparse_values req0 = None.
Proof.
  unfold SearchPage.buildSearchRequest. simpl.
  destruct (denseVector (SearchPage.vector f)) as [va|]; simpl; [|discriminate].
  destruct (Js.parseInt (SearchPage.k f)) as [kValue|]; [|discriminate].
  destruct (kValue <=? 0); [discriminate |].
  destruct (Js.truthy (Js.trim (SearchPage.filter f))).
  - destruct (parse (SearchPage.filter f)); simpl; [|discriminate].
    intros [= <-]. auto.
  - simpl. intros [= <-]. auto.
Qed.

(** The k field is looked at after the dense vector and before the rest. *)
Lemma buildSearchRequest_bad_k p f :
  Js.notPositive (Js.parseInt (SearchPage.k f)) = true ->
  exists m, buildSearchRequest p f = Throw m
            /\ (forall va, denseVector (SearchPage.vector f) = Ok va ->
                 m = "K must be a positive number").
Proof.
  intros Hk. unfold SearchPage.buildSearchRequest.
  destruct (denseVector (SearchPage.vector f)) as [va|m]; simpl.
  - exists "K must be a positive number". split; [|reflexivity].
    destruct (Js.parseInt (SearchPage.k f)) as [kValue|]; simpl in Hk; [|reflexivity].
    now rewrite Hk.
  - exists m. split; [reflexivity | discriminate].
Qed.

Lemma buildSearchRequest_good_k p f k0 req0 kv :
  buildSearchRequest p (SearchPage.withK k0 f) = Ok req0 ->
  Js.parseInt (SearchPage.k f) = Some kv -> 0 < kv ->
  buildSearchRequest p f
  = Ok (Client.mkSearchRequest (Client.r_vector req0) kv (Client.ef req0)
          (Client.r_filter req0) (Client.include_vectors req0)
          (Client.sparse_indices req0) (Client.sparse_values req0)).
Proof.
  intros H0 Hk Hpos. unfold SearchPage.buildSearchRequest in *. simpl in H0.
  rewrite Hk. assert ((kv <=? 0) = false) as -> by lia.
  destruct (denseVector (SearchPage.vector f)) as [va|]; simpl in *; [|discriminate].
  destruct (Js.parseInt k0) as [k0v|]; [|discriminate].
  destruct (k0v <=? 0); [discriminate |].
  destruct (if Js.truthy (Js.trim (SearchPage.filter f))
            then match parse (SearchPage.filter f) with
                 | Some _ => Ok (Some (Js.trim (SearchPage.filter f)))
                 | None => Throw "Filter must be valid JSON"
                 end
            else Ok None) as [ff|]; simpl in *; [|discriminate].
  destruct (SearchPage.isHybrid p).
  - destruct (sparseField (SearchPage.sparseIndices f)) as [si|]; simpl in *; [|discriminate].
    destruct (sparseField (SearchPage.sparseValues f)) as [sv|]; simpl in *; [|discriminate].
    destruct (SearchPage.sparseCheck si sv); simpl in *; [|discriminate].
    injection H0 as <-. reflexivity.
  - injection H0 as <-. reflexivity.
Qed.

(** An ef text that does not give a positive integer is read as no ef. *)
Lemma buildSearchRequest_bad_ef p f :
  (forall e, Js.parseInt (SearchPage.ef f) = Some e -> e <= 0) ->
  buildSearchRequest p f = buildSearchRequest p (SearchPage.withEf EmptyString f).
Proof.
  intros He. unfold SearchPage.buildSearchRequest. simpl.
  assert (Hef : (if Js.truthy (Js.trim (SearchPage.ef f))
                 then match Js.parseInt (SearchPage.ef f) with
                      | Some efValue => if 0 <? efValue then Some efValue else None
                      | None => None
                      end
                 else None) = None).
  { destruct (Js.truthy _); [|reflexivity].
    destruct (Js.parseInt (SearchPage.ef f)) as [e|]; [|reflexivity].
    specialize (He e eq_refl). assert ((0 <? e) = false) as -> by lia. reflexivity. }
  rewrite Hef. reflexivity.
Qed.

Lemma buildSearchRequest_blank_ef p f req :
  buildSearchRequest p (SearchPage.withEf EmptyString f) = Ok req -> Client.ef req = None.
Proof.
  unfold SearchPage.buildSearchRequest. simpl.
  destruct (denseVector (SearchPage.vector f)) as [va|]; simpl; [|discriminate].
  destruct (Js.parseInt (SearchPage.k f)) as [kValue|]; [|discriminate].
  destruct (kValue <=? 0); [discriminate |].
  destruct (if Js.truthy (Js.trim (SearchPage.filter f))
            then match parse (SearchPage.filter f) with
                 | Some _ => Ok (Some (Js.trim (SearchPage.filter f)))
                 | None => Throw "Filter must be valid JSON"
                 end
            else Ok None) as [ff|]; simpl; [|discriminate].
  destruct (SearchPage.isHybrid p).
  - destruct (sparseField (SearchPage.sparseIndices f)) as [si|]; simpl; [|discriminate].
    destruct (sparseField (SearchPage.sparseValues f)) as [sv|]; simpl; [|discriminate].
    destruct (SearchPage.sparseCheck si sv); simpl; [|discriminate].
    now intros [= <-].
  - now intros [= <-].
Qed.

Lemma handleSearch_same_request client p f f' v w :
  buildSearchRequest p f = buildSearchRequest p f' ->
  handleSearch client p f v w = handleSearch client p f' v w.
Proof. intros H. unfold SearchPage.handleSearch. now rewrite H. Qed.

(** C5 (amended). Dense-vector parsing wraps the text in brackets and
    parses it as JSON. A text made of at least one comma-separated numeric
    token (JSON number literals, white space around them allowed) gives an
    array with one item per token. The empty text, and any text whose
    bracketed form parses to the empty array, fails with "Vector must be a
    non-empty array of numbers". A text whose bracketed form is not valid
    JSON fails with the message of the parser's syntax error. The search
    page shows the message as it is and sends nothing; the insert page puts
    "Invalid vector data: " before it. *)
Theorem C5_dense_vector_parsing :
  (forall tokens, tokens <> [] -> Forall NumericToken tokens ->
     exists items,
       denseVector (joinCommas tokens) = Ok (JArray items)
       /\ length items = length tokens /\ (1 <= length items)%nat)
  /\ denseVector EmptyString = Throw "Vector must be a non-empty array of numbers"
  /\ (forall text, parse (bracketed text) = Some (JArray []) ->
        denseVector text = Throw "Vector must be a non-empty array of numbers")
  /\ (forall text, parse (bracketed text) = None ->
        denseVector text = Throw (syntaxErrorMessage (bracketed text)))
  /\ (forall client p f v w name m,
        SearchPage.indexName p = Some name -> Js.truthy name = true ->
        denseVector (SearchPage.vector f) = Throw m ->
        handleSearch client p f v w = (failed m, w))
  /\ (forall p row m,
        Js.truthy (Js.trim (VectorInsertPage.id row)) = true ->
        denseVector (VectorInsertPage.vector row) = Throw m ->
        VectorInsertPage.parseVector syntaxErrorMessage p row
        = Throw ("Invalid vector data: " +:+ m)).
Proof.
  split; [|split; [|split; [|split; [|split]]]].
  - intros tokens Hne Hall.
    destruct (denseVector_numeric tokens Hne Hall) as (items & H1 & H2 & H3 & _). eauto.
  - apply denseVector_empty_array. reflexivity.
  - apply denseVector_empty_array.
  - apply denseVector_syntax_error.
  - intros client p f v w name m Hn Ht Hd. apply (handleSearch_throw client p f v w name); auto.
    unfold SearchPage.buildSearchRequest. now rewrite Hd.
  - intros p row m Hid Hd.
    unfold VectorInsertPage.parseVector, VectorInsertPage.parseVectorBody.
    rewrite Hid, Hd. reflexivity.
Qed.

(** A positive ef is attached as it was read. *)
Lemma buildSearchRequest_good_ef p f e req :
  Js.truthy (Js.trim (SearchPage.ef f)) = true ->
  Js.parseInt (SearchPage.ef f) = Some e -> 0 < e ->
  buildSearchRequest p f = Ok req -> Client.ef req = Some e.
Proof.
  intros Ht He Hpos. unfold SearchPage.buildSearchRequest. rewrite Ht, He.
  assert ((0 <? e) = true) as -> by lia.
  destruct (denseVector (SearchPage.vector f)) as [va|]; simpl; [|discriminate].
  destruct (Js.parseInt (SearchPage.k f)) as [kValue|]; [|discriminate].
  destruct (kValue <=? 0); [discriminate |].
  destruct (if Js.truthy (Js.trim (SearchPage.filter f))
            then match parse (SearchPage.filter f) with
                 | Some _ => Ok (Some (Js.trim (SearchPage.filter f)))
                 | None => Throw "Filter must be valid JSON"
                 end
            else Ok None) as [ff|]; simpl; [|discriminate].
  destruct (SearchPage.isHybrid p).
  - destruct (sparseField (SearchPage.sparseIndices f)) as [si|]; simpl; [|discriminate].
    destruct (sparseField (SearchPage.sparseValues f)) as [sv|]; simpl; [|discriminate].
    destruct (SearchPage.sparseCheck si sv); simpl; [|discriminate].
    now intros [= <-].
  - now intros [= <-].
Qed.

(** An integer written out is not blank. *)
Lemma integerText_filled text n :
  Worded.integerText text = Some n -> Js.truthy (Js.trim text) = true.
Proof.
  unfold Worded.integerText. destruct (Js.trim text); [discriminate | reflexivity].
Qed.

(** A text that starts with a digit is not blank. *)
Lemma digits_filled ds rest :
  allDigits ds = true -> ds <> EmptyString -> Js.truthy (Js.trim (ds +:+ rest)) = true.
Proof.
  intros Hd Hne. destruct ds as [|c ds]; [contradiction |].
  simpl in Hd. apply andb_true_iff in Hd as [Hc _].
  destruct (DigitsFacts.digit_plain c Hc) as (Hw & _).
  unfold Js.trim. change (String c ds +:+ rest) with (String c (ds +:+ rest)).
  cbn [Js.trimStart]. rewrite Hw. cbn [Js.trimEnd].
  destruct (Js.trimEnd (ds +:+ rest)); [now rewrite Hw | reflexivity].
Qed.

(** C6 (amended). The k text is read with [parseInt]. When that reads no
    integer, or one that is not above zero, the submission fails and
    nothing is sent (with the message "K must be a positive number" once
    the dense vector has passed); when it reads an integer above zero and
    the rest of the form passes, the request goes out with that integer as
    k. 0, -1, abc and the empty text give none; 1, 5 and 100 do. An ef text
    that is filled in and from which [parseInt] reads no integer above zero
    changes nothing: the submission is the one of the form with ef left
    blank, and the request has no ef; one from which it reads an integer
    above zero is sent with that integer as ef. On a text that is an integer
    written out this is what the words say: k fails exactly when the
    integer is not above zero, and ef is left out exactly then. But
    [parseInt] reads the digits a text starts with and ignores what follows
    them, so a k or ef text made of digits and more, which is not an integer
    written out when what follows is not white space, is handled as the
    digits alone, not refused and not left out: the k 5abc goes as 5, the k
    1.5 as 1 and the ef 10abc as 10. *)
Theorem C6_k_and_ef_read_by_parseInt client p f v w name :
  SearchPage.indexName p = Some name -> Js.truthy name = true ->
  (Js.notPositive (Js.parseInt (SearchPage.k f)) = true ->
   exists m,
     handleSearch client p f v w = (failed m, w)
     /\ (forall va, denseVector (SearchPage.vector f) = Ok va ->
          m = "K must be a positive number"))
  /\ (forall kv k0 req0,
        Js.parseInt (SearchPage.k f) = Some kv -> 0 < kv ->
        buildSearchRequest p (SearchPage.withK k0 f) = Ok req0 ->
        exists req cs,
          buildSearchRequest p f = Ok req /\ Client.k req = kv
          /\ Client.calls (snd (handleSearch client p f v w))
             = Client.calls w ++ Client.GetIndex name :: cs)
  /\ (Js.notPositive (Js.parseInt "0") = true
      /\ Js.notPositive (Js.parseInt "-1") = true
      /\ Js.notPositive (Js.parseInt "abc") = true
      /\ Js.notPositive (Js.parseInt EmptyString) = true)
  /\ (Js.parseInt "1" = Some 1 /\ Js.parseInt "5" = Some 5
      /\ Js.parseInt "100" = Some 100)
  /\ (Js.truthy (Js.trim (SearchPage.ef f)) = true ->
      (forall e, Js.parseInt (SearchPage.ef f) = Some e -> e <= 0) ->
      handleSearch client p f v w
      = handleSearch client p (SearchPage.withEf EmptyString f) v w
      /\ (forall req, buildSearchRequest p f = Ok req -> Client.ef req = None))
  /\ (forall e req,
        Js.truthy (Js.trim (SearchPage.ef f)) = true ->
        Js.parseInt (SearchPage.ef f) = Some e -> 0 < e ->
        buildSearchRequest p f = Ok req -> Client.ef req = Some e)
  /\ (forall n,
        Worded.integerText (SearchPage.k f) = Some n ->
        (n <= 0 ->
         exists m,
           handleSearch client p f v w = (failed m, w)
           /\ (forall va, denseVector (SearchPage.vector f) = Ok va ->
                m = "K must be a positive number"))
        /\ (0 < n ->
            forall k0 req0,
              buildSearchRequest p (SearchPage.withK k0 f) = Ok req0 ->
              exists req cs,
                buildSearchRequest p f = Ok req /\ Client.k req = n
                /\ Client.calls (snd (handleSearch client p f v w))
                   = Client.calls w ++ Client.GetIndex name :: cs))
  /\ (forall n,
        Worded.integerText (SearchPage.ef f) = Some n ->
        (n <= 0 ->
         handleSearch client p f v w
         = handleSearch client p (SearchPage.withEf EmptyString f) v w
         /\ (forall req, buildSearchRequest p f = Ok req -> Client.ef req = None))
        /\ (0 < n ->
            forall req, buildSearchRequest p f = Ok req -> Client.ef req = Some n))
  /\ (forall ds rest,
        allDigits ds = true -> ds <> EmptyString ->
        headIs (fun c => Js.isDigit c = false /\ Ascii.eqb c "x" = false
                         /\ Ascii.eqb c "X" = false) rest ->
        Js.parseInt (ds +:+ rest) = Js.parseInt ds
        /\ handleSearch client p (SearchPage.withK (ds +:+ rest) f) v w
           = handleSearch client p (SearchPage.withK ds f) v w
        /\ handleSearch client p (SearchPage.withEf (ds +:+ rest) f) v w
           = handleSearch client p (SearchPage.withEf ds f) v w
        /\ (forall c r,
              rest = String c r -> Js.isWhiteSpace c = false ->
              Worded.integerText (ds +:+ rest) = None))
  /\ (forall text,
        In text ["0"; "-1"; "abc"; EmptyString] ->
        exists m,
          handleSearch client p (SearchPage.withK text f) v w = (failed m, w)
          /\ (forall va, denseVector (SearchPage.vector f) = Ok va ->
               m = "K must be a positive number"))
  /\ (forall text kv k0 req0,
        In (text, kv) [("1", 1); ("5", 5); ("100", 100); ("5abc", 5); ("1.5", 1)] ->
        buildSearchRequest p (SearchPage.withK k0 f) = Ok req0 ->
        exists req cs,
          buildSearchRequest p (SearchPage.withK text f) = Ok req /\ Client.k req = kv
          /\ Client.calls (snd (handleSearch client p (SearchPage.withK text f) v w))
             = Client.calls w ++ Client.GetIndex name :: cs)
  /\ (forall req,
        buildSearchRequest p (SearchPage.withEf "10abc" f) = Ok req ->
        Client.ef req = Some 10)
  /\ (Worded.positiveInteger "5abc" = false /\ Worded.positiveInteger "1.5" = false
      /\ Worded.positiveInteger "10abc" = false).
Proof.
  intros Hn Ht.
  assert (Hbad : forall g,
             Js.notPositive (Js.parseInt (SearchPage.k g)) = true ->
             exists m,
               handleSearch client p g v w = (failed m, w)
               /\ (forall va, denseVector (SearchPage.vector g) = Ok va ->
                    m = "K must be a positive number")).
  { intros g Hk. destruct (buildSearchRequest_bad_k p g Hk) as (m & Hb & Hm).
    exists m. split; [|exact Hm]. now apply (handleSearch_throw client p g v w name). }
  assert (Hgood : forall g kv k0 req0,
             Js.parseInt (SearchPage.k g) = Some kv -> 0 < kv ->
             buildSearchRequest p (SearchPage.withK k0 g) = Ok req0 ->
             exists req cs,
               buildSearchRequest p g = Ok req /\ Client.k req = kv
               /\ Client.calls (snd (handleSearch client p g v w))
                  = Client.calls w ++ Client.GetIndex name :: cs).
  { intros g kv k0 req0 Hk Hpos H0.
    pose proof (buildSearchRequest_good_k p g k0 req0 kv H0 Hk Hpos) as Hb.
    destruct (handleSearch_proceeds client p g v w name _ Hn Ht Hb) as [cs Hcs].
    eexists _, cs. split; [exact Hb |]. split; [reflexivity | exact Hcs]. }
  assert (Hdrop : (forall e, Js.parseInt (SearchPage.ef f) = Some e -> e <= 0) ->
                  handleSearch client p f v w
                  = handleSearch client p (SearchPage.withEf EmptyString f) v w
                  /\ (forall req, buildSearchRequest p f = Ok req -> Client.ef req = None)).
  { intros He. pose proof (buildSearchRequest_bad_ef p f He) as Heq. split.
    - now apply handleSearch_same_request.
    - intros req Hreq. rewrite Heq in Hreq.
      now apply (buildSearchRequest_blank_ef p f). }
  split; [exact (Hbad f) |]. split; [exact (Hgood f) |].
  split; [repeat split; reflexivity |]. split; [repeat split; reflexivity |].
  split; [intros _; exact Hdrop |].
  split; [intros e req; apply buildSearchRequest_good_ef |].
  split; [|split; [|split; [|split; [|split; [|split]]]]].
  - intros n Hint. apply DigitsFacts.integerText_parseInt in Hint. split.
    + intros Hle. apply Hbad. rewrite Hint. simpl. lia.
    + intros Hpos k0 req0. now apply Hgood.
  - intros n Hint. pose proof (integerText_filled _ _ Hint) as Hfilled.
    apply DigitsFacts.integerText_parseInt in Hint. split.
    + intros Hle. apply Hdrop. intros e He. rewrite Hint in He. injection He as <-. exact Hle.
    + intros Hpos req. now apply buildSearchRequest_good_ef.
  - intros ds rest Hd Hne Hr.
    pose proof (DigitsFacts.parseInt_leading_digits ds rest Hd Hne Hr) as Hp.
    split; [exact Hp |].
    split; [|split]; [apply handleSearch_same_request | apply handleSearch_same_request |].
    + unfold SearchPage.buildSearchRequest, SearchPage.withK.
      cbn [SearchPage.vector SearchPage.k SearchPage.ef SearchPage.filter
           SearchPage.sparseIndices SearchPage.sparseValues SearchPage.includeVectors].
      now rewrite Hp.
    + unfold SearchPage.buildSearchRequest, SearchPage.withEf.
      cbn [SearchPage.vector SearchPage.k SearchPage.ef SearchPage.filter
           SearchPage.sparseIndices SearchPage.sparseValues SearchPage.includeVectors].
      rewrite Hp, (digits_filled ds rest Hd Hne).
      pose proof (digits_filled ds EmptyString Hd Hne) as Hds.
      rewrite JsonFacts.append_empty_r in Hds. now rewrite Hds.
    + intros c r -> Hw. simpl in Hr. destruct Hr as (Hc & _).
      now apply DigitsFacts.digits_and_more.
  - intros text Hin. apply (Hbad (SearchPage.withK text f)).
    cbn [SearchPage.withK SearchPage.k].
    cbn [In] in Hin. destruct Hin as [<- | [<- | [<- | [<- | []]]]]; reflexivity.
  - intros text kv k0 req0 Hin H0.
    apply (Hgood (SearchPage.withK text f) kv k0 req0); [| |exact H0];
      cbn [SearchPage.withK SearchPage.k]; cbn [In] in Hin;
      destruct Hin as [[= <- <-] | [[= <- <-] | [[= <- <-] | [[= <- <-] | [[= <- <-] | []]]]]];
      first [reflexivity | lia].
  - intros req. apply buildSearchRequest_good_ef; [reflexivity | reflexivity | lia].
  - repeat split; reflexivity.
Qed.

(** C4 (amended). On a hybrid index, for a form whose dense vector, k and
    filter pass: with both sparse texts blank the request carries no sparse
    field; with one text supplied and parsed and the other blank the
    submission fails with "Both sparse indices and sparse values must be
    provided together"; with both supplied and parsed to arrays of different
    lengths it fails with "Sparse indices and values must have the same
    length", and with equal lengths both arrays are attached; a supplied
    text whose bracketed form is not valid JSON fails with the message of
    the parser's syntax error. Nothing is sent in any failure case. *)
Theorem C4_sparse_pair client p f v w name req0 :
  SearchPage.indexName p = Some name -> Js.truthy name = true ->
  SearchPage.isHybrid p = true ->
  buildSearchRequest (SearchPage.mkProps (Some name) false) f = Ok req0 ->
  let si := SearchPage.sparseIndices f in
  let sv := SearchPage.sparseValues f in
  let blank t := Js.truthy (Js.trim t) = false in
  let supplied t := Js.truthy (Js.trim t) = true in
  let outcome := handleSearch client p f v w in
  let both := "Both sparse indices and sparse values must be provided together" in
  (blank si -> blank sv ->
   buildSearchRequest p f = Ok req0
   /\ Client.sparse_indices req0 = None /\ Client.sparse_values req0 = None)
  /\ (forall a, supplied si -> blank sv -> parse (bracketed si) = Some a ->
        outcome = (failed both, w))
  /\ (forall b, blank si -> supplied sv -> parse (bracketed sv) = Some b ->
        outcome = (failed both, w))
  /\ (forall a b, supplied si -> supplied sv ->
        parse (bracketed si) = Some a -> parse (bracketed sv) = Some b ->
        arrayLength a <> arrayLength b ->
        outcome = (failed "Sparse indices and values must have the same length", w))
  /\ (forall a b, supplied si -> supplied sv ->
        parse (bracketed si) = Some a -> parse (bracketed sv) = Some b ->
        arrayLength a = arrayLength b ->
        buildSearchRequest p f
        = Ok (Client.mkSearchRequest (Client.r_vector req0) (Client.k req0)
                (Client.ef req0) (Client.r_filter req0) (Client.include_vectors req0)
                (Some a) (Some b)))
  /\ (supplied si -> parse (bracketed si) = None ->
      outcome = (failed (syntaxErrorMessage (bracketed si)), w))
  /\ (supplied sv -> parse (bracketed sv) = None ->
      (blank si \/ exists a, parse (bracketed si) = Some a) ->
      outcome = (failed (syntaxErrorMessage (bracketed sv)), w)).
Proof.
  intros Hn Ht Hp H0 si sv blank supplied outcome both.
  pose proof (buildSearchRequest_hybrid name f req0 H0 p Hp) as Hb.
  fold si sv in Hb.
  assert (Hfail : forall m, buildSearchRequest p f = Throw m -> outcome = (failed m, w))
    by (intros m Hm; now apply (handleSearch_throw client p f v w name)).
  split; [|split; [|split; [|split; [|split; [|split]]]]].
  - intros Hsi Hsv. destruct (buildSearchRequest_dense name f req0 H0) as [Hi Hv].
    split; [|auto]. rewrite Hb, (sparseField_blank si Hsi), (sparseField_blank sv Hsv).
    simpl. destruct req0; simpl in *; now subst.
  - intros a Hsi Hsv Ha. apply Hfail.
    rewrite Hb, (sparseField_parsed si a Hsi Ha), (sparseField_blank sv Hsv). reflexivity.
  - intros b Hsi Hsv Hb'. apply Hfail.
    rewrite Hb, (sparseField_blank si Hsi), (sparseField_parsed sv b Hsv Hb'). reflexivity.
  - intros a b Hsi Hsv Ha Hb' Hlen. apply Hfail.
    rewrite Hb, (sparseField_parsed si a Hsi Ha), (sparseField_parsed sv b Hsv Hb').
    simpl. apply Nat.eqb_neq in Hlen. now rewrite Hlen.
  - intros a b Hsi Hsv Ha Hb' Hlen.
    rewrite Hb, (sparseField_parsed si a Hsi Ha), (sparseField_parsed sv b Hsv Hb').
    simpl. apply Nat.eqb_eq in Hlen. now rewrite Hlen.
  - intros Hsi Hnone. apply Hfail.
    rewrite Hb, (sparseField_syntax_error si Hsi Hnone). reflexivity.
  - intros Hsv Hnone Hsi. apply Hfail.
    rewrite Hb, (sparseField_syntax_error sv Hsv Hnone).
    destruct Hsi as [Hsi | [a Ha]].
    + now rewrite (sparseField_blank si Hsi).
    + destruct (Js.truthy (Js.trim si)) eqn:Hsi.
      * now rewrite (sparseField_parsed si a Hsi Ha).
      * now rewrite (sparseField_blank si Hsi).
Qed.

End Facts.

Lemma numeric_token_plain_example :
  NumericToken "0.1" /\ NumericToken " 0.2" /\ NumericToken " -3e5 ".
Proof.
  split; [|split].
  - exact (numeric_token EmptyString "0.1" EmptyString eq_refl
             (number_literal EmptyString "0" ".1" EmptyString (or_introl eq_refl)
                int_zero (frac_some "1" EmptyString eq_refl) exp_none) eq_refl).
  - exact (numeric_token " " "0.2" EmptyString eq_refl
             (number_literal EmptyString "0" ".2" EmptyString (or_introl eq_refl)
                int_zero (frac_some "2" EmptyString eq_refl) exp_none) eq_refl).
  - refine (numeric_token " " "-3e5" " " eq_refl
             (number_literal "-" "3" EmptyString "e5" (or_intror eq_refl)
                (int_digits "3" EmptyString eq_refl _ eq_refl) frac_none
                (exp_some "e" EmptyString "5" EmptyString eq_refl (or_introl eq_refl) eq_refl))
             eq_refl).
    discriminate.
Defined.

Lemma C5_witness :
  exists items,
    SearchPage.denseVector Host.exampleSyntaxErrorMessage "0.1, 0.2, -3e5 "
    = Ok (JArray items)
    /\ length items = 3%nat /\ (1 <= length items)%nat.
Proof.
  destruct numeric_token_plain_example as (H1 & H2 & H3).
  apply (proj1 (C5_dense_vector_parsing Host.exampleSyntaxErrorMessage
                  (QueryResult := unit) (UpsertReply := unit))
           ["0.1"; " 0.2"; " -3e5 "]).
  - discriminate.
  - repeat constructor; assumption.
Defined.

Lemma C5_counterexample :
  parse (bracketed "abc") = None
  /\ parse (bracketed ".5, 1") = None
  /\ fst (SearchPage.handleSearch Host.exampleSyntaxErrorMessage Example.client
            (Example.searchProps false) (Example.searchForm "abc" EmptyString EmptyString "5")
            Example.searchView Example.world)
     = SearchPage.failed "Unexpected token in JSON: [abc]"
  /\ SearchPage.denseVector Host.exampleSyntaxErrorMessage "abc"
     <> Throw "Vector must be a non-empty array of numbers"
  /\ VectorInsertPage.parseVector Host.exampleSyntaxErrorMessage Example.insertProps
       (Example.row "a" EmptyString EmptyString)
     = Throw "Invalid vector data: Vector must be a non-empty array of numbers".
Proof.
  split; [reflexivity |]. split; [reflexivity |]. split; [reflexivity |].
  split; [|reflexivity]. vm_compute. discriminate.
Qed.

Lemma C6_witness :
  (exists m,
     SearchPage.handleSearch Host.exampleSyntaxErrorMessage Example.client
       (Example.searchProps false) (Example.searchForm "0.1, 0.2" EmptyString EmptyString "0")
       Example.searchView Example.world
     = (SearchPage.failed m, Example.world)
     /\ m = "K must be a positive number")
  /\ (exists req cs,
        SearchPage.buildSearchRequest Host.exampleSyntaxErrorMessage
          (Example.searchProps false)
          (Example.searchForm "0.1, 0.2" EmptyString EmptyString "100") = Ok req
        /\ Client.k req = 100
        /\ Client.calls
             (snd (SearchPage.handleSearch Host.exampleSyntaxErrorMessage Example.client
                     (Example.searchProps false)
                     (Example.searchForm "0.1, 0.2" EmptyString EmptyString "100")
                     Example.searchView Example.world))
           = Client.calls Example.world ++ Client.GetIndex "idx" :: cs)
  /\ SearchPage.handleSearch Host.exampleSyntaxErrorMessage Example.client
       (Example.searchProps false)
       (Example.searchForm "0.1, 0.2" EmptyString EmptyString "5abc")
       Example.searchView Example.world
     = SearchPage.handleSearch Host.exampleSyntaxErrorMessage Example.client
         (Example.searchProps false)
         (Example.searchForm "0.1, 0.2" EmptyString EmptyString "5")
         Example.searchView Example.world.
Proof.
  split; [|split].
  - destruct (C6_k_and_ef_read_by_parseInt Host.exampleSyntaxErrorMessage Example.client
                (Example.searchProps false)
                (Example.searchForm "0.1, 0.2" EmptyString EmptyString "0")
                Example.searchView Example.world "idx" eq_refl eq_refl) as (H & _).
    destruct (H eq_refl) as (m & Hm & Hk). exists m. split; [exact Hm |].
    apply (Hk (JArray [JNumber "0.1"; JNumber "0.2"])). reflexivity.
  - destruct (C6_k_and_ef_read_by_parseInt Host.exampleSyntaxErrorMessage Example.client
                (Example.searchProps false)
                (Example.searchForm "0.1, 0.2" EmptyString EmptyString "100")
                Example.searchView Example.world "idx" eq_refl eq_refl) as (_ & H & _).
    refine (H 100 "1" _ eq_refl eq_refl eq_refl).
  - destruct (C6_k_and_ef_read_by_parseInt Host.exampleSyntaxErrorMessage Example.client
                (Example.searchProps false)
                (Example.searchForm "0.1, 0.2" EmptyString EmptyString EmptyString)
                Example.searchView Example.world "idx" eq_refl eq_refl)
      as (_ & _ & _ & _ & _ & _ & _ & _ & H & _).
    destruct (H "5" "abc" eq_refl ltac:(discriminate)
                (conj eq_refl (conj eq_refl eq_refl))) as (_ & Hk & _).
    exact Hk.
Defined.

Lemma C6_counterexample :
  (Worded.positiveInteger "5abc" = false
   /\ Client.calls
        (snd (SearchPage.handleSearch Host.exampleSyntaxErrorMessage Example.client
                (Example.searchProps false)
                (Example.searchForm "0.1, 0.2" EmptyString EmptyString "5abc")
                Example.searchView Example.world))
      = [Client.GetIndex "idx";
         Client.Query "idx"
           (Client.mkQueryOptions (JArray [JNumber "0.1"; JNumber "0.2"]) 5 None None None
              None None)])
  /\ (Worded.positiveInteger "1.5" = false
      /\ SearchPage.buildSearchRequest Host.exampleSyntaxErrorMessage
           (Example.searchProps false)
           (Example.searchForm "0.1, 0.2" EmptyString EmptyString "1.5")
         = Ok (Client.mkSearchRequest (JArray [JNumber "0.1"; JNumber "0.2"]) 1 None None
                 (Some false) None None))
  /\ (Worded.positiveInteger "10abc" = false
      /\ Js.truthy (Js.trim "10abc") = true
      /\ SearchPage.buildSearchRequest Host.exampleSyntaxErrorMessage
           (Example.searchProps false)
           (SearchPage.withEf "10abc"
              (Example.searchForm "0.1, 0.2" EmptyString EmptyString "5"))
         = Ok (Client.mkSearchRequest (JArray [JNumber "0.1"; JNumber "0.2"]) 5 (Some 10)
                 None (Some false) None None)).
Proof.
  split; [split; reflexivity |]. split; [split; reflexivity |].
  split; [reflexivity |]. split; reflexivity.
Qed.

Lemma C4_witness :
  SearchPage.handleSearch Host.exampleSyntaxErrorMessage Example.client
    (Example.searchProps true) (Example.searchForm "0.1, 0.2" "1, 2" EmptyString "5")
    Example.searchView Example.world
  = (SearchPage.failed "Both sparse indices and sparse values must be provided together",
     Example.world)
  /\ SearchPage.handleSearch Host.exampleSyntaxErrorMessage Example.client
       (Example.searchProps true) (Example.searchForm "0.1, 0.2" "1, 2" "0.5" "5")
       Example.searchView Example.world
     = (SearchPage.failed "Sparse indices and values must have the same length",
        Example.world).
Proof.
  split.
  - destruct (C4_sparse_pair Host.exampleSyntaxErrorMessage Example.client
                (Example.searchProps true)
                (Example.searchForm "0.1, 0.2" "1, 2" EmptyString "5")
                Example.searchView Example.world "idx" _ eq_refl eq_refl eq_refl eq_refl)
      as (_ & H & _).
    apply (H (JArray [JNumber "1"; JNumber "2"])); reflexivity.
  - destruct (C4_sparse_pair Host.exampleSyntaxErrorMessage Example.client
                (Example.searchProps true)
                (Example.searchForm "0.1, 0.2" "1, 2" "0.5" "5")
                Example.searchView Example.world "idx" _ eq_refl eq_refl eq_refl eq_refl)
      as (_ & _ & _ & H & _).
    apply (H (JArray [JNumber "1"; JNumber "2"]) (JArray [JNumber "0.5"]));
      try reflexivity.
    vm_compute. discriminate.
Defined.

Lemma C4_counterexample :
  Js.truthy (Js.trim "abc") = true
  /\ Js.truthy (Js.trim EmptyString) = false
  /\ SearchPage.handleSearch Host.exampleSyntaxErrorMessage Example.client
       (Example.searchProps true) (Example.searchForm "0.1, 0.2" "abc" EmptyString "5")
       Example.searchView Example.world
     = (SearchPage.failed "Unexpected token in JSON: [abc]", Example.world)
  /\ SearchPage.failed (QueryResult := unit) "Unexpected token in JSON: [abc]"
     <> SearchPage.failed
          "Both sparse indices and sparse values must be provided together".
Proof.
  split; [reflexivity |]. split; [reflexivity |]. split; [reflexivity |].
  vm_compute. discriminate.
Qed.

End SearchFacts.

(** ** The vector insert page *)

Module InsertFacts.

Import Json JsonFacts.

#[local] Arguments String.append !_ _ : simpl nomatch.

Section Facts.

Context (syntaxErrorMessage : string -> string).
Context {QueryResult UpsertReply : Type}.

Abbreviation parseVector := (VectorInsertPage.parseVector syntaxErrorMessage).
Abbreviation parseAll := (VectorInsertPage.parseAll syntaxErrorMessage).
Abbreviation parseBatch := (VectorInsertPage.parseBatch syntaxErrorMessage).
Abbreviation handleSubmit :=
  (VectorInsertPage.handleSubmit syntaxErrorMessage (QueryResult := QueryResult)
     (UpsertReply := UpsertReply)).
Abbreviation nonEmptyRow := VectorInsertPage.nonEmptyRow.
Abbreviation rejected := VectorInsertPage.rejected.

Lemma parseVector_throw_prefix p row m :
  parseVector p row = Throw m -> exists inner, m = "Invalid vector data: " +:+ inner.
Proof.
  unfold VectorInsertPage.parseVector.
  destruct (VectorInsertPage.parseVectorBody _ p row) as [item|inner]; [discriminate |].
  intros [= <-]. eauto.
Qed.

Lemma jsonField_bad text :
  VectorInsertPage.badJsonField text ->
  VectorInsertPage.jsonField syntaxErrorMessage text = Throw (syntaxErrorMessage text).
Proof.
  intros [Ht Hp]. unfold VectorInsertPage.jsonField, Host.JSON_parse. now rewrite Ht, Hp.
Qed.

(** A row with a metadata or filter text that does not parse is refused,
    by that field or by one read before it. *)
Lemma parseVector_bad_field p row :
  VectorInsertPage.badJsonField (VectorInsertPage.meta row)
  \/ VectorInsertPage.badJsonField (VectorInsertPage.filter row) ->
  exists m, parseVector p row = Throw m.
Proof.
  intros Hbad. unfold VectorInsertPage.parseVector, VectorInsertPage.parseVectorBody.
  destruct (throwIf _ "Vector ID is required"); simpl; [|eauto].
  destruct (SearchPage.denseVector _ _); simpl; [|eauto].
  destruct (if VectorInsertPage.isHybrid p then _ else _) as [sparse|]; simpl; [|eauto].
  destruct Hbad as [Hm | Hf].
  - rewrite (jsonField_bad _ Hm). simpl. eauto.
  - destruct (VectorInsertPage.jsonField _ (VectorInsertPage.meta row)); simpl; [|eauto].
    rewrite (jsonField_bad _ Hf). simpl. eauto.
Qed.

Lemma parseAll_app p a b :
  parseAll p (a ++ b)
  = (do x <- parseAll p a; do y <- parseAll p b; Ok (x ++ y)).
Proof.
  induction a as [|r a IH]; simpl.
  - destruct (parseAll p b); reflexivity.
  - destruct (parseVector p r); simpl; [|reflexivity].
    rewrite IH. destruct (parseAll p a); simpl; [|reflexivity].
    destruct (parseAll p b); reflexivity.
Qed.

Lemma parseAll_throw p rows row :
  In row rows -> (exists m, parseVector p row = Throw m) ->
  exists inner, parseAll p rows = Throw ("Invalid vector data: " +:+ inner).
Proof.
  induction rows as [|r rows IH]; simpl; [tauto |].
  intros [-> | Hin] Hbad.
  - destruct Hbad as [m Hm]. rewrite Hm. simpl.
    destruct (parseVector_throw_prefix p row m Hm) as [inner ->]. eauto.
  - destruct (parseVector p r) as [item|m] eqn:Hr; simpl.
    + destruct (IH Hin Hbad) as [inner ->]. simpl. eauto.
    + destruct (parseVector_throw_prefix p r m Hr) as [inner ->]. eauto.
Qed.

Lemma parseAll_items p rows items :
  parseAll p rows = Ok items ->
  Forall2 (fun r item => parseVector p r = Ok item) rows items.
Proof.
  revert items. induction rows as [|r rows IH]; simpl; intros items.
  - intros [= <-]. constructor.
  - destruct (parseVector p r) as [item|] eqn:Hr; simpl; [|discriminate].
    destruct (parseAll p rows) as [others|]; simpl; [|discriminate].
    intros [= <-]. constructor; auto.
Qed.

Lemma parseAll_all_ok p rows :
  Forall (fun r => exists item, parseVector p r = Ok item) rows ->
  exists items, parseAll p rows = Ok items.
Proof.
  induction 1 as [|r rows [item Hr] _ [items IH]]; simpl; [eauto |].
  rewrite Hr, IH. simpl. eauto.
Qed.

Lemma parseAll_throws p rows m :
  parseAll p rows = Throw m -> exists inner, m = "Invalid vector data: " +:+ inner.
Proof.
  induction rows as [|r rows IH]; simpl; [discriminate |].
  destruct (parseVector p r) as [item|m'] eqn:Hr; simpl.
  - destruct (parseAll p rows); simpl; [discriminate |].
    intros [= <-]. now apply IH.
  - intros [= <-]. now apply (parseVector_throw_prefix p r).
Qed.

(** The batch is the parse of its rows that are not placeholders; with no
    such row it is refused. The check on the number of parsed vectors never
    fails: the loop parses every row it is given or throws. *)
Lemma parseBatch_cases p rows :
  match List.filter nonEmptyRow rows with
  | [] => parseBatch p rows = Throw "At least one vector is required"
  | nonEmpty => parseBatch p rows = parseAll p nonEmpty
  end.
Proof.
  unfold VectorInsertPage.parseBatch.
  destruct (List.filter nonEmptyRow rows) as [|r rest] eqn:Hf; [reflexivity |].
  simpl throwIf. cbn [bind].
  destruct (parseAll p (r :: rest)) as [items|] eqn:Hp; [|reflexivity].
  apply parseAll_items, Forall2_length in Hp.
  destruct items; [discriminate | reflexivity].
Qed.

Lemma filter_idempotent (rows : list VectorInsertPage.VectorInput) :
  List.filter nonEmptyRow (List.filter nonEmptyRow rows) = List.filter nonEmptyRow rows.
Proof.
  induction rows as [|r rows IH]; simpl; [reflexivity |].
  destruct (nonEmptyRow r) eqn:Hr; simpl; [rewrite Hr, IH |]; auto.
Qed.

Lemma parseBatch_skips_placeholders p rows :
  parseBatch p rows = parseBatch p (List.filter nonEmptyRow rows).
Proof.
  pose proof (parseBatch_cases p rows) as H1.
  pose proof (parseBatch_cases p (List.filter nonEmptyRow rows)) as H2.
  rewrite filter_idempotent in H2.
  destruct (List.filter nonEmptyRow rows); congruence.
Qed.

Lemma handleSubmit_throw client p v w name m :
  VectorInsertPage.indexName p = Some name -> Js.truthy name = true ->
  parseBatch p (VectorInsertPage.vectors v) = Throw m ->
  handleSubmit client p v w = (rejected m v, w).
Proof.
  intros Hn Ht Hb. unfold VectorInsertPage.handleSubmit. simpl.
  rewrite Hn, Ht. simpl. rewrite Hb. reflexivity.
Qed.

Lemma handleSubmit_ok client p v w name parsed :
  VectorInsertPage.indexName p = Some name -> Js.truthy name = true ->
  parseBatch p (VectorInsertPage.vectors v) = Ok parsed ->
  handleSubmit client p v w
  = (let '(response, w') := Client.insertVectors client name parsed w in
     if negb (Client.success response)
     then (rejected (Host.orElse (Client.error response) "Failed to insert vectors") v, w')
     else (VectorInsertPage.mkView [VectorInsertPage.emptyRow] false None
             (Some ("Successfully inserted " +:+ Js.showNat (length parsed)
                    +:+ " vector(s)")), w')).
Proof.
  intros Hn Ht Hb. unfold VectorInsertPage.handleSubmit. simpl.
  rewrite Hn, Ht. simpl. rewrite Hb.
  destruct (Client.insertVectors client name parsed w) as [response w'].
  destruct (Client.success response); reflexivity.
Qed.

Lemma handleApiError_calls {T : Type} e w :
  Client.calls (snd (Client.handleApiError (T := T) e w)) = Client.calls w.
Proof.
  unfold Client.handleApiError.
  destruct (Client.isUnauthorizedError e); [|reflexivity].
  destruct (Client.onUnauthorized w); reflexivity.
Qed.

(** The client calls of an insert: the index is fetched, then the whole
    batch goes out in one upsert. *)
Lemma insertVectors_calls (client : Client.Endee QueryResult UpsertReply) name vs w :
  exists cs,
    Client.calls (snd (Client.insertVectors client name vs w))
    = Client.calls w ++ Client.GetIndex name :: cs
    /\ (cs = [] \/ exists index, cs = [Client.Upsert index vs]).
Proof.
  unfold Client.insertVectors.
  destruct (Client.getIndex client name) as [index|e].
  - exists [Client.Upsert index vs]. split; [|eauto].
    destruct (Client.upsert client index vs) as [r|e];
      [|rewrite handleApiError_calls]; simpl; rewrite <- app_assoc; reflexivity.
  - exists []. split; [|auto]. now rewrite handleApiError_calls.
Qed.

Lemma insertVectors_sent (client : Client.Endee QueryResult UpsertReply) name vs w :
  Client.calls (snd (Client.insertVectors client name vs w))
  = Client.calls w
    ++ Client.GetIndex name
       :: match Client.getIndex client name with
          | Client.Returned index => [Client.Upsert index vs]
          | Client.Raised _ => []
          end.
Proof.
  unfold Client.insertVectors.
  destruct (Client.getIndex client name) as [index|e].
  - destruct (Client.upsert client index vs) as [r|e];
      [|rewrite handleApiError_calls]; simpl; rewrite <- app_assoc; reflexivity.
  - now rewrite handleApiError_calls.
Qed.

(** The [try] block of [parseVector] reads the id, the dense vector and the
    sparse pair, then the metadata, then the filter. *)
Lemma parseVectorBody_parts p row :
  VectorInsertPage.parseVectorBody syntaxErrorMessage p row
  = (do part <- InsertRow.vectorPart syntaxErrorMessage p row;
     do m <- VectorInsertPage.jsonField syntaxErrorMessage (VectorInsertPage.meta row);
     do parsedFilter <-
       VectorInsertPage.jsonField syntaxErrorMessage (VectorInsertPage.filter row);
     Ok (Client.mkVectorItem (Js.trim (VectorInsertPage.id row)) (fst part)
           (fst (snd part)) (snd (snd part)) m parsedFilter)).
Proof.
  unfold VectorInsertPage.parseVectorBody, InsertRow.vectorPart, InsertRow.sparsePart.
  destruct (throwIf _ "Vector ID is required"); simpl; [|reflexivity].
  destruct (SearchPage.denseVector _ _); simpl; [|reflexivity].
  destruct (if VectorInsertPage.isHybrid p then _ else _); reflexivity.
Qed.

Lemma jsonField_cases text :
  VectorInsertPage.badJsonField text
  \/ exists m, VectorInsertPage.jsonField syntaxErrorMessage text = Ok m.
Proof.
  unfold VectorInsertPage.badJsonField, VectorInsertPage.jsonField, Host.JSON_parse.
  destruct (Js.truthy (Js.trim text)); [|eauto].
  destruct (Json.parse text); simpl; eauto.
Qed.

Lemma jsonField_good text :
  ~ VectorInsertPage.badJsonField text ->
  exists m, VectorInsertPage.jsonField syntaxErrorMessage text = Ok m.
Proof. intros Hgood. destruct (jsonField_cases text); [contradiction | assumption]. Qed.

Lemma jsonField_throw text inner :
  VectorInsertPage.jsonField syntaxErrorMessage text = Throw inner ->
  VectorInsertPage.badJsonField text /\ inner = syntaxErrorMessage text.
Proof.
  unfold VectorInsertPage.badJsonField, VectorInsertPage.jsonField, Host.JSON_parse.
  destruct (Js.truthy (Js.trim text)); [|discriminate].
  destruct (Json.parse text); simpl; [discriminate |]. intros [= <-]. auto.
Qed.

(** Why a row is refused: by the first of its fields, in the order they are
    read, that does not pass. *)
Lemma parseVectorBody_reason p row inner :
  VectorInsertPage.parseVectorBody syntaxErrorMessage p row = Throw inner
  <-> InsertRow.vectorPart syntaxErrorMessage p row = Throw inner
      \/ (exists part, InsertRow.vectorPart syntaxErrorMessage p row = Ok part)
         /\ (VectorInsertPage.badJsonField (VectorInsertPage.meta row)
             /\ inner = syntaxErrorMessage (VectorInsertPage.meta row)
             \/ ~ VectorInsertPage.badJsonField (VectorInsertPage.meta row)
                /\ VectorInsertPage.badJsonField (VectorInsertPage.filter row)
                /\ inner = syntaxErrorMessage (VectorInsertPage.filter row)).
Proof.
  rewrite parseVectorBody_parts.
  destruct (InsertRow.vectorPart syntaxErrorMessage p row) as [part|m]; simpl.
  - split.
    + intros H. right. split; [eauto |].
      destruct (VectorInsertPage.jsonField syntaxErrorMessage (VectorInsertPage.meta row))
        as [m|m] eqn:Hm; simpl in H.
      * right. split.
        { intros Hbad. rewrite (jsonField_bad _ Hbad) in Hm. discriminate. }
        destruct (VectorInsertPage.jsonField syntaxErrorMessage
                    (VectorInsertPage.filter row)) as [f|f] eqn:Hf; simpl in H;
          [discriminate |].
        injection H as <-. now apply jsonField_throw.
      * left. injection H as <-. now apply jsonField_throw.
    + intros [H | [_ [[Hbad ->] | (Hgood & Hbad & ->)]]]; [discriminate | |].
      * now rewrite (jsonField_bad _ Hbad).
      * destruct (jsonField_good _ Hgood) as [m ->]. simpl.
        now rewrite (jsonField_bad _ Hbad).
  - split.
    + intros [= <-]. now left.
    + intros [[= <-] | [[part H] _]]; [reflexivity | discriminate].
Qed.

(** Why the part of a row before its JSON fields is refused. *)
Lemma vectorPart_reason p row inner :
  InsertRow.vectorPart syntaxErrorMessage p row = Throw inner
  <-> (Js.truthy (Js.trim (VectorInsertPage.id row)) = false
       /\ inner = "Vector ID is required")
      \/ (Js.truthy (Js.trim (VectorInsertPage.id row)) = true
          /\ SearchPage.denseVector syntaxErrorMessage (VectorInsertPage.vector row)
             = Throw inner)
      \/ (Js.truthy (Js.trim (VectorInsertPage.id row)) = true
          /\ (exists vectorArray,
                SearchPage.denseVector syntaxErrorMessage (VectorInsertPage.vector row)
                = Ok vectorArray)
          /\ InsertRow.sparsePart syntaxErrorMessage p row = Throw inner).
Proof.
  unfold InsertRow.vectorPart.
  destruct (Js.truthy (Js.trim (VectorInsertPage.id row))); simpl.
  - destruct (SearchPage.denseVector syntaxErrorMessage (VectorInsertPage.vector row))
      as [va|m]; simpl.
    + destruct (InsertRow.sparsePart syntaxErrorMessage p row) as [sp|m]; simpl.
      * split; [discriminate |].
        intros [[[=] _] | [[_ [=]] | (_ & _ & [=])]].
      * split.
        { intros [= <-]. right. right. eauto. }
        intros [[[=] _] | [[_ [=]] | (_ & _ & [= <-])]]. reflexivity.
    + split.
      * intros [= <-]. right. left. auto.
      * intros [[[=] _] | [[_ [= <-]] | (_ & [va [=]] & _)]]. reflexivity.
  - split.
    + intros [= <-]. left. auto.
    + intros [[_ ->] | [[[=] _] | ([=] & _)]]. reflexivity.
Qed.

(** The loop stops at the first row that does not parse, with its reason
    behind the prefix. *)
Lemma parseAll_first_failure p front failing rest inner :
  Forall (fun r => exists item, parseVector p r = Ok item) front ->
  VectorInsertPage.parseVectorBody syntaxErrorMessage p failing = Throw inner ->
  parseAll p (front ++ failing :: rest) = Throw ("Invalid vector data: " +:+ inner).
Proof.
  intros Hfront Hbody. rewrite parseAll_app.
  destruct (parseAll_all_ok p front Hfront) as [items ->]. simpl.
  unfold VectorInsertPage.parseVector. now rewrite Hbody.
Qed.

Lemma parseAll_failure_found p rows m :
  parseAll p rows = Throw m ->
  exists front failing rest inner,
    rows = front ++ failing :: rest
    /\ Forall (fun r => exists item, parseVector p r = Ok item) front
    /\ VectorInsertPage.parseVectorBody syntaxErrorMessage p failing = Throw inner
    /\ m = "Invalid vector data: " +:+ inner.
Proof.
  induction rows as [|r rows IH]; simpl; [discriminate |].
  destruct (parseVector p r) as [item|m'] eqn:Hr; simpl.
  - destruct (parseAll p rows) as [items|m'']; simpl; [discriminate |].
    intros [= <-]. destruct (IH eq_refl) as (front & failing & rest & inner & -> & Hf & Hb & ->).
    exists (r :: front), failing, rest, inner. repeat split; auto.
    constructor; eauto.
  - intros [= <-]. unfold VectorInsertPage.parseVector in Hr.
    destruct (VectorInsertPage.parseVectorBody syntaxErrorMessage p r) as [item|inner] eqn:Hb;
      [discriminate |].
    injection Hr as <-. exists [], r, rows, inner. repeat split; auto.
Qed.

Lemma parseBatch_first_failure p rows front failing rest inner :
  List.filter nonEmptyRow rows = front ++ failing :: rest ->
  Forall (fun r => exists item, parseVector p r = Ok item) front ->
  VectorInsertPage.parseVectorBody syntaxErrorMessage p failing = Throw inner ->
  parseBatch p rows = Throw ("Invalid vector data: " +:+ inner).
Proof.
  intros Hrows Hfront Hbody. pose proof (parseBatch_cases p rows) as Hc.
  rewrite Hrows in Hc.
  destruct (front ++ failing :: rest) eqn:Hl; [now destruct front |].
  rewrite Hc, <- Hl. now apply parseAll_first_failure.
Qed.

(** A placeholder row changes nothing of the batch, whatever its texts. *)
Lemma parseBatch_without_placeholder p before placeholder after :
  nonEmptyRow placeholder = false ->
  parseBatch p (before ++ placeholder :: after) = parseBatch p (before ++ after).
Proof.
  intros Hph.
  rewrite (parseBatch_skips_placeholders p (before ++ placeholder :: after)),
    (parseBatch_skips_placeholders p (before ++ after)).
  rewrite !List.filter_app. simpl. now rewrite Hph.
Qed.

(** What a submission shows and sends depends on the rows through the
    batch only. *)
Lemma handleSubmit_by_batch client p v w name rows rows' :
  VectorInsertPage.indexName p = Some name -> Js.truthy name = true ->
  parseBatch p rows = parseBatch p rows' ->
  let one := handleSubmit client p (VectorInsertPage.setVectors rows v) w in
  let other := handleSubmit client p (VectorInsertPage.setVectors rows' v) w in
  snd one = snd other
  /\ VectorInsertPage.error (fst one) = VectorInsertPage.error (fst other)
  /\ VectorInsertPage.success (fst one) = VectorInsertPage.success (fst other)
  /\ VectorInsertPage.submitting (fst one) = VectorInsertPage.submitting (fst other).
Proof.
  intros Hn Ht Heq one other. subst one other.
  destruct (parseBatch p rows') as [items|m] eqn:Hb'.
  - rewrite (handleSubmit_ok client p (VectorInsertPage.setVectors rows v) w name items
               Hn Ht Heq),
      (handleSubmit_ok client p (VectorInsertPage.setVectors rows' v) w name items
         Hn Ht Hb').
    destruct (Client.insertVectors client name items w) as [response w'].
    destruct (Client.success response); simpl; auto.
  - rewrite (handleSubmit_throw client p (VectorInsertPage.setVectors rows v) w name m
               Hn Ht Heq),
      (handleSubmit_throw client p (VectorInsertPage.setVectors rows' v) w name m
         Hn Ht Hb').
    simpl. auto.
Qed.

(** C2 (amended). When a row that is not a placeholder (its id or its
    vector text is not blank) has a metadata or filter text that is filled
    in and does not parse as JSON, the submission is aborted before any
    network call: the rows stay, nothing is sent, and the error shown is
    "Invalid vector data: " followed by the message of the first failure
    met, that is, of the first row, among those that are not placeholders,
    that does not parse, and of the first field of that row that does not
    pass. When that row is the given one and its id, vector and sparse pair
    pass, the message is the parser's own syntax-error message for the
    metadata text, or for the filter text when the metadata is fine. The
    message does not tell where in the batch the failing vector stands: rows
    that parse, put in front of the batch, leave it as it is. A placeholder
    row is skipped with its metadata and filter unread: with or without it,
    whatever its texts, the batch, what is shown and what is sent are the
    same. *)
Theorem C2_bad_json_field_aborts_batch client p v w name row :
  VectorInsertPage.indexName p = Some name -> Js.truthy name = true ->
  In row (VectorInsertPage.vectors v) -> nonEmptyRow row = true ->
  VectorInsertPage.badJsonField (VectorInsertPage.meta row)
  \/ VectorInsertPage.badJsonField (VectorInsertPage.filter row) ->
  (exists front failing rest inner,
     List.filter nonEmptyRow (VectorInsertPage.vectors v) = front ++ failing :: rest
     /\ Forall (fun r => exists item, parseVector p r = Ok item) front
     /\ VectorInsertPage.parseVectorBody syntaxErrorMessage p failing = Throw inner
     /\ (InsertRow.vectorPart syntaxErrorMessage p failing = Throw inner
         \/ (exists part, InsertRow.vectorPart syntaxErrorMessage p failing = Ok part)
            /\ (VectorInsertPage.badJsonField (VectorInsertPage.meta failing)
                /\ inner = syntaxErrorMessage (VectorInsertPage.meta failing)
                \/ ~ VectorInsertPage.badJsonField (VectorInsertPage.meta failing)
                   /\ VectorInsertPage.badJsonField (VectorInsertPage.filter failing)
                   /\ inner = syntaxErrorMessage (VectorInsertPage.filter failing)))
     /\ handleSubmit client p v w = (rejected ("Invalid vector data: " +:+ inner) v, w)
     /\ (forall front',
           Forall (fun r => exists item, parseVector p r = Ok item) front' ->
           VectorInsertPage.error
             (fst (handleSubmit client p
                     (VectorInsertPage.setVectors
                        (front' ++ VectorInsertPage.vectors v) v) w))
           = Some ("Invalid vector data: " +:+ inner)))
  /\ (forall front rest part,
        List.filter nonEmptyRow (VectorInsertPage.vectors v) = front ++ row :: rest ->
        Forall (fun r => exists item, parseVector p r = Ok item) front ->
        InsertRow.vectorPart syntaxErrorMessage p row = Ok part ->
        (VectorInsertPage.badJsonField (VectorInsertPage.meta row) ->
         handleSubmit client p v w
         = (rejected ("Invalid vector data: "
                      +:+ syntaxErrorMessage (VectorInsertPage.meta row)) v, w))
        /\ (~ VectorInsertPage.badJsonField (VectorInsertPage.meta row) ->
            handleSubmit client p v w
            = (rejected ("Invalid vector data: "
                         +:+ syntaxErrorMessage (VectorInsertPage.filter row)) v, w)))
  /\ (forall before placeholder after,
        nonEmptyRow placeholder = false ->
        let kept :=
          handleSubmit client p
            (VectorInsertPage.setVectors (before ++ placeholder :: after) v) w in
        let dropped :=
          handleSubmit client p (VectorInsertPage.setVectors (before ++ after) v) w in
        parseBatch p (before ++ placeholder :: after) = parseBatch p (before ++ after)
        /\ snd kept = snd dropped
        /\ VectorInsertPage.error (fst kept) = VectorInsertPage.error (fst dropped)
        /\ VectorInsertPage.success (fst kept) = VectorInsertPage.success (fst dropped)).
Proof.
  intros Hn Ht Hin Hrow Hbad.
  assert (Hin' : In row (List.filter nonEmptyRow (VectorInsertPage.vectors v)))
    by (apply filter_In; auto).
  split; [|split].
  - destruct (parseAll_throw p _ row Hin' (parseVector_bad_field p row Hbad)) as [inner0 Hall].
    destruct (parseAll_failure_found p _ _ Hall)
      as (front & failing & rest & inner & Hrows & Hfront & Hbody & Hmsg).
    exists front, failing, rest, inner.
    assert (Hbatch : parseBatch p (VectorInsertPage.vectors v)
                     = Throw ("Invalid vector data: " +:+ inner))
      by now apply (parseBatch_first_failure p _ front failing rest).
    split; [exact Hrows |]. split; [exact Hfront |]. split; [exact Hbody |].
    split; [now apply parseVectorBody_reason |].
    split; [now apply (handleSubmit_throw client p v w name) |].
    intros front' Hfront'.
    rewrite (handleSubmit_throw client p _ w name ("Invalid vector data: " +:+ inner));
      auto.
    simpl VectorInsertPage.vectors.
    apply (parseBatch_first_failure p _ (List.filter nonEmptyRow front' ++ front)
             failing rest).
    + rewrite List.filter_app, Hrows, <- app_assoc. reflexivity.
    + apply Forall_app. split; [|exact Hfront].
      apply List.Forall_forall. intros r Hr. apply filter_In in Hr as [Hr _].
      rewrite List.Forall_forall in Hfront'. auto.
    + exact Hbody.
  - intros front rest part Hrows Hfront Hpart. split.
    + intros Hmeta. apply (handleSubmit_throw client p v w name); auto.
      apply (parseBatch_first_failure p _ front row rest); auto.
      apply parseVectorBody_reason. right. split; [eauto |]. left. auto.
    + intros Hgood. apply (handleSubmit_throw client p v w name); auto.
      apply (parseBatch_first_failure p _ front row rest); auto.
      apply parseVectorBody_reason. right. split; [eauto |]. right.
      destruct Hbad as [Hm | Hf]; [contradiction | auto].
  - intros before placeholder after Hph kept dropped.
    pose proof (parseBatch_without_placeholder p before placeholder after Hph) as Heq.
    split; [exact Heq |].
    destruct (handleSubmit_by_batch client p v w name _ _ Hn Ht Heq) as (H1 & H2 & H3 & _).
    auto.
Qed.

(** C3 (amended). A row whose id and vector texts are both blank is a
    placeholder: the submission is that of the batch without such rows, and
    what is sent is the parse, row by row, of the others, in one upsert
    once the client has answered with the index. A batch with no
    other row fails with "At least one vector is required". A batch with a
    row, among the others, that does not parse fails with "Invalid vector
    data: " followed by the reason the first such row is refused for: a
    blank id, the dense vector, the sparse pair of a hybrid index, the
    metadata or the filter, whichever is met first. Every failure of
    validation is one of these two, nothing is sent in either case, and the
    message "At least one valid vector is required" is not among those
    validation gives. *)
Theorem C3_placeholder_rows_and_empty_batches client p v w name :
  VectorInsertPage.indexName p = Some name -> Js.truthy name = true ->
  let rows := VectorInsertPage.vectors v in
  parseBatch p rows = parseBatch p (List.filter nonEmptyRow rows)
  /\ (forall items, parseBatch p rows = Ok items ->
        Forall2 (fun r item => parseVector p r = Ok item)
                (List.filter nonEmptyRow rows) items
        /\ (exists cs,
             Client.calls (snd (handleSubmit client p v w))
             = Client.calls w ++ Client.GetIndex name :: cs
             /\ (cs = [] \/ exists index, cs = [Client.Upsert index items]))
        /\ Client.calls (snd (handleSubmit client p v w))
           = Client.calls w
             ++ Client.GetIndex name
                :: match Client.getIndex client name with
                   | Client.Returned index => [Client.Upsert index items]
                   | Client.Raised _ => []
                   end)
  /\ (List.filter nonEmptyRow rows = [] ->
      handleSubmit client p v w = (rejected "At least one vector is required" v, w))
  /\ (forall front failing rest inner,
        List.filter nonEmptyRow rows = front ++ failing :: rest ->
        Forall (fun r => exists item, parseVector p r = Ok item) front ->
        VectorInsertPage.parseVectorBody syntaxErrorMessage p failing = Throw inner ->
        handleSubmit client p v w
        = (rejected ("Invalid vector data: " +:+ inner) v, w))
  /\ (forall failing inner,
        VectorInsertPage.parseVectorBody syntaxErrorMessage p failing = Throw inner
        <-> (Js.truthy (Js.trim (VectorInsertPage.id failing)) = false
             /\ inner = "Vector ID is required")
            \/ (Js.truthy (Js.trim (VectorInsertPage.id failing)) = true
                /\ SearchPage.denseVector syntaxErrorMessage
                     (VectorInsertPage.vector failing) = Throw inner)
            \/ (Js.truthy (Js.trim (VectorInsertPage.id failing)) = true
                /\ (exists vectorArray,
                      SearchPage.denseVector syntaxErrorMessage
                        (VectorInsertPage.vector failing) = Ok vectorArray)
                /\ InsertRow.sparsePart syntaxErrorMessage p failing = Throw inner)
            \/ ((exists part, InsertRow.vectorPart syntaxErrorMessage p failing = Ok part)
                /\ VectorInsertPage.badJsonField (VectorInsertPage.meta failing)
                /\ inner = syntaxErrorMessage (VectorInsertPage.meta failing))
            \/ ((exists part, InsertRow.vectorPart syntaxErrorMessage p failing = Ok part)
                /\ ~ VectorInsertPage.badJsonField (VectorInsertPage.meta failing)
                /\ VectorInsertPage.badJsonField (VectorInsertPage.filter failing)
                /\ inner = syntaxErrorMessage (VectorInsertPage.filter failing)))
  /\ (forall m, parseBatch p rows = Throw m ->
        handleSubmit client p v w = (rejected m v, w)
        /\ (m = "At least one vector is required"
            \/ exists inner, m = "Invalid vector data: " +:+ inner)
        /\ (List.filter nonEmptyRow rows = [] /\ m = "At least one vector is required"
            \/ exists front failing rest inner,
                 List.filter nonEmptyRow rows = front ++ failing :: rest
                 /\ Forall (fun r => exists item, parseVector p r = Ok item) front
                 /\ VectorInsertPage.parseVectorBody syntaxErrorMessage p failing
                    = Throw inner
                 /\ m = "Invalid vector data: " +:+ inner)
        /\ m <> "At least one valid vector is required").
Proof.
  intros Hn Ht rows.
  pose proof (parseBatch_cases p rows) as Hc.
  assert (Hcase : forall m, parseBatch p rows = Throw m ->
                  List.filter nonEmptyRow rows = [] /\ m = "At least one vector is required"
                  \/ exists front failing rest inner,
                       List.filter nonEmptyRow rows = front ++ failing :: rest
                       /\ Forall (fun r => exists item, parseVector p r = Ok item) front
                       /\ VectorInsertPage.parseVectorBody syntaxErrorMessage p failing
                          = Throw inner
                       /\ m = "Invalid vector data: " +:+ inner).
  { intros m Hm. destruct (List.filter nonEmptyRow rows) as [|v0 l] eqn:Hf.
    - left. split; [reflexivity | congruence].
    - right. rewrite Hc in Hm. now apply (parseAll_failure_found p (v0 :: l) m). }
  split; [apply parseBatch_skips_placeholders |]. split; [|split; [|split; [|split]]].
  - intros items Hitems. split.
    + destruct (List.filter nonEmptyRow rows) eqn:Hf; [congruence |].
      rewrite Hc in Hitems. now apply parseAll_items.
    + rewrite (handleSubmit_ok client p v w name items Hn Ht Hitems).
      pose proof (insertVectors_sent client name items w) as Hsent.
      destruct (insertVectors_calls client name items w) as (cs & Hcs & Hshape).
      destruct (Client.insertVectors client name items w) as [response w'].
      split; [exists cs; split; [|exact Hshape] |];
        destruct (Client.success response); assumption.
  - intros Hf. fold rows. rewrite Hf in Hc.
    now apply (handleSubmit_throw client p v w name).
  - intros front failing rest inner Hrows Hfront Hbody.
    apply (handleSubmit_throw client p v w name); auto.
    now apply (parseBatch_first_failure p _ front failing rest).
  - intros failing inner. rewrite parseVectorBody_reason, vectorPart_reason. tauto.
  - intros m Hm. split; [now apply (handleSubmit_throw client p v w name) |].
    split; [|split; [now apply Hcase |]].
    + destruct (Hcase m Hm) as [[_ ->] | (_ & _ & _ & inner & _ & _ & _ & ->)]; eauto.
    + destruct (Hcase m Hm) as [[_ ->] | (_ & _ & _ & inner & _ & _ & _ & ->)];
        vm_compute; discriminate.
Qed.


End Facts.

Lemma C2_witness :
  VectorInsertPage.handleSubmit Host.exampleSyntaxErrorMessage Example.client
    Example.insertProps
    (Example.insertView [Example.row "a" "1, 2" EmptyString; Example.row "b" "3" "{"])
    Example.world
  = (VectorInsertPage.rejected "Invalid vector data: Unexpected token in JSON: {"
       (Example.insertView [Example.row "a" "1, 2" EmptyString; Example.row "b" "3" "{"]),
     Example.world).
Proof.
  destruct (C2_bad_json_field_aborts_batch Host.exampleSyntaxErrorMessage Example.client
              Example.insertProps
              (Example.insertView [Example.row "a" "1, 2" EmptyString; Example.row "b" "3" "{"])
              Example.world "idx" (Example.row "b" "3" "{") eq_refl eq_refl)
    as (_ & H & _).
  - simpl. auto.
  - reflexivity.
  - left. split; reflexivity.
  - destruct (H [Example.row "a" "1, 2" EmptyString] []
                (JArray [JNumber "3"], (None, None)) eq_refl) as [Hmeta _].
    + constructor; [|constructor]. eexists. reflexivity.
    + reflexivity.
    + apply Hmeta. split; reflexivity.
Defined.

Lemma C2_counterexample :
  (VectorInsertPage.error
     (fst (VectorInsertPage.handleSubmit Host.exampleSyntaxErrorMessage Example.client
             Example.insertProps
             (Example.insertView [Example.row "b" "3" "{"]) Example.world))
   = Some "Invalid vector data: Unexpected token in JSON: {"
   /\ VectorInsertPage.error
        (fst (VectorInsertPage.handleSubmit Host.exampleSyntaxErrorMessage Example.client
                Example.insertProps
                (Example.insertView [Example.row "a" "1, 2" EmptyString; Example.row "b" "3" "{"])
                Example.world))
      = Some "Invalid vector data: Unexpected token in JSON: {")
  /\ (VectorInsertPage.badJsonField "{"
      /\ VectorInsertPage.handleSubmit Host.exampleSyntaxErrorMessage Example.client
           Example.insertProps
           (Example.insertView [Example.row EmptyString EmptyString "{";
                                Example.row "a" "1, 2" EmptyString])
           Example.world
         = (VectorInsertPage.mkView [VectorInsertPage.emptyRow] false None
              (Some "Successfully inserted 1 vector(s)"),
            Client.mkWorld (Client.onUnauthorized Example.world) (Client.auth Example.world)
              [Client.GetIndex "idx";
               Client.Upsert "idx"
                 [Client.mkVectorItem "a" (JArray [JNumber "1"; JNumber "2"])
                    None None None None]])).
Proof.
  split; [split; reflexivity |]. split; [split; reflexivity | reflexivity].
Qed.

Lemma C3_witness :
  VectorInsertPage.handleSubmit Host.exampleSyntaxErrorMessage Example.client
    Example.insertProps (Example.insertView [VectorInsertPage.emptyRow]) Example.world
  = (VectorInsertPage.rejected "At least one vector is required"
       (Example.insertView [VectorInsertPage.emptyRow]), Example.world)
  /\ VectorInsertPage.handleSubmit Host.exampleSyntaxErrorMessage Example.client
       Example.insertProps
       (Example.insertView [VectorInsertPage.emptyRow; Example.row EmptyString "1, 2" "{"])
       Example.world
     = (VectorInsertPage.rejected "Invalid vector data: Vector ID is required"
          (Example.insertView
             [VectorInsertPage.emptyRow; Example.row EmptyString "1, 2" "{"]),
        Example.world).
Proof.
  split.
  - destruct (C3_placeholder_rows_and_empty_batches Host.exampleSyntaxErrorMessage
                Example.client Example.insertProps
                (Example.insertView [VectorInsertPage.emptyRow]) Example.world "idx"
                eq_refl eq_refl) as (_ & _ & H & _).
    apply H. reflexivity.
  - destruct (C3_placeholder_rows_and_empty_batches Host.exampleSyntaxErrorMessage
                Example.client Example.insertProps
                (Example.insertView
                   [VectorInsertPage.emptyRow; Example.row EmptyString "1, 2" "{"])
                Example.world "idx" eq_refl eq_refl) as (_ & _ & _ & H & _).
    apply (H [] (Example.row EmptyString "1, 2" "{") [] "Vector ID is required");
      [reflexivity | constructor | reflexivity].
Defined.

Lemma C3_counterexample :
  List.filter VectorInsertPage.nonEmptyRow [VectorInsertPage.emptyRow] = []
  /\ VectorInsertPage.error
       (fst (VectorInsertPage.handleSubmit Host.exampleSyntaxErrorMessage Example.client
               Example.insertProps (Example.insertView [VectorInsertPage.emptyRow])
               Example.world))
     = Some "At least one vector is required"
  /\ Some "At least one vector is required"
     <> Some "At least one valid vector is required".
Proof.
  split; [reflexivity |]. split; [reflexivity | discriminate].
Qed.


End InsertFacts.

(** ** The create-index page *)

Module CreateIndexFacts.

#[local] Arguments String.append !_ _ : simpl nomatch.

Section Facts.

Context {QueryResult UpsertReply : Type}.

Abbreviation handleSubmit :=
  (CreateIndexPage.handleSubmit (QueryResult := QueryResult) (UpsertReply := UpsertReply)).

Lemma parseInt_empty : Js.parseInt EmptyString = None.
Proof. reflexivity. Qed.

Lemma create_handleSubmit_invalid client f v w m :
  CreateIndexPage.validate f = Throw m ->
  handleSubmit client f v w
  = (CreateIndexPage.mkView (CreateIndexPage.submitting v) (Some m)
       (CreateIndexPage.location v), w).
Proof. intros H. unfold CreateIndexPage.handleSubmit. now rewrite H. Qed.

Lemma apiCreateIndex_calls (client : Client.Endee QueryResult UpsertReply) n d s o w :
  exists options,
    Client.calls (snd (Client.apiCreateIndex client n d s o w))
    = Client.calls w ++ [Client.CreateIndex options]
    /\ options
       = Client.mkCreateIndexOptions n d s
           (if Js.truthyOpt (Client.o_precision o)
            then option_map Client.mapPrecision (Client.o_precision o) else None)
           (match Client.o_sparse_dim o with
            | Some x => if negb (x =? 0) && (0 <? x) then Some x else None
            | None => None
            end)
           (if Client.truthyNum (Client.o_M o) then Client.o_M o else None)
           (if Client.truthyNum (Client.o_ef_con o) then Client.o_ef_con o else None).
Proof.
  unfold Client.apiCreateIndex. eexists. split; [|reflexivity].
  destruct (Client.createIndex client _) as [r|e]; [reflexivity |].
  unfold Client.handleApiError.
  destruct (Client.isUnauthorizedError e); [|reflexivity].
  destruct (Client.onUnauthorized _); reflexivity.
Qed.

Lemma create_handleSubmit_valid client f v w n d s o :
  CreateIndexPage.validate f = Ok (n, d, s, o) ->
  Client.calls (snd (handleSubmit client f v w))
  = Client.calls (snd (Client.apiCreateIndex client n d s o w)).
Proof.
  intros H. unfold CreateIndexPage.handleSubmit. rewrite H.
  destruct (Client.apiCreateIndex client n d s o w) as [response w']. reflexivity.
Qed.

Lemma blank_notPositive s :
  negb (Js.truthy s) || Js.notPositive (Js.parseInt s) = Js.notPositive (Js.parseInt s).
Proof. destruct s; reflexivity. Qed.

(** The outcome of the validation, check by check. *)
Lemma validate_cases f :
  let blankName := negb (Js.truthy (Js.trim (CreateIndexPage.name f))) in
  let badDimension := Js.notPositive (Js.parseInt (CreateIndexPage.dimension f)) in
  let badSparse :=
    CreateIndexPage.isHybrid f
    && Js.notPositive (Js.parseInt (CreateIndexPage.sparseDimension f)) in
  let badM :=
    CreateIndexPage.showAdvanced f
    && CreateIndexPage.outside (Js.parseInt (CreateIndexPage.mParam f)) 4 64 in
  let badEf :=
    CreateIndexPage.showAdvanced f
    && CreateIndexPage.outside (Js.parseInt (CreateIndexPage.efConstruction f)) 64 512 in
  CreateIndexPage.validate f =
  if blankName then Throw "Index name is required"
  else if badDimension then Throw "Dimension must be a positive number"
  else if badSparse
  then Throw "Sparse dimension must be a positive number for hybrid indexes"
  else if badM then Throw "M parameter must be between 4 and 64"
  else if badEf then Throw "ef_construction must be between 64 and 512"
  else Ok (Js.trim (CreateIndexPage.name f),
           match Js.parseInt (CreateIndexPage.dimension f) with Some d => d | None => 0 end,
           CreateIndexPage.spaceType f,
           Client.mkCreateOptions (Some (CreateIndexPage.precision f))
             (if CreateIndexPage.isHybrid f
              then Js.parseInt (CreateIndexPage.sparseDimension f) else None)
             (if CreateIndexPage.showAdvanced f
              then Js.parseInt (CreateIndexPage.mParam f) else None)
             (if CreateIndexPage.showAdvanced f
              then Js.parseInt (CreateIndexPage.efConstruction f) else None)).
Proof.
  intros. unfold CreateIndexPage.validate.
  fold blankName. destruct blankName; [reflexivity |].
  rewrite blank_notPositive. fold badDimension. destruct badDimension; [reflexivity |].
  subst badSparse. destruct (CreateIndexPage.isHybrid f); simpl.
  - rewrite blank_notPositive.
    destruct (Js.notPositive (Js.parseInt (CreateIndexPage.sparseDimension f)));
      reflexivity.
  - reflexivity.
Qed.

Lemma validate_leading_digits f ds rest :
  Json.allDigits ds = true -> ds <> EmptyString ->
  Json.headIs (fun c => Js.isDigit c = false /\ Ascii.eqb c "x" = false
                        /\ Ascii.eqb c "X" = false) rest ->
  CreateIndexPage.validate (CreateIndexForm.withDimension (ds +:+ rest) f)
  = CreateIndexPage.validate (CreateIndexForm.withDimension ds f)
  /\ CreateIndexPage.validate (CreateIndexForm.withSparseDimension (ds +:+ rest) f)
     = CreateIndexPage.validate (CreateIndexForm.withSparseDimension ds f)
  /\ CreateIndexPage.validate (CreateIndexForm.withM (ds +:+ rest) f)
     = CreateIndexPage.validate (CreateIndexForm.withM ds f)
  /\ CreateIndexPage.validate (CreateIndexForm.withEfConstruction (ds +:+ rest) f)
     = CreateIndexPage.validate (CreateIndexForm.withEfConstruction ds f).
Proof.
  intros Hd Hne Hr. pose proof (DigitsFacts.parseInt_leading_digits ds rest Hd Hne Hr) as Hp.
  assert (Ht : Js.truthy (ds +:+ rest) = Js.truthy ds).
  { destruct ds; [contradiction | reflexivity]. }
  unfold CreateIndexPage.validate, CreateIndexForm.withDimension,
    CreateIndexForm.withSparseDimension, CreateIndexForm.withM,
    CreateIndexForm.withEfConstruction.
  cbn [CreateIndexPage.name CreateIndexPage.dimension CreateIndexPage.isHybrid
       CreateIndexPage.sparseDimension CreateIndexPage.showAdvanced
       CreateIndexPage.mParam CreateIndexPage.efConstruction
       CreateIndexPage.spaceType CreateIndexPage.precision].
  rewrite Hp, Ht. auto.
Qed.

Lemma create_handleSubmit_same client f f' v w :
  CreateIndexPage.validate f = CreateIndexPage.validate f' ->
  handleSubmit client f v w = handleSubmit client f' v w.
Proof. intros H. unfold CreateIndexPage.handleSubmit. now rewrite H. Qed.

(** The create call of a form that passes every check. *)
Lemma create_handleSubmit_call client f v w :
  let blankName := negb (Js.truthy (Js.trim (CreateIndexPage.name f))) in
  let badDimension := Js.notPositive (Js.parseInt (CreateIndexPage.dimension f)) in
  let badSparse :=
    CreateIndexPage.isHybrid f
    && Js.notPositive (Js.parseInt (CreateIndexPage.sparseDimension f)) in
  let badM :=
    CreateIndexPage.showAdvanced f
    && CreateIndexPage.outside (Js.parseInt (CreateIndexPage.mParam f)) 4 64 in
  let badEf :=
    CreateIndexPage.showAdvanced f
    && CreateIndexPage.outside (Js.parseInt (CreateIndexPage.efConstruction f)) 64 512 in
  blankName || badDimension || badSparse || badM || badEf = false ->
  exists d,
    Js.parseInt (CreateIndexPage.dimension f) = Some d /\ 0 < d
    /\ Client.calls (snd (handleSubmit client f v w))
       = Client.calls w ++
         [Client.CreateIndex
            (Client.mkCreateIndexOptions
               (Js.trim (CreateIndexPage.name f)) d (CreateIndexPage.spaceType f)
               (if Js.truthy (CreateIndexPage.precision f)
                then Some (Client.mapPrecision (CreateIndexPage.precision f))
                else None)
               (if CreateIndexPage.isHybrid f
                then Js.parseInt (CreateIndexPage.sparseDimension f) else None)
               (if CreateIndexPage.showAdvanced f
                then Js.parseInt (CreateIndexPage.mParam f) else None)
               (if CreateIndexPage.showAdvanced f
                then Js.parseInt (CreateIndexPage.efConstruction f) else None))].
Proof.
  intros blankName badDimension badSparse badM badEf.
  pose proof (validate_cases f) as Hv. cbv zeta in Hv.
  fold blankName badDimension badSparse badM badEf in Hv.
  intros Hnone.
  destruct blankName; [discriminate |]. destruct badDimension eqn:Hd; [discriminate |].
  destruct badSparse eqn:Hs; [discriminate |]. destruct badM eqn:Hm; [discriminate |].
  destruct badEf eqn:He; [discriminate |]. clear Hnone.
  subst badDimension badSparse badM badEf.
  destruct (Js.parseInt (CreateIndexPage.dimension f)) as [d|]; [|discriminate].
  simpl in Hd. exists d. split; [reflexivity |]. split; [lia |].
  rewrite (create_handleSubmit_valid client f v w _ _ _ _ Hv).
  destruct (apiCreateIndex_calls client (Js.trim (CreateIndexPage.name f)) d
              (CreateIndexPage.spaceType f)
              (Client.mkCreateOptions (Some (CreateIndexPage.precision f))
                 (if CreateIndexPage.isHybrid f
                  then Js.parseInt (CreateIndexPage.sparseDimension f) else None)
                 (if CreateIndexPage.showAdvanced f
                  then Js.parseInt (CreateIndexPage.mParam f) else None)
                 (if CreateIndexPage.showAdvanced f
                  then Js.parseInt (CreateIndexPage.efConstruction f) else None)) w)
    as (options & -> & ->).
  simpl. repeat f_equal.
  - destruct (CreateIndexPage.isHybrid f); [|reflexivity].
    destruct (Js.parseInt (CreateIndexPage.sparseDimension f)) as [x|]; [|reflexivity].
    simpl in Hs. assert ((x =? 0) = false) as -> by lia.
    assert ((0 <? x) = true) as -> by lia. reflexivity.
  - destruct (CreateIndexPage.showAdvanced f); [|reflexivity].
    destruct (Js.parseInt (CreateIndexPage.mParam f)) as [x|]; [|reflexivity].
    simpl in Hm. unfold Client.truthyNum. assert ((x =? 0) = false) as -> by lia.
    reflexivity.
  - destruct (CreateIndexPage.showAdvanced f); [|reflexivity].
    destruct (Js.parseInt (CreateIndexPage.efConstruction f)) as [x|]; [|reflexivity].
    simpl in He. unfold Client.truthyNum. assert ((x =? 0) = false) as -> by lia.
    reflexivity.
Qed.

(** C7 (amended). On a create-index submission the number fields are read
    with [parseInt]. Each of these refuses the form with its message and
    without a network call, in this order: a blank name, a dimension from
    which [parseInt] reads no integer above zero, for a hybrid index a
    sparse dimension of which the same is true, and, when the advanced
    configuration is shown, an M from which it reads no integer from 4 to
    64 or an ef_construction from which it reads none from 64 to 512. A form
    that passes is sent as it was read: the create call carries the
    integers read for M and ef_construction themselves. On a text that is an
    integer written out, and on one from which nothing is read, each test
    is the one the words give: positive, within 4 to 64, within 64 to 512.
    But [parseInt] reads the digits a text starts with and ignores what
    follows them, so a text made of digits and more, which is not an integer
    written out when what follows is not white space, is handled in each of
    the four fields as the digits alone: the dimension 1.5 goes as 1, the M
    64.9 as 64 and the M 7e1 as 7. With the advanced configuration shown and
    the fields before it passing, the M 3 is refused with the message of M,
    and the M 16 with the ef_construction 128 is sent with these two
    numbers. *)
Theorem C7_create_index_validation client f v w :
  let blankName := negb (Js.truthy (Js.trim (CreateIndexPage.name f))) in
  let badDimension := Js.notPositive (Js.parseInt (CreateIndexPage.dimension f)) in
  let badSparse :=
    CreateIndexPage.isHybrid f
    && Js.notPositive (Js.parseInt (CreateIndexPage.sparseDimension f)) in
  let badM :=
    CreateIndexPage.showAdvanced f
    && CreateIndexPage.outside (Js.parseInt (CreateIndexPage.mParam f)) 4 64 in
  let badEf :=
    CreateIndexPage.showAdvanced f
    && CreateIndexPage.outside (Js.parseInt (CreateIndexPage.efConstruction f)) 64 512 in
  let refused m :=
    handleSubmit client f v w
    = (CreateIndexPage.mkView (CreateIndexPage.submitting v) (Some m)
         (CreateIndexPage.location v), w) in
  (blankName = true -> refused "Index name is required")
  /\ (blankName = false -> badDimension = true ->
      refused "Dimension must be a positive number")
  /\ (blankName = false -> badDimension = false -> badSparse = true ->
      refused "Sparse dimension must be a positive number for hybrid indexes")
  /\ (blankName = false -> badDimension = false -> badSparse = false -> badM = true ->
      refused "M parameter must be between 4 and 64")
  /\ (blankName = false -> badDimension = false -> badSparse = false -> badM = false ->
      badEf = true -> refused "ef_construction must be between 64 and 512")
  /\ (blankName || badDimension || badSparse || badM || badEf = true ->
      exists m, refused m)
  /\ (blankName || badDimension || badSparse || badM || badEf = false ->
      exists d,
        Js.parseInt (CreateIndexPage.dimension f) = Some d /\ 0 < d
        /\ Client.calls (snd (handleSubmit client f v w))
           = Client.calls w ++
             [Client.CreateIndex
                (Client.mkCreateIndexOptions
                   (Js.trim (CreateIndexPage.name f)) d (CreateIndexPage.spaceType f)
                   (if Js.truthy (CreateIndexPage.precision f)
                    then Some (Client.mapPrecision (CreateIndexPage.precision f))
                    else None)
                   (if CreateIndexPage.isHybrid f
                    then Js.parseInt (CreateIndexPage.sparseDimension f) else None)
                   (if CreateIndexPage.showAdvanced f
                    then Js.parseInt (CreateIndexPage.mParam f) else None)
                   (if CreateIndexPage.showAdvanced f
                    then Js.parseInt (CreateIndexPage.efConstruction f) else None))])
  /\ (let asWorded text :=
        Worded.integerText text = None -> Js.parseInt text = None in
      (asWorded (CreateIndexPage.dimension f) ->
       badDimension = negb (Worded.positiveInteger (CreateIndexPage.dimension f)))
      /\ (asWorded (CreateIndexPage.sparseDimension f) ->
          badSparse
          = CreateIndexPage.isHybrid f
            && negb (Worded.positiveInteger (CreateIndexPage.sparseDimension f)))
      /\ (asWorded (CreateIndexPage.mParam f) ->
          badM
          = CreateIndexPage.showAdvanced f
            && negb (Worded.integerWithin 4 64 (CreateIndexPage.mParam f)))
      /\ (asWorded (CreateIndexPage.efConstruction f) ->
          badEf
          = CreateIndexPage.showAdvanced f
            && negb (Worded.integerWithin 64 512 (CreateIndexPage.efConstruction f)))
      /\ (forall text n, Worded.integerText text = Some n -> asWorded text))
  /\ (forall ds rest,
        Json.allDigits ds = true -> ds <> EmptyString ->
        Json.headIs (fun c => Js.isDigit c = false /\ Ascii.eqb c "x" = false
                              /\ Ascii.eqb c "X" = false) rest ->
        Js.parseInt (ds +:+ rest) = Js.parseInt ds
        /\ handleSubmit client (CreateIndexForm.withDimension (ds +:+ rest) f) v w
           = handleSubmit client (CreateIndexForm.withDimension ds f) v w
        /\ handleSubmit client (CreateIndexForm.withSparseDimension (ds +:+ rest) f) v w
           = handleSubmit client (CreateIndexForm.withSparseDimension ds f) v w
        /\ handleSubmit client (CreateIndexForm.withM (ds +:+ rest) f) v w
           = handleSubmit client (CreateIndexForm.withM ds f) v w
        /\ handleSubmit client (CreateIndexForm.withEfConstruction (ds +:+ rest) f) v w
           = handleSubmit client (CreateIndexForm.withEfConstruction ds f) v w
        /\ (forall c r,
              rest = String c r -> Js.isWhiteSpace c = false ->
              Worded.integerText (ds +:+ rest) = None))
  /\ (blankName = false -> badDimension = false -> badSparse = false ->
      CreateIndexPage.showAdvanced f = true ->
      (CreateIndexPage.mParam f = "3" -> refused "M parameter must be between 4 and 64")
      /\ (CreateIndexPage.mParam f = "16" -> CreateIndexPage.efConstruction f = "128" ->
          exists d,
            Js.parseInt (CreateIndexPage.dimension f) = Some d /\ 0 < d
            /\ Client.calls (snd (handleSubmit client f v w))
               = Client.calls w ++
                 [Client.CreateIndex
                    (Client.mkCreateIndexOptions
                       (Js.trim (CreateIndexPage.name f)) d (CreateIndexPage.spaceType f)
                       (if Js.truthy (CreateIndexPage.precision f)
                        then Some (Client.mapPrecision (CreateIndexPage.precision f))
                        else None)
                       (if CreateIndexPage.isHybrid f
                        then Js.parseInt (CreateIndexPage.sparseDimension f) else None)
                       (Some 16) (Some 128))]))
  /\ (handleSubmit client (CreateIndexForm.withDimension "1.5" f) v w
      = handleSubmit client (CreateIndexForm.withDimension "1" f) v w
      /\ handleSubmit client (CreateIndexForm.withM "64.9" f) v w
         = handleSubmit client (CreateIndexForm.withM "64" f) v w
      /\ handleSubmit client (CreateIndexForm.withM "7e1" f) v w
         = handleSubmit client (CreateIndexForm.withM "7" f) v w
      /\ Worded.positiveInteger "1.5" = false
      /\ Worded.integerWithin 4 64 "64.9" = false
      /\ Worded.integerWithin 4 64 "7e1" = false).
Proof.
  intros blankName badDimension badSparse badM badEf refused.
  pose proof (validate_cases f) as Hv. cbv zeta in Hv.
  fold blankName badDimension badSparse badM badEf in Hv.
  pose proof (create_handleSubmit_call client f v w) as Hcall. cbv zeta in Hcall.
  fold blankName badDimension badSparse badM badEf in Hcall.
  assert (Hrefuse : forall m, CreateIndexPage.validate f = Throw m -> refused m)
    by (intros m Hm; now apply create_handleSubmit_invalid).
  assert (HbadM : blankName = false -> badDimension = false -> badSparse = false ->
                  badM = true -> refused "M parameter must be between 4 and 64").
  { intros H1 H2 H3 H4. apply Hrefuse. now rewrite Hv, H1, H2, H3, H4. }
  assert (Hdigits : forall ds rest,
             Json.allDigits ds = true -> ds <> EmptyString ->
             Json.headIs (fun c => Js.isDigit c = false /\ Ascii.eqb c "x" = false
                                   /\ Ascii.eqb c "X" = false) rest ->
             handleSubmit client (CreateIndexForm.withDimension (ds +:+ rest) f) v w
             = handleSubmit client (CreateIndexForm.withDimension ds f) v w
             /\ handleSubmit client (CreateIndexForm.withSparseDimension (ds +:+ rest) f) v w
                = handleSubmit client (CreateIndexForm.withSparseDimension ds f) v w
             /\ handleSubmit client (CreateIndexForm.withM (ds +:+ rest) f) v w
                = handleSubmit client (CreateIndexForm.withM ds f) v w
             /\ handleSubmit client (CreateIndexForm.withEfConstruction (ds +:+ rest) f) v w
                = handleSubmit client (CreateIndexForm.withEfConstruction ds f) v w).
  { intros ds rest Hd Hne Hr.
    destruct (validate_leading_digits f ds rest Hd Hne Hr) as (H1 & H2 & H3 & H4).
    repeat split; now apply create_handleSubmit_same. }
  split; [intros H1; apply Hrefuse; now rewrite Hv, H1 |].
  split; [intros H1 H2; apply Hrefuse; now rewrite Hv, H1, H2 |].
  split; [intros H1 H2 H3; apply Hrefuse; now rewrite Hv, H1, H2, H3 |].
  split; [exact HbadM |].
  split; [intros H1 H2 H3 H4 H5; apply Hrefuse; now rewrite Hv, H1, H2, H3, H4, H5 |].
  split.
  { intros Hany.
    destruct blankName; [eauto |]. destruct badDimension; [eauto |].
    destruct badSparse; [eauto |]. destruct badM; [eauto |].
    destruct badEf; [eauto | discriminate]. }
  split; [exact Hcall |].
  split.
  { cbv zeta. split; [|split; [|split; [|split]]].
    - intros H. now apply DigitsFacts.tests_as_worded.
    - intros H. subst badSparse. now rewrite (proj1 (DigitsFacts.tests_as_worded _ H)).
    - intros H. subst badM. now rewrite (proj2 (DigitsFacts.tests_as_worded _ H)).
    - intros H. subst badEf. now rewrite (proj2 (DigitsFacts.tests_as_worded _ H)).
    - intros text n Hsome Hnone. congruence. }
  split.
  { intros ds rest Hd Hne Hr.
    split; [now apply DigitsFacts.parseInt_leading_digits |].
    destruct (Hdigits ds rest Hd Hne Hr) as (H1 & H2 & H3 & H4).
    split; [exact H1 |]. split; [exact H2 |]. split; [exact H3 |]. split; [exact H4 |].
    intros c r -> Hw. simpl in Hr. destruct Hr as (Hc & _).
    now apply DigitsFacts.digits_and_more. }
  split.
  { intros H1 H2 H3 Hadv. split.
    - intros HM. apply HbadM; auto. subst badM. now rewrite Hadv, HM.
    - intros HM HE.
      assert (Hnone : blankName || badDimension || badSparse || badM || badEf = false).
      { rewrite H1, H2, H3. subst badM badEf. now rewrite Hadv, HM, HE. }
      destruct (Hcall Hnone) as (d & Hd & Hpos & Hcalls).
      exists d. split; [exact Hd |]. split; [exact Hpos |].
      rewrite Hcalls, Hadv, HM, HE. reflexivity. }
  assert (Hstop : forall c : ascii,
             Js.isDigit c = false -> Ascii.eqb c "x" = false -> Ascii.eqb c "X" = false ->
             forall r,
               Json.headIs (fun c => Js.isDigit c = false /\ Ascii.eqb c "x" = false
                                     /\ Ascii.eqb c "X" = false) (String c r))
    by (intros c H1 H2 H3 r; simpl; auto).
  split; [|split; [|split; [|repeat split; reflexivity]]].
  - apply (Hdigits "1" ".5"); [reflexivity | discriminate | now apply Hstop].
  - apply (Hdigits "64" ".9"); [reflexivity | discriminate | now apply Hstop].
  - apply (Hdigits "7" "e1"); [reflexivity | discriminate | now apply Hstop].
Qed.

End Facts.

Lemma C7_witness :
  CreateIndexPage.handleSubmit Example.client (Example.createForm true "3" "128")
    Example.createView Example.world
  = (CreateIndexPage.mkView false (Some "M parameter must be between 4 and 64") None,
     Example.world)
  /\ Client.calls
       (snd (CreateIndexPage.handleSubmit Example.client (Example.createForm true "16" "128")
               Example.createView Example.world))
     = [Client.CreateIndex
          (Client.mkCreateIndexOptions "idx" 768 "cosine" (Some Client.FLOAT16) None
             (Some 16) (Some 128))]
  /\ CreateIndexPage.handleSubmit Example.client (Example.createForm true "64.9" "128")
       Example.createView Example.world
     = CreateIndexPage.handleSubmit Example.client (Example.createForm true "64" "128")
         Example.createView Example.world.
Proof.
  split; [|split].
  - destruct (C7_create_index_validation Example.client (Example.createForm true "3" "128")
                Example.createView Example.world) as (_ & _ & _ & H & _).
    apply H; reflexivity.
  - destruct (C7_create_index_validation Example.client (Example.createForm true "16" "128")
                Example.createView Example.world) as (_ & _ & _ & _ & _ & _ & H & _).
    destruct (H eq_refl) as (d & Hd & _ & Hcalls).
    injection Hd as <-. exact Hcalls.
  - destruct (C7_create_index_validation Example.client
                (Example.createForm true EmptyString "128")
                Example.createView Example.world)
      as (_ & _ & _ & _ & _ & _ & _ & _ & H & _).
    destruct (H "64" ".9" eq_refl ltac:(discriminate)
                (conj eq_refl (conj eq_refl eq_refl))) as (_ & _ & _ & HM & _).
    exact HM.
Defined.

Lemma C7_counterexample :
  (Worded.positiveInteger "1.5" = false
   /\ Client.calls
        (snd (CreateIndexPage.handleSubmit Example.client
                (CreateIndexForm.withDimension "1.5"
                   (Example.createForm false EmptyString EmptyString))
                Example.createView Example.world))
      = [Client.CreateIndex
           (Client.mkCreateIndexOptions "idx" 1 "cosine" (Some Client.FLOAT16) None
              None None)])
  /\ (Worded.integerWithin 4 64 "64.9" = false
      /\ Client.calls
           (snd (CreateIndexPage.handleSubmit Example.client
                   (Example.createForm true "64.9" "128")
                   Example.createView Example.world))
         = [Client.CreateIndex
              (Client.mkCreateIndexOptions "idx" 768 "cosine" (Some Client.FLOAT16) None
                 (Some 64) (Some 128))])
  /\ (Worded.integerWithin 4 64 "7e1" = false
      /\ Client.calls
           (snd (CreateIndexPage.handleSubmit Example.client
                   (Example.createForm true "7e1" "128")
                   Example.createView Example.world))
         = [Client.CreateIndex
              (Client.mkCreateIndexOptions "idx" 768 "cosine" (Some Client.FLOAT16) None
                 (Some 7) (Some 128))]).
Proof.
  split; [split; reflexivity |]. split; split; reflexivity.
Qed.

End CreateIndexFacts.

(** ** The API client adapter *)

Module ClientFacts.

#[local] Arguments String.append !_ _ : simpl nomatch.

Lemma startsWith_spec p s :
  Js.startsWith p s = true <-> exists post, s = p +:+ post.
Proof.
  revert s. induction p as [|a p IH]; intros s; simpl.
  - split; [eauto | reflexivity].
  - destruct s as [|b s].
    + split; [discriminate | intros [post [=]]].
    + rewrite andb_true_iff, IH. split.
      * intros [Hab [post ->]]. apply Ascii.eqb_eq in Hab as ->. eauto.
      * intros [post [= -> ->]]. split; [apply Ascii.eqb_refl | eauto].
Qed.

(** [includes] decides occurrence. *)
Lemma includes_spec sub s : Js.includes sub s = true <-> Js.Contains sub s.
Proof.
  unfold Js.Contains. induction s as [|c s IH].
  - simpl. rewrite orb_false_r, startsWith_spec. split.
    + intros [post H]. exists EmptyString, post. exact H.
    + intros (pre & post & H). destruct pre; [eauto | discriminate].
  - cbn [Js.includes]. rewrite orb_true_iff, startsWith_spec, IH. split.
    + intros [[post H] | (pre & post & ->)].
      * exists EmptyString, post. exact H.
      * exists (String c pre), post. reflexivity.
    + intros (pre & post & H). destruct pre as [|x pre].
      * left. eauto.
      * right. injection H as -> ->. eauto.
Qed.

Section Facts.

Context {QueryResult UpsertReply : Type}.
Context (client : Client.Endee QueryResult UpsertReply).

Lemma isUnauthorizedError_spec e :
  Client.isUnauthorizedError e = true
  <-> exists msg,
        e = Client.ErrorObject msg
        /\ (Js.Contains "401" (Js.toLowerCase msg)
            \/ Js.Contains "invalid token" (Js.toLowerCase msg)).
Proof.
  destruct e as [msg|]; simpl.
  - rewrite orb_true_iff, !includes_spec. split.
    + intros H. eauto.
    + intros (msg' & [= <-] & H). exact H.
  - split; [discriminate | intros (msg & [=] & _)].
Qed.

(** What the handler of a failure answers and does. *)
Lemma handleApiError_spec {T : Type} e w :
  fst (Client.handleApiError (T := T) e w)
  = Client.mkApiResponse false None
      (Some (match e with
             | Client.ErrorObject msg => msg
             | Client.OtherValue => "Unknown error"
             end))
  /\ Client.calls (snd (Client.handleApiError (T := T) e w)) = Client.calls w
  /\ Client.onUnauthorized (snd (Client.handleApiError (T := T) e w))
     = Client.onUnauthorized w
  /\ Client.auth (snd (Client.handleApiError (T := T) e w))
     = match Client.onUnauthorized w with
       | Some callback =>
           if Client.isUnauthorizedError e then callback (Client.auth w) else Client.auth w
       | None => Client.auth w
       end.
Proof.
  unfold Client.handleApiError.
  destruct (Client.isUnauthorizedError e), (Client.onUnauthorized w) eqn:Hcb; simpl;
    rewrite ?Hcb; auto.
Qed.

Lemma envelope_handleApiError (T : Type) e w :
  Client.envelope (Client.handleApiError (T := T) e w)
  = Client.envelope (Client.handleApiError (T := unit) e w).
Proof. reflexivity. Qed.

(** Every failure of an operation is one pass through [handleApiError],
    after one client call or after the index was fetched and one call made
    on it: no call is made twice. *)
Lemma perform_failure op w :
  (Client.perform client op w).1.1 = false ->
  exists e w1 cs,
    Client.perform client op w = Client.envelope (Client.handleApiError (T := unit) e w1)
    /\ Client.calls w1 = Client.calls w ++ cs
    /\ ((exists c, cs = [c])
        \/ exists n c, cs = [Client.GetIndex n; c] /\ c <> Client.GetIndex n).
Proof.
  destruct op; cbn [Client.perform];
    unfold Client.health, Client.apiListIndexes, Client.getIndexInfo,
      Client.apiCreateIndex, Client.apiDeleteIndex, Client.insertVectors,
      Client.apiGetVector, Client.deleteVectorById, Client.deleteVectorsByFilter,
      Client.searchVectors;
    repeat match goal with
           | |- context [match ?x with Client.Returned _ => _ | Client.Raised _ => _ end] =>
               destruct x
           | |- context [match ?x with Some _ => _ | None => _ end] => destruct x
           | |- context [if Js.truthy ?x then _ else _] => destruct (Js.truthy x)
           end;
    try discriminate; intros _;
    (rewrite envelope_handleApiError;
     eexists _, _, _; split; [reflexivity |];
     split; [cbn [Client.calls Client.logCall]; rewrite <- ?app_assoc; reflexivity |];
     first [ left; eexists; reflexivity
           | right; eexists _, _; split; [reflexivity | discriminate] ]).
Qed.

(** A call that the client refuses ends the operation: the error goes
    through [handleApiError] once, and the refused call is the last one
    made. *)
Lemma perform_raised op w cs c e :
  Client.calls (Client.perform client op w).2 = Client.calls w ++ cs ->
  In c cs -> Adapter.answer client c = Some e ->
  Client.perform client op w
  = Client.envelope
      (Client.handleApiError (T := unit) e
         (Client.mkWorld (Client.onUnauthorized w) (Client.auth w) (Client.calls w ++ cs)))
  /\ List.last cs c = c
  /\ NoDup cs.
Proof.
  assert (Hone : forall x : Client.call, NoDup [x]) by (intros x; apply NoDup_singleton).
  assert (Htwo : forall x y : Client.call, x <> y -> NoDup [x; y]).
  { intros x y Hxy. apply NoDup_cons. split; [|apply Hone].
    rewrite list_elem_of_singleton. exact Hxy. }
  destruct op; cbn [Client.perform];
    unfold Client.health, Client.apiListIndexes, Client.getIndexInfo,
      Client.apiCreateIndex, Client.apiDeleteIndex, Client.insertVectors,
      Client.apiGetVector, Client.deleteVectorById, Client.deleteVectorsByFilter,
      Client.searchVectors;
    repeat match goal with
           | |- context [match ?x with Client.Returned _ => _ | Client.Raised _ => _ end] =>
               let Hx := fresh "Hx" in destruct x eqn:Hx
           | |- context [match ?x with Some _ => _ | None => _ end] => destruct x
           | |- context [if Js.truthy ?x then _ else _] => destruct (Js.truthy x)
           end;
    unfold Client.envelope; cbn [fst snd];
    rewrite ?(proj1 (proj2 (handleApiError_spec _ _)));
    cbn [Client.calls Client.logCall]; rewrite <- ?app_assoc;
    intros Hcs; apply app_inv_head in Hcs; subst cs;
    cbn [In app]; intros Hin Hans;
    repeat match goal with
           | H : _ \/ _ |- _ => destruct H as [H | H]
           | H : False |- _ => destruct H
           end;
    subst c; cbn [Adapter.answer] in Hans;
    repeat match goal with
           | H : ?x = _, H' : context [?x] |- _ => rewrite H in H'
           end;
    cbn [Adapter.raised] in Hans; try discriminate;
    injection Hans as <-;
    (split; [unfold Client.handleApiError, Client.logCall;
             cbn [Client.calls Client.auth Client.onUnauthorized];
             rewrite <- ?app_assoc; reflexivity |]);
    (split; [reflexivity |]);
    first [apply Hone | apply Htwo; discriminate].
Qed.

(** Every operation makes one call on the client, or fetches the index and
    makes at most one more. *)
Lemma perform_calls op w :
  exists cs,
    Client.calls (Client.perform client op w).2 = Client.calls w ++ cs
    /\ (1 <= length cs <= 2)%nat.
Proof.
  destruct op; cbn [Client.perform];
    unfold Client.health, Client.apiListIndexes, Client.getIndexInfo,
      Client.apiCreateIndex, Client.apiDeleteIndex, Client.insertVectors,
      Client.apiGetVector, Client.deleteVectorById, Client.deleteVectorsByFilter,
      Client.searchVectors;
    repeat match goal with
           | |- context [match ?x with Client.Returned _ => _ | Client.Raised _ => _ end] =>
               destruct x
           | |- context [match ?x with Some _ => _ | None => _ end] => destruct x
           | |- context [if Js.truthy ?x then _ else _] => destruct (Js.truthy x)
           end;
    unfold Client.envelope; cbn [fst snd];
    rewrite ?(proj1 (proj2 (handleApiError_spec _ _)));
    cbn [Client.calls Client.logCall]; rewrite <- ?app_assoc;
    eexists; (split; [reflexivity |]); simpl; lia.
Qed.

(** C8. A failure raised by the client is an authorization failure exactly
    when it is an [Error] whose message, in lower case, contains 401 or
    invalid token. The adapter then, and only then, calls the registered
    callback, which clears the token (in the context and in the storage)
    and opens the prompt. Every failure is answered with success false and
    the message of the error; a client call that failed is not made
    again. This holds of each of the ten operations by what the client
    does: whenever a call that the operation makes on the client is
    refused with an error, the operation answers success false with the
    message of that error ("Unknown error" for a value that is not an
    [Error]), the registered callback is applied to the session exactly
    when the error is an authorization failure, the refused call is the
    last one the operation makes, and no call is made twice. *)
Theorem C8_authorization_failures :
  (forall e,
     Client.isUnauthorizedError e = true
     <-> exists msg,
           e = Client.ErrorObject msg
           /\ (Js.Contains "401" (Js.toLowerCase msg)
               \/ Js.Contains "invalid token" (Js.toLowerCase msg)))
  /\ (forall (T : Type) e w,
        let after := Client.handleApiError (T := T) e (App.registerUnauthorized w) in
        fst after
        = Client.mkApiResponse false None
            (Some (match e with
                   | Client.ErrorObject msg => msg
                   | Client.OtherValue => "Unknown error"
                   end))
        /\ Client.calls (snd after) = Client.calls w
        /\ (Client.isUnauthorizedError e = true ->
            Client.auth (snd after) = AuthContext.handleUnauthorized (Client.auth w)
            /\ AuthContext.token (Client.auth (snd after)) = None
            /\ AuthContext.storedToken (Client.auth (snd after)) = None
            /\ AuthContext.showAuthModal (Client.auth (snd after)) = true)
        /\ (Client.isUnauthorizedError e = false ->
            Client.auth (snd after) = Client.auth w))
  /\ (forall indexName vectors w,
        match Client.getIndex client indexName with
        | Client.Raised e =>
            Client.insertVectors client indexName vectors w
            = Client.handleApiError e (Client.logCall (Client.GetIndex indexName) w)
        | Client.Returned index =>
            match Client.upsert client index vectors with
            | Client.Raised e =>
                Client.insertVectors client indexName vectors w
                = Client.handleApiError e
                    (Client.logCall (Client.Upsert index vectors)
                       (Client.logCall (Client.GetIndex indexName) w))
            | Client.Returned _ =>
                Client.success (fst (Client.insertVectors client indexName vectors w)) = true
            end
        end)
  /\ (forall op w,
        (Client.perform client op w).1.1 = false ->
        exists e w1 cs,
          Client.perform client op w
          = Client.envelope (Client.handleApiError (T := unit) e w1)
          /\ Client.calls w1 = Client.calls w ++ cs
          /\ ((exists c, cs = [c])
              \/ exists n c, cs = [Client.GetIndex n; c] /\ c <> Client.GetIndex n))
  /\ (forall op w,
        exists cs,
          Client.calls (Client.perform client op w).2 = Client.calls w ++ cs
          /\ (1 <= length cs <= 2)%nat)
  /\ (forall op w cs c e,
        Client.calls (Client.perform client op w).2 = Client.calls w ++ cs ->
        In c cs -> Adapter.answer client c = Some e ->
        let after := Client.perform client op w in
        after.1.1 = false
        /\ after.1.2
           = Some (match e with
                   | Client.ErrorObject msg => msg
                   | Client.OtherValue => "Unknown error"
                   end)
        /\ Client.onUnauthorized after.2 = Client.onUnauthorized w
        /\ Client.auth after.2
           = match Client.onUnauthorized w with
             | Some callback =>
                 if Client.isUnauthorizedError e then callback (Client.auth w)
                 else Client.auth w
             | None => Client.auth w
             end
        /\ List.last cs c = c
        /\ NoDup cs)
  /\ (forall op w cs c e,
        Client.calls (Client.perform client op (App.registerUnauthorized w)).2
        = Client.calls w ++ cs ->
        In c cs -> Adapter.answer client c = Some e ->
        Client.auth (Client.perform client op (App.registerUnauthorized w)).2
        = if Client.isUnauthorizedError e
          then AuthContext.handleUnauthorized (Client.auth w)
          else Client.auth w).
Proof.
  assert (Hraised : forall op w cs c e,
             Client.calls (Client.perform client op w).2 = Client.calls w ++ cs ->
             In c cs -> Adapter.answer client c = Some e ->
             let after := Client.perform client op w in
             after.1.1 = false
             /\ after.1.2
                = Some (match e with
                        | Client.ErrorObject msg => msg
                        | Client.OtherValue => "Unknown error"
                        end)
             /\ Client.onUnauthorized after.2 = Client.onUnauthorized w
             /\ Client.auth after.2
                = match Client.onUnauthorized w with
                  | Some callback =>
                      if Client.isUnauthorizedError e then callback (Client.auth w)
                      else Client.auth w
                  | None => Client.auth w
                  end
             /\ List.last cs c = c
             /\ NoDup cs).
  { intros op w cs c e Hcs Hin Hans after. subst after.
    destruct (perform_raised op w cs c e Hcs Hin Hans) as (-> & Hlast & Hnodup).
    unfold Client.envelope. cbn [fst snd].
    destruct (handleApiError_spec (T := unit) e
                (Client.mkWorld (Client.onUnauthorized w) (Client.auth w)
                   (Client.calls w ++ cs))) as (-> & _ & -> & ->).
    cbn [Client.success Client.error Client.onUnauthorized Client.auth].
    repeat split; auto. }
  split; [exact isUnauthorizedError_spec |].
  split.
  { intros T e w after. subst after.
    unfold Client.handleApiError, App.registerUnauthorized, Client.setOnUnauthorized.
    simpl. destruct (Client.isUnauthorizedError e); simpl;
      repeat split; try discriminate; auto. }
  split.
  { intros indexName vectors w. unfold Client.insertVectors.
    destruct (Client.getIndex client indexName) as [index|e]; [|reflexivity].
    destruct (Client.upsert client index vectors) as [r|e]; reflexivity. }
  split; [exact perform_failure |].
  split; [exact perform_calls |].
  split; [exact Hraised |].
  intros op w cs c e Hcs Hin Hans.
  destruct (Hraised op (App.registerUnauthorized w) cs c e Hcs Hin Hans)
    as (_ & _ & _ & -> & _).
  reflexivity.
Qed.

End Facts.

Lemma C8_witness :
  Client.auth
    (snd (Client.handleApiError (T := unit)
            (Client.ErrorObject "Request failed: 401 Invalid Token")
            (App.registerUnauthorized Example.world)))
  = AuthContext.mkState None true None
  /\ (let after :=
        Client.perform Example.refusing (Client.OpDeleteVectorById "idx" "v1")
          Example.world in
      after.1.1 = false
      /\ after.1.2 = Some "Request failed: 401 Invalid Token"
      /\ Client.auth after.2 = AuthContext.mkState None true None
      /\ Client.calls after.2 = [Client.GetIndex "idx"]).
Proof.
  split.
  - destruct (C8_authorization_failures Example.refusing) as (_ & H & _).
    destruct (H unit (Client.ErrorObject "Request failed: 401 Invalid Token") Example.world)
      as (_ & _ & Hyes & _).
    destruct (Hyes eq_refl) as [-> _]. reflexivity.
  - destruct (C8_authorization_failures Example.refusing) as (_ & _ & _ & _ & _ & H & _).
    destruct (H (Client.OpDeleteVectorById "idx" "v1") Example.world
                [Client.GetIndex "idx"] (Client.GetIndex "idx")
                (Client.ErrorObject "Request failed: 401 Invalid Token")
                eq_refl (or_introl eq_refl) eq_refl) as (H1 & H2 & _ & H4 & _).
    cbv zeta. split; [exact H1 |]. split; [exact H2 |]. split; [|reflexivity].
    rewrite H4. reflexivity.
Defined.

End ClientFacts.

(** ** Raw fetch call sites *)

Module FetchFacts.

Import Fetch.

#[local] Arguments String.append !_ _ : simpl nomatch.

Lemma withAuthorization_lookup tok base :
  Js.truthy tok = true ->
  withAuthorization (Some tok) base !! "Authorization" = Some tok.
Proof. intros H. unfold withAuthorization. rewrite H. apply lookup_insert_eq. Qed.

Lemma ok_401 b : ok (mkResponse 401 b) = false.
Proof. reflexivity. Qed.

(** A site that sends one request built with [withAuthorization] and calls
    [handleUnauthorized] on a 401 conforms. *)
Lemma conforms_one server w w' request base :
  headers request = withAuthorization (AuthContext.token (auth w)) base ->
  requests w' = requests w ++ [request] ->
  (forall b, server request = Responded (mkResponse 401 b) ->
             auth w' = AuthContext.handleUnauthorized (auth w)) ->
  conforms server w w'.
Proof.
  intros Hh Hr H401. exists [request]. split; [exact Hr |]. split.
  - intros tok r Htok Ht [<- | []]. rewrite Hh, Htok. now apply withAuthorization_lookup.
  - intros r b [<- | []]. apply H401.
Qed.

Lemma conforms_none server w : conforms server w w.
Proof.
  exists []. split; [now rewrite app_nil_r |]. split; intros; contradiction.
Qed.

(** A site that, after a request that was not answered 401, goes on with a
    conforming site. *)
Lemma conforms_then server w w1 w2 request base :
  headers request = withAuthorization (AuthContext.token (auth w)) base ->
  requests w1 = requests w ++ [request] -> auth w1 = auth w ->
  (forall b, server request <> Responded (mkResponse 401 b)) ->
  conforms server w1 w2 -> conforms server w w2.
Proof.
  intros Hh Hr Ha Hne (new & Hnew & Htok & H401).
  exists (request :: new). split; [|split].
  - rewrite Hnew, Hr, <- app_assoc. reflexivity.
  - intros tok r Ht Htruthy [<- | Hin].
    + rewrite Hh, Ht. now apply withAuthorization_lookup.
    + apply (Htok tok r); [now rewrite Ha | assumption | assumption].
  - intros r b [<- | Hin] Hs.
    + now apply Hne in Hs.
    + rewrite <- Ha. now apply (H401 r b).
Qed.

Section Sites.

Context (encodeURIComponent : string -> string) (server : Request -> fetched).

Lemma loadJobs_conforms v w :
  conforms server w (snd (BackupsPage.loadJobs server v w)).
Proof.
  unfold BackupsPage.loadJobs.
  set (request := mkRequest "GET" "/api/v1/backups/jobs" _ NoBody).
  apply (conforms_one server w _ request jsonHeaders); [reflexivity | |].
  - destruct (server request) as [response|m]; [|reflexivity].
    destruct (ok response); simpl.
    + destruct (responseBody response) as [m|m|names|e [js|]]; reflexivity.
    + destruct (statusCode response =? 401)%nat; reflexivity.
  - intros b ->. reflexivity.
Qed.

Lemma loadBackups_conforms v w :
  conforms server w (snd (BackupsPage.loadBackups server v w)).
Proof.
  unfold BackupsPage.loadBackups.
  set (request := mkRequest "GET" "/api/v1/backups" _ NoBody).
  apply (conforms_one server w _ request jsonHeaders); [reflexivity | |].
  - destruct (server request) as [response|m]; [|reflexivity].
    destruct (ok response); simpl.
    + destruct (responseBody response) as [m|m|names|e js]; reflexivity.
    + destruct (statusCode response =? 401)%nat; reflexivity.
  - intros b ->. reflexivity.
Qed.

Lemma loadBackups_auth v w :
  auth (snd (BackupsPage.loadBackups server v w)) = auth w
  \/ auth (snd (BackupsPage.loadBackups server v w))
     = AuthContext.handleUnauthorized (auth w).
Proof.
  unfold BackupsPage.loadBackups.
  destruct (server _) as [response|m]; [|auto].
  destruct (ok response); simpl.
  - destruct (responseBody response) as [m|m|names|e js]; auto.
  - destruct (statusCode response =? 401)%nat; auto.
Qed.

Lemma handleRestoreBackup_conforms v w :
  conforms server w (snd (BackupsPage.handleRestoreBackup encodeURIComponent server v w)).
Proof.
  unfold BackupsPage.handleRestoreBackup.
  destruct (negb _ || negb _); [apply conforms_none |].
  set (request := mkRequest "POST" _ _ _).
  apply (conforms_one server w _ request jsonHeaders); [reflexivity | |].
  - destruct (server request) as [response|m]; [|reflexivity].
    destruct (ok response); simpl; [reflexivity |].
    destruct (statusCode response =? 401)%nat; reflexivity.
  - intros b ->. reflexivity.
Qed.

Lemma createBackupModal_conforms v w :
  conforms server w
    (snd (CreateBackupModal.handleCreateBackup encodeURIComponent server v w)).
Proof.
  unfold CreateBackupModal.handleCreateBackup.
  destruct (negb _ || negb _); [apply conforms_none |].
  set (request := mkRequest "POST" _ _ _).
  apply (conforms_one server w _ request jsonHeaders); [reflexivity | |].
  - destruct (server request) as [response|m]; [|reflexivity].
    destruct (ok response); simpl; [reflexivity |].
    destruct (statusCode response =? 401)%nat; reflexivity.
  - intros b ->. reflexivity.
Qed.

Lemma uploadBackupModal_conforms v w :
  conforms server w (snd (UploadBackupModal.handleUploadBackup server v w)).
Proof.
  unfold UploadBackupModal.handleUploadBackup.
  destruct (UploadBackupModal.selectedFile v) as [fileName|]; [|apply conforms_none].
  set (request := mkRequest "POST" _ _ _).
  apply (conforms_one server w _ request ∅); [reflexivity | |].
  - destruct (server request) as [response|m]; [|reflexivity].
    destruct (ok response); simpl; [reflexivity |].
    destruct (statusCode response =? 401)%nat; reflexivity.
  - intros b ->. reflexivity.
Qed.

Lemma handleDeleteBackup_conforms v w :
  conforms server w (snd (BackupsPage.handleDeleteBackup encodeURIComponent server v w)).
Proof.
  unfold BackupsPage.handleDeleteBackup.
  destruct (negb _); [apply conforms_none |].
  set (request := mkRequest "DELETE" _ _ _).
  destruct (server request) as [response|m] eqn:Hs.
  - destruct (ok response) eqn:Hok; simpl.
    + match goal with
      | |- context [BackupsPage.loadBackups server ?x ?y] =>
          pose proof (loadBackups_conforms x y) as Hc;
          destruct (BackupsPage.loadBackups server x y) as [v' w']
      end.
      simpl in Hc |- *.
      apply (conforms_then server w (send request w) w' request ∅);
        [reflexivity | reflexivity | reflexivity | | exact Hc].
      intros b Hb. rewrite Hs in Hb. injection Hb as ->. discriminate.
    + apply (conforms_one server w _ request ∅); [reflexivity | |].
      * destruct (statusCode response =? 401)%nat; reflexivity.
      * intros b Hb. rewrite Hs in Hb. injection Hb as ->. reflexivity.
  - apply (conforms_one server w _ request ∅); [reflexivity | reflexivity |].
    intros b Hb. rewrite Hs in Hb. discriminate.
Qed.

(** The list-backups step of the tutorials sends the token; whatever the
    answer, it leaves the authentication context as it was. *)
Lemma tutorial_list_backups_site formatResult w :
  (exists r,
     requests (snd (TutorialsPage.runListBackups formatResult server w))
     = requests w ++ [r]
     /\ headers r = withAuthorization (AuthContext.token (auth w)) ∅)
  /\ auth (snd (TutorialsPage.runListBackups formatResult server w)) = auth w.
Proof.
  unfold TutorialsPage.runListBackups.
  destruct (server _) as [response|m]; [|split; [eexists; split |]; reflexivity].
  destruct (ok response); simpl; [|split; [eexists; split |]; reflexivity].
  destruct (responseBody response); (split; [eexists; split |]; reflexivity).
Qed.

End Sites.

(** C1, at the inline dialog of the indexes page. A signed-in user creates
    a backup from the dialog and the server answers 401: the request has no
    Authorization header, the token stays and the prompt stays closed; the
    dialog shows the error of the response. The modal that the backups page
    uses for the same request sends the token and, on the same answer,
    clears it and opens the prompt. *)
Theorem C1_inline_backup_request_unauthorized (encodeURIComponent : string -> string) :
  let inline :=
    IndexesPage.handleCreateBackup encodeURIComponent Example.server401
      Example.inlineDialog Example.fetchWorld in
  let modal :=
    CreateBackupModal.handleCreateBackup encodeURIComponent Example.server401
      Example.modalDialog Example.fetchWorld in
  (exists r,
     requests (snd inline) = [r]
     /\ method r = "POST"
     /\ url r = "/api/v1/index/" +:+ encodeURIComponent "idx" +:+ "/backup"
     /\ headers r !! "Authorization" = None
     /\ auth (snd inline) = Example.signedIn
     /\ IndexesPage.backupError (fst inline) = Some "Unauthorized")
  /\ ~ conforms Example.server401 Example.fetchWorld (snd inline)
  /\ (exists r,
        requests (snd modal) = [r]
        /\ url r = "/api/v1/index/" +:+ encodeURIComponent "idx" +:+ "/backup"
        /\ headers r !! "Authorization" = Some "secret"
        /\ auth (snd modal) = AuthContext.mkState None true None)
  /\ conforms Example.server401 Example.fetchWorld (snd modal).
Proof.
  intros inline modal. split; [|split; [|split]].
  - eexists. repeat split.
  - intros (new & Hnew & Htok & _).
    simpl in Hnew. subst new.
    specialize (Htok "secret" _ eq_refl eq_refl (or_introl eq_refl)).
    discriminate Htok.
  - eexists. repeat split.
  - apply createBackupModal_conforms.
Qed.

End FetchFacts.

(** ** Backup-job polling *)

Module PollingFacts.

Import Fetch BackupsPage.


Lemma scheduled_effect js r : scheduled (mkPoller js (pollingEffect js) r).
Proof.
  unfold scheduled, pollingEffect. simpl.
  destruct (hasInProgress js); simpl; [|reflexivity].
  exists 0%N. split; [reflexivity | lia].
Qed.

Lemma scheduled_step p e : scheduled p -> scheduled (step p e).
Proof.
  intros Hp. destruct e as [js| |ms]; simpl; try apply scheduled_effect.
  unfold scheduled in *.
  destruct (interval p) as [i|] eqn:Hi; [|now rewrite Hi].
  cbn [p_jobs]. destruct (hasInProgress (p_jobs p)); [|discriminate].
  destruct Hp as (e & [= ->] & He). cbn [p_jobs interval period elapsed].
  eexists. split; [reflexivity |]. apply N.mod_upper_bound. lia.
Qed.

Lemma scheduled_run es : forall p, scheduled p -> scheduled (run p es).
Proof.
  induction es as [|e es IH]; intros p Hp; [exact Hp |].
  apply IH, scheduled_step, Hp.
Qed.

Lemma scheduled_mounted : scheduled mounted.
Proof. apply scheduled_effect. Qed.

(** With no job in progress and none coming, nothing fires. *)
Lemma quiet_run es :
  Forall quiet es ->
  forall p, interval p = None -> hasInProgress (p_jobs p) = false ->
  interval (run p es) = None /\ refreshes (run p es) = refreshes p
  /\ hasInProgress (p_jobs (run p es)) = false.
Proof.
  induction 1 as [|e es He _ IH]; intros p Hi Hj; [auto |].
  change (run p (e :: es)) with (run (step p e) es).
  destruct e as [js| |ms]; simpl in He.
  - destruct (IH (step p (SetJobs js))) as (H1 & H2 & H3); simpl; auto.
    unfold pollingEffect. now rewrite He.
  - destruct (IH (step p LoadJobsChanged)) as (H1 & H2 & H3); simpl; auto.
    unfold pollingEffect. now rewrite Hj.
  - assert (Hs : step p (Elapse ms) = p) by (simpl; now rewrite Hi).
    rewrite Hs. auto.
Qed.

(** C9. After any sequence of job-list updates, re-creations of the
    callback and lapses of time since the page mounted: an interval is set
    if and only if the current job list has a job in progress; it is the
    5000 ms one, and while the list stays as it is it fires a refresh each
    time 5000 ms have passed; with no job in progress nothing fires,
    whatever time passes and whatever lists without a job in progress
    arrive; a list with a job in progress sets the interval again. *)
Theorem C9_polling_follows_jobs_in_progress es :
  let p := run mounted es in
  (interval p <> None <-> hasInProgress (p_jobs p) = true)
  /\ (hasInProgress (p_jobs p) = true ->
      exists e,
        interval p = Some (mkInterval 5000 e) /\ (e < 5000)%N
        /\ (forall ms,
              refreshes (step p (Elapse ms)) = (refreshes p + (e + ms) / 5000)%N
              /\ interval (step p (Elapse ms))
                 = Some (mkInterval 5000 ((e + ms) mod 5000)%N))
        /\ (forall n,
              refreshes (step (step p LoadJobsChanged) (Elapse (5000 * n)%N))
              = (refreshes p + n)%N))
  /\ (hasInProgress (p_jobs p) = false ->
      forall es', Forall quiet es' ->
        interval (run p es') = None /\ refreshes (run p es') = refreshes p)
  /\ (forall js,
        interval (step p (SetJobs js))
        = if hasInProgress js then Some (mkInterval 5000 0)%N else None).
Proof.
  intros p. pose proof (scheduled_run es mounted scheduled_mounted) as Hp.
  fold p in Hp. unfold scheduled in Hp.
  split; [|split; [|split]].
  - destruct (hasInProgress (p_jobs p)).
    + destruct Hp as (e & -> & _). split; [reflexivity | discriminate].
    + rewrite Hp. split; [congruence | discriminate].
  - intros Hj. rewrite Hj in Hp. destruct Hp as (e & Hi & He).
    exists e. split; [exact Hi |]. split; [exact He |]. split.
    + intros ms. cbn [step]. rewrite Hi. cbn [refreshes interval period elapsed p_jobs].
      auto.
    + intros n. cbn [step interval p_jobs refreshes]. unfold pollingEffect. rewrite Hj.
      cbn [negb refreshes period elapsed]. f_equal.
      rewrite N.add_0_l, N.mul_comm. apply N.div_mul. lia.
  - intros Hj es' Hq. rewrite Hj in Hp.
    destruct (quiet_run es' Hq p Hp Hj) as (H1 & H2 & _). auto.
  - intros js. simpl. unfold pollingEffect. destruct (hasInProgress js); reflexivity.
Qed.

Lemma C9_witness :
  interval (run (run mounted [SetJobs [Example.job "j1" in_progress];
                              Elapse 12000%N;
                              SetJobs [Example.job "j1" completed]])
                [Elapse 60000%N; LoadJobsChanged; SetJobs []]) = None
  /\ refreshes (run (run mounted [SetJobs [Example.job "j1" in_progress];
                                  Elapse 12000%N;
                                  SetJobs [Example.job "j1" completed]])
                    [Elapse 60000%N; LoadJobsChanged; SetJobs []])
     = refreshes (run mounted [SetJobs [Example.job "j1" in_progress];
                               Elapse 12000%N;
                               SetJobs [Example.job "j1" completed]]).
Proof.
  destruct (C9_polling_follows_jobs_in_progress
              [SetJobs [Example.job "j1" in_progress]; Elapse 12000%N;
               SetJobs [Example.job "j1" completed]]) as (_ & _ & H & _).
  apply H; [reflexivity |]. repeat constructor.
Defined.

Example polling_two_refreshes_in_twelve_seconds :
  refreshes (run mounted [SetJobs [Example.job "j1" in_progress]; Elapse 12000%N]) = 2%N.
Proof. vm_compute. reflexivity. Qed.

End PollingFacts.

(** ** JavaScript string primitives: facts *)

Module JsFacts.

#[local] Arguments String.append !_ _ : simpl nomatch.

Lemma trimStart_head (s : string) :
  match Js.trimStart s with
  | EmptyString => True
  | String c _ => Js.isWhiteSpace c = false
  end.
Proof.
  induction s as [|c r IH]; simpl; [exact I|].
  destruct (Js.isWhiteSpace c) eqn:Hc; [exact IH|exact Hc].
Qed.

Lemma trimEnd_idempotent (s : string) : Js.trimEnd (Js.trimEnd s) = Js.trimEnd s.
Proof.
  induction s as [|c r IH]; simpl; [reflexivity|].
  destruct (Js.trimEnd r) as [|c' r'] eqn:Hr.
  - destruct (Js.isWhiteSpace c) eqn:Hc; simpl; [reflexivity|].
    rewrite Hc. reflexivity.
  - change (Js.trimEnd (String c (String c' r'))) with
      (match Js.trimEnd (String c' r') with
       | EmptyString => if Js.isWhiteSpace c then EmptyString else String c EmptyString
       | r0 => String c r0
       end).
    rewrite IH. reflexivity.
Qed.

Lemma trimEnd_head (c : ascii) (r : string) :
  Js.isWhiteSpace c = false -> exists r', Js.trimEnd (String c r) = String c r'.
Proof.
  intros Hc. simpl. destruct (Js.trimEnd r) as [|c' r'].
  - rewrite Hc. eexists; reflexivity.
  - eexists; reflexivity.
Qed.

(** [trim] removes everything it would remove again. *)
Lemma trim_idempotent (s : string) : Js.trim (Js.trim s) = Js.trim s.
Proof.
  unfold Js.trim. pose proof (trimStart_head s) as Hh.
  destruct (Js.trimStart s) as [|c r] eqn:Hs; [reflexivity|].
  destruct (trimEnd_head c r Hh) as [r' Hr'].
  rewrite Hr'. simpl Js.trimStart. rewrite Hh. rewrite <- Hr'.
  apply trimEnd_idempotent.
Qed.

Lemma append_empty_right (s : string) : s +:+ EmptyString = s.
Proof. induction s as [|c r IH]; simpl; [reflexivity | now rewrite IH]. Qed.

(** [endsWith] is true exactly of the texts that are something followed by
    the suffix. *)
Lemma endsWith_spec (suffix s : string) :
  Js.endsWith suffix s = true <-> exists base, s = base +:+ suffix.
Proof.
  induction s as [|c r IH]; simpl.
  - rewrite orb_false_r. split.
    + intros H. apply String.eqb_eq in H. subst. now exists EmptyString.
    + intros ([|c b] & H); simpl in H; [|discriminate].
      subst. apply String.eqb_refl.
  - rewrite orb_true_iff, IH. split.
    + intros [H|(base & ->)].
      * apply String.eqb_eq in H. subst. now exists EmptyString.
      * now exists (String c base).
    + intros ([|c' base] & H); simpl in H.
      * left. subst. apply String.eqb_refl.
      * right. injection H as -> ->. now exists base.
Qed.

End JsFacts.

(** ** The authentication context over time, and the token prompt *)

Module AuthFacts.

Import AuthContext AuthProvider.

Lemma mirrored_tokenEffect (s : State) : mirrored (tokenEffect s).
Proof. reflexivity. Qed.

Lemma mirrored_setShowAuthModal (b : bool) (s : State) :
  mirrored s -> mirrored (setShowAuthModal b s).
Proof. intros H. exact H. Qed.

Lemma mirrored_act (s : State) (a : action) : mirrored s -> mirrored (act s a).
Proof.
  intros H. destruct a as [t| | | |]; simpl.
  - unfold setToken. destruct (Js.truthyOpt t);
      [apply mirrored_setShowAuthModal|]; apply mirrored_tokenEffect.
  - apply mirrored_tokenEffect.
  - apply mirrored_setShowAuthModal, H.
  - apply mirrored_setShowAuthModal, H.
  - apply mirrored_setShowAuthModal, mirrored_tokenEffect.
Qed.

Lemma mirrored_run (actions : list action) (s : State) :
  mirrored s -> mirrored (run s actions).
Proof.
  revert s. induction actions as [|a l IH]; intros s H; [exact H|].
  apply IH, mirrored_act, H.
Qed.

Lemma authenticated_truthy (s : State) :
  isAuthenticated s = true -> Js.truthyOpt (token s) = true.
Proof.
  unfold isAuthenticated. destruct (token s) as [[|c r]|]; simpl; try discriminate.
  reflexivity.
Qed.

(** X1. Whatever the consumers of the context do after the provider has
    mounted, the entry of the local storage is the token when the token is
    a non-empty string and is absent otherwise; in particular the token of
    an authenticated user is always the stored one. *)
Theorem auth_storage_mirrors_token (stored : option string) (actions : list action) :
  let s := run (mount stored) actions in
  storedToken s = (if Js.truthyOpt (token s) then token s else None)
  /\ (isAuthenticated s = true -> storedToken s = token s)
  /\ (token s = None -> storedToken s = None).
Proof.
  intros s.
  assert (H : mirrored s) by (apply mirrored_run, mirrored_tokenEffect).
  split; [exact H|]. split.
  - intros Ha. rewrite H, (authenticated_truthy s Ha). reflexivity.
  - intros Hn. rewrite H, Hn. reflexivity.
Qed.

(** X2. Reloading the page keeps the session: after any history, the
    provider that mounts again over the storage is authenticated exactly
    when the one before was, sends the same token if it sent one, and
    starts with the prompt closed. *)
Theorem auth_reload_keeps_session (stored : option string) (actions : list action) :
  let s := run (mount stored) actions in
  isAuthenticated (reload s) = isAuthenticated s
  /\ Js.truthyOpt (token (reload s)) = Js.truthyOpt (token s)
  /\ (Js.truthyOpt (token s) = true -> token (reload s) = token s)
  /\ storedToken (reload s) = storedToken s
  /\ showAuthModal (reload s) = false.
Proof.
  intros s.
  assert (H : mirrored s) by (apply mirrored_run, mirrored_tokenEffect).
  unfold reload, mount, tokenEffect, isAuthenticated. simpl. rewrite H.
  destruct (token s) as [[|c r]|]; simpl; repeat split; try reflexivity;
    intros; discriminate.
Qed.

(** X3. Saving a token in the prompt: a blank input is refused with a
    message and leaves the context as it was; any other input makes its
    trimmed text the token, stored and authenticated, and closes the
    prompt. *)
Theorem authModal_submit_saves_trimmed_token (v : AuthModal.View) (ctx : State) :
  let r := AuthModal.handleSubmit v ctx in
  if Js.truthy (Js.trim (AuthModal.inputValue v))
  then token r.2 = Some (Js.trim (AuthModal.inputValue v))
       /\ storedToken r.2 = token r.2
       /\ isAuthenticated r.2 = true
       /\ showAuthModal r.2 = false
       /\ AuthModal.error r.1 = None
  else r.2 = ctx /\ AuthModal.error r.1 = Some "Please enter an auth token".
Proof.
  unfold AuthModal.handleSubmit.
  destruct (Js.truthy (Js.trim (AuthModal.inputValue v))) eqn:Ht; simpl.
  - unfold setToken, setTokenState, tokenEffect, isAuthenticated. simpl.
    rewrite Ht. simpl. rewrite JsFacts.trim_idempotent, Ht. repeat split; reflexivity.
  - split; reflexivity.
Qed.

End AuthFacts.

(** ** The API client adapter: what it adds to the client's answers *)

Module AdapterFacts.

Import Client.

#[local] Arguments String.append !_ _ : simpl nomatch.

Section Facts.

Context {QueryResult UpsertReply : Type}.
Context (client : Endee QueryResult UpsertReply).

(** X4. The index list of the adapter shows every index the backend
    lists, in the same order and none twice: each keeps its name and its
    numbers, has its space type rendered by [formatSpaceType], and counts
    as hybrid exactly when the backend gave it a positive sparse
    dimension. A response without an index list is an empty list, not a
    failure. *)
Theorem listIndexes_shows_every_index (w : World) :
  match listIndexes client with
  | Returned response =>
      exists indexes,
        (apiListIndexes client w).1 = mkApiResponse true (Some indexes) None
        /\ Forall2
             (fun raw index =>
                i_name index = raw_name raw
                /\ i_dimension index = raw_dimension raw
                /\ total_elements index = raw_total_elements raw
                /\ space_type index = formatSpaceType (raw_space_type raw)
                /\ (isHybridIndex index = true
                    <-> exists d, raw_sparse_dim raw = Some d /\ 0 < d))
             (match response with Some l => l | None => [] end) indexes
  | Raised _ => success (apiListIndexes client w).1 = false
  end.
Proof.
  unfold apiListIndexes. destruct (listIndexes client) as [response|e].
  - eexists. split; [reflexivity|].
    induction (match response with Some l => l | None => [] end) as [|raw l IH];
      simpl; constructor; [|exact IH].
    repeat split; unfold isHybridIndex; simpl.
    + intros H. destruct (raw_sparse_dim raw) as [d|]; [|discriminate].
      exists d. split; [reflexivity|]. now apply Z.ltb_lt.
    + intros (d & -> & Hd). now apply Z.ltb_lt.
  - unfold handleApiError. reflexivity.
Qed.

(** X5. The two failures that [getVector] raises itself: without an id
    (none, or the empty string) the vector is never asked for and the
    answer is Either id or filter must be provided; for a vector the
    backend does not have it is Vector not found. Neither is taken for an
    authorization failure: the session stays as it was. *)
Theorem getVector_own_errors_keep_session
    (indexName index : string) (requestId : option string) (w : World) :
  getIndex client indexName = Returned index ->
  let r := apiGetVector client indexName requestId w in
  (Js.truthyOpt requestId = false ->
   r.1 = mkApiResponse false None (Some "Either id or filter must be provided")
   /\ calls r.2 = calls w ++ [GetIndex indexName]
   /\ auth r.2 = auth w)
  /\ (forall vectorId,
        requestId = Some vectorId -> Js.truthy vectorId = true ->
        getVector client index vectorId = Returned None ->
        r.1 = mkApiResponse false None (Some "Vector not found")
        /\ calls r.2 = calls w ++ [GetIndex indexName; GetVector index vectorId]
        /\ auth r.2 = auth w).
Proof.
  intros Hi r. subst r. unfold apiGetVector. rewrite Hi. split.
  - intros Hid. destruct requestId as [vectorId|]; simpl in Hid; [rewrite Hid|];
      repeat split.
  - intros vectorId -> Ht Hv. rewrite Ht, Hv. repeat split.
    simpl. rewrite <- app_assoc. reflexivity.
Qed.

(** X6. An operation of the adapter that succeeds answers no error, leaves
    the session and the registered callback alone, and has made at least
    one call on the client, after those made before. *)
Theorem adapter_success_leaves_session (op : operation) (w : World) :
  (perform client op w).1.1 = true ->
  (perform client op w).1.2 = None
  /\ auth (perform client op w).2 = auth w
  /\ onUnauthorized (perform client op w).2 = onUnauthorized w
  /\ exists c new, calls (perform client op w).2 = calls w ++ c :: new.
Proof.
  destruct op; cbn [perform];
    unfold health, apiListIndexes, getIndexInfo, apiCreateIndex, apiDeleteIndex,
      insertVectors, apiGetVector, deleteVectorById, deleteVectorsByFilter,
      searchVectors;
    repeat match goal with
           | |- context [match ?x with Returned _ => _ | Raised _ => _ end] =>
               destruct x
           | |- context [match ?x with Some _ => _ | None => _ end] => destruct x
           | |- context [if Js.truthy ?x then _ else _] => destruct (Js.truthy x)
           end;
    try (unfold handleApiError; simpl; discriminate);
    intros _; repeat split; simpl; rewrite <- ?app_assoc; eexists _, _; reflexivity.
Qed.

End Facts.

Lemma getVector_own_errors_keep_session_witness :
  let r := apiGetVector Fixture.listing "docs" (Some "v1") Example.world in
  r.1 = mkApiResponse false None (Some "Vector not found")
  /\ calls r.2 = [GetIndex "docs"; GetVector "docs" "v1"]
  /\ auth r.2 = Example.signedIn.
Proof.
  exact (proj2 (getVector_own_errors_keep_session Fixture.listing "docs" "docs"
                  (Some "v1") Example.world eq_refl)
           "v1" eq_refl eq_refl eq_refl).
Defined.

Lemma adapter_success_leaves_session_witness :
  (perform Fixture.listing OpListIndexes Example.world).1.2 = None
  /\ auth (perform Fixture.listing OpListIndexes Example.world).2 = Example.signedIn.
Proof.
  destruct (adapter_success_leaves_session Fixture.listing OpListIndexes Example.world
              eq_refl) as (He & Ha & _).
  split; [exact He | exact Ha].
Defined.

End AdapterFacts.

(** ** What leaves the search and insert pages *)

Module RequestFacts.

Import Json JsonFacts.

#[local] Arguments String.append !_ _ : simpl nomatch.

Section Facts.

Context (syntaxErrorMessage : string -> string).
Context {QueryResult UpsertReply : Type}.

Abbreviation denseVector := (SearchPage.denseVector syntaxErrorMessage).
Abbreviation sparseField := (SearchPage.sparseField syntaxErrorMessage).
Abbreviation buildSearchRequest := (SearchPage.buildSearchRequest syntaxErrorMessage).
Abbreviation parseVector := (VectorInsertPage.parseVector syntaxErrorMessage).
Abbreviation parseBatch := (VectorInsertPage.parseBatch syntaxErrorMessage).

Lemma denseVector_ok text v :
  denseVector text = Ok v -> exists x items, v = JArray (x :: items).
Proof.
  intros H. pose proof (SearchFacts.denseVector_cases syntaxErrorMessage text) as Hc.
  destruct (parse (bracketed text)) as [[| | | |[|x items]|]|];
    try (rewrite H in Hc; discriminate);
    destruct Hc as [Hc Hv]; rewrite H in Hc; injection Hc as Hc; subst v; exact Hv.
Qed.

(** The two sparse fields after [sparseCheck]: both read, with as many
    entries, or both left out. *)
Lemma sparse_pair_ok si sv :
  SearchPage.sparseCheck si sv = Ok tt ->
  match si, sv with
  | Some i, Some v => arrayLength i = arrayLength v
  | None, None => True
  | _, _ => False
  end.
Proof.
  destruct si as [i|], sv as [v|]; simpl; try discriminate; [|trivial].
  unfold throwIf. destruct (arrayLength i =? arrayLength v)%nat eqn:He; [|discriminate].
  intros _. now apply Nat.eqb_eq.
Qed.

(** X7. Every search request that leaves the form is well formed: k is
    positive, the vector is an array with at least one entry, ef is
    positive or left out, the filter is left out for a blank text and is
    otherwise the trimmed text of a field that parses as JSON, and the
    sparse indices and values come together with as many entries, on a
    hybrid index only. *)
Theorem search_request_well_formed (p : SearchPage.Props) (f : SearchPage.Form)
    (req : Client.SearchRequest) :
  buildSearchRequest p f = Ok req ->
  0 < Client.k req
  /\ (exists x items, Client.r_vector req = JArray (x :: items))
  /\ match Client.ef req with Some e => 0 < e | None => True end
  /\ match Client.r_filter req with
     | Some text =>
         text = Js.trim (SearchPage.filter f) /\ Js.truthy text = true
         /\ parse (SearchPage.filter f) <> None
     | None => Js.truthy (Js.trim (SearchPage.filter f)) = false
     end
  /\ Client.include_vectors req = Some (SearchPage.includeVectors f)
  /\ match Client.sparse_indices req, Client.sparse_values req with
     | Some i, Some v => SearchPage.isHybrid p = true /\ arrayLength i = arrayLength v
     | None, None => True
     | _, _ => False
     end.
Proof.
  unfold SearchPage.buildSearchRequest.
  destruct (denseVector (SearchPage.vector f)) as [va|] eqn:Hv; simpl; [|discriminate].
  apply denseVector_ok in Hv.
  destruct (Js.parseInt (SearchPage.k f)) as [kv|]; [|discriminate].
  destruct (kv <=? 0) eqn:Hk; [discriminate|]. apply Z.leb_gt in Hk.
  set (efField := if Js.truthy (Js.trim (SearchPage.ef f)) then _ else _).
  assert (Hef : match efField with Some e => 0 < e | None => True end).
  { subst efField. destruct (Js.truthy _); [|exact I].
    destruct (Js.parseInt (SearchPage.ef f)) as [e|]; [|exact I].
    destruct (0 <? e) eqn:He; [|exact I]. now apply Z.ltb_lt. }
  clearbody efField.
  set (filterField := if Js.truthy (Js.trim (SearchPage.filter f)) then _ else _).
  destruct filterField as [ff|] eqn:Hff; simpl; [|discriminate].
  assert (Hfilter : match ff with
                    | Some text =>
                        text = Js.trim (SearchPage.filter f) /\ Js.truthy text = true
                        /\ parse (SearchPage.filter f) <> None
                    | None => Js.truthy (Js.trim (SearchPage.filter f)) = false
                    end).
  { subst filterField. destruct (Js.truthy (Js.trim (SearchPage.filter f))) eqn:Ht.
    - destruct (parse (SearchPage.filter f)); [|discriminate].
      injection Hff as <-. repeat split; [exact Ht | discriminate].
    - injection Hff as <-. reflexivity. }
  clear Hff. destruct (SearchPage.isHybrid p) eqn:Hh.
  - destruct (sparseField (SearchPage.sparseIndices f)) as [si|]; simpl; [|discriminate].
    destruct (sparseField (SearchPage.sparseValues f)) as [sv|]; simpl; [|discriminate].
    destruct (SearchPage.sparseCheck si sv) as [[]|] eqn:Hc; simpl; [|discriminate].
    apply sparse_pair_ok in Hc. intros [= <-]. simpl.
    repeat (split; [assumption || reflexivity|]).
    destruct si, sv; auto.
  - intros [= <-]. simpl. repeat (split; [assumption || reflexivity|]). exact I.
Qed.

Lemma parseVector_ok p row item :
  parseVector p row = Ok item ->
  Client.id item = Js.trim (VectorInsertPage.id row)
  /\ Js.truthy (Client.id item) = true
  /\ (exists x items, Client.vector item = JArray (x :: items))
  /\ match Client.sparseIndices item, Client.sparseValues item with
     | Some i, Some v =>
         VectorInsertPage.isHybrid p = true /\ arrayLength i = arrayLength v
     | None, None => True
     | _, _ => False
     end.
Proof.
  unfold VectorInsertPage.parseVector, VectorInsertPage.parseVectorBody.
  destruct (Js.truthy (Js.trim (VectorInsertPage.id row))) eqn:Hid; simpl;
    [|discriminate].
  destruct (denseVector (VectorInsertPage.vector row)) as [va|] eqn:Hv; simpl;
    [|discriminate].
  apply denseVector_ok in Hv.
  destruct (VectorInsertPage.isHybrid p) eqn:Hh.
  - destruct (sparseField (VectorInsertPage.sparse_indices row)) as [si|]; simpl;
      [|discriminate].
    destruct (sparseField (VectorInsertPage.sparse_values row)) as [sv|]; simpl;
      [|discriminate].
    destruct (SearchPage.sparseCheck si sv) as [[]|] eqn:Hc; simpl; [|discriminate].
    apply sparse_pair_ok in Hc.
    destruct (VectorInsertPage.jsonField _ (VectorInsertPage.meta row)); simpl;
      [|discriminate].
    destruct (VectorInsertPage.jsonField _ (VectorInsertPage.filter row)); simpl;
      [|discriminate].
    intros [= <-]. simpl. repeat (split; [assumption || reflexivity|]).
    destruct si, sv; auto.
  - simpl.
    destruct (VectorInsertPage.jsonField _ (VectorInsertPage.meta row)); simpl;
      [|discriminate].
    destruct (VectorInsertPage.jsonField _ (VectorInsertPage.filter row)); simpl;
      [|discriminate].
    intros [= <-]. simpl. repeat (split; [assumption || reflexivity|]). exact I.
Qed.

(** X8. Every batch that leaves the insert form is well formed: it has at
    least one vector, one for each row that is not a placeholder and in
    the order of the rows; each id is the trimmed id text of its row, is
    not empty and has no white space around it; each vector is an array
    with at least one entry; sparse indices and values come together with
    as many entries, on a hybrid index only. *)
Theorem insert_batch_well_formed (p : VectorInsertPage.Props)
    (rows : list VectorInsertPage.VectorInput) (items : list Client.VectorItem) :
  parseBatch p rows = Ok items ->
  items <> []
  /\ Forall2
       (fun row item =>
          Client.id item = Js.trim (VectorInsertPage.id row)
          /\ Js.truthy (Client.id item) = true
          /\ Js.trim (Client.id item) = Client.id item
          /\ (exists x xs, Client.vector item = JArray (x :: xs))
          /\ match Client.sparseIndices item, Client.sparseValues item with
             | Some i, Some v =>
                 VectorInsertPage.isHybrid p = true /\ arrayLength i = arrayLength v
             | None, None => True
             | _, _ => False
             end)
       (List.filter VectorInsertPage.nonEmptyRow rows) items.
Proof.
  intros H. pose proof (InsertFacts.parseBatch_cases syntaxErrorMessage p rows) as Hc.
  destruct (List.filter VectorInsertPage.nonEmptyRow rows) as [|r rest] eqn:Hf.
  - rewrite H in Hc. discriminate.
  - rewrite H in Hc. symmetry in Hc. apply InsertFacts.parseAll_items in Hc.
    split.
    + intros ->. inversion Hc.
    + eapply Forall2_impl; [exact Hc|]. intros row item Hp.
      destruct (parseVector_ok p row item Hp) as (Hid & Ht & Hv & Hs).
      repeat (split; [assumption|]). split; [|split; assumption].
      rewrite Hid. apply JsFacts.trim_idempotent.
Qed.

End Facts.

Lemma search_request_well_formed_witness :
  exists req,
    SearchPage.buildSearchRequest Host.exampleSyntaxErrorMessage (Example.searchProps false)
      (Example.searchForm "0.1, 0.2" EmptyString EmptyString "5") = Ok req
    /\ 0 < Client.k req.
Proof.
  eexists. split; [vm_compute; reflexivity|].
  refine (proj1 (search_request_well_formed Host.exampleSyntaxErrorMessage
                   (Example.searchProps false)
                   (Example.searchForm "0.1, 0.2" EmptyString EmptyString "5") _ _)).
  vm_compute. reflexivity.
Defined.

Lemma insert_batch_well_formed_witness :
  exists items,
    VectorInsertPage.parseBatch Host.exampleSyntaxErrorMessage Example.insertProps
      [Example.row " a " "1, 2" EmptyString; VectorInsertPage.emptyRow] = Ok items
    /\ items <> [].
Proof.
  eexists. split; [vm_compute; reflexivity|].
  refine (proj1 (insert_batch_well_formed Host.exampleSyntaxErrorMessage
                   Example.insertProps
                   [Example.row " a " "1, 2" EmptyString; VectorInsertPage.emptyRow] _ _)).
  vm_compute. reflexivity.
Defined.

End RequestFacts.

(** ** The submit handlers: what a submission leaves behind *)

Module HandlerFacts.

#[local] Arguments String.append !_ _ : simpl nomatch.

Section Facts.

Context (syntaxErrorMessage : string -> string).
Context {QueryResult UpsertReply : Type}.
Context (client : Client.Endee QueryResult UpsertReply).

Abbreviation buildSearchRequest := (SearchPage.buildSearchRequest syntaxErrorMessage).
Abbreviation handleSearch :=
  (SearchPage.handleSearch syntaxErrorMessage (QueryResult := QueryResult)
     (UpsertReply := UpsertReply)).
Abbreviation parseBatch := (VectorInsertPage.parseBatch syntaxErrorMessage).
Abbreviation handleSubmit :=
  (VectorInsertPage.handleSubmit syntaxErrorMessage (QueryResult := QueryResult)
     (UpsertReply := UpsertReply)).

(** X9. After a search submission, whatever it was: a message and results
    are never shown together, the busy flag is not left on, and results
    that are shown are those of the successful response to this very
    submission, never those of an earlier one. *)
Theorem handleSearch_shows_fresh_results
    (p : SearchPage.Props) (f : SearchPage.Form)
    (v : SearchPage.View QueryResult) (w : Client.World) :
  let r := handleSearch client p f v w in
  (SearchPage.error r.1 = None \/ SearchPage.results r.1 = None)
  /\ (SearchPage.searching v = false -> SearchPage.searching r.1 = false)
  /\ (forall rs,
        SearchPage.results r.1 = Some rs ->
        exists name req,
          SearchPage.indexName p = Some name
          /\ buildSearchRequest p f = Ok req
          /\ Client.success (Client.searchVectors client name req w).1 = true
          /\ rs = match Client.data (Client.searchVectors client name req w).1 with
                  | Some found => found
                  | None => []
                  end).
Proof.
  intros r. subst r.
  destruct (SearchPage.indexName p) as [name|] eqn:Hn.
  2: { unfold SearchPage.handleSearch. rewrite Hn. simpl.
       split; [auto|]. split; [auto|]. discriminate. }
  destruct (Js.truthy name) eqn:Ht.
  2: { unfold SearchPage.handleSearch. rewrite Hn, Ht. simpl.
       split; [auto|]. split; [auto|]. discriminate. }
  destruct (buildSearchRequest p f) as [req|m] eqn:Hb.
  - rewrite (SearchFacts.handleSearch_sends syntaxErrorMessage client p f v w name req Hn Ht Hb).
    destruct (Client.searchVectors client name req w) as [response w'] eqn:Hs.
    destruct (Client.success response) eqn:Hok; simpl.
    + split; [auto|]. split; [auto|]. intros rs [= <-]. exists name, req.
      rewrite Hs. auto.
    + split; [auto|]. split; [auto|]. discriminate.
  - rewrite (SearchFacts.handleSearch_throw syntaxErrorMessage client p f v w name m Hn Ht Hb).
    simpl. split; [auto|]. split; [auto|]. discriminate.
Qed.

(** The rows after a submission: those typed, or one empty row. *)
Lemma handleSubmit_rows
    (p : VectorInsertPage.Props) (v : VectorInsertPage.View) (w : Client.World) :
  VectorInsertPage.vectors (handleSubmit client p v w).1 = VectorInsertPage.vectors v
  \/ VectorInsertPage.vectors (handleSubmit client p v w).1 = [VectorInsertPage.emptyRow].
Proof.
  destruct (VectorInsertPage.indexName p) as [name|] eqn:Hn.
  2: { unfold VectorInsertPage.handleSubmit. rewrite Hn. now left. }
  destruct (Js.truthy name) eqn:Ht.
  2: { unfold VectorInsertPage.handleSubmit. rewrite Hn, Ht. now left. }
  destruct (parseBatch p (VectorInsertPage.vectors v)) as [items|m] eqn:Hb.
  - rewrite (InsertFacts.handleSubmit_ok syntaxErrorMessage client p v w name items Hn Ht Hb).
    destruct (Client.insertVectors client name items w) as [response w'].
    destruct (Client.success response); simpl; auto.
  - rewrite (InsertFacts.handleSubmit_throw syntaxErrorMessage client p v w name m Hn Ht Hb).
    now left.
Qed.

(** X10. After an insert submission, whatever it was: a message of failure
    and one of success are never shown together, the busy flag is not left
    on, the rows are what the user typed unless the insert succeeded, and
    a success message means that the batch of this submission was accepted
    by the backend and the form is back to one empty row. *)
Theorem insert_submission_keeps_rows_until_success
    (p : VectorInsertPage.Props) (v : VectorInsertPage.View) (w : Client.World) :
  let r := handleSubmit client p v w in
  (VectorInsertPage.error r.1 = None \/ VectorInsertPage.success r.1 = None)
  /\ (VectorInsertPage.submitting v = false -> VectorInsertPage.submitting r.1 = false)
  /\ (VectorInsertPage.success r.1 = None ->
      VectorInsertPage.vectors r.1 = VectorInsertPage.vectors v)
  /\ (forall m,
        VectorInsertPage.success r.1 = Some m ->
        VectorInsertPage.vectors r.1 = [VectorInsertPage.emptyRow]
        /\ exists name items,
             VectorInsertPage.indexName p = Some name
             /\ parseBatch p (VectorInsertPage.vectors v) = Ok items
             /\ Client.success (Client.insertVectors client name items w).1 = true).
Proof.
  intros r. subst r.
  destruct (VectorInsertPage.indexName p) as [name|] eqn:Hn.
  2: { unfold VectorInsertPage.handleSubmit. rewrite Hn. simpl.
       split; [auto|]. split; [auto|]. split; [auto|]. discriminate. }
  destruct (Js.truthy name) eqn:Ht.
  2: { unfold VectorInsertPage.handleSubmit. rewrite Hn, Ht. simpl.
       split; [auto|]. split; [auto|]. split; [auto|]. discriminate. }
  destruct (parseBatch p (VectorInsertPage.vectors v)) as [items|m] eqn:Hb.
  - rewrite (InsertFacts.handleSubmit_ok syntaxErrorMessage client p v w name items Hn Ht Hb).
    destruct (Client.insertVectors client name items w) as [response w'] eqn:Hs.
    destruct (Client.success response) eqn:Hok; simpl.
    + split; [auto|]. split; [auto|]. split; [discriminate|].
      intros m _. split; [reflexivity|]. exists name, items. rewrite Hs. auto.
    + split; [auto|]. split; [auto|]. split; [auto|]. discriminate.
  - rewrite (InsertFacts.handleSubmit_throw syntaxErrorMessage client p v w name m Hn Ht Hb).
    simpl. split; [auto|]. split; [auto|]. split; [auto|]. discriminate.
Qed.

(** A failed operation is one pass through [handleApiError], in a world
    with the session and the callback of the start. *)
Lemma perform_failure_world (op : Client.operation) (w : Client.World) :
  (Client.perform client op w).1.1 = false ->
  exists e w1,
    Client.perform client op w = Client.envelope (Client.handleApiError (T := unit) e w1)
    /\ Client.onUnauthorized w1 = Client.onUnauthorized w
    /\ Client.auth w1 = Client.auth w.
Proof.
  destruct op; cbn [Client.perform];
    unfold Client.health, Client.apiListIndexes, Client.getIndexInfo,
      Client.apiCreateIndex, Client.apiDeleteIndex, Client.insertVectors,
      Client.apiGetVector, Client.deleteVectorById, Client.deleteVectorsByFilter,
      Client.searchVectors;
    repeat match goal with
           | |- context [match ?x with Client.Returned _ => _ | Client.Raised _ => _ end] =>
               destruct x
           | |- context [match ?x with Some _ => _ | None => _ end] => destruct x
           | |- context [if Js.truthy ?x then _ else _] => destruct (Js.truthy x)
           end;
    try discriminate; intros _;
    (rewrite ClientFacts.envelope_handleApiError;
     eexists _, _; split; [reflexivity | split; reflexivity]).
Qed.

(** A failure of the adapter whose message is that of an authorization
    failure has called the registered callback. *)
Lemma unauthorized_message_signs_out (op : Client.operation) (w : Client.World)
    (msg : string) (callback : AuthContext.State -> AuthContext.State) :
  (Client.perform client op w).1 = (false, Some msg) ->
  Client.isUnauthorizedError (Client.ErrorObject msg) = true ->
  Client.onUnauthorized w = Some callback ->
  Client.auth (Client.perform client op w).2 = callback (Client.auth w).
Proof.
  intros Hr Hu Hcb.
  destruct (perform_failure_world op w) as (e & w1 & Hp & Ho & Ha).
  { now rewrite Hr. }
  rewrite Hp in Hr |- *. unfold Client.envelope in Hr |- *.
  destruct (ClientFacts.handleApiError_spec (T := unit) e w1) as (H1 & _ & _ & H4).
  cbn [fst snd] in Hr |- *. rewrite H1 in Hr. cbn [Client.success Client.error] in Hr.
  injection Hr as Hm.
  rewrite H4, Ho, Hcb, Ha.
  destruct e as [m|]; [subst m; now rewrite Hu|].
  subst msg. discriminate.
Qed.

(** X11. When the adapter answers a search with a failure whose message is
    that of an authorization failure (it mentions 401 or invalid token),
    the page shows that message and the user is signed out: the token is
    gone from the context and from the storage, and the prompt is open. *)
Theorem search_unauthorized_signs_out
    (p : SearchPage.Props) (f : SearchPage.Form) (v : SearchPage.View QueryResult)
    (w : Client.World) (name msg : string) (req : Client.SearchRequest) :
  SearchPage.indexName p = Some name -> Js.truthy name = true ->
  buildSearchRequest p f = Ok req ->
  Client.onUnauthorized w = Some AuthContext.handleUnauthorized ->
  Client.success (Client.searchVectors client name req w).1 = false ->
  Client.error (Client.searchVectors client name req w).1 = Some msg ->
  Client.isUnauthorizedError (Client.ErrorObject msg) = true ->
  let r := handleSearch client p f v w in
  r.1 = SearchPage.failed msg
  /\ AuthContext.token (Client.auth r.2) = None
  /\ AuthContext.storedToken (Client.auth r.2) = None
  /\ AuthContext.showAuthModal (Client.auth r.2) = true
  /\ AuthContext.isAuthenticated (Client.auth r.2) = false.
Proof.
  intros Hn Ht Hb Hcb Hs He Hu r. subst r.
  rewrite (SearchFacts.handleSearch_sends syntaxErrorMessage client p f v w name req Hn Ht Hb).
  pose proof (unauthorized_message_signs_out (Client.OpSearchVectors name req) w msg
                AuthContext.handleUnauthorized) as Ha.
  cbn [Client.perform] in Ha. unfold Client.envelope in Ha.
  destruct (Client.searchVectors client name req w) as [response w'].
  cbn [fst snd] in *. rewrite Hs, He in Ha. specialize (Ha eq_refl Hu Hcb).
  rewrite Hs. cbn [negb]. rewrite He.
  assert (Hm : Host.orElse (Some msg) "Search failed" = msg).
  { destruct msg; [discriminate Hu | reflexivity]. }
  rewrite Hm. cbn [fst snd]. rewrite Ha. repeat split.
Qed.

Lemma notPositive_false (x : option Z) :
  Js.notPositive x = false -> exists n, x = Some n /\ 0 < n.
Proof.
  destruct x as [n|]; simpl; [|discriminate].
  intros H. exists n. split; [reflexivity|]. now apply Z.leb_gt.
Qed.

Lemma outside_false (x : option Z) (lo hi : Z) :
  CreateIndexPage.outside x lo hi = false -> exists n, x = Some n /\ lo <= n <= hi.
Proof.
  destruct x as [n|]; simpl; [|discriminate].
  intros H. apply orb_false_iff in H as [H1 H2].
  exists n. split; [reflexivity|]. apply Z.ltb_ge in H1, H2. lia.
Qed.

(** X12. What the create call of an accepted form carries: the trimmed
    name, not empty; the dimension read, above zero; a sparse dimension
    above zero for a hybrid index and none otherwise; M within 4 to 64 and
    ef_construction within 64 to 512 when the advanced configuration is
    shown and neither otherwise. The adapter's own filters on these
    options drop nothing that the page has validated, and it is the only
    client call of the submission. *)
Theorem create_call_carries_validated_options
    (f : CreateIndexPage.Form) (v : CreateIndexPage.View) (w : Client.World)
    (args : string * Z * string * Client.CreateOptions) :
  CreateIndexPage.validate f = Ok args ->
  exists options,
    Client.calls (CreateIndexPage.handleSubmit client f v w).2
    = Client.calls w ++ [Client.CreateIndex options]
    /\ Client.name options = Js.trim (CreateIndexPage.name f)
    /\ Js.truthy (Client.name options) = true
    /\ Js.parseInt (CreateIndexPage.dimension f) = Some (Client.dimension options)
    /\ 0 < Client.dimension options
    /\ Client.spaceType options = CreateIndexPage.spaceType f
    /\ (if CreateIndexPage.isHybrid f
        then exists sd, Client.sparseDimension options = Some sd /\ 0 < sd
                        /\ Js.parseInt (CreateIndexPage.sparseDimension f) = Some sd
        else Client.sparseDimension options = None)
    /\ (if CreateIndexPage.showAdvanced f
        then exists m e,
               Client.M options = Some m /\ 4 <= m <= 64
               /\ Client.efCon options = Some e /\ 64 <= e <= 512
        else Client.M options = None /\ Client.efCon options = None).
Proof.
  intros Hv. pose proof (CreateIndexFacts.validate_cases f) as Hc. simpl in Hc.
  rewrite Hv in Hc.
  destruct (negb (Js.truthy (Js.trim (CreateIndexPage.name f)))) eqn:Hname;
    [discriminate|].
  destruct (Js.notPositive (Js.parseInt (CreateIndexPage.dimension f))) eqn:Hdim;
    [discriminate|].
  apply notPositive_false in Hdim as (d & Hd & Hdpos).
  destruct (CreateIndexPage.isHybrid f
            && Js.notPositive (Js.parseInt (CreateIndexPage.sparseDimension f))) eqn:Hsp;
    [discriminate|].
  destruct (CreateIndexPage.showAdvanced f
            && CreateIndexPage.outside (Js.parseInt (CreateIndexPage.mParam f)) 4 64)
    eqn:HM; [discriminate|].
  destruct (CreateIndexPage.showAdvanced f
            && CreateIndexPage.outside (Js.parseInt (CreateIndexPage.efConstruction f))
                 64 512) eqn:Hef; [discriminate|].
  injection Hc as ->.
  rewrite (CreateIndexFacts.create_handleSubmit_valid client f v w _ _ _ _ Hv).
  destruct (CreateIndexFacts.apiCreateIndex_calls client
              (Js.trim (CreateIndexPage.name f))
              (match Js.parseInt (CreateIndexPage.dimension f) with
               | Some d0 => d0 | None => 0 end)
              (CreateIndexPage.spaceType f)
              (Client.mkCreateOptions (Some (CreateIndexPage.precision f))
                 (if CreateIndexPage.isHybrid f
                  then Js.parseInt (CreateIndexPage.sparseDimension f) else None)
                 (if CreateIndexPage.showAdvanced f
                  then Js.parseInt (CreateIndexPage.mParam f) else None)
                 (if CreateIndexPage.showAdvanced f
                  then Js.parseInt (CreateIndexPage.efConstruction f) else None)) w)
    as (options & Hcalls & ->).
  eexists. split; [exact Hcalls|]. cbn [Client.name Client.dimension Client.spaceType
    Client.sparseDimension Client.M Client.efCon Client.o_sparse_dim Client.o_M
    Client.o_ef_con].
  apply negb_false_iff in Hname. rewrite Hd.
  repeat (split; [assumption || reflexivity|]).
  split.
  - destruct (CreateIndexPage.isHybrid f); [|reflexivity]. simpl in Hsp.
    apply notPositive_false in Hsp as (sd & -> & Hsd). exists sd.
    assert ((sd =? 0) = false) as -> by lia. assert ((0 <? sd) = true) as -> by lia.
    auto.
  - destruct (CreateIndexPage.showAdvanced f); [|split; reflexivity]. simpl in HM, Hef.
    apply outside_false in HM as (m & -> & Hm).
    apply outside_false in Hef as (e & -> & He).
    exists m, e. unfold Client.truthyNum.
    assert ((m =? 0) = false) as -> by lia. assert ((e =? 0) = false) as -> by lia.
    simpl. auto.
Qed.

End Facts.

Lemma search_unauthorized_signs_out_witness :
  let r := SearchPage.handleSearch Host.exampleSyntaxErrorMessage Example.refusing
             (Example.searchProps false)
             (Example.searchForm "0.1, 0.2" EmptyString EmptyString "5")
             Example.searchView Example.world in
  r.1 = SearchPage.failed "Request failed: 401 Invalid Token"
  /\ AuthContext.token (Client.auth r.2) = None.
Proof.
  pose proof (search_unauthorized_signs_out Host.exampleSyntaxErrorMessage Example.refusing
                (Example.searchProps false)
                (Example.searchForm "0.1, 0.2" EmptyString EmptyString "5")
                Example.searchView Example.world "idx" "Request failed: 401 Invalid Token"
                (Client.mkSearchRequest
                   (Json.JArray [Json.JNumber "0.1"; Json.JNumber "0.2"]) 5 None None
                   (Some false) None None)
                eq_refl eq_refl eq_refl eq_refl eq_refl eq_refl eq_refl) as H.
  split; [exact (proj1 H) | exact (proj1 (proj2 H))].
Defined.

Lemma create_call_carries_validated_options_witness :
  exists options,
    Client.calls (CreateIndexPage.handleSubmit Example.client
                    (Example.createForm true "16" "128") Example.createView
                    Example.world).2
    = [Client.CreateIndex options]
    /\ Client.M options = Some 16.
Proof.
  destruct (create_call_carries_validated_options Example.client
              (Example.createForm true "16" "128") Example.createView Example.world
              _ eq_refl) as (options & Hc & _).
  exists options. split; [exact Hc|].
  vm_compute in Hc. injection Hc as <-. reflexivity.
Defined.

End HandlerFacts.

(** ** The backup screens: job order, refreshes and confirmations *)

Module BackupsFacts.

Import Fetch BackupsPage.

#[local] Arguments String.append !_ _ : simpl nomatch.

(** Latest first. *)
Abbreviation notBefore := (fun a b : BackupJob => started_at b <= started_at a).

Lemma insertJob_perm (j : BackupJob) (l : list BackupJob) : insertJob j l ≡ₚ j :: l.
Proof.
  induction l as [|x r IH]; simpl; [reflexivity|].
  destruct (started_at x <=? started_at j); [reflexivity|].
  rewrite IH. apply perm_swap.
Qed.

Lemma sortJobs_perm (l : list BackupJob) : sortJobs l ≡ₚ l.
Proof.
  induction l as [|j l IH]; simpl; [reflexivity|].
  unfold sortJobs in *. simpl. rewrite insertJob_perm. now apply perm_skip.
Qed.

Lemma insertJob_sorted (j : BackupJob) (l : list BackupJob) :
  StronglySorted notBefore l -> StronglySorted notBefore (insertJob j l).
Proof.
  induction 1 as [|x r Hs IH Hx]; simpl.
  - constructor; constructor.
  - destruct (started_at x <=? started_at j) eqn:Hle.
    + apply Z.leb_le in Hle. constructor; [constructor; assumption|].
      constructor; [exact Hle|].
      eapply Forall_impl; [exact Hx|]. simpl. intros y Hy. lia.
    + apply Z.leb_gt in Hle. constructor; [exact IH|].
      rewrite insertJob_perm. constructor; [simpl; lia | exact Hx].
Qed.

Lemma insertJob_filter (t : Z) (j : BackupJob) (l : list BackupJob) :
  List.filter (fun x => started_at x =? t) (insertJob j l)
  = List.filter (fun x => started_at x =? t) (j :: l).
Proof.
  induction l as [|x r IH]; [reflexivity|].
  cbn [insertJob]. destruct (started_at x <=? started_at j) eqn:Hle; [reflexivity|].
  apply Z.leb_gt in Hle. cbn [List.filter]. rewrite IH. cbn [List.filter].
  destruct (started_at j =? t) eqn:Hj; [|reflexivity].
  apply Z.eqb_eq in Hj. assert ((started_at x =? t) = false) as -> by lia.
  reflexivity.
Qed.

(** X13. The job list is shown latest first and nothing is lost on the
    way: the sorted list has the jobs of the answer, each as many times;
    no job stands before one that started later; jobs that started at the
    same time keep the order of the answer. *)
Theorem sortJobs_latest_first_stable (l : list BackupJob) :
  sortJobs l ≡ₚ l
  /\ StronglySorted (fun a b => started_at b <= started_at a) (sortJobs l)
  /\ forall t,
       List.filter (fun j => started_at j =? t) (sortJobs l)
       = List.filter (fun j => started_at j =? t) l.
Proof.
  split; [apply sortJobs_perm|]. split.
  - induction l as [|j l IH]; [constructor|].
    unfold sortJobs in *. simpl. now apply insertJob_sorted.
  - intros t. induction l as [|j l IH]; [reflexivity|].
    unfold sortJobs in *. cbn [List.fold_right]. rewrite insertJob_filter.
    cbn [List.filter]. now rewrite IH.
Qed.

Lemma hasInProgress_perm (l l' : list BackupJob) :
  l ≡ₚ l' -> hasInProgress l = hasInProgress l'.
Proof.
  intros H. unfold hasInProgress.
  induction H as [|x l l' _ IH|x y l|l l' l'' _ IH1 _ IH2]; simpl.
  - reflexivity.
  - now rewrite IH.
  - destruct (status x), (status y); reflexivity.
  - now rewrite IH1.
Qed.

Section Page.

Context (encodeURIComponent : string -> string).

(** X14. A refresh of the job list. When the request fails in any way (no
    answer, a status that is not ok, a body that cannot be read) the page
    is left exactly as it was, job list included. When it succeeds the
    list is replaced by the jobs of the answer, and polling then depends
    on the answer alone: the sorting does not change whether a job is in
    progress. *)
Theorem loadJobs_refresh (server : Request -> fetched) (v : View) (w : World) :
  let request :=
    mkRequest "GET" "/api/v1/backups/jobs"
      (withAuthorization (AuthContext.token (auth w)) jsonHeaders) NoBody in
  let r := loadJobs server v w in
  match server request with
  | Rejected _ => r.1 = v
  | Responded response =>
      if ok response then
        match responseBody response with
        | Object _ (Some allJobs) =>
            r.1 = setJobs (sortJobs allJobs) v
            /\ jobs r.1 ≡ₚ allJobs
            /\ pollingEffect (jobs r.1) = pollingEffect allJobs
        | Object _ None | Names _ => r.1 = setJobs [] v /\ pollingEffect (jobs r.1) = None
        | Unreadable _ | Null _ => r.1 = v
        end
      else r.1 = v
  end.
Proof.
  intros request r. subst r. unfold loadJobs. fold request.
  destruct (server request) as [response|m]; [|reflexivity].
  destruct (ok response); simpl.
  - destruct (responseBody response) as [m|m|names|e [allJobs|]]; try reflexivity;
      try (split; reflexivity).
    split; [reflexivity|]. simpl. split; [apply sortJobs_perm|].
    unfold pollingEffect. now rewrite (hasInProgress_perm _ _ (sortJobs_perm allJobs)).
  - destruct (statusCode response =? 401)%nat; reflexivity.
Qed.

Lemma loadBackups_dialogs server v w :
  showDeleteModal (loadBackups server v w).1 = showDeleteModal v
  /\ deleteBackupName (loadBackups server v w).1 = deleteBackupName v
  /\ showRestoreModal (loadBackups server v w).1 = showRestoreModal v
  /\ restoreBackupName (loadBackups server v w).1 = restoreBackupName v.
Proof.
  unfold loadBackups.
  destruct (server _) as [response|m]; [|repeat split].
  destruct (ok response); simpl.
  - destruct (responseBody response); repeat split.
  - destruct (statusCode response =? 401)%nat; repeat split.
Qed.

Lemma loadJobs_dialogs server v w :
  showDeleteModal (loadJobs server v w).1 = showDeleteModal v
  /\ deleteBackupName (loadJobs server v w).1 = deleteBackupName v
  /\ showRestoreModal (loadJobs server v w).1 = showRestoreModal v
  /\ restoreBackupName (loadJobs server v w).1 = restoreBackupName v.
Proof.
  unfold loadJobs.
  destruct (server _) as [response|m]; [|repeat split].
  destruct (ok response); simpl.
  - destruct (responseBody response) as [m|m|names|e [allJobs|]]; repeat split.
  - destruct (statusCode response =? 401)%nat; repeat split.
Qed.

Lemma handleDeleteBackup_dialogs server v w :
  let r := handleDeleteBackup encodeURIComponent server v w in
  (Js.truthy (deleteBackupName v) = false -> r = (v, w))
  /\ (Js.truthy (deleteBackupName v) = true ->
      showDeleteModal r.1 = false /\ deleteBackupName r.1 = EmptyString)
  /\ showRestoreModal r.1 = showRestoreModal v
  /\ restoreBackupName r.1 = restoreBackupName v.
Proof.
  intros r. subst r. unfold handleDeleteBackup.
  destruct (Js.truthy (deleteBackupName v)) eqn:Ht; simpl.
  2: { repeat split; discriminate. }
  split; [discriminate|].
  destruct (server _) as [response|m]; [|repeat split].
  destruct (ok response); simpl.
  - match goal with
    | |- context [loadBackups server ?x ?y] =>
        destruct (loadBackups_dialogs server x y) as (H1 & H2 & H3 & H4);
        destruct (loadBackups server x y) as [v' w']
    end.
    simpl in *. rewrite H1, H2, H3, H4. repeat split.
  - destruct (statusCode response =? 401)%nat; repeat split.
Qed.

Lemma handleRestoreBackup_consistent server v w :
  BackupsFlow.dialogsConsistent v ->
  BackupsFlow.dialogsConsistent (handleRestoreBackup encodeURIComponent server v w).1.
Proof.
  intros [Hd Hr]. unfold handleRestoreBackup.
  destruct (negb (Js.truthy (restoreBackupName v))
            || negb (Js.truthy (Js.trim (restoreTargetIndex v)))); [split; assumption|].
  destruct (server _) as [response|m]; [|split; assumption].
  destruct (ok response); simpl.
  - split; [exact Hd | reflexivity].
  - destruct (statusCode response =? 401)%nat; split; assumption.
Qed.

Lemma act_consistent server s a :
  BackupsFlow.dialogsConsistent s.1 ->
  BackupsFlow.dialogsConsistent (BackupsFlow.act encodeURIComponent server s a).1.
Proof.
  destruct s as [v w]. intros H. pose proof H as [Hd Hr].
  destruct a; cbn [BackupsFlow.act fst snd].
  - split; [exact Hd | discriminate].
  - split; assumption.
  - split; [exact Hd | reflexivity].
  - now apply handleRestoreBackup_consistent.
  - split; [discriminate | exact Hr].
  - split; [reflexivity | exact Hr].
  - destruct (handleDeleteBackup_dialogs server v w) as (H1 & H2 & H3 & H4).
    destruct (Js.truthy (deleteBackupName v)) eqn:Ht.
    + destruct (H2 eq_refl) as [_ Hn]. split; [intros _; exact Hn|].
      rewrite H3, H4. exact Hr.
    + rewrite (H1 eq_refl). exact H.
  - destruct (loadBackups_dialogs server v w) as (H1 & H2 & H3 & H4).
    split; [rewrite H1, H2 | rewrite H3, H4]; assumption.
  - destruct (loadJobs_dialogs server v w) as (H1 & H2 & H3 & H4).
    split; [rewrite H1, H2 | rewrite H3, H4]; assumption.
Qed.

Lemma run_consistent history s :
  BackupsFlow.dialogsConsistent s.1 ->
  BackupsFlow.dialogsConsistent (BackupsFlow.run encodeURIComponent s history).1.
Proof.
  revert s. induction history as [|[server a] history IH]; intros s H; [exact H|].
  apply IH, act_consistent, H.
Qed.

Lemma loadBackups_requests server v w :
  requests (loadBackups server v w).2
  = requests w
    ++ [mkRequest "GET" "/api/v1/backups"
          (withAuthorization (AuthContext.token (auth w)) jsonHeaders) NoBody].
Proof.
  unfold loadBackups.
  destruct (server _) as [response|m]; [|reflexivity].
  destruct (ok response); simpl.
  - destruct (responseBody response); reflexivity.
  - destruct (statusCode response =? 401)%nat; reflexivity.
Qed.

(** What a confirmed delete sends: nothing when the dialog names no
    backup; otherwise the DELETE for the backup it names, with the token of
    the session, and after it the reload of the list when the backend
    answered the DELETE with an ok response, nothing otherwise. *)
Lemma handleDeleteBackup_requests server v w :
  requests (handleDeleteBackup encodeURIComponent server v w).2
  = requests w
    ++ (if Js.truthy (deleteBackupName v)
        then
          let delete :=
            mkRequest "DELETE"
              ("/api/v1/backups/" +:+ encodeURIComponent (deleteBackupName v))
              (withAuthorization (AuthContext.token (auth w)) ∅) NoBody in
          delete
          :: match server delete with
             | Responded response =>
                 if ok response
                 then [mkRequest "GET" "/api/v1/backups"
                         (withAuthorization (AuthContext.token (auth w)) jsonHeaders)
                         NoBody]
                 else []
             | Rejected _ => []
             end
        else []).
Proof.
  unfold handleDeleteBackup.
  destruct (Js.truthy (deleteBackupName v)); simpl; [|now rewrite app_nil_r].
  destruct (server _) as [response|m]; [|reflexivity].
  destruct (ok response); simpl.
  - match goal with
    | |- context [loadBackups server ?x ?y] =>
        pose proof (loadBackups_requests server x y) as Hl;
        destruct (loadBackups server x y) as [v' w']
    end.
    cbn [fst snd] in *. rewrite Hl. simpl. now rewrite <- app_assoc.
  - destruct (statusCode response =? 401)%nat; reflexivity.
Qed.

(** X15. Deleting and restoring go through their dialogs. After any
    history of the page, confirming a delete while the delete dialog is
    closed does nothing at all, and likewise for a restore. A delete that
    is confirmed sends one DELETE request, for the backup the dialog
    names, followed at most by reloads of the list; confirming again
    right after it, whatever the backend answers, sends nothing more.
    Exactly: a delete confirmed while the dialog names a backup sends the
    DELETE for that backup, with the token of the session, then one reload
    of the list if the backend answered the DELETE with an ok response and
    nothing if it did not, and leaves the dialog closed; a delete confirmed
    while no backup is named sends nothing. So, once the dialog has been
    opened on a backup, confirming sends the DELETE for it. *)
Theorem backups_destructive_actions_go_through_dialogs
    (history : list ((Request -> fetched) * BackupsFlow.action))
    (server : Request -> fetched) (w0 : World) :
  let s := BackupsFlow.run encodeURIComponent (BackupsFlow.initial, w0) history in
  let r := handleDeleteBackup encodeURIComponent server s.1 s.2 in
  (showDeleteModal s.1 = false -> r = s)
  /\ (showRestoreModal s.1 = false ->
      handleRestoreBackup encodeURIComponent server s.1 s.2 = s)
  /\ (forall server', handleDeleteBackup encodeURIComponent server' r.1 r.2 = r)
  /\ (exists sent,
       requests r.2 = requests s.2 ++ sent
       /\ (sent = []
           \/ exists rest,
                sent = mkRequest "DELETE"
                         ("/api/v1/backups/" +:+ encodeURIComponent (deleteBackupName s.1))
                         (withAuthorization (AuthContext.token (auth s.2)) ∅) NoBody
                       :: rest
                /\ Forall (fun q => method q = "GET") rest))
  /\ (Js.truthy (deleteBackupName s.1) = true ->
      let delete :=
        mkRequest "DELETE"
          ("/api/v1/backups/" +:+ encodeURIComponent (deleteBackupName s.1))
          (withAuthorization (AuthContext.token (auth s.2)) ∅) NoBody in
      requests r.2
      = requests s.2
        ++ delete
           :: match server delete with
              | Responded response =>
                  if ok response
                  then [mkRequest "GET" "/api/v1/backups"
                          (withAuthorization (AuthContext.token (auth s.2)) jsonHeaders)
                          NoBody]
                  else []
              | Rejected _ => []
              end
      /\ showDeleteModal r.1 = false
      /\ deleteBackupName r.1 = EmptyString)
  /\ (Js.truthy (deleteBackupName s.1) = false -> r = s)
  /\ (forall name server0,
        Js.truthy name = true ->
        let opened :=
          BackupsFlow.act encodeURIComponent server0 s (BackupsFlow.OpenDeleteModal name) in
        let delete :=
          mkRequest "DELETE" ("/api/v1/backups/" +:+ encodeURIComponent name)
            (withAuthorization (AuthContext.token (auth s.2)) ∅) NoBody in
        showDeleteModal opened.1 = true
        /\ deleteBackupName opened.1 = name
        /\ requests (handleDeleteBackup encodeURIComponent server opened.1 opened.2).2
           = requests s.2
             ++ delete
                :: match server delete with
                   | Responded response =>
                       if ok response
                       then [mkRequest "GET" "/api/v1/backups"
                               (withAuthorization (AuthContext.token (auth s.2))
                                  jsonHeaders) NoBody]
                       else []
                   | Rejected _ => []
                   end).
Proof.
  intros s r.
  assert (Hc : BackupsFlow.dialogsConsistent s.1).
  { apply run_consistent. split; reflexivity. }
  destruct s as [v w]. cbn [fst snd] in *. destruct Hc as [Hd Hr].
  destruct (handleDeleteBackup_dialogs server v w) as (H1 & H2 & _).
  fold r in H1, H2.
  split; [|split; [|split; [|split; [|split; [|split]]]]].
  - intros Hclosed. apply H1. now rewrite (Hd Hclosed).
  - intros Hclosed. unfold handleRestoreBackup. now rewrite (Hr Hclosed).
  - intros server'.
    destruct (handleDeleteBackup_dialogs server' r.1 r.2) as (H1' & _).
    destruct (Js.truthy (deleteBackupName v)) eqn:Ht.
    + destruct (H2 eq_refl) as [_ Hn]. rewrite H1' by now rewrite Hn.
      now destruct r.
    + rewrite (H1 eq_refl). cbn [fst snd]. now rewrite (H1 eq_refl) in H1'; auto.
  - subst r. unfold handleDeleteBackup.
    destruct (Js.truthy (deleteBackupName v)); simpl.
    2: { exists []. split; [now rewrite app_nil_r | now left]. }
    destruct (server _) as [response|m].
    2: { eexists. split; [reflexivity|]. right. exists []. split; [reflexivity|constructor]. }
    destruct (ok response); simpl.
    + match goal with
      | |- context [loadBackups server ?x ?y] =>
          pose proof (loadBackups_requests server x y) as Hl;
          destruct (loadBackups server x y) as [v' w']
      end.
      cbn [fst snd] in *. rewrite Hl. simpl. rewrite <- app_assoc.
      eexists. split; [reflexivity|]. right. eexists. split; [reflexivity|].
      repeat constructor.
    + destruct (statusCode response =? 401)%nat; simpl;
        (eexists; split; [reflexivity|]; right; exists []; split; [reflexivity|constructor]).
  - intros Ht. split; [|exact (H2 Ht)].
    subst r. rewrite handleDeleteBackup_requests, Ht. reflexivity.
  - exact H1.
  - intros name server0 Ht.
    split; [reflexivity |]. split; [reflexivity |].
    cbn [BackupsFlow.act fst snd].
    rewrite handleDeleteBackup_requests.
    unfold BackupsFlow.openDeleteModal. cbn [deleteBackupName]. rewrite Ht. reflexivity.
Qed.

End Page.

End BackupsFacts.

(** ** The upload modal: only archives are sent *)

Module UploadFacts.

Import Fetch UploadBackupModal.

#[local] Arguments String.append !_ _ : simpl nomatch.

Lemma act_archive server s a :
  UploadFlow.holdsArchive s.1 ->
  UploadFlow.holdsArchive (UploadFlow.act server s a).1
  /\ exists sent,
       requests (UploadFlow.act server s a).2 = requests s.2 ++ sent
       /\ Forall UploadFlow.archiveUpload sent.
Proof.
  destruct s as [v w]. intros H. destruct a as [n| |]; cbn [UploadFlow.act fst snd].
  - split; [|exists []; split; [now rewrite app_nil_r | constructor]].
    unfold handleFileChange. destruct (Js.endsWith ".tar.gz" n) eqn:He; simpl.
    + intros n' [= <-]. exact He.
    + intros n' [=].
  - split; [exact H | exists []; split; [now rewrite app_nil_r | constructor]].
  - unfold handleUploadBackup. destruct (selectedFile v) as [n|] eqn:Hn.
    2: { split; [exact H|].
         exists []. split; [now rewrite app_nil_r | constructor]. }
    pose proof (H n Hn) as He. apply JsFacts.endsWith_spec in He as [base ->].
    assert (Hk : forall v', selectedFile v' = Some (base +:+ ".tar.gz") -> UploadFlow.holdsArchive v').
    { intros v' Hv' n' Hn'. rewrite Hv' in Hn'. injection Hn' as <-.
      apply JsFacts.endsWith_spec. now exists base. }
    assert (Hs : Forall UploadFlow.archiveUpload
                   [mkRequest "POST" "/api/v1/backups/upload"
                      (withAuthorization (AuthContext.token (auth w)) ∅)
                      (FormData "backup" (base +:+ ".tar.gz"))]).
    { repeat constructor. now exists base. }
    destruct (server _) as [response|m]; simpl.
    + destruct (ok response); simpl;
        [|destruct (statusCode response =? 401)%nat; simpl];
        (split; [now apply Hk | eexists; split; [reflexivity | exact Hs]]).
    + split; [now apply Hk | eexists; split; [reflexivity | exact Hs]].
Qed.

(** X16. Whatever files are picked and however often the upload is
    started, every request the modal sends is a POST to the upload address
    whose file has a name ending in .tar.gz: a file of another kind is
    never sent, also not the one picked before it was refused. *)
Theorem upload_sends_only_archives
    (history : list ((Request -> fetched) * UploadFlow.action)) (w0 : World) :
  exists sent,
    requests (UploadFlow.run (UploadFlow.initial, w0) history).2 = requests w0 ++ sent
    /\ Forall
         (fun r =>
            method r = "POST" /\ url r = "/api/v1/backups/upload"
            /\ exists base, body r = FormData "backup" (base +:+ ".tar.gz"))
         sent.
Proof.
  assert (H : forall s, UploadFlow.holdsArchive s.1 ->
              exists sent,
                requests (UploadFlow.run s history).2 = requests s.2 ++ sent
                /\ Forall UploadFlow.archiveUpload sent).
  { induction history as [|[server a] history IH]; intros s Hs.
    - exists []. split; [now rewrite app_nil_r | constructor].
    - destruct (act_archive server s a Hs) as (Hs' & sent1 & Hr1 & Hf1).
      destruct (IH _ Hs') as (sent2 & Hr2 & Hf2).
      exists (sent1 ++ sent2). split.
      + change (UploadFlow.run s ((server, a) :: history))
          with (UploadFlow.run (UploadFlow.act server s a) history).
        rewrite Hr2, Hr1. now rewrite app_assoc.
      + apply Forall_app. now split. }
  apply (H (UploadFlow.initial, w0)). intros n [=].
Qed.

End UploadFacts.

(** ** The rows of the insert form *)

Module EditorFacts.

Import VectorInsertPage VectorEditor.

#[local] Arguments String.append !_ _ : simpl nomatch.

Lemma removeVector_length (index : nat) (rows : list VectorInput) :
  (1 <= length rows)%nat -> (1 <= length (removeVector index rows))%nat.
Proof.
  intros H. unfold removeVector.
  destruct (1 <? length rows)%nat eqn:Hl; [|exact H].
  apply Nat.ltb_lt in Hl.
  rewrite delete_take_drop, List.length_app, length_take, length_drop. lia.
Qed.

Section Facts.

Context (syntaxErrorMessage : string -> string).
Context {QueryResult UpsertReply : Type}.

Lemma act_keeps_a_row (p : Props) (s : View * Client.World)
    (a : action QueryResult UpsertReply) :
  (1 <= length (vectors s.1))%nat ->
  (1 <= length (vectors (act syntaxErrorMessage p s a).1))%nat.
Proof.
  destruct s as [v w]. intros H. destruct a as [|i|i f value|client]; cbn [act fst snd].
  - unfold addVector. simpl. rewrite List.length_app. simpl. lia.
  - simpl. now apply removeVector_length.
  - unfold updateVector. destruct (vectors v !! i) as [row|]; [|exact H].
    simpl. now rewrite length_insert.
  - destruct (HandlerFacts.handleSubmit_rows syntaxErrorMessage client p v w) as [-> | ->];
      [exact H | simpl; lia].
Qed.

(** X17. The insert form always has a row: whatever rows are added,
    removed or edited and whatever is submitted, with whatever outcome, the
    list of rows is never empty; the last row cannot be removed, and
    removing a row at a position that does not exist removes nothing. *)
Theorem insert_form_always_has_a_row
    (p : Props) (w0 : Client.World) (history : list (action QueryResult UpsertReply)) :
  vectors (run syntaxErrorMessage p (initial, w0) history).1 <> []
  /\ (forall index,
        length (vectors (run syntaxErrorMessage p (initial, w0) history).1) = 1%nat ->
        removeVector index (vectors (run syntaxErrorMessage p (initial, w0) history).1)
        = vectors (run syntaxErrorMessage p (initial, w0) history).1)
  /\ (forall index rows, (length rows <= index)%nat -> removeVector index rows = rows).
Proof.
  assert (H : forall s : View * Client.World,
              (1 <= length (vectors s.1))%nat ->
              (1 <= length (vectors (run syntaxErrorMessage p s history).1))%nat).
  { induction history as [|a history IH]; intros s Hs; [exact Hs|].
    apply IH, act_keeps_a_row, Hs. }
  specialize (H (initial, w0) (le_n 1)).
  split; [|split].
  - intros He. rewrite He in H. simpl in H. lia.
  - intros index Hl. unfold removeVector. now rewrite Hl.
  - intros index rows Hl. unfold removeVector.
    destruct (1 <? length rows)%nat; [|reflexivity].
    rewrite delete_take_drop, take_ge, drop_ge by lia. apply app_nil_r.
Qed.

End Facts.

(** X18. Editing a field of a row writes that field of that row and
    nothing else: the list keeps its length, every other row is untouched,
    and in the edited row the field has the new text and the other fields
    the texts they had. Editing a row that does not exist changes
    nothing. *)
Theorem updateVector_writes_one_field
    (index : nat) (f : field) (value : string) (rows : list VectorInput) :
  match updateVector index f value rows with
  | Some rows' =>
      length rows' = length rows
      /\ (forall j, j <> index -> rows' !! j = rows !! j)
      /\ exists row row',
           rows !! index = Some row /\ rows' !! index = Some row'
           /\ getField f row' = value
           /\ forall g, g <> f -> getField g row' = getField g row
  | None => (length rows <= index)%nat
  end.
Proof.
  unfold updateVector. destruct (rows !! index) as [row|] eqn:Hr.
  - split; [apply length_insert|]. split.
    + intros j Hj. now apply list_lookup_insert_ne.
    + exists row, (setField f value row). split; [reflexivity|]. split.
      * apply list_lookup_insert_eq. now apply lookup_lt_Some in Hr.
      * split; [destruct f; reflexivity|].
        intros g Hg. destruct f, g; try reflexivity; now destruct Hg.
  - now apply lookup_ge_None in Hr.
Qed.

End EditorFacts.

(** ** Vector lookup and index detail pages *)

Module LookupFacts.

Import Client.

#[local] Arguments String.append !_ _ : simpl nomatch.

Lemma orElse_truthy (x : option string) (fallback : string) :
  Js.truthy fallback = true -> Js.truthy (Host.orElse x fallback) = true.
Proof.
  intros H. unfold Host.orElse. destruct x as [s|]; [|exact H].
  destruct (Js.truthy s) eqn:Hs; [exact Hs | exact H].
Qed.

Section Facts.

Context {QueryResult UpsertReply : Type}.
Context (idOf : Json.json -> string).

Abbreviation Endee := (Client.Endee QueryResult UpsertReply).
Abbreviation handleSearch :=
  (VectorGetPage.handleSearch (QueryResult := QueryResult) (UpsertReply := UpsertReply)).
Abbreviation handleDeleteById :=
  (VectorGetPage.handleDeleteById (QueryResult := QueryResult) (UpsertReply := UpsertReply)
     idOf).
Abbreviation handleDeleteByFilter :=
  (VectorGetPage.handleDeleteByFilter (QueryResult := QueryResult)
     (UpsertReply := UpsertReply)).

Lemma handleApiError_world {T : Type} e w :
  success (handleApiError (T := T) e w).1 = false
  /\ calls (handleApiError (T := T) e w).2 = calls w.
Proof.
  unfold handleApiError. destruct (isUnauthorizedError e); [|split; reflexivity].
  destruct (onUnauthorized w); split; reflexivity.
Qed.

(** What a lookup shows is what the backend holds under the trimmed id. *)
Lemma handleSearch_result (client : Endee) (name : string)
    (v : VectorGetPage.View) (w : World) :
  Js.truthy name = true ->
  let s := handleSearch client (Some name) v w in
  (VectorGetPage.error s.1 = None \/ VectorGetPage.result s.1 = None)
  /\ forall found,
       VectorGetPage.result s.1 = Some found ->
       Js.truthy (Js.trim (VectorGetPage.vectorId v)) = true
       /\ exists index,
            getIndex client name = Returned index
            /\ getVector client index (Js.trim (VectorGetPage.vectorId v))
               = Returned (Some found).
Proof.
  intros Ht s. subst s. unfold VectorGetPage.handleSearch. rewrite Ht. simpl.
  destruct (Js.truthy (Js.trim (VectorGetPage.vectorId v))) eqn:Hid; simpl.
  2: { split; [now right | discriminate]. }
  unfold apiGetVector. rewrite Hid.
  destruct (getIndex client name) as [index|e].
  - destruct (getVector client index (Js.trim (VectorGetPage.vectorId v)))
      as [[found|]|e] eqn:Hv.
    + simpl. split; [now left|]. intros found' [= <-]. split; [reflexivity|].
      exists index. auto.
    + destruct (handleApiError_world (T := Json.json) (ErrorObject "Vector not found")
                  (logCall (GetVector index (Js.trim (VectorGetPage.vectorId v)))
                     (logCall (GetIndex name) w))) as [Hs _].
      destruct (handleApiError _ _) as [response w']. simpl in *. rewrite Hs. simpl.
      split; [now right | discriminate].
    + destruct (handleApiError_world (T := Json.json) e
                  (logCall (GetVector index (Js.trim (VectorGetPage.vectorId v)))
                     (logCall (GetIndex name) w))) as [Hs _].
      destruct (handleApiError _ _) as [response w']. simpl in *. rewrite Hs. simpl.
      split; [now right | discriminate].
  - destruct (handleApiError_world (T := Json.json) e (logCall (GetIndex name) w))
      as [Hs _].
    destruct (handleApiError _ _) as [response w']. simpl in *. rewrite Hs. simpl.
    split; [now right | discriminate].
Qed.

Lemma deleteVectorById_calls (client : Endee) (name vectorId : string) (w : World) :
  exists sent,
    calls (deleteVectorById client name vectorId w).2 = calls w ++ GetIndex name :: sent
    /\ (sent = [] \/ exists index, sent = [DeleteVector index vectorId]).
Proof.
  unfold deleteVectorById.
  destruct (getIndex client name) as [index|e].
  - exists [DeleteVector index vectorId]. split; [|eauto].
    destruct (deleteVector client index vectorId) as [r|e];
      [|rewrite (proj2 (handleApiError_world _ _))]; simpl; rewrite <- app_assoc;
      reflexivity.
  - exists []. split; [|auto]. now rewrite (proj2 (handleApiError_world _ _)).
Qed.

Lemma deleteVectorById_sent (client : Endee) (name vectorId : string) (w : World) :
  calls (deleteVectorById client name vectorId w).2
  = calls w
    ++ GetIndex name
       :: match getIndex client name with
          | Returned index => [DeleteVector index vectorId]
          | Raised _ => []
          end.
Proof.
  unfold deleteVectorById.
  destruct (getIndex client name) as [index|e].
  - destruct (deleteVector client index vectorId) as [r|e];
      [|rewrite (proj2 (handleApiError_world _ _))]; simpl; rewrite <- app_assoc;
      reflexivity.
  - now rewrite (proj2 (handleApiError_world _ _)).
Qed.

(** X19. Looking a vector up and deleting it. What the page shows after a
    lookup is what the backend holds under the trimmed id, and never
    together with an error. Without a vector shown, Delete does nothing.
    With one, it asks for the index and deletes the vector shown, by the
    id the backend gave it and whatever the id box says by then; when the
    delete succeeds the vector and the id box are cleared, so that
    pressing Delete again sends nothing; when it fails the vector stays
    with a message that is not empty. The calls of the delete are exactly
    these: the index is asked for, and when the client answers with it the
    vector shown is deleted on it; when the client refuses the index
    nothing more is called. *)
Theorem vector_delete_targets_vector_shown (client client' : Endee) (name : string)
    (v : VectorGetPage.View) (w : World) :
  Js.truthy name = true ->
  let s := handleSearch client (Some name) v w in
  let r := handleDeleteById client' (Some name) s.1 s.2 in
  (VectorGetPage.error s.1 = None \/ VectorGetPage.result s.1 = None)
  /\ (VectorGetPage.result s.1 = None -> r = s)
  /\ forall found,
       VectorGetPage.result s.1 = Some found ->
       (exists index,
          getIndex client name = Returned index
          /\ getVector client index (Js.trim (VectorGetPage.vectorId v))
             = Returned (Some found))
       /\ (exists sent,
             calls r.2 = calls s.2 ++ GetIndex name :: sent
             /\ (sent = [] \/ exists index, sent = [DeleteVector index (idOf found)]))
       /\ (if success (deleteVectorById client' name (idOf found) s.2).1
           then VectorGetPage.result r.1 = None
                /\ VectorGetPage.vectorId r.1 = EmptyString
                /\ forall client'', handleDeleteById client'' (Some name) r.1 r.2 = r
           else VectorGetPage.result r.1 = Some found
                /\ exists m, VectorGetPage.error r.1 = Some m /\ Js.truthy m = true)
       /\ calls r.2
          = calls s.2
            ++ GetIndex name
               :: match getIndex client' name with
                  | Returned index => [DeleteVector index (idOf found)]
                  | Raised _ => []
                  end.
Proof.
  intros Ht s r.
  destruct (handleSearch_result client name v w Ht) as [Hx Hfound]. fold s in Hx, Hfound.
  split; [exact Hx|]. split.
  - intros Hn. subst r. unfold VectorGetPage.handleDeleteById. rewrite Hn.
    now destruct s.
  - intros found Hf. destruct (Hfound found Hf) as [_ Hback].
    split; [exact Hback|].
    subst r. unfold VectorGetPage.handleDeleteById. rewrite Hf, Ht. cbn [negb].
    pose proof (deleteVectorById_calls client' name (idOf found) s.2) as Hc.
    pose proof (deleteVectorById_sent client' name (idOf found) s.2) as He.
    destruct (deleteVectorById client' name (idOf found) s.2) as [response w'].
    cbn [fst snd] in *. split; [exact Hc|].
    destruct (success response); cbn [negb fst snd].
    + split; [|exact He].
      split; [reflexivity|]. split; [reflexivity|]. intros client''. reflexivity.
    + split; [|exact He].
      split; [simpl; exact Hf|]. eexists. split; [reflexivity|].
      now apply orElse_truthy.
Qed.

Lemma deleteVectorsByFilter_calls (client : Endee) (name : string) (parsed : Json.json)
    (w : World) :
  exists sent,
    calls (deleteVectorsByFilter client name parsed w).2 = calls w ++ GetIndex name :: sent
    /\ (sent = [] \/ exists index, sent = [DeleteWithFilter index parsed]).
Proof.
  unfold deleteVectorsByFilter.
  destruct (getIndex client name) as [index|e].
  - exists [DeleteWithFilter index parsed]. split; [|eauto].
    destruct (deleteWithFilter client index parsed) as [r|e];
      [|rewrite (proj2 (handleApiError_world _ _))]; simpl; rewrite <- app_assoc;
      reflexivity.
  - exists []. split; [|auto]. now rewrite (proj2 (handleApiError_world _ _)).
Qed.

Lemma deleteVectorsByFilter_sent (client : Endee) (name : string) (parsed : Json.json)
    (w : World) :
  calls (deleteVectorsByFilter client name parsed w).2
  = calls w
    ++ GetIndex name
       :: match getIndex client name with
          | Returned index => [DeleteWithFilter index parsed]
          | Raised _ => []
          end.
Proof.
  unfold deleteVectorsByFilter.
  destruct (getIndex client name) as [index|e].
  - destruct (deleteWithFilter client index parsed) as [r|e];
      [|rewrite (proj2 (handleApiError_world _ _))]; simpl; rewrite <- app_assoc;
      reflexivity.
  - now rewrite (proj2 (handleApiError_world _ _)).
Qed.

(** X20. Deleting by filter. A blank filter does nothing. A filter text
    that is not JSON never reaches the client: no call is made, the page
    says Invalid JSON filter, closes the confirmation and keeps the text.
    A filter that parses is sent once, parsed, after the index was asked
    for; when the backend accepts it the page reports the number the
    backend answered, or 0 when it answered no number, and clears the
    text. The calls are exactly these: the index is asked for, and when the
    client answers with it the parsed filter is deleted on it; when the
    client refuses the index nothing more is called. *)
Theorem delete_by_filter_sends_parsed_filter (client : Endee) (name : string)
    (v : VectorGetPage.View) (w : World) :
  Js.truthy name = true ->
  let r := handleDeleteByFilter client (Some name) v w in
  if negb (Js.truthy (Js.trim (VectorGetPage.deleteFilterInput v))) then r = (v, w)
  else
    match Json.parse (VectorGetPage.deleteFilterInput v) with
    | None =>
        r.2 = w
        /\ VectorGetPage.error r.1 = Some "Invalid JSON filter"
        /\ VectorGetPage.success r.1 = VectorGetPage.success v
        /\ VectorGetPage.deleteFilterInput r.1 = VectorGetPage.deleteFilterInput v
        /\ VectorGetPage.showDeleteConfirm r.1 = false
        /\ VectorGetPage.deletingByFilter r.1 = false
    | Some parsed =>
        (exists sent,
           calls r.2 = calls w ++ GetIndex name :: sent
           /\ (sent = [] \/ exists index, sent = [DeleteWithFilter index parsed]))
        /\ VectorGetPage.deletingByFilter r.1 = false
        /\ (forall index n,
             getIndex client name = Returned index ->
             deleteWithFilter client index parsed = Returned n ->
             VectorGetPage.success r.1
             = Some ("Deleted "
                     +:+ VectorGetPage.showInt (match n with Some d => d | None => 0 end)
                     +:+ " vector(s) matching the filter")
             /\ VectorGetPage.error r.1 = None
             /\ VectorGetPage.result r.1 = None
             /\ VectorGetPage.deleteFilterInput r.1 = EmptyString)
        /\ calls r.2
           = calls w
             ++ GetIndex name
                :: match getIndex client name with
                   | Returned index => [DeleteWithFilter index parsed]
                   | Raised _ => []
                   end
    end.
Proof.
  intros Ht r. subst r. unfold VectorGetPage.handleDeleteByFilter. rewrite Ht.
  cbn [negb orb].
  destruct (Js.truthy (Js.trim (VectorGetPage.deleteFilterInput v))) eqn:Hf;
    cbn [negb]; [|reflexivity].
  cbn [VectorGetPage.deleteFilterInput VectorGetPage.setShowDeleteConfirm
       VectorGetPage.setError VectorGetPage.setDeletingByFilter].
  destruct (Json.parse (VectorGetPage.deleteFilterInput v)) as [parsed|].
  2: { repeat split. }
  pose proof (deleteVectorsByFilter_calls client name parsed w) as Hc.
  pose proof (deleteVectorsByFilter_sent client name parsed w) as He.
  split.
  - destruct (deleteVectorsByFilter client name parsed w) as [response w'].
    cbn [fst snd] in *. exact Hc.
  - split; [|split].
    + destruct (deleteVectorsByFilter client name parsed w) as [response w'].
      reflexivity.
    + clear Hc He. intros index n Hi Hn. unfold deleteVectorsByFilter. rewrite Hi, Hn.
      cbn [fst snd success data negb deleted].
      assert (Hz : (if match n with Some d => d | None => 0 end =? 0 then 0
                    else match n with Some d => d | None => 0 end)
                   = match n with Some d => d | None => 0 end).
      { destruct (_ =? 0) eqn:He; [|reflexivity]. apply Z.eqb_eq in He. now rewrite He. }
      simpl. rewrite Hz. repeat split.
    + destruct (deleteVectorsByFilter client name parsed w) as [response w'].
      cbn [fst snd] in *. destruct (success response); exact He.
Qed.

(** X21. Deleting an index from its page makes one call, for that index.
    The page is left for the list exactly when the backend accepted the
    delete; when it refused, the page stays where it was, closes the
    confirmation, gives the button back and shows a message that is not
    empty. *)
Theorem index_delete_leaves_page_only_on_success (client : Endee) (name : string)
    (v : IndexDetailPage.View) (w : World) :
  Js.truthy name = true ->
  let r := IndexDetailPage.handleDeleteIndex client (Some name) v w in
  calls r.2 = calls w ++ [DeleteIndex name]
  /\ match deleteIndex client name with
     | Returned _ =>
         IndexDetailPage.location r.1 = Some "/indexes"
         /\ IndexDetailPage.error r.1 = IndexDetailPage.error v
         /\ auth r.2 = auth w
     | Raised e =>
         IndexDetailPage.location r.1 = IndexDetailPage.location v
         /\ IndexDetailPage.deleting r.1 = false
         /\ IndexDetailPage.showDeleteConfirm r.1 = false
         /\ exists m, IndexDetailPage.error r.1 = Some m /\ Js.truthy m = true
     end.
Proof.
  intros Ht r. subst r. unfold IndexDetailPage.handleDeleteIndex, apiDeleteIndex.
  rewrite Ht. cbn [negb].
  destruct (deleteIndex client name) as [u|e].
  - simpl. repeat split.
  - destruct (handleApiError_world (T := Message) e (logCall (DeleteIndex name) w))
      as [Hs Hc].
    destruct (handleApiError _ _) as [response w']. cbn [fst snd] in *.
    rewrite Hs. cbn [negb fst snd]. split; [exact Hc|].
    repeat split. eexists. split; [reflexivity|]. now apply orElse_truthy.
Qed.

End Facts.

Lemma vector_delete_targets_vector_shown_witness :
  let s := VectorGetPage.handleSearch Fixture.holding (Some "docs")
             (VectorGetPage.setVectorId " v1 " VectorGetPage.initial) Example.world in
  let r := VectorGetPage.handleDeleteById Fixture.idOf Fixture.holding (Some "docs")
             s.1 s.2 in
  VectorGetPage.result s.1 = Some (Json.JObject [("id", Json.JString "v1")])
  /\ VectorGetPage.result r.1 = None.
Proof.
  split; [reflexivity|].
  destruct (vector_delete_targets_vector_shown Fixture.idOf Fixture.holding Fixture.holding
              "docs" (VectorGetPage.setVectorId " v1 " VectorGetPage.initial)
              Example.world eq_refl) as (_ & _ & H).
  destruct (H (Json.JObject [("id", Json.JString "v1")]) eq_refl) as (_ & _ & Hd & _).
  exact (proj1 Hd).
Defined.

Lemma delete_by_filter_sends_parsed_filter_witness :
  VectorGetPage.error
    (VectorGetPage.handleDeleteByFilter Fixture.holding (Some "docs")
       (VectorGetPage.setDeleteFilterInput "{oops" VectorGetPage.initial)
       Example.world).1
  = Some "Invalid JSON filter".
Proof.
  exact (proj1 (proj2 (delete_by_filter_sends_parsed_filter Fixture.holding "docs"
                         (VectorGetPage.setDeleteFilterInput "{oops" VectorGetPage.initial)
                         Example.world eq_refl))).
Defined.

Lemma index_delete_leaves_page_only_on_success_witness :
  IndexDetailPage.location
    (IndexDetailPage.handleDeleteIndex Example.refusing (Some "docs")
       (IndexDetailPage.mkView None false None false true None) Example.world).1
  = None.
Proof.
  exact (proj1 (proj2 (index_delete_leaves_page_only_on_success Example.refusing "docs"
                         (IndexDetailPage.mkView None false None false true None)
                         Example.world eq_refl))).
Defined.

End LookupFacts.

(** ** Notifications, the theme and the tutorial steps *)

Module NotificationFacts.

Import NotificationContext.

Lemma tracked_cancelPending (p : Provider) :
  tracked p -> timers (cancelPending p) = [] /\ timerRef (cancelPending p) = None
               /\ nextId (cancelPending p) = nextId p.
Proof.
  unfold tracked, cancelPending. destruct (timerRef p) as [id|] eqn:Hr.
  - intros (left & Ht & _). simpl. rewrite Ht. simpl. rewrite Nat.eqb_refl. auto.
  - intros Ht. rewrite Hr. auto.
Qed.

Lemma tracked_show (t : NotificationType) (m : string) (p : Provider) :
  tracked p ->
  tracked (showNotification t m p)
  /\ notification (showNotification t m p) = Some (mkNotificationState t m)
  /\ timers (showNotification t m p)
     = if dismissesItself t then [(nextId p, 4000%N)] else [].
Proof.
  intros H. destruct (tracked_cancelPending p H) as (Ht & Hr & Hn).
  unfold showNotification. destruct (dismissesItself t) eqn:Hd.
  - unfold tracked. simpl. rewrite Ht, Hn. simpl. repeat split.
    exists 4000%N. repeat split; [lia|]. eexists. split; [reflexivity | exact Hd].
  - unfold tracked. simpl. rewrite Hr, Ht. auto.
Qed.

Lemma elapse_none (ms : N) (p : Provider) :
  timers p = [] ->
  notification (elapse ms p) = notification p /\ timers (elapse ms p) = []
  /\ timerRef (elapse ms p) = timerRef p /\ nextId (elapse ms p) = nextId p.
Proof. intros H. unfold elapse. rewrite H. simpl. auto. Qed.

Lemma elapse_one (ms : N) (p : Provider) (id : nat) (left : N) :
  timers p = [(id, left)] ->
  if (left <=? ms)%N
  then notification (elapse ms p) = None /\ timers (elapse ms p) = []
       /\ timerRef (elapse ms p) = None /\ nextId (elapse ms p) = nextId p
  else notification (elapse ms p) = notification p
       /\ timers (elapse ms p) = [(id, (left - ms)%N)]
       /\ timerRef (elapse ms p) = timerRef p /\ nextId (elapse ms p) = nextId p.
Proof.
  intros H. unfold elapse. rewrite H. simpl.
  destruct (left <=? ms)%N; simpl; auto.
Qed.

Lemma tracked_step (p : Provider) (e : event) : tracked p -> tracked (step p e).
Proof.
  intros H. destruct e as [t m| |ms]; simpl.
  - now apply tracked_show.
  - unfold clearNotification.
    assert (H' : tracked (mkProvider None (timerRef p) (timers p) (nextId p))
                 \/ exists id left, timerRef p = Some id /\ timers p = [(id, left)]).
    { unfold tracked in *. simpl. destruct (timerRef p) as [id|]; [|now left].
      destruct H as (left & Ht & _). right. eauto. }
    destruct H' as [H'|(id & left & Hr & Ht)].
    + destruct (tracked_cancelPending _ H') as (Ht & Hr & _).
      unfold tracked. now rewrite Hr.
    + unfold cancelPending, tracked. simpl. rewrite Hr. simpl. rewrite Ht. simpl.
      now rewrite Nat.eqb_refl.
  - unfold tracked in *. destruct (timerRef p) as [id|] eqn:Hr.
    + destruct H as (left & Ht & Hpos & Hid & n & Hn & Hd).
      pose proof (elapse_one ms p id left Ht) as He.
      destruct (left <=? ms)%N eqn:Hl.
      * destruct He as (_ & Ht' & Hr' & _). now rewrite Hr'.
      * destruct He as (Hn' & Ht' & Hr' & Hi'). rewrite Hr', Hr.
        apply N.leb_gt in Hl. exists (left - ms)%N. rewrite Hi', Hn'.
        repeat split; [exact Ht' | lia | exact Hid |]. eauto.
    + destruct (elapse_none ms p H) as (_ & Ht' & Hr' & _). now rewrite Hr', Hr.
Qed.

Lemma tracked_run (es : list event) (p : Provider) : tracked p -> tracked (run p es).
Proof.
  revert p. induction es as [|e es IH]; intros p H; [exact H|].
  apply IH, tracked_step, H.
Qed.

Lemma wait_none (durations : list N) (p : Provider) :
  timers p = [] -> notification (run p (List.map Elapse durations)) = notification p.
Proof.
  revert p. induction durations as [|d ds IH]; intros p H; [reflexivity|].
  destruct (elapse_none d p H) as (Hn & Ht & _).
  change (run p (List.map Elapse (d :: ds)))
    with (run (elapse d p) (List.map Elapse ds)).
  rewrite IH by exact Ht. exact Hn.
Qed.

Lemma wait_one (durations : list N) (p : Provider) (id : nat) (left : N) :
  timers p = [(id, left)] -> (0 < left)%N ->
  notification (run p (List.map Elapse durations))
  = if (left <=? total durations)%N then None else notification p.
Proof.
  revert p left. induction durations as [|d ds IH]; intros p left H Hpos.
  - simpl. assert ((left <=? 0)%N = false) as -> by (apply N.leb_gt; lia). reflexivity.
  - pose proof (elapse_one d p id left H) as He.
    change (run p (List.map Elapse (d :: ds)))
      with (run (elapse d p) (List.map Elapse ds)).
    change (total (d :: ds)) with (d + total ds)%N.
    destruct (left <=? d)%N eqn:Hl.
    + destruct He as (Hn & Ht & _). rewrite (wait_none ds _ Ht), Hn.
      apply N.leb_le in Hl.
      assert ((left <=? d + total ds)%N = true) as -> by (apply N.leb_le; lia).
      reflexivity.
    + destruct He as (Hn & Ht & _). apply N.leb_gt in Hl.
      rewrite (IH _ _ Ht) by lia. rewrite Hn.
      destruct (left - d <=? total ds)%N eqn:H1.
      * apply N.leb_le in H1.
        assert ((left <=? d + total ds)%N = true) as -> by (apply N.leb_le; lia).
        reflexivity.
      * apply N.leb_gt in H1.
        assert ((left <=? d + total ds)%N = false) as -> by (apply N.leb_gt; lia).
        reflexivity.
Qed.

(** X22. How long a notification stays. Whatever was shown, dismissed or
    left to time out before, a notification that is shown and then left
    alone stays for good when it is an error or a warning, and stays
    exactly until 4000 ms have passed when it is a success or an info:
    the time-out of an earlier notification never takes a later one
    away. *)
Theorem notification_stays_its_time
    (history : list event) (t : NotificationType) (m : string) (durations : list N) :
  notification (run (showNotification t m (run initial history))
                  (List.map Elapse durations))
  = if dismissesItself t && (4000 <=? total durations)%N
    then None
    else Some (mkNotificationState t m).
Proof.
  assert (H : tracked (run initial history)) by (apply tracked_run; reflexivity).
  destruct (tracked_show t m _ H) as (_ & Hn & Ht).
  destruct (dismissesItself t); simpl.
  - rewrite (wait_one durations _ _ _ Ht) by lia. now rewrite Hn.
  - rewrite (wait_none durations _ Ht). exact Hn.
Qed.

End NotificationFacts.

Module ThemeFacts.

Import Theme.

(** X23. The theme is kept. After mounting and any number of uses of the
    switch, the storage holds the theme, the root element has the class
    dark exactly when the theme is dark, and a reload finds the same
    theme; once the switch has been used the theme is light or dark and
    using the switch twice gives the theme back. *)
Theorem theme_is_kept (stored : option string) (dark : bool) (n : nat) :
  let s := Nat.iter n toggle (mount stored dark) in
  storedTheme s = Some (theme s)
  /\ darkClass s = String.eqb (theme s) "dark"
  /\ reload s = s
  /\ ((0 < n)%nat -> (theme s = "light" \/ theme s = "dark") /\ toggle (toggle s) = s).
Proof.
  intros s.
  assert (H : storedTheme s = Some (theme s)
              /\ darkClass s = String.eqb (theme s) "dark"
              /\ Js.truthy (theme s) = true
              /\ ((0 < n)%nat -> theme s = "light" \/ theme s = "dark")).
  { subst s. destruct n as [|n].
    - simpl. repeat split; [|lia].
      unfold Host.orElse. destruct stored as [[|c r]|]; reflexivity.
    - simpl. set (s0 := Nat.iter n toggle (mount stored dark)).
      unfold toggle, setTheme, themeEffect. simpl.
      destruct (String.eqb (theme s0) "dark"); simpl; repeat split; auto. }
  destruct H as (H1 & H2 & H3 & H4).
  split; [exact H1|]. split; [exact H2|]. split.
  - unfold reload, mount, themeEffect. simpl. rewrite H1. simpl.
    unfold Host.orElse. rewrite H3. destruct s as [th st dk]. simpl in *.
    now rewrite H1, H2.
  - intros Hn. split; [exact (H4 Hn)|].
    destruct s as [th st dk]. simpl in *. subst st dk.
    destruct (H4 Hn) as [-> | ->]; reflexivity.
Qed.

End ThemeFacts.

Module TutorialFacts.

Import TutorialSteps.

(** X24. Expanding and collapsing a tutorial step flips that step and no
    other, and doing it twice gives the set of expanded steps back. *)
Theorem toggleStep_flips_one_step (stepId : string) (expandedSteps : gset string) :
  (stepId ∈ toggleStep stepId expandedSteps <-> stepId ∉ expandedSteps)
  /\ (forall other, other <> stepId ->
        (other ∈ toggleStep stepId expandedSteps <-> other ∈ expandedSteps))
  /\ toggleStep stepId (toggleStep stepId expandedSteps) = expandedSteps.
Proof.
  unfold toggleStep. destruct (decide (stepId ∈ expandedSteps)) as [Hin|Hout].
  - assert (H1 : stepId ∉ expandedSteps ∖ {[stepId]}).
    { rewrite elem_of_difference, elem_of_singleton. tauto. }
    split; [tauto|]. split.
    + intros other Hne. rewrite elem_of_difference, elem_of_singleton. tauto.
    + destruct (decide (stepId ∈ expandedSteps ∖ {[stepId]})); [contradiction|].
      apply set_eq. intros x.
      rewrite elem_of_union, elem_of_difference, elem_of_singleton.
      destruct (decide (x = stepId)) as [->|]; tauto.
  - assert (H1 : stepId ∈ expandedSteps ∪ {[stepId]}).
    { rewrite elem_of_union, elem_of_singleton. tauto. }
    split; [tauto|]. split.
    + intros other Hne. rewrite elem_of_union, elem_of_singleton. tauto.
    + destruct (decide (stepId ∈ expandedSteps ∪ {[stepId]})); [|contradiction].
      apply set_eq. intros x.
      rewrite elem_of_difference, elem_of_union, elem_of_singleton.
      destruct (decide (x = stepId)) as [->|]; tauto.
Qed.

(** X25. The payload of a tutorial step. What is typed for a step is what
    its editor shows, and the other steps keep theirs. A step runs with
    what its editor shows, with one exception: when the editor shows
    nothing, the step runs with its default payload, also when the user
    has emptied the editor. *)
Theorem tutorial_step_runs_what_is_shown
    (stepPayloads : gmap string string) (step : TutorialStep) (value : string) :
  getPayload (setPayload (step_id step) value stepPayloads) step = value
  /\ (forall other, step_id other <> step_id step ->
        getPayload (setPayload (step_id step) value stepPayloads) other
        = getPayload stepPayloads other)
  /\ payloadToRun stepPayloads step
     = (if Js.truthy (getPayload stepPayloads step)
        then Some (getPayload stepPayloads step)
        else defaultPayload step)
  /\ payloadToRun (setPayload (step_id step) EmptyString stepPayloads) step
     = defaultPayload step.
Proof.
  unfold getPayload, setPayload, payloadToRun. split; [|split; [|split]].
  - now rewrite lookup_insert_eq.
  - intros other Hne. now rewrite lookup_insert_ne.
  - destruct (stepPayloads !! step_id step) as [p|].
    + destruct (Js.truthy p); reflexivity.
    + destruct (defaultPayload step) as [[|c r]|]; reflexivity.
  - now rewrite lookup_insert_eq.
Qed.

End TutorialFacts.

(** ** Numbers read with [parseInt] *)

Module ParseIntFacts.

#[local] Arguments String.append !_ _ : simpl nomatch.

Import DigitsFacts.

Section Pages.

Context (syntaxErrorMessage : string -> string).

(** X26. The k field is read with [parseInt]: a text that starts with
    decimal digits is read as those digits and what follows them is
    ignored, so that the search goes out exactly as if the digits alone
    had been typed. The same holds for the dimension of a new index. *)
Theorem number_fields_read_leading_digits
    (p : SearchPage.Props) (f : SearchPage.Form) (g : CreateIndexPage.Form)
    (ds rest : string) :
  Json.allDigits ds = true -> ds <> EmptyString ->
  Json.headIs (fun c => Js.isDigit c = false /\ Ascii.eqb c "x" = false
                        /\ Ascii.eqb c "X" = false) rest ->
  SearchPage.buildSearchRequest syntaxErrorMessage p (SearchPage.withK (ds +:+ rest) f)
  = SearchPage.buildSearchRequest syntaxErrorMessage p (SearchPage.withK ds f)
  /\ CreateIndexPage.validate
       (CreateIndexPage.mkForm (CreateIndexPage.name g) (CreateIndexPage.spaceType g)
          (ds +:+ rest) (CreateIndexPage.precision g) (CreateIndexPage.isHybrid g)
          (CreateIndexPage.sparseDimension g) (CreateIndexPage.showAdvanced g)
          (CreateIndexPage.mParam g) (CreateIndexPage.efConstruction g))
     = CreateIndexPage.validate
         (CreateIndexPage.mkForm (CreateIndexPage.name g) (CreateIndexPage.spaceType g)
            ds (CreateIndexPage.precision g) (CreateIndexPage.isHybrid g)
            (CreateIndexPage.sparseDimension g) (CreateIndexPage.showAdvanced g)
            (CreateIndexPage.mParam g) (CreateIndexPage.efConstruction g)).
Proof.
  intros Hd Hne Hr. pose proof (parseInt_leading_digits ds rest Hd Hne Hr) as Hp.
  split.
  - unfold SearchPage.buildSearchRequest, SearchPage.withK.
    cbn [SearchPage.vector SearchPage.k SearchPage.ef SearchPage.filter
         SearchPage.sparseIndices SearchPage.sparseValues SearchPage.includeVectors].
    now rewrite Hp.
  - unfold CreateIndexPage.validate.
    cbn [CreateIndexPage.name CreateIndexPage.dimension CreateIndexPage.isHybrid
         CreateIndexPage.sparseDimension CreateIndexPage.showAdvanced
         CreateIndexPage.mParam CreateIndexPage.efConstruction
         CreateIndexPage.spaceType CreateIndexPage.precision].
    rewrite Hp.
    assert (Ht : Js.truthy (ds +:+ rest) = Js.truthy ds).
    { destruct ds; [contradiction | reflexivity]. }
    now rewrite Ht.
Qed.

End Pages.

Lemma number_fields_read_leading_digits_witness :
  SearchPage.buildSearchRequest Host.exampleSyntaxErrorMessage (Example.searchProps false)
    (Example.searchForm "0.1, 0.2" EmptyString EmptyString "5abc")
  = SearchPage.buildSearchRequest Host.exampleSyntaxErrorMessage (Example.searchProps false)
      (Example.searchForm "0.1, 0.2" EmptyString EmptyString "5").
Proof.
  exact (proj1 (number_fields_read_leading_digits Host.exampleSyntaxErrorMessage
                  (Example.searchProps false)
                  (Example.searchForm "0.1, 0.2" EmptyString EmptyString EmptyString)
                  (Example.createForm false EmptyString EmptyString)
                  "5" "abc" eq_refl ltac:(discriminate) (conj eq_refl (conj eq_refl eq_refl)))).
Defined.

End ParseIntFacts.

(** ** A JSON text and its trimmed text parse alike *)

Module TrimFacts.

Import Json JsonFacts JsonText.

#[local] Arguments String.append !_ _ : simpl nomatch.

Lemma follows_empty (r : string) : follows r EmptyString.
Proof. exact I. Qed.

Lemma follows_cons (c : ascii) (a b : string) : follows (String c a) (String c b).
Proof. reflexivity. Qed.

Lemma follows_app (p r r' : string) : follows r r' -> follows (p +:+ r) (p +:+ r').
Proof. destruct p as [|c p]; [trivial | intros _; reflexivity]. Qed.

Lemma follows_head (P : ascii -> Prop) (r r' : string) :
  follows r r' -> headIs P r -> headIs P r'.
Proof.
  destruct r' as [|c' t']; [intros _ _; exact I|].
  destruct r as [|c t]; [intros []|]. simpl. now intros ->.
Qed.

Lemma lastIs_app (P : ascii -> bool) (a b : string) :
  b <> EmptyString -> lastIs P (a +:+ b) = lastIs P b.
Proof.
  intros Hb. induction a as [|c a IH]; [reflexivity|].
  change (String c a +:+ b) with (String c (a +:+ b)). cbn [lastIs].
  destruct (a +:+ b) eqn:He; [|exact IH].
  destruct a; [simpl in He; contradiction | discriminate].
Qed.

Lemma allDigits_last (c : ascii) (t : string) :
  allDigits (String c t) = true -> lastIs Js.isDigit (String c t) = true.
Proof.
  revert c. induction t as [|c' t IH]; intros c H; simpl in H.
  - now apply andb_true_iff in H as [H _].
  - apply andb_true_iff in H as [_ H]. cbn [lastIs]. now apply IH.
Qed.

Lemma scanDigits_replay (s d r : string) :
  scanDigits s = (d, r) ->
  s = d +:+ r /\ allDigits d = true
  /\ forall r', follows r r' -> scanDigits (d +:+ r') = (d, r').
Proof.
  revert d r. induction s as [|c s IH]; intros d r; cbn [scanDigits].
  - intros [= <- <-]. repeat split. intros [|c' t'] H; [reflexivity | destruct H].
  - destruct (Js.isDigit c) eqn:Hc.
    + destruct (scanDigits s) as [d0 r0] eqn:Hs. intros [= <- <-].
      destruct (IH d0 r0 eq_refl) as (-> & Hd & Hrep).
      split; [reflexivity|]. split; [simpl; now rewrite Hc|].
      intros r' Hf. change (String c d0 +:+ r') with (String c (d0 +:+ r')).
      cbn [scanDigits]. now rewrite Hc, (Hrep r' Hf).
    + intros [= <- <-]. repeat split.
      intros [|c' t'] Hf; [reflexivity|]. simpl in Hf. subst c'.
      simpl. cbn [scanDigits]. now rewrite Hc.
Qed.

Lemma scanInt_replay (s d r : string) :
  scanInt s = Some (d, r) ->
  s = d +:+ r
  /\ (exists c t, d = String c t /\ allDigits (String c t) = true)
  /\ forall r', follows r r' -> scanInt (d +:+ r') = Some (d, r').
Proof.
  destruct s as [|c s]; [discriminate|]. cbn [scanInt].
  destruct (Ascii.eqb c "0") eqn:H0.
  - intros [= <- <-]. apply Ascii.eqb_eq in H0. subst c.
    split; [reflexivity|]. split; [eexists _, _; split; reflexivity|].
    intros r' _. reflexivity.
  - destruct (Js.isDigit c) eqn:Hc; [|discriminate].
    destruct (scanDigits s) as [d0 r0] eqn:Hs. intros [= <- <-].
    destruct (scanDigits_replay s d0 r0 Hs) as (-> & Hd & Hrep).
    split; [reflexivity|]. split.
    + eexists _, _. split; [reflexivity|]. simpl. now rewrite Hc.
    + intros r' Hf. change (String c d0 +:+ r') with (String c (d0 +:+ r')).
      cbn [scanInt]. now rewrite H0, Hc, (Hrep r' Hf).
Qed.

(** A part of a number after its integer part: nothing, or a text that
    ends with a digit. *)
Abbreviation partEnd := (fun d : string => d = EmptyString \/ lastIs Js.isDigit d = true).

Lemma scanFrac_replay (s d r : string) :
  scanFrac s = Some (d, r) ->
  s = d +:+ r /\ partEnd d
  /\ forall r', follows r r' -> scanFrac (d +:+ r') = Some (d, r').
Proof.
  destruct s as [|c s]; cbn [scanFrac].
  - intros [= <- <-]. split; [reflexivity|]. split; [now left|].
    intros [|c' t'] H; [reflexivity | destruct H].
  - destruct (Ascii.eqb c ".") eqn:Hdot.
    + destruct (scanDigits s) as [d0 r0] eqn:Hs.
      destruct (scanDigits_replay s d0 r0 Hs) as (-> & Hd & Hrep).
      destruct d0 as [|c0 t0]; [discriminate|]. intros [= <- <-].
      split; [reflexivity|]. split.
      * right. change (lastIs Js.isDigit (String c0 t0) = true).
        now apply allDigits_last.
      * intros r' Hf.
        change (String c (String c0 t0) +:+ r') with (String c (String c0 t0 +:+ r')).
        cbn [scanFrac]. now rewrite Hdot, (Hrep r' Hf).
    + intros [= <- <-]. split; [reflexivity|]. split; [now left|].
      intros [|c' t'] Hf; [reflexivity|]. simpl in Hf. subst c'.
      simpl. cbn [scanFrac]. now rewrite Hdot.
Qed.

Lemma scanExp_replay (s d r : string) :
  scanExp s = Some (d, r) ->
  s = d +:+ r /\ partEnd d
  /\ forall r', follows r r' -> scanExp (d +:+ r') = Some (d, r').
Proof.
  destruct s as [|c s]; cbn [scanExp].
  - intros [= <- <-]. split; [reflexivity|]. split; [now left|].
    intros [|c' t'] H; [reflexivity | destruct H].
  - destruct (isExpMark c) eqn:He.
    + destruct s as [|c1 s1].
      * cbn [scanDigits]. discriminate.
      * destruct (isSign c1) eqn:Hsg.
        -- destruct (scanDigits s1) as [d0 r0] eqn:Hs.
           destruct (scanDigits_replay s1 d0 r0 Hs) as (-> & Hd & Hrep).
           destruct d0 as [|c0 t0]; [discriminate|]. intros [= <- <-].
           split; [reflexivity|]. split.
           ++ right. change (lastIs Js.isDigit (String c (String c1 (String c0 t0))) = true).
              cbn [lastIs]. now apply allDigits_last.
           ++ intros r' Hf.
              change (String c (String c1 (String c0 t0)) +:+ r')
                with (String c (String c1 (String c0 t0 +:+ r'))).
              unfold scanExp. cbv beta iota. now rewrite He, Hsg, (Hrep r' Hf).
        -- destruct (scanDigits (String c1 s1)) as [d0 r0] eqn:Hs.
           destruct (scanDigits_replay _ d0 r0 Hs) as (Heq & Hd & Hrep).
           destruct d0 as [|c0 t0]; [discriminate|]. intros [= <- <-].
           injection Heq as -> ->.
           split; [reflexivity|]. split.
           ++ right. change (lastIs Js.isDigit (String c (String c0 t0)) = true).
              cbn [lastIs]. now apply allDigits_last.
           ++ intros r' Hf.
              change (String c (String c0 t0) +:+ r')
                with (String c (String c0 (t0 +:+ r'))).
              unfold scanExp. cbv beta iota. rewrite He, Hsg.
              change (String c0 (t0 +:+ r')) with (String c0 t0 +:+ r').
              now rewrite (Hrep r' Hf).
    + intros [= <- <-]. split; [reflexivity|]. split; [now left|].
      intros [|c' t'] Hf; [reflexivity|]. simpl in Hf. subst c'.
      simpl. cbn [scanExp]. now rewrite He.
Qed.

Lemma lastDigit_app (a b : string) :
  lastIs Js.isDigit a = true -> partEnd b -> lastIs Js.isDigit (a +:+ b) = true.
Proof.
  intros Ha [->|Hb]; [now rewrite append_empty_r|].
  rewrite lastIs_app; [exact Hb|]. intros ->. discriminate.
Qed.

Lemma scanNumber_replay (s lit r : string) :
  scanNumber s = Some (lit, r) ->
  s = lit +:+ r
  /\ (exists c t, lit = String c t /\ startsNumber c = true)
  /\ lastIs Js.isDigit lit = true
  /\ forall r', follows r r' -> scanNumber (lit +:+ r') = Some (lit, r').
Proof.
  unfold scanNumber.
  destruct (match s with
            | String c r0 =>
                if Ascii.eqb c "-" then (String c EmptyString, r0) else (EmptyString, s)
            | EmptyString => (EmptyString, s)
            end) as [sg s1] eqn:Hsplit.
  destruct (scanInt s1) as [[ip s2]|] eqn:Hi; [|discriminate].
  destruct (scanFrac s2) as [[fp s3]|] eqn:Hf; [|discriminate].
  destruct (scanExp s3) as [[ep s4]|] eqn:He; [|discriminate].
  intros [= <- <-].
  destruct (scanInt_replay _ _ _ Hi) as (-> & (ci & ti & -> & Hdi) & Hri).
  destruct (scanFrac_replay _ _ _ Hf) as (-> & Hpf & Hrf).
  destruct (scanExp_replay _ _ _ He) as (-> & Hpe & Hre).
  assert (Hci : Js.isDigit ci = true).
  { simpl in Hdi. now apply andb_true_iff in Hdi as [H _]. }
  assert (Hlast : lastIs Js.isDigit (String ci ti +:+ fp +:+ ep) = true).
  { apply lastDigit_app; [now apply allDigits_last|].
    destruct Hpf as [->|Hpf]; [exact Hpe|].
    right. now apply lastDigit_app. }
  destruct s as [|c r0]; [discriminate|].
  destruct (Ascii.eqb c "-") eqn:Hm.
  - injection Hsplit as <- ->. apply Ascii.eqb_eq in Hm. subst c.
    split; [simpl; now rewrite !append_assoc|].
    split; [eexists _, _; split; reflexivity|].
    split.
    + change (lastIs Js.isDigit (String "-" (String ci ti +:+ fp +:+ ep)) = true).
      cbn [lastIs]. destruct (String ci ti +:+ fp +:+ ep) eqn:Hx; [discriminate|exact Hlast].
    + intros r' Hr.
      change ((String "-" EmptyString +:+ String ci ti +:+ fp +:+ ep) +:+ r')
        with (String "-" ((String ci ti +:+ fp +:+ ep) +:+ r')).
      cbv beta iota. replace (Ascii.eqb "-" "-") with true by reflexivity.
      cbv beta iota. rewrite !append_assoc.
      rewrite (Hri (fp +:+ ep +:+ r')) by (apply follows_app, follows_app, Hr).
      cbv beta iota. rewrite (Hrf (ep +:+ r')) by (apply follows_app, Hr).
      cbv beta iota. rewrite (Hre r' Hr). reflexivity.
  - injection Hsplit as <- -> ->.
    split; [simpl; now rewrite !append_assoc|].
    split.
    + eexists _, _. split; [reflexivity|]. unfold startsNumber. now rewrite Hci, orb_true_r.
    + split; [exact Hlast|]. intros r' Hr.
      change ((EmptyString +:+ String ci ti +:+ fp +:+ ep) +:+ r')
        with (String ci ((ti +:+ fp +:+ ep) +:+ r')).
      cbv beta iota. rewrite Hm.
      change (String ci ((ti +:+ fp +:+ ep) +:+ r'))
        with ((String ci ti +:+ fp +:+ ep) +:+ r').
      cbv beta iota. rewrite !append_assoc.
      rewrite (Hri (fp +:+ ep +:+ r')) by (apply follows_app, follows_app, Hr).
      cbv beta iota. rewrite (Hrf (ep +:+ r')) by (apply follows_app, Hr).
      cbv beta iota. rewrite (Hre r' Hr). reflexivity.
Qed.

Lemma scanString_replay_upto (n : nat) : forall s t r,
  (String.length s <= n)%nat ->
  scanString s = Some (t, r) ->
  exists q,
    (Js.charCode q =? 34)%nat = true /\ s = t +:+ String q r
    /\ forall r', scanString (t +:+ String q r') = Some (t, r').
Proof.
  induction n as [|n IH]; intros s t r Hn.
  - destruct s; [discriminate | simpl in Hn; lia].
  - destruct s as [|c s]; [discriminate|]. cbn [scanString].
    destruct (Js.charCode c =? 34)%nat eqn:Hq.
    { intros [= <- <-]. exists c. split; [exact Hq|]. split; [reflexivity|].
      intros r'. simpl. cbn [scanString]. now rewrite Hq. }
    destruct (Js.charCode c <? 32)%nat eqn:Hctl; [discriminate|].
    destruct (Js.charCode c =? 92)%nat eqn:Hbs.
    + destruct s as [|e r1]; [discriminate|].
      destruct (isEscape e) eqn:Hesc.
      * destruct (scanString r1) as [[t' r0]|] eqn:Hs; [|discriminate].
        intros [= <- <-].
        destruct (IH r1 t' r0 ltac:(simpl in Hn; lia) Hs) as (q & Hq' & -> & Hrep).
        exists q. split; [exact Hq'|]. split; [reflexivity|]. intros r'.
        change (String c (String e t') +:+ String q r')
          with (String c (String e (t' +:+ String q r'))).
        cbn [scanString]. now rewrite Hq, Hctl, Hbs, Hesc, Hrep.
      * destruct (Ascii.eqb e "u") eqn:Hu; [|discriminate].
        destruct r1 as [|h1 [|h2 [|h3 [|h4 r2]]]]; try discriminate.
        destruct (isHex h1 && isHex h2 && isHex h3 && isHex h4) eqn:Hhex; [|discriminate].
        destruct (scanString r2) as [[t' r0]|] eqn:Hs; [|discriminate].
        intros [= <- <-].
        destruct (IH r2 t' r0 ltac:(simpl in Hn; lia) Hs) as (q & Hq' & -> & Hrep).
        exists q. split; [exact Hq'|]. split; [reflexivity|]. intros r'.
        change (String c (String e (String h1 (String h2 (String h3 (String h4 t')))))
                +:+ String q r')
          with (String c (String e (String h1 (String h2 (String h3
                  (String h4 (t' +:+ String q r'))))))).
        cbn [scanString]. now rewrite Hq, Hctl, Hbs, Hesc, Hu, Hhex, Hrep.
    + destruct (scanString s) as [[t' r0]|] eqn:Hs; [|discriminate].
      intros [= <- <-].
      destruct (IH s t' r0 ltac:(simpl in Hn; lia) Hs) as (q & Hq' & -> & Hrep).
      exists q. split; [exact Hq'|]. split; [reflexivity|]. intros r'.
      change (String c t' +:+ String q r') with (String c (t' +:+ String q r')).
      cbn [scanString]. now rewrite Hq, Hctl, Hbs, Hrep.
Qed.

Lemma scanString_replay (s t r : string) :
  scanString s = Some (t, r) ->
  exists q,
    (Js.charCode q =? 34)%nat = true /\ s = t +:+ String q r
    /\ forall r', scanString (t +:+ String q r') = Some (t, r').
Proof. apply (scanString_replay_upto (String.length s)). lia. Qed.

Lemma stripPrefix_split (p s r : string) : stripPrefix p s = Some r -> s = p +:+ r.
Proof.
  revert s. induction p as [|a p IH]; intros s; simpl.
  - now intros [= <-].
  - destruct s as [|b s]; [discriminate|].
    destruct (Ascii.eqb a b) eqn:Hab; [|discriminate].
    apply Ascii.eqb_eq in Hab. subst b. intros H. now rewrite (IH s H).
Qed.

Lemma scanLiteral_replay (s : string) (v : json) (r : string) :
  scanLiteral s = Some (v, r) ->
  exists lit,
    s = lit +:+ r /\ (lit = "true" \/ lit = "false" \/ lit = "null")
    /\ forall r', scanLiteral (lit +:+ r') = Some (v, r').
Proof.
  unfold scanLiteral.
  destruct (stripPrefix "true" s) as [r1|] eqn:H1.
  { intros [= <- <-]. exists "true". split; [now apply stripPrefix_split|].
    split; [auto|]. intros r'. reflexivity. }
  destruct (stripPrefix "false" s) as [r2|] eqn:H2.
  { intros [= <- <-]. exists "false". split; [now apply stripPrefix_split|].
    split; [auto|]. intros r'. reflexivity. }
  destruct (stripPrefix "null" s) as [r3|] eqn:H3; [|discriminate].
  intros [= <- <-]. exists "null". split; [now apply stripPrefix_split|].
  split; [auto|]. intros r'. reflexivity.
Qed.

Lemma skipWs_split (s : string) : exists w, s = w +:+ skipWs s /\ allWs w = true.
Proof.
  induction s as [|c s IH]; [now exists EmptyString|].
  cbn [skipWs]. destruct (isWs c) eqn:Hc.
  - destruct IH as (w & Hs & Hw). exists (String c w). split.
    + simpl. now rewrite <- Hs.
    + simpl. now rewrite Hc.
  - now exists EmptyString.
Qed.

Lemma skipWs_found (s : string) (c : ascii) (r : string) :
  skipWs s = String c r -> isWs c = false.
Proof.
  induction s as [|a s IH]; [discriminate|]. cbn [skipWs].
  destruct (isWs a) eqn:Ha; [exact IH|]. now intros [= <- <-].
Qed.

(** The first character that is not white space, when there is one before
    the end of [p], does not depend on what follows [p]. *)
Lemma skipWs_same_head (p : string) (b : ascii) (x y : string) (c : ascii) (t : string) :
  isWs b = false ->
  skipWs (p +:+ String b x) = String c t ->
  exists t', skipWs (p +:+ String b y) = String c t'.
Proof.
  intros Hb. induction p as [|a p IH]; simpl.
  - cbn [skipWs]. rewrite Hb. intros [= <- <-]. eauto.
  - cbn [skipWs]. destruct (isWs a); [exact IH|]. intros [= <- <-]. eauto.
Qed.

Lemma skipWs_ws_cons (w : string) (c : ascii) (x : string) :
  allWs w = true -> isWs c = false -> skipWs (w +:+ String c x) = String c x.
Proof. intros Hw Hc. rewrite skipWs_append by exact Hw. now apply skipWs_head. Qed.

Lemma lastIs_impl (P Q : ascii -> bool) (s : string) :
  (forall c, P c = true -> Q c = true) -> lastIs P s = true -> lastIs Q s = true.
Proof.
  intros H. induction s as [|c s IH]; [discriminate|]. cbn [lastIs].
  destruct s; [apply H | exact IH].
Qed.

Lemma lastIs_snoc (P : ascii -> bool) (a : string) (c : ascii) :
  lastIs P (a +:+ String c EmptyString) = P c.
Proof. rewrite lastIs_app by discriminate. reflexivity. Qed.

Lemma quote_plain (q : ascii) :
  (Js.charCode q =? 34)%nat = true -> Js.isWhiteSpace q = false /\ isWs q = false.
Proof.
  intros H. apply Nat.eqb_eq in H. unfold Js.isWhiteSpace, isWs. rewrite H. split; reflexivity.
Qed.

Ltac strnorm := repeat (rewrite ?append_assoc; cbn [String.append]).

Lemma literal_dispatch (c : ascii) :
  c = "t"%char \/ c = "f"%char \/ c = "n"%char ->
  isWs c = false /\ Ascii.eqb c "[" = false /\ Ascii.eqb c "{" = false
  /\ (Js.charCode c =? 34)%nat = false /\ (Ascii.eqb c "-" || Js.isDigit c) = false.
Proof. intros [-> | [-> | ->]]; repeat split. Qed.

Lemma bracket_solid (open close : ascii) (inner : string) :
  Js.isWhiteSpace open = false -> Js.isWhiteSpace close = false ->
  solid (String open (inner +:+ String close EmptyString)).
Proof.
  intros Ho Hc. split; [eexists _, _; split; [reflexivity | exact Ho]|].
  change (String open (inner +:+ String close EmptyString))
    with (String open inner +:+ String close EmptyString).
  rewrite lastIs_snoc. unfold notWhiteSpace. now rewrite Hc.
Qed.

Lemma value_step (n : nat) :
  (forall s vs r, parseElements n s = Some (vs, r) -> replaysElements n s vs r) ->
  (forall s ms r, parseMembers n s = Some (ms, r) -> replaysMembers n s ms r) ->
  forall s v r, parseValue (S n) s = Some (v, r) -> replaysValue (S n) s v r.
Proof.
  intros IHe IHm s v r. rewrite parseValue_S.
  destruct (skipWs_split s) as (w & Hs & Hw).
  destruct (skipWs s) as [|c r0] eqn:Hsk; [discriminate|].
  pose proof (skipWs_found s c r0 Hsk) as Hc.
  destruct (Ascii.eqb c "[") eqn:Hopen.
  { apply Ascii.eqb_eq in Hopen. subst c.
    destruct (skipWs_split r0) as (w1 & Hr0 & Hw1).
    destruct (skipWs r0) as [|c' r0'] eqn:Hsk0; [discriminate|].
    pose proof (skipWs_found r0 c' r0' Hsk0) as Hc'.
    destruct (Ascii.eqb c' "]") eqn:Hclose.
    - apply Ascii.eqb_eq in Hclose. subst c'. intros [= <- <-].
      exists w, (String "[" (w1 +:+ String "]" EmptyString)).
      split; [rewrite Hs, Hr0; strnorm; reflexivity|].
      split; [exact Hw|]. split; [now apply bracket_solid|].
      intros w' r' Hw' _. rewrite parseValue_S. strnorm.
      rewrite skipWs_ws_cons by (first [exact Hw' | reflexivity]).
      replace (Ascii.eqb "[" "[") with true by reflexivity.
      rewrite skipWs_ws_cons by (first [exact Hw1 | reflexivity]).
      reflexivity.
    - destruct (parseElements n r0) as [[vs r2]|] eqn:He; [|discriminate].
      intros [= <- <-].
      destruct (IHe r0 vs r2 He) as (pre & Hpre & Hrep).
      exists w, (String "[" (pre +:+ String "]" EmptyString)).
      split; [rewrite Hs, Hpre; strnorm; reflexivity|].
      split; [exact Hw|]. split; [now apply bracket_solid|].
      intros w' r' Hw' _. rewrite parseValue_S. strnorm.
      rewrite skipWs_ws_cons by (first [exact Hw' | reflexivity]).
      replace (Ascii.eqb "[" "[") with true by reflexivity.
      rewrite Hpre in Hsk0.
      destruct (skipWs_same_head pre "]" r2 r' c' r0' eq_refl Hsk0) as [t' Ht'].
      now rewrite Ht', Hclose, (Hrep r'). }
  destruct (Ascii.eqb c "{") eqn:Hbrace.
  { apply Ascii.eqb_eq in Hbrace. subst c.
    destruct (skipWs_split r0) as (w1 & Hr0 & Hw1).
    destruct (skipWs r0) as [|c' r0'] eqn:Hsk0; [discriminate|].
    pose proof (skipWs_found r0 c' r0' Hsk0) as Hc'.
    destruct (Ascii.eqb c' "}") eqn:Hclose.
    - apply Ascii.eqb_eq in Hclose. subst c'. intros [= <- <-].
      exists w, (String "{" (w1 +:+ String "}" EmptyString)).
      split; [rewrite Hs, Hr0; strnorm; reflexivity|].
      split; [exact Hw|]. split; [now apply bracket_solid|].
      intros w' r' Hw' _. rewrite parseValue_S. strnorm.
      rewrite skipWs_ws_cons by (first [exact Hw' | reflexivity]).
      replace (Ascii.eqb "{" "[") with false by reflexivity.
      replace (Ascii.eqb "{" "{") with true by reflexivity.
      rewrite skipWs_ws_cons by (first [exact Hw1 | reflexivity]).
      reflexivity.
    - destruct (parseMembers n r0) as [[ms r2]|] eqn:He; [|discriminate].
      intros [= <- <-].
      destruct (IHm r0 ms r2 He) as (pre & Hpre & Hrep).
      exists w, (String "{" (pre +:+ String "}" EmptyString)).
      split; [rewrite Hs, Hpre; strnorm; reflexivity|].
      split; [exact Hw|]. split; [now apply bracket_solid|].
      intros w' r' Hw' _. rewrite parseValue_S. strnorm.
      rewrite skipWs_ws_cons by (first [exact Hw' | reflexivity]).
      replace (Ascii.eqb "{" "[") with false by reflexivity.
      replace (Ascii.eqb "{" "{") with true by reflexivity.
      rewrite Hpre in Hsk0.
      destruct (skipWs_same_head pre "}" r2 r' c' r0' eq_refl Hsk0) as [t' Ht'].
      now rewrite Ht', Hclose, (Hrep r'). }
  destruct (Js.charCode c =? 34)%nat eqn:Hq.
  { destruct (scanString r0) as [[t r1]|] eqn:Hstr; [|discriminate].
    intros [= <- <-].
    destruct (scanString_replay r0 t r1 Hstr) as (q & Hq' & Hr0 & Hrep).
    exists w, (String c (t +:+ String q EmptyString)).
    split; [rewrite Hs, Hr0; strnorm; reflexivity|].
    split; [exact Hw|].
    split; [apply bracket_solid; [apply (quote_plain c Hq) | apply (quote_plain q Hq')]|].
    intros w' r' Hw' _. rewrite parseValue_S. strnorm.
    rewrite skipWs_ws_cons by (first [exact Hw' | exact Hc]).
    now rewrite Hopen, Hbrace, Hq, (Hrep r'). }
  destruct (Ascii.eqb c "-" || Js.isDigit c) eqn:Hnum.
  { destruct (scanNumber (String c r0)) as [[lit r1]|] eqn:Hn'; [|discriminate].
    intros [= <- <-].
    destruct (scanNumber_replay _ _ _ Hn') as (Heq & (c1 & t1 & -> & Hc1) & Hlast & Hrep).
    simpl in Heq. injection Heq as <- Hr0.
    exists w, (String c t1).
    split; [rewrite Hs, Hr0; strnorm; reflexivity|].
    split; [exact Hw|]. split.
    - split.
      + eexists _, _. split; [reflexivity|].
        apply orb_true_iff in Hnum as [Hm|Hd].
        * apply Ascii.eqb_eq in Hm. subst c. reflexivity.
        * apply (DigitsFacts.digit_plain c Hd).
      + eapply lastIs_impl; [|exact Hlast]. intros d Hd. unfold notWhiteSpace.
        now rewrite (proj1 (DigitsFacts.digit_plain d Hd)).
    - intros w' r' Hw' Hf. rewrite parseValue_S. strnorm.
      rewrite skipWs_ws_cons by (first [exact Hw' | exact Hc]).
      rewrite Hopen, Hbrace, Hq, Hnum.
      change (String c (t1 +:+ r')) with (String c t1 +:+ r').
      now rewrite (Hrep r' Hf). }
  intros Hlit.
  destruct (scanLiteral_replay _ _ _ Hlit) as (lit & Heq & Hcases & Hrep).
  exists w, lit.
  split; [rewrite Hs, Heq; reflexivity|].
  split; [exact Hw|]. split.
  - destruct Hcases as [-> | [-> | ->]];
      (split; [eexists _, _; split; reflexivity | reflexivity]).
  - intros w' r' Hw' _. rewrite parseValue_S.
    assert (Hhead : exists c0 t0, lit = String c0 t0
                                  /\ (c0 = "t"%char \/ c0 = "f"%char \/ c0 = "n"%char)).
    { destruct Hcases as [-> | [-> | ->]]; eexists _, _; split; try reflexivity; auto. }
    destruct Hhead as (c0 & t0 & -> & Hc0).
    destruct (literal_dispatch c0 Hc0) as (H1 & H2 & H3 & H4 & H5).
    strnorm. rewrite skipWs_ws_cons by (first [exact Hw' | exact H1]).
    rewrite H2, H3, H4, H5. exact (Hrep r').
Qed.

Lemma elements_step (n : nat) :
  (forall s v r, parseValue n s = Some (v, r) -> replaysValue n s v r) ->
  (forall s vs r, parseElements n s = Some (vs, r) -> replaysElements n s vs r) ->
  forall s vs r, parseElements (S n) s = Some (vs, r) -> replaysElements (S n) s vs r.
Proof.
  intros IHv IHe s vs r. rewrite parseElements_S.
  destruct (parseValue n s) as [[v r1]|] eqn:Hv; [|discriminate].
  destruct (IHv s v r1 Hv) as (w & body & Hs & Hw & Hsolid & Hrep).
  destruct (skipWs_split r1) as (w1 & Hr1 & Hw1).
  destruct (skipWs r1) as [|c r1'] eqn:Hsk; [discriminate|].
  destruct (Ascii.eqb c ",") eqn:Hcomma.
  - apply Ascii.eqb_eq in Hcomma. subst c.
    destruct (parseElements n r1') as [[vs' r2]|] eqn:He; [|discriminate].
    intros [= <- <-].
    destruct (IHe r1' vs' r2 He) as (pre & Hpre & Hrep').
    exists (w +:+ body +:+ w1 +:+ String "," pre).
    split; [rewrite Hs, Hr1, Hpre; strnorm; reflexivity|].
    intros r'. rewrite parseElements_S. strnorm.
    rewrite (Hrep w (w1 +:+ String "," (pre +:+ String "]" r')) Hw)
      by (rewrite Hr1; apply follows_app; reflexivity).
    rewrite skipWs_ws_cons by (first [exact Hw1 | reflexivity]).
    replace (Ascii.eqb "," ",") with true by reflexivity.
    now rewrite (Hrep' r').
  - destruct (Ascii.eqb c "]") eqn:Hclose; [|discriminate].
    apply Ascii.eqb_eq in Hclose. subst c. intros [= <- <-].
    exists (w +:+ body +:+ w1).
    split; [rewrite Hs, Hr1; strnorm; reflexivity|].
    intros r'. rewrite parseElements_S. strnorm.
    rewrite (Hrep w (w1 +:+ String "]" r') Hw)
      by (rewrite Hr1; apply follows_app; reflexivity).
    rewrite skipWs_ws_cons by (first [exact Hw1 | reflexivity]).
    reflexivity.
Qed.

Lemma members_step (n : nat) :
  (forall s v r, parseValue n s = Some (v, r) -> replaysValue n s v r) ->
  (forall s ms r, parseMembers n s = Some (ms, r) -> replaysMembers n s ms r) ->
  forall s ms r, parseMembers (S n) s = Some (ms, r) -> replaysMembers (S n) s ms r.
Proof.
  intros IHv IHm s ms r. rewrite parseMembers_S.
  destruct (skipWs_split s) as (w & Hs & Hw).
  destruct (skipWs s) as [|q r0] eqn:Hsk; [discriminate|].
  pose proof (skipWs_found s q r0 Hsk) as Hqws.
  destruct (Js.charCode q =? 34)%nat eqn:Hq; [|discriminate].
  destruct (scanString r0) as [[key r1]|] eqn:Hstr; [|discriminate].
  destruct (scanString_replay r0 key r1 Hstr) as (q' & Hq' & Hr0 & Hreps).
  destruct (skipWs_split r1) as (w1 & Hr1 & Hw1).
  destruct (skipWs r1) as [|colon r2] eqn:Hsk1; [discriminate|].
  destruct (Ascii.eqb colon ":") eqn:Hcolon; [|discriminate].
  apply Ascii.eqb_eq in Hcolon. subst colon.
  destruct (parseValue n r2) as [[v r3]|] eqn:Hv; [|discriminate].
  destruct (IHv r2 v r3 Hv) as (w2 & body & Hr2 & Hw2 & Hsolid & Hrepv).
  destruct (skipWs_split r3) as (w3 & Hr3 & Hw3).
  destruct (skipWs r3) as [|c r4] eqn:Hsk3; [discriminate|].
  destruct (Ascii.eqb c ",") eqn:Hcomma.
  - apply Ascii.eqb_eq in Hcomma. subst c.
    destruct (parseMembers n r4) as [[ms' r5]|] eqn:Hm; [|discriminate].
    intros [= <- <-].
    destruct (IHm r4 ms' r5 Hm) as (pre & Hpre & Hrepm).
    exists (w +:+ String q (key +:+ String q'
              (w1 +:+ String ":" (w2 +:+ body +:+ w3 +:+ String "," pre)))).
    split; [rewrite Hs, Hr0, Hr1, Hr2, Hr3, Hpre; strnorm; reflexivity|].
    intros r'. rewrite parseMembers_S. strnorm.
    rewrite skipWs_ws_cons by (first [exact Hw | exact Hqws]).
    rewrite Hq, (Hreps _).
    rewrite skipWs_ws_cons by (first [exact Hw1 | reflexivity]).
    replace (Ascii.eqb ":" ":") with true by reflexivity.
    rewrite (Hrepv w2 (w3 +:+ String "," (pre +:+ String "}" r')) Hw2)
      by (rewrite Hr3; apply follows_app; reflexivity).
    rewrite skipWs_ws_cons by (first [exact Hw3 | reflexivity]).
    replace (Ascii.eqb "," ",") with true by reflexivity.
    now rewrite (Hrepm r').
  - destruct (Ascii.eqb c "}") eqn:Hclose; [|discriminate].
    apply Ascii.eqb_eq in Hclose. subst c. intros [= <- <-].
    exists (w +:+ String q (key +:+ String q' (w1 +:+ String ":" (w2 +:+ body +:+ w3)))).
    split; [rewrite Hs, Hr0, Hr1, Hr2, Hr3; strnorm; reflexivity|].
    intros r'. rewrite parseMembers_S. strnorm.
    rewrite skipWs_ws_cons by (first [exact Hw | exact Hqws]).
    rewrite Hq, (Hreps _).
    rewrite skipWs_ws_cons by (first [exact Hw1 | reflexivity]).
    replace (Ascii.eqb ":" ":") with true by reflexivity.
    rewrite (Hrepv w2 (w3 +:+ String "}" r') Hw2)
      by (rewrite Hr3; apply follows_app; reflexivity).
    rewrite skipWs_ws_cons by (first [exact Hw3 | reflexivity]).
    reflexivity.
Qed.

(** Whatever the parser reads, it reads again from the same text with
    other white space in front and another text behind. *)
Lemma replay (fuel : nat) :
  (forall s v r, parseValue fuel s = Some (v, r) -> replaysValue fuel s v r)
  /\ (forall s vs r, parseElements fuel s = Some (vs, r) -> replaysElements fuel s vs r)
  /\ (forall s ms r, parseMembers fuel s = Some (ms, r) -> replaysMembers fuel s ms r).
Proof.
  induction fuel as [|n (IHv & IHe & IHm)].
  - repeat split; intros; discriminate.
  - split; [now apply value_step|]. split; [now apply elements_step | now apply members_step].
Qed.

Lemma ws_whiteSpace (c : ascii) : isWs c = true -> Js.isWhiteSpace c = true.
Proof.
  unfold isWs, Js.isWhiteSpace. intros H.
  repeat (apply orb_true_iff in H as [H|H]); apply Nat.eqb_eq in H; rewrite H; reflexivity.
Qed.

Lemma trimStart_ws (w : string) (c : ascii) (t : string) :
  allWs w = true -> Js.isWhiteSpace c = false ->
  Js.trimStart (w +:+ String c t) = String c t.
Proof.
  intros Hw Hc. induction w as [|a w IH]; simpl.
  - cbn [Js.trimStart]. now rewrite Hc.
  - simpl in Hw. apply andb_true_iff in Hw as [Ha Hw].
    cbn [Js.trimStart]. rewrite (ws_whiteSpace a Ha). now apply IH.
Qed.

Lemma trimEnd_ws (w : string) : allWs w = true -> Js.trimEnd w = EmptyString.
Proof.
  induction w as [|a w IH]; [reflexivity|]. simpl. intros H.
  apply andb_true_iff in H as [Ha Hw]. now rewrite (IH Hw), (ws_whiteSpace a Ha).
Qed.

Lemma trimEnd_solid (body w : string) :
  lastIs notWhiteSpace body = true -> allWs w = true ->
  Js.trimEnd (body +:+ w) = body.
Proof.
  intros Hl Hw. induction body as [|c b IH]; [discriminate|].
  change (String c b +:+ w) with (String c (b +:+ w)). cbn [Js.trimEnd].
  destruct b as [|c' b'].
  - simpl. rewrite (trimEnd_ws w Hw). unfold notWhiteSpace in Hl. simpl in Hl.
    apply negb_true_iff in Hl. now rewrite Hl.
  - rewrite IH by exact Hl. reflexivity.
Qed.

(** The text that [trim] leaves of a text that parses is the text of the
    value, and it parses to the same value. *)
Lemma parse_trim (text : string) (v : json) :
  parse text = Some v -> parse (Js.trim text) = Some v.
Proof.
  unfold parse.
  destruct (parseValue (S (2 * String.length text)) text) as [[v0 rest]|] eqn:Hp;
    [|discriminate].
  destruct (skipWs_split rest) as (wr & Hrest & Hwr).
  destruct (skipWs rest) as [|c t]; [|discriminate]. intros [= ->].
  rewrite append_empty_r in Hrest. subst wr.
  destruct (proj1 (replay _) text v rest Hp) as (w & body & Htext & Hw & [Hfirst Hlast] & Hrep).
  destruct Hfirst as (c & t & Hbody & Hc).
  assert (Htrim : Js.trim text = body).
  { unfold Js.trim. rewrite Htext, Hbody.
    change (String c t +:+ rest) with (String c (t +:+ rest)).
    rewrite trimStart_ws by assumption.
    change (String c (t +:+ rest)) with (String c t +:+ rest).
    rewrite <- Hbody. now apply trimEnd_solid. }
  rewrite Htrim.
  specialize (Hrep EmptyString EmptyString eq_refl I).
  change (EmptyString +:+ body +:+ EmptyString) with (body +:+ EmptyString) in Hrep.
  rewrite append_empty_r in Hrep.
  assert (Hlen : (String.length body <= String.length text)%nat).
  { rewrite Htext, !length_append. lia. }
  assert (Hfuel : parseValue (S (2 * String.length text)) body
                  = parseValue (S (2 * String.length body)) body).
  { apply (proj1 (parse_fuel_stable (S (2 * String.length body)))); lia. }
  rewrite <- Hfuel, Hrep. reflexivity.
Qed.

Section Search.

Context (syntaxErrorMessage : string -> string).
Context {QueryResult UpsertReply : Type}.
Context (client : Client.Endee QueryResult UpsertReply).

Abbreviation buildSearchRequest := (SearchPage.buildSearchRequest syntaxErrorMessage).

Lemma request_as_validated (p : SearchPage.Props) (f : SearchPage.Form)
    (req : Client.SearchRequest) :
  buildSearchRequest p f = Ok req ->
  Client.r_filter req
  = (if Js.truthy (Js.trim (SearchPage.filter f))
     then Some (Js.trim (SearchPage.filter f)) else None)
  /\ (Js.truthy (Js.trim (SearchPage.filter f)) = true ->
      exists v, parse (SearchPage.filter f) = Some v)
  /\ match Client.ef req with Some e => 0 < e | None => True end
  /\ Client.include_vectors req = Some (SearchPage.includeVectors f).
Proof.
  unfold SearchPage.buildSearchRequest.
  destruct (SearchPage.denseVector _ (SearchPage.vector f)) as [va|]; simpl;
    [|discriminate].
  destruct (Js.parseInt (SearchPage.k f)) as [kv|]; [|discriminate].
  destruct (kv <=? 0); [discriminate|].
  set (efField := if Js.truthy (Js.trim (SearchPage.ef f)) then _ else _).
  assert (Hef : match efField with Some e => 0 < e | None => True end).
  { subst efField. destruct (Js.truthy _); [|exact I].
    destruct (Js.parseInt (SearchPage.ef f)) as [e|]; [|exact I].
    destruct (0 <? e) eqn:He; [|exact I]. now apply Z.ltb_lt. }
  clearbody efField.
  destruct (Js.truthy (Js.trim (SearchPage.filter f))) eqn:Ht.
  - destruct (parse (SearchPage.filter f)) as [v|] eqn:Hp; simpl; [|discriminate].
    destruct (SearchPage.isHybrid p).
    + destruct (SearchPage.sparseField _ (SearchPage.sparseIndices f)) as [si|]; simpl;
        [|discriminate].
      destruct (SearchPage.sparseField _ (SearchPage.sparseValues f)) as [sv|]; simpl;
        [|discriminate].
      destruct (SearchPage.sparseCheck si sv) as [[]|]; simpl; [|discriminate].
      intros [= <-]. simpl. repeat split; eauto.
    + intros [= <-]. simpl. repeat split; eauto.
  - simpl. destruct (SearchPage.isHybrid p).
    + destruct (SearchPage.sparseField _ (SearchPage.sparseIndices f)) as [si|]; simpl;
        [|discriminate].
      destruct (SearchPage.sparseField _ (SearchPage.sparseValues f)) as [sv|]; simpl;
        [|discriminate].
      destruct (SearchPage.sparseCheck si sv) as [[]|]; simpl; [|discriminate].
      intros [= <-]. simpl. repeat split; auto; discriminate.
    + intros [= <-]. simpl. repeat split; auto; discriminate.
Qed.

(** X27. A search that the form accepts goes out whole. Once the index is
    obtained, the query sent to the backend carries the vector and k of
    the request, its ef, its sparse fields, the include-vectors flag when
    it is set, and the filter parsed: the adapter parses the trimmed text
    again, and for every text that the page accepted this second parse
    succeeds with the value of the first, so that a filter that was typed
    is never dropped on the way. *)
Theorem accepted_search_goes_out_whole
    (p : SearchPage.Props) (f : SearchPage.Form) (req : Client.SearchRequest)
    (name index : string) (w : Client.World) :
  buildSearchRequest p f = Ok req ->
  Client.getIndex client name = Client.Returned index ->
  exists options,
    Client.calls (Client.searchVectors client name req w).2
    = Client.calls w ++ [Client.GetIndex name; Client.Query index options]
    /\ Client.q_vector options = Client.r_vector req
    /\ Client.topK options = Client.k req
    /\ Client.q_ef options = Client.ef req
    /\ Client.q_filter options
       = (if Js.truthy (Js.trim (SearchPage.filter f))
          then parse (SearchPage.filter f) else None)
    /\ (Js.truthy (Js.trim (SearchPage.filter f)) = true ->
        Client.q_filter options <> None)
    /\ Client.includeVectors options
       = (if SearchPage.includeVectors f then Some true else None)
    /\ Client.q_sparseIndices options = Client.sparse_indices req
    /\ Client.q_sparseValues options = Client.sparse_values req.
Proof.
  intros Hb Hi.
  destruct (request_as_validated p f req Hb) as (Hfilter & Hparse & Hef & Hinc).
  unfold Client.searchVectors. rewrite Hi.
  eexists. split.
  - destruct (Client.query client index _) as [rs|e];
      [|rewrite InsertFacts.handleApiError_calls]; simpl; rewrite <- app_assoc;
      reflexivity.
  - cbn [Client.q_vector Client.topK Client.q_ef Client.q_filter Client.includeVectors
         Client.q_sparseIndices Client.q_sparseValues].
    split; [reflexivity|]. split; [reflexivity|]. split.
    { destruct (Client.ef req) as [e|]; [|reflexivity]. unfold Client.truthyNum.
      assert ((e =? 0) = false) as -> by lia. reflexivity. }
    assert (Hq : (if Js.truthyOpt (Client.r_filter req)
                  then match Client.r_filter req with
                       | Some text => parse text
                       | None => None
                       end
                  else None)
                 = (if Js.truthy (Js.trim (SearchPage.filter f))
                    then parse (SearchPage.filter f) else None)).
    { rewrite Hfilter. destruct (Js.truthy (Js.trim (SearchPage.filter f))) eqn:Ht;
        [|reflexivity].
      simpl. rewrite Ht. destruct (Hparse eq_refl) as [v Hv].
      now rewrite (parse_trim _ v Hv), Hv. }
    rewrite Hq. split; [reflexivity|]. split.
    { intros Ht. rewrite Ht. destruct (Hparse Ht) as [v ->]. discriminate. }
    rewrite Hinc. split; [destruct (SearchPage.includeVectors f); reflexivity|].
    split; reflexivity.
Qed.

End Search.

Lemma accepted_search_goes_out_whole_witness :
  exists options,
    Client.calls
      (Client.searchVectors Example.client "idx"
         (Client.mkSearchRequest (JArray [JNumber "0.1"]) 5 None (Some "[1]")
            (Some false) None None) Example.world).2
    = [Client.GetIndex "idx"; Client.Query "idx" options]
    /\ Client.q_filter options = Some (JArray [JNumber "1"]).
Proof.
  destruct (accepted_search_goes_out_whole Host.exampleSyntaxErrorMessage Example.client
              (Example.searchProps false)
              (SearchPage.mkForm "0.1" EmptyString EmptyString "5" EmptyString " [1] " false)
              (Client.mkSearchRequest (JArray [JNumber "0.1"]) 5 None (Some "[1]")
                 (Some false) None None)
              "idx" "idx" Example.world eq_refl eq_refl)
    as (options & Hc & _ & _ & _ & Hf & _).
  exists options. split; [exact Hc | exact Hf].
Defined.

End TrimFacts.
